(** * Fruit Ninja: a shallow embedding of the simulation core

    The JavaScript sources are embedded function by function.  Numbers
    are JavaScript doubles in the source; here every finite number is an
    exact rational ([Q]) and rounding is not modelled, but for the clock
    of the engine ([GameEngine64]), whose numbers are binary64 values:
    there the rounding decides how many fixed steps run.  The non-finite
    results a division can give ([NaN], [Infinity], [-Infinity]) are
    modelled where the source divides by a quantity that can be zero.

    Calls that leave the program ([performance.now()], [Math.random()],
    the audio manager, the renderer, [localStorage]) are modelled by
    explicit tapes, logs and a storage record carried in the state. *)

From Stdlib Require Import ZArith QArith Qminmax Qround Lia Lqa List Bool.
From Stdlib Require SpecFloat.

From stdpp Require Import base option list strings sorting gmap pretty.

Set Default Proof Using "Type".

(** ** JavaScript numbers *)

Module JS.
Local Open Scope Q_scope.

(** The result of a JavaScript division of two finite numbers. *)
Inductive num : Type :=
| Fin (q : Q)
| PInf
| NInf
| NaN.

(** [a / b] on finite operands: [0/0] is [NaN], [a/0] is an infinity with
    the sign of [a]. *)
Definition div (a b : Q) : num :=
  if Qeq_bool b 0 then
    if Qeq_bool a 0 then NaN
    else if Qle_bool 0 a then PInf else NInf
  else Fin (a / b).

(** [Math.max(0, Math.min(1, t))]: both functions return [NaN] as soon as
    an argument is [NaN]; [None] stands for [NaN]. *)
Definition clamp01 (t : num) : option Q :=
  match t with
  | Fin q => Some (Qmax 0 (Qmin 1 q))
  | PInf => Some 1
  | NInf => Some 0
  | NaN => None
  end.

(** [Math.hypot(a, b) <= r], decided exactly: the square root is not
    rational, so the comparison is made on the squares; [Math.hypot] is
    never negative, so the test fails for a negative [r]. *)
Definition hypot_le (a b r : Q) : bool :=
  Qle_bool 0 r && Qle_bool (a * a + b * b) (r * r).

(** [x < y], [x > y], [x <= y] and [x >= y] on finite numbers. *)
Definition ltb (x y : Q) : bool := negb (Qle_bool y x).
Definition gtb (x y : Q) : bool := negb (Qle_bool x y).
Definition leb (x y : Q) : bool := Qle_bool x y.
Definition geb (x y : Q) : bool := Qle_bool y x.

(** Truthiness of a number that may be [null]: [null] and [0] are falsy. *)
Definition truthy (o : option Q) : bool :=
  match o with
  | Some q => negb (Qeq_bool q 0)
  | None => false
  end.

End JS.

(** ** GameConstants (core/Constants.js) *)

Module GameConstants.
Local Open Scope Q_scope.
Definition GRAVITY : Q := 1000.
Definition CANVAS_OVERFLOW_THRESHOLD : Q := 100.
Definition INITIAL_SPAWN_INTERVAL : Q := 1000.
Definition MIN_SPAWN_INTERVAL : Q := 300.
Definition COMBO_THRESHOLD : Q := 800.
Definition SWIPE_TRAIL_DURATION : Q := 200.
Definition DIFFICULTY_INCREASE_RATE : Q := 10.
Definition SPEED_INCREASE_RATE : Q := 5.
Definition FRUIT_BASE_RADIUS : Q := 30.
Definition FRUIT_RADIUS_VARIATION : Q := 10.
(** [0.15] is the double nearest to 0.15, a rational number. *)
Definition BOMB_CHANCE : Q := 5404319552844595 # 36028797018963968.
Definition SPAWN_CENTER_OFFSET : Q := 200.
Definition SPAWN_VELOCITY_RANGE : Q := 200.
Definition SPAWN_VELOCITY_MIN : Q := 800.
Definition SPAWN_VELOCITY_VARIATION : Q := 200.
Definition SLICE_LIFE_DURATION : Q := 1.
Definition JUICE_PARTICLE_LIFE : Q := 1.
Definition BOMB_EXPLOSION_LIFE : Q := 0.8.
Definition WALL_SPLASH_LIFE : Q := 1.
Definition COMBO_SPLASH_LIFE : Q := 1.
Definition COMBO_SPLASH_Y_POSITION : Q := 150.
(** [Math.PI] is the double nearest to pi, a rational number. *)
Definition Math_PI : Q := 884279719003555 # 281474976710656.
End GameConstants.

(** ** GeometryUtils *)

Module GeometryUtils.
Local Open Scope Q_scope.

(** [lineIntersectsCircle]: the projection and the distance are computed
    exactly and the final comparison is made on the squares; the
    program's rounded distance can fall on the other side of the radius
    when the circle touches the segment. *)
Definition lineIntersectsCircle (x1 y1 x2 y2 cx cy radius : Q) : bool :=
  let dx := x2 - x1 in
  let dy := y2 - y1 in
  let t := JS.div ((cx - x1) * dx + (cy - y1) * dy) (dx * dx + dy * dy) in
  match JS.clamp01 t with
  | Some t =>
      let closestX := x1 + t * dx in
      let closestY := y1 + t * dy in
      JS.hypot_le (closestX - cx) (closestY - cy) radius
  | None => false (* every comparison with NaN is false *)
  end.

(** [distance(x1, y1, x2, y2) <= r]. *)
Definition distance_le (x1 y1 x2 y2 r : Q) : bool :=
  JS.hypot_le (x2 - x1) (y2 - y1) r.

(** [randomRange(min, max)]; [random] is the value of [Math.random()].
    Computed exactly, the result stays below [max] for [random < 1]; the
    program's rounded result can reach [max]. *)
Definition randomRange (random min max : Q) : Q := random * (max - min) + min.

Definition clamp (value min max : Q) : Q := Qmax min (Qmin max value).

Definition lerp (start end_ t : Q) : Q := start + (end_ - start) * t.

Definition isPointInCanvas (x y canvasWidth canvasHeight : Q) : bool :=
  JS.geb x 0 && JS.leb x canvasWidth && JS.geb y 0 && JS.leb y canvasHeight.

Definition isCircleOutsideCanvas
    (x y radius canvasWidth canvasHeight threshold : Q) : bool :=
  JS.ltb (x + radius) (- threshold)
  || JS.gtb (x - radius) (canvasWidth + threshold)
  || JS.ltb (y + radius) (- threshold)
  || JS.gtb (y - radius) (canvasHeight + threshold).

End GeometryUtils.

(** ** Entities

    Every entity extends [GameObject]; the subclass records embed the base
    record in a field [base].  Fields that only the renderer reads
    (colours, shadow settings, text scale, splash radii) are left out. *)

Module GameObject.
Local Open Scope Q_scope.

Record t : Type := mk {
  x : Q; y : Q;
  vx : Q; vy : Q;
  rotation : Q; rotationSpeed : Q;
  life : Q; maxLife : Q;
  isAlive : bool
}.

(** [constructor(x, y, vx, vy)]; [r1] and [r2] are the two values
    [Math.random()] returns. *)
Definition new (r1 r2 : Q) (x y vx vy : Q) : t :=
  {| x := x; y := y; vx := vx; vy := vy;
     rotation := r1 * GameConstants.Math_PI * 2;
     rotationSpeed := (r2 * 2 - 1) * GameConstants.Math_PI;
     life := 1; maxLife := 1; isAlive := true |}.

Definition update (deltaTime : Q) (o : t) : t :=
  let x' := x o + vx o * deltaTime in
  let y' := y o + vy o * deltaTime in
  let vy' := vy o + GameConstants.GRAVITY * deltaTime in
  let rotation' := rotation o + rotationSpeed o * deltaTime in
  if JS.gtb (maxLife o) 0 then
    let life' := life o - deltaTime in
    {| x := x'; y := y'; vx := vx o; vy := vy';
       rotation := rotation'; rotationSpeed := rotationSpeed o;
       life := life'; maxLife := maxLife o;
       isAlive := if JS.leb life' 0 then false else isAlive o |}
  else
    {| x := x'; y := y'; vx := vx o; vy := vy';
       rotation := rotation'; rotationSpeed := rotationSpeed o;
       life := life o; maxLife := maxLife o;
       isAlive := isAlive o |}.

Definition shouldRemove (canvasWidth canvasHeight : Q) (o : t) : bool :=
  negb (isAlive o)
  || JS.gtb (y o) (canvasHeight + GameConstants.CANVAS_OVERFLOW_THRESHOLD).

Definition destroy (o : t) : t :=
  {| x := x o; y := y o; vx := vx o; vy := vy o;
     rotation := rotation o; rotationSpeed := rotationSpeed o;
     life := life o; maxLife := maxLife o;
     isAlive := false |}.

Definition with_life (l ml : Q) (a : bool) (o : t) : t :=
  {| x := x o; y := y o; vx := vx o; vy := vy o;
     rotation := rotation o; rotationSpeed := rotationSpeed o;
     life := l; maxLife := ml; isAlive := a |}.

Definition with_velocity (vx' vy' : Q) (o : t) : t :=
  {| x := x o; y := y o; vx := vx'; vy := vy';
     rotation := rotation o; rotationSpeed := rotationSpeed o;
     life := life o; maxLife := maxLife o; isAlive := isAlive o |}.

End GameObject.

Module Fruit.
Local Open Scope Q_scope.

(** The [type] tag, ["fruit"] or ["bomb"]. *)
Inductive kind : Type := fruit | bomb.

(** The display emoji: one of [FRUIT_EMOJIS] or [BOMB_EMOJI]. *)
Inductive glyph : Type :=
| Apple | Banana | Orange | Grapes | Watermelon | Pineapple | BombGlyph.

Definition FRUIT_EMOJIS : list glyph :=
  [Apple; Banana; Orange; Grapes; Watermelon; Pineapple].

Record t : Type := mk {
  base : GameObject.t;
  type : kind;
  emoji : glyph;
  radius : Q;
  sliced : bool
}.

Record Bounds : Type := {
  left : Q; right : Q; top : Q; bottom : Q
}.

(** [constructor(x, y, vx, vy, type, emoji)]: [r1], [r2] are drawn by the
    base constructor, [r3] for the radius. *)
Definition new (r1 r2 r3 : Q) (x y vx vy : Q) (ty : kind) (e : glyph) : t :=
  {| base := GameObject.new r1 r2 x y vx vy;
     type := ty; emoji := e;
     radius := GameConstants.FRUIT_BASE_RADIUS
               + r3 * GameConstants.FRUIT_RADIUS_VARIATION;
     sliced := false |}.

Definition update (deltaTime : Q) (f : t) : t :=
  let b := GameObject.update deltaTime (base f) in
  {| base := GameObject.with_life (GameObject.maxLife b) (GameObject.maxLife b)
               true b;
     type := type f; emoji := emoji f; radius := radius f;
     sliced := sliced f |}.

Definition shouldRemove (canvasWidth canvasHeight : Q) (f : t) : bool :=
  GeometryUtils.isCircleOutsideCanvas
    (GameObject.x (base f)) (GameObject.y (base f)) (radius f)
    canvasWidth canvasHeight GameConstants.CANVAS_OVERFLOW_THRESHOLD.

Definition containsPoint (px py : Q) (f : t) : bool :=
  GeometryUtils.distance_le
    (GameObject.x (base f)) (GameObject.y (base f)) px py (radius f).

Definition intersectsLine (x1 y1 x2 y2 : Q) (f : t) : bool :=
  GeometryUtils.lineIntersectsCircle x1 y1 x2 y2
    (GameObject.x (base f)) (GameObject.y (base f)) (radius f).

Definition getBounds (f : t) : Bounds :=
  {| left := GameObject.x (base f) - radius f;
     right := GameObject.x (base f) + radius f;
     top := GameObject.y (base f) - radius f;
     bottom := GameObject.y (base f) + radius f |}.

Definition destroy (f : t) : t :=
  {| base := GameObject.destroy (base f);
     type := type f; emoji := emoji f; radius := radius f;
     sliced := sliced f |}.

Definition with_sliced (b : bool) (f : t) : t :=
  {| base := base f; type := type f; emoji := emoji f; radius := radius f;
     sliced := b |}.

End Fruit.

Module FruitSlice.
Local Open Scope Q_scope.

Inductive side : Type := left | right.

Record t : Type := mk {
  base : GameObject.t;
  emoji : Fruit.glyph;
  half : side;
  size : Q
}.

Definition update (deltaTime : Q) (s : t) : t :=
  {| base := GameObject.update deltaTime (base s);
     emoji := emoji s; half := half s; size := size s |}.

Definition shouldRemove (canvasWidth canvasHeight : Q) (s : t) : bool :=
  negb (GameObject.isAlive (base s))
  || JS.gtb (GameObject.y (base s))
       (canvasHeight + GameConstants.CANVAS_OVERFLOW_THRESHOLD)
  || JS.ltb (GameObject.x (base s)) (- GameConstants.CANVAS_OVERFLOW_THRESHOLD)
  || JS.gtb (GameObject.x (base s))
       (canvasWidth + GameConstants.CANVAS_OVERFLOW_THRESHOLD).

Definition destroy (s : t) : t :=
  {| base := GameObject.destroy (base s);
     emoji := emoji s; half := half s; size := size s |}.

End FruitSlice.

Module Particle.
Local Open Scope Q_scope.

(** The [type] tag: ["juice"], ["explosion"], ["wallSplash"], or any other
    string (the constructor's [default] branch). *)
Inductive kind : Type := juice | explosion | wallSplash | other.

Record t : Type := mk {
  base : GameObject.t;
  type : kind;
  radius : Q
}.

Definition update (deltaTime : Q) (p : t) : t :=
  let b := GameObject.update deltaTime (base p) in
  let b' :=
    match type p with
    | juice =>
        GameObject.with_velocity (GameObject.vx b)
          (GameObject.vy b + GameConstants.GRAVITY * deltaTime * 0.5) b
    | wallSplash => GameObject.with_velocity 0 0 b
    | _ => b
    end in
  {| base := b'; type := type p; radius := radius p |}.

Definition shouldRemove (canvasWidth canvasHeight : Q) (p : t) : bool :=
  if negb (GameObject.isAlive (base p)) then true
  else
    match type p with
    | wallSplash => false
    | _ =>
        JS.gtb (GameObject.y (base p))
          (canvasHeight + GameConstants.CANVAS_OVERFLOW_THRESHOLD)
        || JS.ltb (GameObject.x (base p))
             (- GameConstants.CANVAS_OVERFLOW_THRESHOLD)
        || JS.gtb (GameObject.x (base p))
             (canvasWidth + GameConstants.CANVAS_OVERFLOW_THRESHOLD)
    end.

Definition destroy (p : t) : t :=
  {| base := GameObject.destroy (base p); type := type p;
     radius := radius p |}.

End Particle.

Module ComboSplash.
Local Open Scope Q_scope.

Record t : Type := mk {
  base : GameObject.t;
  text : string
}.

(** [update] calls [super.update] and then recomputes [scale], which only
    the renderer reads. *)
Definition update (deltaTime : Q) (c : t) : t :=
  {| base := GameObject.update deltaTime (base c); text := text c |}.

Definition shouldRemove (canvasWidth canvasHeight : Q) (c : t) : bool :=
  negb (GameObject.isAlive (base c)).

Definition destroy (c : t) : t :=
  {| base := GameObject.destroy (base c); text := text c |}.

End ComboSplash.

(** The methods every entity class answers to (dynamic dispatch in the
    source). *)
Class Entity (A : Type) : Type := {
  update : Q -> A -> A;
  shouldRemove : Q -> Q -> A -> bool;
  destroy : A -> A;
  isAlive : A -> bool
}.

#[export] Instance GameObject_Entity : Entity GameObject.t := {|
  update := GameObject.update;
  shouldRemove := GameObject.shouldRemove;
  destroy := GameObject.destroy;
  isAlive := GameObject.isAlive
|}.

#[export] Instance Fruit_Entity : Entity Fruit.t := {|
  update := Fruit.update;
  shouldRemove := Fruit.shouldRemove;
  destroy := Fruit.destroy;
  isAlive := fun f => GameObject.isAlive (Fruit.base f)
|}.

#[export] Instance FruitSlice_Entity : Entity FruitSlice.t := {|
  update := FruitSlice.update;
  shouldRemove := FruitSlice.shouldRemove;
  destroy := FruitSlice.destroy;
  isAlive := fun s => GameObject.isAlive (FruitSlice.base s)
|}.

#[export] Instance Particle_Entity : Entity Particle.t := {|
  update := Particle.update;
  shouldRemove := Particle.shouldRemove;
  destroy := Particle.destroy;
  isAlive := fun p => GameObject.isAlive (Particle.base p)
|}.

#[export] Instance ComboSplash_Entity : Entity ComboSplash.t := {|
  update := ComboSplash.update;
  shouldRemove := ComboSplash.shouldRemove;
  destroy := ComboSplash.destroy;
  isAlive := fun c => GameObject.isAlive (ComboSplash.base c)
|}.

(** ** GameState

    Fruit objects are shared (the [fruits] array, the collision candidates
    and the processed set all hold the same objects), so they live in a
    store and are named by reference. *)

Definition ref : Type := nat.

Record SwipePoint : Type := {
  sp_x : Q; sp_y : Q; sp_t : Q
}.

Record HighScore : Type := {
  hs_score : Z; hs_date : Z
}.

Record ScreenShake : Type := {
  shake_intensity : Q; shake_duration : Q; shake_timeRemaining : Q
}.

Record ScreenFlash : Type := {
  flash_color : string; flash_intensity : Q; flash_duration : Q;
  flash_timeRemaining : Q
}.

(** [localStorage]: the two items the game writes, and whether [setItem]
    throws (storage full or disabled). *)
Module Storage.
Record t : Type := mk {
  bestScore : option Z;
  highScores : option (list HighScore);
  setItemThrows : bool
}.

Definition setBestScore (v : Z) (s : t) : t :=
  if setItemThrows s then s
  else {| bestScore := Some v; highScores := highScores s;
          setItemThrows := setItemThrows s |}.

Definition setHighScores (v : list HighScore) (s : t) : t :=
  if setItemThrows s then s
  else {| bestScore := bestScore s; highScores := Some v;
          setItemThrows := setItemThrows s |}.
End Storage.

(** [Array.prototype.sort((a, b) => b.score - a.score)]: the sort is stable,
    so its result is the one of any stable sort by descending score. *)
Fixpoint insert_desc (e : HighScore) (l : list HighScore) : list HighScore :=
  match l with
  | [] => [e]
  | h :: t =>
      if (hs_score h <=? hs_score e)%Z then e :: h :: t
      else h :: insert_desc e t
  end.

Definition sort_desc (l : list HighScore) : list HighScore :=
  fold_right insert_desc [] l.

Module GameState.
Local Open Scope Q_scope.

Record t : Type := mk {
  score : Z;
  gameOver : bool;
  elapsedTime : Q;
  fruits : list ref;
  slices : list FruitSlice.t;
  bombExplosions : list Particle.t;
  juiceParticles : list Particle.t;
  wallSplashes : list Particle.t;
  comboSplashes : list ComboSplash.t;
  lastTime : option Q;
  lastSpawnTime : Q;
  lastSliceTime : Q;
  lastSwipeSoundTime : Q;
  comboCount : Z;
  spawnInterval : Q;
  lastComboSoundCount : Z;
  swipePoints : list SwipePoint;
  isSwiping : bool;
  bestScore : Z;
  highScores : list HighScore;
  screenShake : option ScreenShake;
  screenFlash : option ScreenFlash
}.

Definition set_score (v : Z) (s : t) : t :=
  {| score := v; gameOver := gameOver s; elapsedTime := elapsedTime s;
     fruits := fruits s; slices := slices s; bombExplosions :=
     bombExplosions s; juiceParticles := juiceParticles s; wallSplashes :=
     wallSplashes s; comboSplashes := comboSplashes s; lastTime :=
     lastTime s; lastSpawnTime := lastSpawnTime s; lastSliceTime :=
     lastSliceTime s; lastSwipeSoundTime := lastSwipeSoundTime s;
     comboCount := comboCount s; spawnInterval := spawnInterval s;
     lastComboSoundCount := lastComboSoundCount s; swipePoints :=
     swipePoints s; isSwiping := isSwiping s; bestScore := bestScore s;
     highScores := highScores s; screenShake := screenShake s; screenFlash
     := screenFlash s |}.

Definition set_gameOver (v : bool) (s : t) : t :=
  {| score := score s; gameOver := v; elapsedTime := elapsedTime s; fruits
     := fruits s; slices := slices s; bombExplosions := bombExplosions s;
     juiceParticles := juiceParticles s; wallSplashes := wallSplashes s;
     comboSplashes := comboSplashes s; lastTime := lastTime s;
     lastSpawnTime := lastSpawnTime s; lastSliceTime := lastSliceTime s;
     lastSwipeSoundTime := lastSwipeSoundTime s; comboCount := comboCount
     s; spawnInterval := spawnInterval s; lastComboSoundCount :=
     lastComboSoundCount s; swipePoints := swipePoints s; isSwiping :=
     isSwiping s; bestScore := bestScore s; highScores := highScores s;
     screenShake := screenShake s; screenFlash := screenFlash s |}.

Definition set_elapsedTime (v : Q) (s : t) : t :=
  {| score := score s; gameOver := gameOver s; elapsedTime := v; fruits :=
     fruits s; slices := slices s; bombExplosions := bombExplosions s;
     juiceParticles := juiceParticles s; wallSplashes := wallSplashes s;
     comboSplashes := comboSplashes s; lastTime := lastTime s;
     lastSpawnTime := lastSpawnTime s; lastSliceTime := lastSliceTime s;
     lastSwipeSoundTime := lastSwipeSoundTime s; comboCount := comboCount
     s; spawnInterval := spawnInterval s; lastComboSoundCount :=
     lastComboSoundCount s; swipePoints := swipePoints s; isSwiping :=
     isSwiping s; bestScore := bestScore s; highScores := highScores s;
     screenShake := screenShake s; screenFlash := screenFlash s |}.

Definition set_fruits (v : list ref) (s : t) : t :=
  {| score := score s; gameOver := gameOver s; elapsedTime := elapsedTime
     s; fruits := v; slices := slices s; bombExplosions := bombExplosions
     s; juiceParticles := juiceParticles s; wallSplashes := wallSplashes
     s; comboSplashes := comboSplashes s; lastTime := lastTime s;
     lastSpawnTime := lastSpawnTime s; lastSliceTime := lastSliceTime s;
     lastSwipeSoundTime := lastSwipeSoundTime s; comboCount := comboCount
     s; spawnInterval := spawnInterval s; lastComboSoundCount :=
     lastComboSoundCount s; swipePoints := swipePoints s; isSwiping :=
     isSwiping s; bestScore := bestScore s; highScores := highScores s;
     screenShake := screenShake s; screenFlash := screenFlash s |}.

Definition set_slices (v : list FruitSlice.t) (s : t) : t :=
  {| score := score s; gameOver := gameOver s; elapsedTime := elapsedTime
     s; fruits := fruits s; slices := v; bombExplosions := bombExplosions
     s; juiceParticles := juiceParticles s; wallSplashes := wallSplashes
     s; comboSplashes := comboSplashes s; lastTime := lastTime s;
     lastSpawnTime := lastSpawnTime s; lastSliceTime := lastSliceTime s;
     lastSwipeSoundTime := lastSwipeSoundTime s; comboCount := comboCount
     s; spawnInterval := spawnInterval s; lastComboSoundCount :=
     lastComboSoundCount s; swipePoints := swipePoints s; isSwiping :=
     isSwiping s; bestScore := bestScore s; highScores := highScores s;
     screenShake := screenShake s; screenFlash := screenFlash s |}.

Definition set_bombExplosions (v : list Particle.t) (s : t) : t :=
  {| score := score s; gameOver := gameOver s; elapsedTime := elapsedTime
     s; fruits := fruits s; slices := slices s; bombExplosions := v;
     juiceParticles := juiceParticles s; wallSplashes := wallSplashes s;
     comboSplashes := comboSplashes s; lastTime := lastTime s;
     lastSpawnTime := lastSpawnTime s; lastSliceTime := lastSliceTime s;
     lastSwipeSoundTime := lastSwipeSoundTime s; comboCount := comboCount
     s; spawnInterval := spawnInterval s; lastComboSoundCount :=
     lastComboSoundCount s; swipePoints := swipePoints s; isSwiping :=
     isSwiping s; bestScore := bestScore s; highScores := highScores s;
     screenShake := screenShake s; screenFlash := screenFlash s |}.

Definition set_juiceParticles (v : list Particle.t) (s : t) : t :=
  {| score := score s; gameOver := gameOver s; elapsedTime := elapsedTime
     s; fruits := fruits s; slices := slices s; bombExplosions :=
     bombExplosions s; juiceParticles := v; wallSplashes := wallSplashes
     s; comboSplashes := comboSplashes s; lastTime := lastTime s;
     lastSpawnTime := lastSpawnTime s; lastSliceTime := lastSliceTime s;
     lastSwipeSoundTime := lastSwipeSoundTime s; comboCount := comboCount
     s; spawnInterval := spawnInterval s; lastComboSoundCount :=
     lastComboSoundCount s; swipePoints := swipePoints s; isSwiping :=
     isSwiping s; bestScore := bestScore s; highScores := highScores s;
     screenShake := screenShake s; screenFlash := screenFlash s |}.

Definition set_wallSplashes (v : list Particle.t) (s : t) : t :=
  {| score := score s; gameOver := gameOver s; elapsedTime := elapsedTime
     s; fruits := fruits s; slices := slices s; bombExplosions :=
     bombExplosions s; juiceParticles := juiceParticles s; wallSplashes :=
     v; comboSplashes := comboSplashes s; lastTime := lastTime s;
     lastSpawnTime := lastSpawnTime s; lastSliceTime := lastSliceTime s;
     lastSwipeSoundTime := lastSwipeSoundTime s; comboCount := comboCount
     s; spawnInterval := spawnInterval s; lastComboSoundCount :=
     lastComboSoundCount s; swipePoints := swipePoints s; isSwiping :=
     isSwiping s; bestScore := bestScore s; highScores := highScores s;
     screenShake := screenShake s; screenFlash := screenFlash s |}.

Definition set_comboSplashes (v : list ComboSplash.t) (s : t) : t :=
  {| score := score s; gameOver := gameOver s; elapsedTime := elapsedTime
     s; fruits := fruits s; slices := slices s; bombExplosions :=
     bombExplosions s; juiceParticles := juiceParticles s; wallSplashes :=
     wallSplashes s; comboSplashes := v; lastTime := lastTime s;
     lastSpawnTime := lastSpawnTime s; lastSliceTime := lastSliceTime s;
     lastSwipeSoundTime := lastSwipeSoundTime s; comboCount := comboCount
     s; spawnInterval := spawnInterval s; lastComboSoundCount :=
     lastComboSoundCount s; swipePoints := swipePoints s; isSwiping :=
     isSwiping s; bestScore := bestScore s; highScores := highScores s;
     screenShake := screenShake s; screenFlash := screenFlash s |}.

Definition set_lastTime (v : option Q) (s : t) : t :=
  {| score := score s; gameOver := gameOver s; elapsedTime := elapsedTime
     s; fruits := fruits s; slices := slices s; bombExplosions :=
     bombExplosions s; juiceParticles := juiceParticles s; wallSplashes :=
     wallSplashes s; comboSplashes := comboSplashes s; lastTime := v;
     lastSpawnTime := lastSpawnTime s; lastSliceTime := lastSliceTime s;
     lastSwipeSoundTime := lastSwipeSoundTime s; comboCount := comboCount
     s; spawnInterval := spawnInterval s; lastComboSoundCount :=
     lastComboSoundCount s; swipePoints := swipePoints s; isSwiping :=
     isSwiping s; bestScore := bestScore s; highScores := highScores s;
     screenShake := screenShake s; screenFlash := screenFlash s |}.

Definition set_lastSpawnTime (v : Q) (s : t) : t :=
  {| score := score s; gameOver := gameOver s; elapsedTime := elapsedTime
     s; fruits := fruits s; slices := slices s; bombExplosions :=
     bombExplosions s; juiceParticles := juiceParticles s; wallSplashes :=
     wallSplashes s; comboSplashes := comboSplashes s; lastTime :=
     lastTime s; lastSpawnTime := v; lastSliceTime := lastSliceTime s;
     lastSwipeSoundTime := lastSwipeSoundTime s; comboCount := comboCount
     s; spawnInterval := spawnInterval s; lastComboSoundCount :=
     lastComboSoundCount s; swipePoints := swipePoints s; isSwiping :=
     isSwiping s; bestScore := bestScore s; highScores := highScores s;
     screenShake := screenShake s; screenFlash := screenFlash s |}.

Definition set_lastSliceTime (v : Q) (s : t) : t :=
  {| score := score s; gameOver := gameOver s; elapsedTime := elapsedTime
     s; fruits := fruits s; slices := slices s; bombExplosions :=
     bombExplosions s; juiceParticles := juiceParticles s; wallSplashes :=
     wallSplashes s; comboSplashes := comboSplashes s; lastTime :=
     lastTime s; lastSpawnTime := lastSpawnTime s; lastSliceTime := v;
     lastSwipeSoundTime := lastSwipeSoundTime s; comboCount := comboCount
     s; spawnInterval := spawnInterval s; lastComboSoundCount :=
     lastComboSoundCount s; swipePoints := swipePoints s; isSwiping :=
     isSwiping s; bestScore := bestScore s; highScores := highScores s;
     screenShake := screenShake s; screenFlash := screenFlash s |}.

Definition set_lastSwipeSoundTime (v : Q) (s : t) : t :=
  {| score := score s; gameOver := gameOver s; elapsedTime := elapsedTime
     s; fruits := fruits s; slices := slices s; bombExplosions :=
     bombExplosions s; juiceParticles := juiceParticles s; wallSplashes :=
     wallSplashes s; comboSplashes := comboSplashes s; lastTime :=
     lastTime s; lastSpawnTime := lastSpawnTime s; lastSliceTime :=
     lastSliceTime s; lastSwipeSoundTime := v; comboCount := comboCount s;
     spawnInterval := spawnInterval s; lastComboSoundCount :=
     lastComboSoundCount s; swipePoints := swipePoints s; isSwiping :=
     isSwiping s; bestScore := bestScore s; highScores := highScores s;
     screenShake := screenShake s; screenFlash := screenFlash s |}.

Definition set_comboCount (v : Z) (s : t) : t :=
  {| score := score s; gameOver := gameOver s; elapsedTime := elapsedTime
     s; fruits := fruits s; slices := slices s; bombExplosions :=
     bombExplosions s; juiceParticles := juiceParticles s; wallSplashes :=
     wallSplashes s; comboSplashes := comboSplashes s; lastTime :=
     lastTime s; lastSpawnTime := lastSpawnTime s; lastSliceTime :=
     lastSliceTime s; lastSwipeSoundTime := lastSwipeSoundTime s;
     comboCount := v; spawnInterval := spawnInterval s;
     lastComboSoundCount := lastComboSoundCount s; swipePoints :=
     swipePoints s; isSwiping := isSwiping s; bestScore := bestScore s;
     highScores := highScores s; screenShake := screenShake s; screenFlash
     := screenFlash s |}.

Definition set_spawnInterval (v : Q) (s : t) : t :=
  {| score := score s; gameOver := gameOver s; elapsedTime := elapsedTime
     s; fruits := fruits s; slices := slices s; bombExplosions :=
     bombExplosions s; juiceParticles := juiceParticles s; wallSplashes :=
     wallSplashes s; comboSplashes := comboSplashes s; lastTime :=
     lastTime s; lastSpawnTime := lastSpawnTime s; lastSliceTime :=
     lastSliceTime s; lastSwipeSoundTime := lastSwipeSoundTime s;
     comboCount := comboCount s; spawnInterval := v; lastComboSoundCount
     := lastComboSoundCount s; swipePoints := swipePoints s; isSwiping :=
     isSwiping s; bestScore := bestScore s; highScores := highScores s;
     screenShake := screenShake s; screenFlash := screenFlash s |}.

Definition set_lastComboSoundCount (v : Z) (s : t) : t :=
  {| score := score s; gameOver := gameOver s; elapsedTime := elapsedTime
     s; fruits := fruits s; slices := slices s; bombExplosions :=
     bombExplosions s; juiceParticles := juiceParticles s; wallSplashes :=
     wallSplashes s; comboSplashes := comboSplashes s; lastTime :=
     lastTime s; lastSpawnTime := lastSpawnTime s; lastSliceTime :=
     lastSliceTime s; lastSwipeSoundTime := lastSwipeSoundTime s;
     comboCount := comboCount s; spawnInterval := spawnInterval s;
     lastComboSoundCount := v; swipePoints := swipePoints s; isSwiping :=
     isSwiping s; bestScore := bestScore s; highScores := highScores s;
     screenShake := screenShake s; screenFlash := screenFlash s |}.

Definition set_swipePoints (v : list SwipePoint) (s : t) : t :=
  {| score := score s; gameOver := gameOver s; elapsedTime := elapsedTime
     s; fruits := fruits s; slices := slices s; bombExplosions :=
     bombExplosions s; juiceParticles := juiceParticles s; wallSplashes :=
     wallSplashes s; comboSplashes := comboSplashes s; lastTime :=
     lastTime s; lastSpawnTime := lastSpawnTime s; lastSliceTime :=
     lastSliceTime s; lastSwipeSoundTime := lastSwipeSoundTime s;
     comboCount := comboCount s; spawnInterval := spawnInterval s;
     lastComboSoundCount := lastComboSoundCount s; swipePoints := v;
     isSwiping := isSwiping s; bestScore := bestScore s; highScores :=
     highScores s; screenShake := screenShake s; screenFlash :=
     screenFlash s |}.

Definition set_isSwiping (v : bool) (s : t) : t :=
  {| score := score s; gameOver := gameOver s; elapsedTime := elapsedTime
     s; fruits := fruits s; slices := slices s; bombExplosions :=
     bombExplosions s; juiceParticles := juiceParticles s; wallSplashes :=
     wallSplashes s; comboSplashes := comboSplashes s; lastTime :=
     lastTime s; lastSpawnTime := lastSpawnTime s; lastSliceTime :=
     lastSliceTime s; lastSwipeSoundTime := lastSwipeSoundTime s;
     comboCount := comboCount s; spawnInterval := spawnInterval s;
     lastComboSoundCount := lastComboSoundCount s; swipePoints :=
     swipePoints s; isSwiping := v; bestScore := bestScore s; highScores
     := highScores s; screenShake := screenShake s; screenFlash :=
     screenFlash s |}.

Definition set_bestScore (v : Z) (s : t) : t :=
  {| score := score s; gameOver := gameOver s; elapsedTime := elapsedTime
     s; fruits := fruits s; slices := slices s; bombExplosions :=
     bombExplosions s; juiceParticles := juiceParticles s; wallSplashes :=
     wallSplashes s; comboSplashes := comboSplashes s; lastTime :=
     lastTime s; lastSpawnTime := lastSpawnTime s; lastSliceTime :=
     lastSliceTime s; lastSwipeSoundTime := lastSwipeSoundTime s;
     comboCount := comboCount s; spawnInterval := spawnInterval s;
     lastComboSoundCount := lastComboSoundCount s; swipePoints :=
     swipePoints s; isSwiping := isSwiping s; bestScore := v; highScores
     := highScores s; screenShake := screenShake s; screenFlash :=
     screenFlash s |}.

Definition set_highScores (v : list HighScore) (s : t) : t :=
  {| score := score s; gameOver := gameOver s; elapsedTime := elapsedTime
     s; fruits := fruits s; slices := slices s; bombExplosions :=
     bombExplosions s; juiceParticles := juiceParticles s; wallSplashes :=
     wallSplashes s; comboSplashes := comboSplashes s; lastTime :=
     lastTime s; lastSpawnTime := lastSpawnTime s; lastSliceTime :=
     lastSliceTime s; lastSwipeSoundTime := lastSwipeSoundTime s;
     comboCount := comboCount s; spawnInterval := spawnInterval s;
     lastComboSoundCount := lastComboSoundCount s; swipePoints :=
     swipePoints s; isSwiping := isSwiping s; bestScore := bestScore s;
     highScores := v; screenShake := screenShake s; screenFlash :=
     screenFlash s |}.

Definition set_screenShake (v : option ScreenShake) (s : t) : t :=
  {| score := score s; gameOver := gameOver s; elapsedTime := elapsedTime
     s; fruits := fruits s; slices := slices s; bombExplosions :=
     bombExplosions s; juiceParticles := juiceParticles s; wallSplashes :=
     wallSplashes s; comboSplashes := comboSplashes s; lastTime :=
     lastTime s; lastSpawnTime := lastSpawnTime s; lastSliceTime :=
     lastSliceTime s; lastSwipeSoundTime := lastSwipeSoundTime s;
     comboCount := comboCount s; spawnInterval := spawnInterval s;
     lastComboSoundCount := lastComboSoundCount s; swipePoints :=
     swipePoints s; isSwiping := isSwiping s; bestScore := bestScore s;
     highScores := highScores s; screenShake := v; screenFlash :=
     screenFlash s |}.

Definition set_screenFlash (v : option ScreenFlash) (s : t) : t :=
  {| score := score s; gameOver := gameOver s; elapsedTime := elapsedTime
     s; fruits := fruits s; slices := slices s; bombExplosions :=
     bombExplosions s; juiceParticles := juiceParticles s; wallSplashes :=
     wallSplashes s; comboSplashes := comboSplashes s; lastTime :=
     lastTime s; lastSpawnTime := lastSpawnTime s; lastSliceTime :=
     lastSliceTime s; lastSwipeSoundTime := lastSwipeSoundTime s;
     comboCount := comboCount s; spawnInterval := spawnInterval s;
     lastComboSoundCount := lastComboSoundCount s; swipePoints :=
     swipePoints s; isSwiping := isSwiping s; bestScore := bestScore s;
     highScores := highScores s; screenShake := screenShake s; screenFlash
     := v |}.

(** [constructor()]; the best score and the high-score table are read
    from [localStorage]: a missing item gives 0 and the empty table.  The
    storage record holds typed values, so an item that does not parse as
    a number or as a list has no counterpart here. *)
Definition new (now : Q) (st : Storage.t) : t :=
  {| score := 0;
     gameOver := false;
     elapsedTime := 0;
     fruits := [];
     slices := [];
     bombExplosions := [];
     juiceParticles := [];
     wallSplashes := [];
     comboSplashes := [];
     lastTime := None;
     lastSpawnTime := now;
     lastSliceTime := 0;
     lastSwipeSoundTime := 0;
     comboCount := 0;
     spawnInterval := GameConstants.INITIAL_SPAWN_INTERVAL;
     lastComboSoundCount := 0;
     swipePoints := [];
     isSwiping := false;
     bestScore := default 0%Z (Storage.bestScore st);
     highScores := default [] (Storage.highScores st);
     screenShake := None;
     screenFlash := None |}.

(** [reset()]; [now] is the value of [performance.now()]. *)
Definition reset (now : Q) (s : t) : t :=
  {| score := 0;
     gameOver := false;
     elapsedTime := 0;
     fruits := [];
     slices := [];
     bombExplosions := [];
     juiceParticles := [];
     wallSplashes := [];
     comboSplashes := [];
     lastTime := None;
     lastSpawnTime := now;
     lastSliceTime := 0;
     lastSwipeSoundTime := 0;
     comboCount := 0;
     spawnInterval := GameConstants.INITIAL_SPAWN_INTERVAL;
     lastComboSoundCount := 0;
     swipePoints := [];
     isSwiping := false;
     bestScore := bestScore s;
     highScores := highScores s;
     screenShake := screenShake s;
     screenFlash := screenFlash s |}.

Definition updateDifficulty (s : t) : t :=
  set_spawnInterval
    (Qmax GameConstants.MIN_SPAWN_INTERVAL
       (GameConstants.INITIAL_SPAWN_INTERVAL
        - elapsedTime s * GameConstants.DIFFICULTY_INCREASE_RATE)) s.

Definition getDifficultySpeedBonus (s : t) : Q :=
  elapsedTime s * GameConstants.SPEED_INCREASE_RATE.

Definition updateComboStatus (now : Q) (s : t) : t :=
  if JS.gtb (now - lastSliceTime s) GameConstants.COMBO_THRESHOLD then
    set_lastComboSoundCount 0 (set_comboCount 0 s)
  else s.

Definition registerSlice (now : Q) (s : t) : t :=
  let s1 :=
    if JS.ltb (now - lastSliceTime s) GameConstants.COMBO_THRESHOLD then
      set_comboCount (comboCount s + 1) s
    else set_comboCount 1 s in
  let s2 := set_lastSliceTime now s1 in
  set_score (score s2 + comboCount s2) s2.

(** [saveHighScore(score)]; [date] is the value of [Date.now()].  The
    body runs inside [try]: only [setItem] can throw, after the list has
    been updated. *)
Definition saveHighScore (date : Z) (sc : Z) (st : Storage.t) (s : t)
    : t * Storage.t :=
  let entry := {| hs_score := sc; hs_date := date |} in
  let pushed := highScores s ++ [entry] in
  let sorted := sort_desc pushed in
  let kept := take 10 sorted in
  (set_highScores kept s, Storage.setHighScores kept st).

Definition triggerGameOver (date : Z) (st : Storage.t) (s : t)
    : t * Storage.t :=
  let s1 := set_gameOver true s in
  let '(s2, st2) :=
    if (bestScore s1 <? score s1)%Z then
      (set_bestScore (score s1) s1, Storage.setBestScore (score s1) st)
    else (s1, st) in
  saveHighScore date (score s2) st2 s2.

Definition getDisplayCombo (s : t) : option Z :=
  if (2 <=? comboCount s)%Z then Some (comboCount s) else None.

End GameState.

(** ** The world: every object the core reads or writes *)

Inductive sound : Type :=
| BombCutSound | FruitCutSound | BombSpawnSound | FruitSpawnSound
| ComboSound.

(** Calls observed from outside, newest first: sounds requested from the
    audio manager, frames requested and rendered, and each call of
    [handleFruitCollision] (with the fruit it was given). *)
Inductive event : Type :=
| EvSound (s : sound)
| EvRequestFrame
| EvRender
| EvHit (r : ref).

(** What [effectsManager.createFruitSliceEffect] may write: the four
    effect collections it adds to (and caps), the combo level it last
    played a sound for, and whether it asks for the combo sound. *)
Record SliceEffect : Type := {
  fx_slices : list FruitSlice.t;
  fx_juiceParticles : list Particle.t;
  fx_wallSplashes : list Particle.t;
  fx_comboSplashes : list ComboSplash.t;
  fx_lastComboSoundCount : Z;
  fx_comboSound : bool
}.

(** What the environment supplies: the successive values of
    [performance.now()], [Date.now()] and [Math.random()], and the outcome
    of the two effect-creation methods of the effects manager, which build
    particles from random angles: the new contents of the collections
    they write, given the fruit, the canvas width and the state. *)
Record Env : Type := {
  performance_now_at : nat -> Q;
  Date_now_at : nat -> Z;
  Math_random_at : nat -> Q;
  createFruitSliceEffect_outcome : Fruit.t -> Q -> GameState.t -> SliceEffect;
  createBombExplosion_outcome : Q -> Q -> GameState.t -> list Particle.t
}.

Record SpawnManagerState : Type := {
  sm_lastSpawnTime : Q;
  spawnTimer : Q;
  baseSpawnRate : Q;
  currentSpawnRate : Q;
  spawnPatternIndex : Z;
  burstSpawnActive : bool;
  burstSpawnCount : Z;
  burstSpawnMax : Z;
  _spawnAccumulator : Q
}.

Definition set_sm_lastSpawnTime (v : Q) (s : SpawnManagerState) : SpawnManagerState :=
  {| sm_lastSpawnTime := v; spawnTimer := spawnTimer s; baseSpawnRate :=
     baseSpawnRate s; currentSpawnRate := currentSpawnRate s;
     spawnPatternIndex := spawnPatternIndex s; burstSpawnActive :=
     burstSpawnActive s; burstSpawnCount := burstSpawnCount s;
     burstSpawnMax := burstSpawnMax s; _spawnAccumulator :=
     _spawnAccumulator s |}.

Definition set_spawnTimer (v : Q) (s : SpawnManagerState) : SpawnManagerState :=
  {| sm_lastSpawnTime := sm_lastSpawnTime s; spawnTimer := v;
     baseSpawnRate := baseSpawnRate s; currentSpawnRate :=
     currentSpawnRate s; spawnPatternIndex := spawnPatternIndex s;
     burstSpawnActive := burstSpawnActive s; burstSpawnCount :=
     burstSpawnCount s; burstSpawnMax := burstSpawnMax s;
     _spawnAccumulator := _spawnAccumulator s |}.

Definition set_baseSpawnRate (v : Q) (s : SpawnManagerState) : SpawnManagerState :=
  {| sm_lastSpawnTime := sm_lastSpawnTime s; spawnTimer := spawnTimer s;
     baseSpawnRate := v; currentSpawnRate := currentSpawnRate s;
     spawnPatternIndex := spawnPatternIndex s; burstSpawnActive :=
     burstSpawnActive s; burstSpawnCount := burstSpawnCount s;
     burstSpawnMax := burstSpawnMax s; _spawnAccumulator :=
     _spawnAccumulator s |}.

Definition set_currentSpawnRate (v : Q) (s : SpawnManagerState) : SpawnManagerState :=
  {| sm_lastSpawnTime := sm_lastSpawnTime s; spawnTimer := spawnTimer s;
     baseSpawnRate := baseSpawnRate s; currentSpawnRate := v;
     spawnPatternIndex := spawnPatternIndex s; burstSpawnActive :=
     burstSpawnActive s; burstSpawnCount := burstSpawnCount s;
     burstSpawnMax := burstSpawnMax s; _spawnAccumulator :=
     _spawnAccumulator s |}.

Definition set_spawnPatternIndex (v : Z) (s : SpawnManagerState) : SpawnManagerState :=
  {| sm_lastSpawnTime := sm_lastSpawnTime s; spawnTimer := spawnTimer s;
     baseSpawnRate := baseSpawnRate s; currentSpawnRate :=
     currentSpawnRate s; spawnPatternIndex := v; burstSpawnActive :=
     burstSpawnActive s; burstSpawnCount := burstSpawnCount s;
     burstSpawnMax := burstSpawnMax s; _spawnAccumulator :=
     _spawnAccumulator s |}.

Definition set_burstSpawnActive (v : bool) (s : SpawnManagerState) : SpawnManagerState :=
  {| sm_lastSpawnTime := sm_lastSpawnTime s; spawnTimer := spawnTimer s;
     baseSpawnRate := baseSpawnRate s; currentSpawnRate :=
     currentSpawnRate s; spawnPatternIndex := spawnPatternIndex s;
     burstSpawnActive := v; burstSpawnCount := burstSpawnCount s;
     burstSpawnMax := burstSpawnMax s; _spawnAccumulator :=
     _spawnAccumulator s |}.

Definition set_burstSpawnCount (v : Z) (s : SpawnManagerState) : SpawnManagerState :=
  {| sm_lastSpawnTime := sm_lastSpawnTime s; spawnTimer := spawnTimer s;
     baseSpawnRate := baseSpawnRate s; currentSpawnRate :=
     currentSpawnRate s; spawnPatternIndex := spawnPatternIndex s;
     burstSpawnActive := burstSpawnActive s; burstSpawnCount := v;
     burstSpawnMax := burstSpawnMax s; _spawnAccumulator :=
     _spawnAccumulator s |}.

Definition set_burstSpawnMax (v : Z) (s : SpawnManagerState) : SpawnManagerState :=
  {| sm_lastSpawnTime := sm_lastSpawnTime s; spawnTimer := spawnTimer s;
     baseSpawnRate := baseSpawnRate s; currentSpawnRate :=
     currentSpawnRate s; spawnPatternIndex := spawnPatternIndex s;
     burstSpawnActive := burstSpawnActive s; burstSpawnCount :=
     burstSpawnCount s; burstSpawnMax := v; _spawnAccumulator :=
     _spawnAccumulator s |}.

Definition set__spawnAccumulator (v : Q) (s : SpawnManagerState) : SpawnManagerState :=
  {| sm_lastSpawnTime := sm_lastSpawnTime s; spawnTimer := spawnTimer s;
     baseSpawnRate := baseSpawnRate s; currentSpawnRate :=
     currentSpawnRate s; spawnPatternIndex := spawnPatternIndex s;
     burstSpawnActive := burstSpawnActive s; burstSpawnCount :=
     burstSpawnCount s; burstSpawnMax := burstSpawnMax s;
     _spawnAccumulator := v |}.

Record CollisionDetectorState : Type := {
  processedCollisions : gset ref;
  lastCollisionTime : Q
}.

Definition set_processedCollisions (v : gset ref) (s : CollisionDetectorState) : CollisionDetectorState :=
  {| processedCollisions := v; lastCollisionTime := lastCollisionTime s |}.

Definition set_lastCollisionTime (v : Q) (s : CollisionDetectorState) : CollisionDetectorState :=
  {| processedCollisions := processedCollisions s; lastCollisionTime := v
     |}.

(** The global objects: the game state, the store of fruit objects with
    the next free reference, the two managers, [localStorage], the canvas
    size, the environment with the number of readings taken from it so
    far, and the trace of observed calls. *)
Record World : Type := {
  gameState : GameState.t;
  heap : gmap ref Fruit.t;
  nextRef : ref;
  spawnManager : SpawnManagerState;
  collisionDetector : CollisionDetectorState;
  localStorage : Storage.t;
  canvasWidth : Q;
  canvasHeight : Q;
  env : Env;
  tick : nat;
  trace : list event
}.

Definition set_gameState (v : GameState.t) (s : World) : World :=
  {| gameState := v; heap := heap s; nextRef := nextRef s; spawnManager :=
     spawnManager s; collisionDetector := collisionDetector s;
     localStorage := localStorage s; canvasWidth := canvasWidth s;
     canvasHeight := canvasHeight s; env := env s; tick := tick s; trace
     := trace s |}.

Definition set_heap (v : gmap ref Fruit.t) (s : World) : World :=
  {| gameState := gameState s; heap := v; nextRef := nextRef s;
     spawnManager := spawnManager s; collisionDetector :=
     collisionDetector s; localStorage := localStorage s; canvasWidth :=
     canvasWidth s; canvasHeight := canvasHeight s; env := env s; tick :=
     tick s; trace := trace s |}.

Definition set_nextRef (v : ref) (s : World) : World :=
  {| gameState := gameState s; heap := heap s; nextRef := v; spawnManager
     := spawnManager s; collisionDetector := collisionDetector s;
     localStorage := localStorage s; canvasWidth := canvasWidth s;
     canvasHeight := canvasHeight s; env := env s; tick := tick s; trace
     := trace s |}.

Definition set_spawnManager (v : SpawnManagerState) (s : World) : World :=
  {| gameState := gameState s; heap := heap s; nextRef := nextRef s;
     spawnManager := v; collisionDetector := collisionDetector s;
     localStorage := localStorage s; canvasWidth := canvasWidth s;
     canvasHeight := canvasHeight s; env := env s; tick := tick s; trace
     := trace s |}.

Definition set_collisionDetector (v : CollisionDetectorState) (s : World) : World :=
  {| gameState := gameState s; heap := heap s; nextRef := nextRef s;
     spawnManager := spawnManager s; collisionDetector := v; localStorage
     := localStorage s; canvasWidth := canvasWidth s; canvasHeight :=
     canvasHeight s; env := env s; tick := tick s; trace := trace s |}.

Definition set_localStorage (v : Storage.t) (s : World) : World :=
  {| gameState := gameState s; heap := heap s; nextRef := nextRef s;
     spawnManager := spawnManager s; collisionDetector :=
     collisionDetector s; localStorage := v; canvasWidth := canvasWidth s;
     canvasHeight := canvasHeight s; env := env s; tick := tick s; trace
     := trace s |}.

Definition set_canvasWidth (v : Q) (s : World) : World :=
  {| gameState := gameState s; heap := heap s; nextRef := nextRef s;
     spawnManager := spawnManager s; collisionDetector :=
     collisionDetector s; localStorage := localStorage s; canvasWidth :=
     v; canvasHeight := canvasHeight s; env := env s; tick := tick s;
     trace := trace s |}.

Definition set_canvasHeight (v : Q) (s : World) : World :=
  {| gameState := gameState s; heap := heap s; nextRef := nextRef s;
     spawnManager := spawnManager s; collisionDetector :=
     collisionDetector s; localStorage := localStorage s; canvasWidth :=
     canvasWidth s; canvasHeight := v; env := env s; tick := tick s; trace
     := trace s |}.

Definition set_env (v : Env) (s : World) : World :=
  {| gameState := gameState s; heap := heap s; nextRef := nextRef s;
     spawnManager := spawnManager s; collisionDetector :=
     collisionDetector s; localStorage := localStorage s; canvasWidth :=
     canvasWidth s; canvasHeight := canvasHeight s; env := v; tick := tick
     s; trace := trace s |}.

Definition set_tick (v : nat) (s : World) : World :=
  {| gameState := gameState s; heap := heap s; nextRef := nextRef s;
     spawnManager := spawnManager s; collisionDetector :=
     collisionDetector s; localStorage := localStorage s; canvasWidth :=
     canvasWidth s; canvasHeight := canvasHeight s; env := env s; tick :=
     v; trace := trace s |}.

Definition set_trace (v : list event) (s : World) : World :=
  {| gameState := gameState s; heap := heap s; nextRef := nextRef s;
     spawnManager := spawnManager s; collisionDetector :=
     collisionDetector s; localStorage := localStorage s; canvasWidth :=
     canvasWidth s; canvasHeight := canvasHeight s; env := env s; tick :=
     tick s; trace := v |}.

Definition performance_now (w : World) : Q * World :=
  (performance_now_at (env w) (tick w), set_tick (S (tick w)) w).

Definition Date_now (w : World) : Z * World :=
  (Date_now_at (env w) (tick w), set_tick (S (tick w)) w).

Definition Math_random (w : World) : Q * World :=
  (Math_random_at (env w) (tick w), set_tick (S (tick w)) w).

Definition emit (e : event) (w : World) : World :=
  set_trace (e :: trace w) w.

Definition modify_gameState (f : GameState.t -> GameState.t) (w : World)
    : World :=
  set_gameState (f (gameState w)) w.

(** [array.length] as a number. *)
Definition len {A : Type} (l : list A) : Q := inject_Z (Z.of_nat (length l)).

(** ** Fruit methods that reach into the world *)

Inductive SliceResult : Type :=
| BombResult (x y : Q)
| FruitResult (x y : Q) (fruit : ref).

Module FruitWorld.
Local Open Scope Q_scope.

(** [fruit.slice()] for the fruit object [r]. *)
Definition slice (r : ref) (w : World) : option SliceResult * World :=
  match heap w !! r with
  | None => (None, w)
  | Some f =>
      if Fruit.sliced f then (None, w)
      else
        let w1 := set_heap (<[r := Fruit.with_sliced true f]> (heap w)) w in
        let '(now, w2) := performance_now w1 in
        let w3 := modify_gameState (GameState.registerSlice now) w2 in
        let px := GameObject.x (Fruit.base f) in
        let py := GameObject.y (Fruit.base f) in
        match Fruit.type f with
        | Fruit.bomb =>
            let w4 := emit (EvSound BombCutSound) w3 in
            let '(date, w5) := Date_now w4 in
            let '(g, st) :=
              GameState.triggerGameOver date (localStorage w5) (gameState w5) in
            (Some (BombResult px py), set_localStorage st (set_gameState g w5))
        | Fruit.fruit =>
            let w4 := emit (EvSound FruitCutSound) w3 in
            (Some (FruitResult px py r), w4)
        end
  end.

(** [Fruit.createRandom(canvasWidth, canvasHeight)].  The sums and
    products are exact; the program's rounded results can reach the upper
    ends of the ranges. *)
Definition createRandom (canvasWidth canvasHeight : Q) (w : World)
    : Fruit.t * World :=
  let '(rBomb, w1) := Math_random w in
  let isBomb := JS.ltb rBomb GameConstants.BOMB_CHANCE in
  let '(emoji, w2) :=
    if isBomb then (Fruit.BombGlyph, w1)
    else
      let '(rE, w') := Math_random w1 in
      (nth (Z.to_nat (Qfloor (rE * len Fruit.FRUIT_EMOJIS)))
         Fruit.FRUIT_EMOJIS Fruit.Apple, w') in
  let '(rX, w3) := Math_random w2 in
  let x := canvasWidth / 2
           + GeometryUtils.randomRange rX
               (- GameConstants.SPAWN_CENTER_OFFSET)
               GameConstants.SPAWN_CENTER_OFFSET in
  let y := canvasHeight + GameConstants.FRUIT_BASE_RADIUS
           + GameConstants.FRUIT_RADIUS_VARIATION in
  let difficultyBonus := GameState.getDifficultySpeedBonus (gameState w3) in
  let '(rVx, w4) := Math_random w3 in
  let vx := GeometryUtils.randomRange rVx
              (- GameConstants.SPAWN_VELOCITY_RANGE / 2)
              (GameConstants.SPAWN_VELOCITY_RANGE / 2) in
  let '(rVy, w5) := Math_random w4 in
  let vy := - (GameConstants.SPAWN_VELOCITY_MIN
               + rVy * GameConstants.SPAWN_VELOCITY_VARIATION
               + difficultyBonus) in
  let '(r1, w6) := Math_random w5 in
  let '(r2, w7) := Math_random w6 in
  let '(r3, w8) := Math_random w7 in
  (Fruit.new r1 r2 r3 x y vx vy
     (if isBomb then Fruit.bomb else Fruit.fruit) emoji, w8).

End FruitWorld.

(** ** EffectsManager *)

Module EffectsManager.
Local Open Scope Q_scope.

(** The body of [for (let i = array.length - 1; i >= 0; i--)]: [n] is
    [i + 1], so the loop starts at [n = array.length] and stops at 0. *)
Fixpoint cullLoop {A : Type} `{Entity A} (deltaTime canvasWidth canvasHeight : Q)
    (n : nat) (array : list A) : list A :=
  match n with
  | O => array
  | S i =>
      match array !! i with
      | Some obj =>
          let obj' := update deltaTime obj in
          let array' := <[i := obj']> array in
          if shouldRemove canvasWidth canvasHeight obj'
          then cullLoop deltaTime canvasWidth canvasHeight i (delete i array')
          else cullLoop deltaTime canvasWidth canvasHeight i array'
      | None => cullLoop deltaTime canvasWidth canvasHeight i array
      end
  end.

Definition updateParticleArray (particleArray : list Particle.t)
    (deltaTime canvasWidth canvasHeight : Q) : list Particle.t :=
  cullLoop deltaTime canvasWidth canvasHeight (length particleArray)
    particleArray.

Definition updateGameObjectArray {A : Type} `{Entity A} (objectArray : list A)
    (deltaTime canvasWidth canvasHeight : Q) : list A :=
  cullLoop deltaTime canvasWidth canvasHeight (length objectArray) objectArray.

Definition updateEffects (deltaTime canvasWidth canvasHeight : Q)
    (g : GameState.t) : GameState.t :=
  let g1 := GameState.set_juiceParticles
              (updateParticleArray (GameState.juiceParticles g)
                 deltaTime canvasWidth canvasHeight) g in
  let g2 := GameState.set_bombExplosions
              (updateParticleArray (GameState.bombExplosions g1)
                 deltaTime canvasWidth canvasHeight) g1 in
  let g3 := GameState.set_wallSplashes
              (updateParticleArray (GameState.wallSplashes g2)
                 deltaTime canvasWidth canvasHeight) g2 in
  let g4 := GameState.set_slices
              (updateGameObjectArray (GameState.slices g3)
                 deltaTime canvasWidth canvasHeight) g3 in
  GameState.set_comboSplashes
    (updateGameObjectArray (GameState.comboSplashes g4)
       deltaTime canvasWidth canvasHeight) g4.

Definition clearAllEffects (g : GameState.t) : GameState.t :=
  GameState.set_comboSplashes []
    (GameState.set_slices []
       (GameState.set_wallSplashes []
          (GameState.set_bombExplosions []
             (GameState.set_juiceParticles [] g)))).

Definition getActiveEffectCount (g : GameState.t) : Q :=
  len (GameState.juiceParticles g)
  + len (GameState.bombExplosions g)
  + len (GameState.wallSplashes g)
  + len (GameState.slices g)
  + len (GameState.comboSplashes g).

Definition createBombExplosion (x y : Q) (w : World) : World :=
  modify_gameState
    (GameState.set_bombExplosions
       (createBombExplosion_outcome (env w) x y (gameState w))) w.

Definition createFruitSliceEffect (fruit : Fruit.t) (canvasWidth : Q)
    (w : World) : World :=
  let fx := createFruitSliceEffect_outcome (env w) fruit canvasWidth
              (gameState w) in
  let w1 := if fx_comboSound fx then emit (EvSound ComboSound) w else w in
  modify_gameState
    (fun g =>
       GameState.set_lastComboSoundCount (fx_lastComboSoundCount fx)
         (GameState.set_comboSplashes (fx_comboSplashes fx)
            (GameState.set_wallSplashes (fx_wallSplashes fx)
               (GameState.set_juiceParticles (fx_juiceParticles fx)
                  (GameState.set_slices (fx_slices fx) g))))) w1.

Definition createScreenShake (intensity duration : Q) (g : GameState.t)
    : GameState.t :=
  GameState.set_screenShake
    (Some {| shake_intensity := intensity; shake_duration := duration;
             shake_timeRemaining := duration |}) g.

Definition createScreenFlash (color : string) (intensity duration : Q)
    (g : GameState.t) : GameState.t :=
  GameState.set_screenFlash
    (Some {| flash_color := color; flash_intensity := intensity;
             flash_duration := duration; flash_timeRemaining := duration |}) g.

End EffectsManager.

(** ** SpawnManager *)

Module SpawnManager.
Local Open Scope Q_scope.

Definition updateDifficulty (w : World) : World :=
  let rate :=
    Qmax GameConstants.MIN_SPAWN_INTERVAL
      (baseSpawnRate (spawnManager w)
       - GameState.elapsedTime (gameState w)
         * GameConstants.DIFFICULTY_INCREASE_RATE) in
  let w1 := set_spawnManager (set_currentSpawnRate rate (spawnManager w)) w in
  modify_gameState (GameState.set_spawnInterval rate) w1.

Definition fruitCap : Q := 18.

Definition spawnItem (w : World) : World :=
  if JS.geb (len (GameState.fruits (gameState w))) fruitCap then w
  else
    let '(fruit, w1) :=
      FruitWorld.createRandom (canvasWidth w) (canvasHeight w) w in
    let r := nextRef w1 in
    let w2 := set_nextRef (S r) (set_heap (<[r := fruit]> (heap w1)) w1) in
    let w3 :=
      modify_gameState
        (fun g => GameState.set_fruits (GameState.fruits g ++ [r]) g) w2 in
    match Fruit.type fruit with
    | Fruit.bomb => emit (EvSound BombSpawnSound) w3
    | Fruit.fruit => emit (EvSound FruitSpawnSound) w3
    end.

(** Burst spawns are disabled: the method returns at once. *)
Definition handleSpecialSpawnPatterns (deltaTime : Q) (w : World) : World := w.

(** The constants [pressure] and [pressureFactor] of [update]. *)
Definition pressure (w : World) : Q :=
  let activeEffects := EffectsManager.getActiveEffectCount (gameState w) in
  let activeFruits := len (GameState.fruits (gameState w)) in
  activeFruits * 2 + activeEffects * 0.25.

Definition pressureFactor (w : World) : Q :=
  if JS.gtb (pressure w) 150 then 2
  else if JS.gtb (pressure w) 100 then 1.5
  else if JS.gtb (pressure w) 60 then 1.25
  else 1.

Definition new : SpawnManagerState :=
  {| sm_lastSpawnTime := 0;
     spawnTimer := 0;
     baseSpawnRate := GameConstants.INITIAL_SPAWN_INTERVAL;
     currentSpawnRate := GameConstants.INITIAL_SPAWN_INTERVAL;
     spawnPatternIndex := 0;
     burstSpawnActive := false;
     burstSpawnCount := 0;
     burstSpawnMax := 3;
     _spawnAccumulator := 0 |}.

Definition update (deltaTime : Q) (w : World) : World :=
  if GameState.gameOver (gameState w) then w
  else
    let w1 :=
      set_spawnManager
        (set_spawnTimer
           (spawnTimer (spawnManager w)
            + deltaTime * 1000 * (1 / pressureFactor w))
           (spawnManager w)) w in
    let w2 := updateDifficulty w1 in
    let w3 :=
      if JS.geb (spawnTimer (spawnManager w2))
                (currentSpawnRate (spawnManager w2))
         && JS.gtb (currentSpawnRate (spawnManager w2)) 0
      then
        let wa := spawnItem w2 in
        let wb := set_spawnManager (set_spawnTimer 0 (spawnManager wa)) wa in
        let '(now, wc) := performance_now wb in
        set_spawnManager (set_sm_lastSpawnTime now (spawnManager wc)) wc
      else w2 in
    handleSpecialSpawnPatterns deltaTime w3.

Definition reset (w : World) : World :=
  let '(now, w1) := performance_now w in
  let m := spawnManager w1 in
  set_spawnManager
    (set_burstSpawnCount 0
       (set_burstSpawnActive false
          (set_spawnPatternIndex 0
             (set_currentSpawnRate (baseSpawnRate m)
                (set_spawnTimer 0 (set_sm_lastSpawnTime now m)))))) w1.


End SpawnManager.

(** ** CollisionDetector *)

Module CollisionDetector.
Local Open Scope Q_scope.

(** Comparisons and updates of the bounding box, whose sides start at
    [Infinity] and [-Infinity]. *)
Definition lt_num (x : Q) (n : JS.num) : bool :=
  match n with
  | JS.Fin m => JS.ltb x m
  | JS.PInf => true
  | JS.NInf | JS.NaN => false
  end.

Definition gt_num (x : Q) (n : JS.num) : bool :=
  match n with
  | JS.Fin m => JS.gtb x m
  | JS.NInf => true
  | JS.PInf | JS.NaN => false
  end.

Definition add_num (n : JS.num) (q : Q) : JS.num :=
  match n with
  | JS.Fin m => JS.Fin (m + q)
  | other => other
  end.

Record Box : Type := {
  minX : JS.num; minY : JS.num; maxX : JS.num; maxY : JS.num
}.

Definition growBox (b : Box) (p : SwipePoint) : Box :=
  {| minX := if lt_num (sp_x p) (minX b) then JS.Fin (sp_x p) else minX b;
     maxX := if gt_num (sp_x p) (maxX b) then JS.Fin (sp_x p) else maxX b;
     minY := if lt_num (sp_y p) (minY b) then JS.Fin (sp_y p) else minY b;
     maxY := if gt_num (sp_y p) (maxY b) then JS.Fin (sp_y p) else maxY b |}.

Definition inflateBox (inflate : Q) (b : Box) : Box :=
  {| minX := add_num (minX b) (- inflate);
     minY := add_num (minY b) (- inflate);
     maxX := add_num (maxX b) inflate;
     maxY := add_num (maxY b) inflate |}.

(** [b.right < minX || b.left > maxX || b.bottom < minY || b.top > maxY] *)
Definition outsideBox (b : Fruit.Bounds) (box : Box) : bool :=
  lt_num (Fruit.right b) (minX box)
  || gt_num (Fruit.left b) (maxX box)
  || lt_num (Fruit.bottom b) (minY box)
  || gt_num (Fruit.top b) (maxY box).

(** The pre-filter loop over [gameState.fruits], from index [i] on; a
    candidate is the pair [{f, i}]. *)
Fixpoint collectCandidates (h : gmap ref Fruit.t) (box : Box) (i : nat)
    (fruits : list ref) : list (ref * nat) :=
  match fruits with
  | [] => []
  | r :: rest =>
      let others := collectCandidates h box (S i) rest in
      match h !! r with
      | Some f =>
          if Fruit.sliced f then others
          else if outsideBox (Fruit.getBounds f) box then others
          else (r, i) :: others
      | None => others
      end
  end.

Definition handleBombExplosion (bomb : Fruit.t) (w : World) : World :=
  let w1 :=
    EffectsManager.createBombExplosion (GameObject.x (Fruit.base bomb))
      (GameObject.y (Fruit.base bomb)) w in
  let w2 := modify_gameState (EffectsManager.createScreenShake 15 0.8) w1 in
  modify_gameState
    (EffectsManager.createScreenFlash "rgba(255,0,0,0.6)"%string 0.8 0.5) w2.

Definition handleFruitSlice (fruit : Fruit.t) (w : World) : World :=
  let w1 := EffectsManager.createFruitSliceEffect fruit (canvasWidth w) w in
  let w2 :=
    modify_gameState
      (EffectsManager.createScreenFlash "rgba(255,50,50,0.2)"%string 0.3 0.2) w1 in
  match GameState.getDisplayCombo (gameState w2) with
  | Some comboCount =>
      if (GameState.lastComboSoundCount (gameState w2) <? comboCount)%Z then
        modify_gameState (GameState.set_lastComboSoundCount comboCount)
          (emit (EvSound ComboSound) w2)
      else w2
  | None => w2
  end.

Definition handleFruitCollision (r : ref) (fruitIndex : nat) (w : World)
    : World :=
  let w1 :=
    set_collisionDetector
      (set_processedCollisions
         ({[r]} ∪ processedCollisions (collisionDetector w))
         (collisionDetector w)) (emit (EvHit r) w) in
  let '(sliceResult, w2) := FruitWorld.slice r w1 in
  let w3 :=
    match sliceResult, heap w2 !! r with
    | Some (BombResult _ _), Some fruit => handleBombExplosion fruit w2
    | Some (FruitResult _ _ _), Some fruit => handleFruitSlice fruit w2
    | _, _ => w2
    end in
  let '(now, w4) := performance_now w3 in
  set_collisionDetector (set_lastCollisionTime now (collisionDetector w4)) w4.

(** The loop over the candidates, from index [c] on. *)
Fixpoint checkLineSegmentCollisionsForCandidates (x1 y1 x2 y2 : Q) (c : nat)
    (candidates : list (ref * nat)) (w : World) : World :=
  match candidates with
  | [] => w
  | (r, _) :: rest =>
      let w' :=
        match heap w !! r with
        | Some fruit =>
            if Fruit.sliced fruit
               || bool_decide (r ∈ processedCollisions (collisionDetector w))
            then w
            else if Fruit.intersectsLine x1 y1 x2 y2 fruit
            then handleFruitCollision r c w
            else w
        | None => w
        end in
      checkLineSegmentCollisionsForCandidates x1 y1 x2 y2 (S c) rest w'
  end.

(** The loop over the tested segments: consecutive points of the tail of
    the trail. *)
Fixpoint checkSegments (points : list SwipePoint)
    (candidates : list (ref * nat)) (w : World) : World :=
  match points with
  | p1 :: ((p2 :: _) as rest) =>
      checkSegments rest candidates
        (checkLineSegmentCollisionsForCandidates
           (sp_x p1) (sp_y p1) (sp_x p2) (sp_y p2) 0 candidates w)
  | _ => w
  end.

Definition K : nat := 6.

Definition checkSwipeCollisions (w : World) : World :=
  let swipePoints := GameState.swipePoints (gameState w) in
  if (length swipePoints <? 2)%nat then w
  else
    (* Math.max(0, length - (K + 1)): subtraction on nat stops at 0 *)
    let start := (length swipePoints - (K + 1))%nat in
    let tested := drop start swipePoints in
    let box0 := {| minX := JS.PInf; minY := JS.PInf;
                   maxX := JS.NInf; maxY := JS.NInf |} in
    let box := inflateBox 80 (fold_left growBox tested box0) in
    let candidates :=
      collectCandidates (heap w) box 0 (GameState.fruits (gameState w)) in
    checkSegments tested candidates w.

Definition update (w : World) : World :=
  let w1 :=
    set_collisionDetector
      (set_processedCollisions ∅ (collisionDetector w)) w in
  if negb (GameState.isSwiping (gameState w1))
     || (length (GameState.swipePoints (gameState w1)) <? 2)%nat
  then w1
  else checkSwipeCollisions w1.

Definition new : CollisionDetectorState :=
  {| processedCollisions := ∅; lastCollisionTime := 0 |}.

Definition reset (w : World) : World :=
  set_collisionDetector
    {| processedCollisions := ∅; lastCollisionTime := 0 |} w.

End CollisionDetector.

(** ** UIManager: the part of [update()] that writes the game state (the
    rest writes the page). *)

Module UIManager.
Local Open Scope Q_scope.

Definition updateScreenEffects (g : GameState.t) : GameState.t :=
  let g1 :=
    match GameState.screenShake g with
    | Some sh =>
        if JS.gtb (shake_timeRemaining sh) 0 then
          let remaining := shake_timeRemaining sh - 1 / 60 in
          if JS.leb remaining 0 then GameState.set_screenShake None g
          else
            GameState.set_screenShake
              (Some {| shake_intensity := shake_intensity sh;
                       shake_duration := shake_duration sh;
                       shake_timeRemaining := remaining |}) g
        else g
    | None => g
    end in
  match GameState.screenFlash g1 with
  | Some fl =>
      if JS.gtb (flash_timeRemaining fl) 0 then
        let remaining := flash_timeRemaining fl - 1 / 60 in
        if JS.leb remaining 0 then GameState.set_screenFlash None g1
        else
          GameState.set_screenFlash
            (Some {| flash_color := flash_color fl;
                     flash_intensity := flash_intensity fl;
                     flash_duration := flash_duration fl;
                     flash_timeRemaining := remaining |}) g1
      else g1
  | None => g1
  end.

(** [update()]: of its three calls only [updateScreenEffects] writes
    state that is modelled.  [updateScore] and [updateGameOverScreen]
    write to the page; the game-over sound that the latter asks for when
    it shows the screen is not in the trace. *)
Definition update (w : World) : World := modify_gameState updateScreenEffects w.

End UIManager.

(** ** GameEngine *)

Record GameEngineState : Type := {
  isRunning : bool;
  isPaused : bool;
  lastFrameTime : option Q;
  frameCount : nat;
  debugMode : bool;
  gameOverLogged : bool;
  _accumulator : Q;
  _fixedDelta : Q
}.

Definition set_isRunning (v : bool) (s : GameEngineState) : GameEngineState :=
  {| isRunning := v; isPaused := isPaused s; lastFrameTime :=
     lastFrameTime s; frameCount := frameCount s; debugMode := debugMode
     s; gameOverLogged := gameOverLogged s; _accumulator := _accumulator
     s; _fixedDelta := _fixedDelta s |}.

Definition set_isPaused (v : bool) (s : GameEngineState) : GameEngineState :=
  {| isRunning := isRunning s; isPaused := v; lastFrameTime :=
     lastFrameTime s; frameCount := frameCount s; debugMode := debugMode
     s; gameOverLogged := gameOverLogged s; _accumulator := _accumulator
     s; _fixedDelta := _fixedDelta s |}.

Definition set_lastFrameTime (v : option Q) (s : GameEngineState) : GameEngineState :=
  {| isRunning := isRunning s; isPaused := isPaused s; lastFrameTime := v;
     frameCount := frameCount s; debugMode := debugMode s; gameOverLogged
     := gameOverLogged s; _accumulator := _accumulator s; _fixedDelta :=
     _fixedDelta s |}.

Definition set_frameCount (v : nat) (s : GameEngineState) : GameEngineState :=
  {| isRunning := isRunning s; isPaused := isPaused s; lastFrameTime :=
     lastFrameTime s; frameCount := v; debugMode := debugMode s;
     gameOverLogged := gameOverLogged s; _accumulator := _accumulator s;
     _fixedDelta := _fixedDelta s |}.

Definition set_debugMode (v : bool) (s : GameEngineState) : GameEngineState :=
  {| isRunning := isRunning s; isPaused := isPaused s; lastFrameTime :=
     lastFrameTime s; frameCount := frameCount s; debugMode := v;
     gameOverLogged := gameOverLogged s; _accumulator := _accumulator s;
     _fixedDelta := _fixedDelta s |}.

Definition set_gameOverLogged (v : bool) (s : GameEngineState) : GameEngineState :=
  {| isRunning := isRunning s; isPaused := isPaused s; lastFrameTime :=
     lastFrameTime s; frameCount := frameCount s; debugMode := debugMode
     s; gameOverLogged := v; _accumulator := _accumulator s; _fixedDelta
     := _fixedDelta s |}.

Definition set__accumulator (v : Q) (s : GameEngineState) : GameEngineState :=
  {| isRunning := isRunning s; isPaused := isPaused s; lastFrameTime :=
     lastFrameTime s; frameCount := frameCount s; debugMode := debugMode
     s; gameOverLogged := gameOverLogged s; _accumulator := v; _fixedDelta
     := _fixedDelta s |}.

Definition set__fixedDelta (v : Q) (s : GameEngineState) : GameEngineState :=
  {| isRunning := isRunning s; isPaused := isPaused s; lastFrameTime :=
     lastFrameTime s; frameCount := frameCount s; debugMode := debugMode
     s; gameOverLogged := gameOverLogged s; _accumulator := _accumulator
     s; _fixedDelta := v |}.

Module GameEngine.
Local Open Scope Q_scope.

Definition new : GameEngineState :=
  {| isRunning := false;
     isPaused := false;
     lastFrameTime := None;
     frameCount := 0;
     debugMode := false;
     gameOverLogged := false;
     _accumulator := 0;
     _fixedDelta := 1 / 120 |}.

Definition updateGameState (deltaTime : Q) (w : World) : World :=
  modify_gameState
    (fun g => GameState.set_elapsedTime (GameState.elapsedTime g + deltaTime) g)
    w.

(** The loop of [updateFruits], with [n = i + 1]; the fruit objects are
    updated in the store, removed fruits leave the array only. *)
Fixpoint updateFruitsLoop (deltaTime : Q) (n : nat) (w : World) : World :=
  match n with
  | O => w
  | S i =>
      match GameState.fruits (gameState w) !! i with
      | Some r =>
          match heap w !! r with
          | Some fruit =>
              let fruit' := Fruit.update deltaTime fruit in
              let w1 := set_heap (<[r := fruit']> (heap w)) w in
              if Fruit.shouldRemove (canvasWidth w1) (canvasHeight w1) fruit'
              then
                updateFruitsLoop deltaTime i
                  (modify_gameState
                     (fun g =>
                        GameState.set_fruits (delete i (GameState.fruits g)) g)
                     w1)
              else updateFruitsLoop deltaTime i w1
          | None => updateFruitsLoop deltaTime i w
          end
      | None => updateFruitsLoop deltaTime i w
      end
  end.

Definition updateFruits (deltaTime : Q) (w : World) : World :=
  updateFruitsLoop deltaTime (length (GameState.fruits (gameState w))) w.

Definition update (deltaTime : Q) (w : World) : World :=
  let w0 :=
    let pts := GameState.swipePoints (gameState w) in
    if (20 <? length pts)%nat then
      modify_gameState
        (GameState.set_swipePoints (drop (length pts - 20) pts)) w
    else w in
  let w1 := updateGameState deltaTime w0 in
  let w2 := SpawnManager.update deltaTime w1 in
  let w3 := updateFruits deltaTime w2 in
  let w4 :=
    modify_gameState
      (EffectsManager.updateEffects deltaTime (canvasWidth w3)
         (canvasHeight w3)) w3 in
  let w5 := CollisionDetector.update w4 in
  let w6 := UIManager.update w5 in
  let w7 := modify_gameState GameState.updateDifficulty w6 in
  let '(now, w8) := performance_now w7 in
  modify_gameState (GameState.updateComboStatus now) w8.

Definition render (w : World) : World := emit EvRender w.

Definition stopGame (e : GameEngineState) : GameEngineState :=
  set_isPaused false (set_isRunning false e).

Definition pauseGame (e : GameEngineState) : GameEngineState :=
  if negb (isRunning e) then e else set_isPaused true e.

Definition resumeGame (e : GameEngineState) : GameEngineState :=
  if negb (isRunning e) then e
  else set_lastFrameTime None (set_isPaused false e).

Definition handleGameOver (e : GameEngineState) (w : World)
    : GameEngineState * World :=
  let e1 := if negb (gameOverLogged e) then set_gameOverLogged true e else e in
  let lastBomb :=
    find
      (fun r =>
         match heap w !! r with
         | Some f =>
             match Fruit.type f with
             | Fruit.bomb => Fruit.sliced f
             | Fruit.fruit => false
             end
         | None => false
         end)
      (GameState.fruits (gameState w)) in
  let w1 :=
    match lastBomb with
    | Some _ => modify_gameState (EffectsManager.createScreenShake 20 1) w
    | None => w
    end in
  (stopGame e1, w1).

(** The [while] loop of [gameLoop]; [fuel] is [maxIterations - iterations]
    and the result is the accumulator and the world after the loop.  The
    accumulator is an exact rational here, so the number of steps can
    differ from the program's; [GameEngine64.fixedSteps] below is the
    loop on binary64 values. *)
Fixpoint fixedSteps (fuel : nat) (step accumulator : Q) (w : World)
    : Q * World :=
  match fuel with
  | O => (accumulator, w)
  | S fuel' =>
      if JS.geb accumulator step then
        fixedSteps fuel' step (accumulator - step) (update step w)
      else (accumulator, w)
  end.

Definition maxIterations : nat := 8.

(** [gameLoop(timestamp)].  The frame-time history and the [fps] estimate
    kept by [updatePerformanceMetrics] are not modelled. *)
Definition gameLoop (timestamp : Q) (e : GameEngineState) (w : World)
    : GameEngineState * World :=
  let w0 := if isRunning e then emit EvRequestFrame w else w in
  if isPaused e then (e, w0)
  else if negb (JS.truthy (lastFrameTime e)) then
    (set_lastFrameTime (Some timestamp) e, w0)
  else
    let last := default 0 (lastFrameTime e) in
    let deltaTime := (timestamp - last) / 1000 in
    let e1 := set_lastFrameTime (Some timestamp) e in
    let deltaTime := Qmin deltaTime (1 / 15) in
    let step := _fixedDelta e1 in
    let '(acc, w1) :=
      fixedSteps maxIterations step (_accumulator e1 + deltaTime) w0 in
    let e2 := set__accumulator acc e1 in
    let w2 := render w1 in
    let '(e3, w3) :=
      if GameState.gameOver (gameState w2) && isRunning e2
      then handleGameOver e2 w2
      else (e2, w2) in
    (set_frameCount (S (frameCount e3)) e3, w3).

(** [resetAllSystems()]; [inputManager.reset()] clears the trail. *)
Definition resetAllSystems (e : GameEngineState) (w : World)
    : GameEngineState * World :=
  let '(now, w1) := performance_now w in
  let w2 := modify_gameState (GameState.reset now) w1 in
  let w3 := SpawnManager.reset w2 in
  let w4 := CollisionDetector.reset w3 in
  let w5 := modify_gameState EffectsManager.clearAllEffects w4 in
  let w6 :=
    modify_gameState
      (fun g => GameState.set_isSwiping false (GameState.set_swipePoints [] g))
      w5 in
  (set_gameOverLogged false e, w6).

Definition startGame (e : GameEngineState) (w : World)
    : GameEngineState * World :=
  if isRunning e then (e, w)
  else
    let '(e1, w1) := resetAllSystems e w in
    let e2 :=
      set_lastFrameTime None
        (set_isPaused false (set_isRunning true (set__accumulator 0 e1))) in
    (e2, emit EvRequestFrame w1).

End GameEngine.

(** ** The clock of the engine in binary64

    [GameEngine.gameLoop] keeps the time stamps, the accumulator and the
    step as exact rationals.  That is enough wherever the number of fixed
    steps is left open, but the number itself depends on the rounding of
    the accumulator: with the baseline at 1000 ms and callbacks at 1015,
    1020 and 1025 ms the program runs two steps where exact arithmetic
    gives three.  Here the three numbers are binary64 values with the
    operations of the Standard Library's [SpecFloat]; the flags and the
    frame counter are those of [GameEngineState], whose three numbers are
    neither read nor written. *)

Module B64.

Definition prec : Z := 53.
Definition emax : Z := 1024.

Definition t : Type := SpecFloat.spec_float.

Definition NaN : t := SpecFloat.S754_nan.
Definition zero : t := SpecFloat.S754_zero false.

(** A number literal that is an integer. *)
Definition ofZ (z : Z) : t := SpecFloat.binary_normalize prec emax z 0 false.

Definition add : t -> t -> t := SpecFloat.SFadd prec emax.
Definition sub : t -> t -> t := SpecFloat.SFsub prec emax.
Definition div : t -> t -> t := SpecFloat.SFdiv prec emax.

(** [x <= y] and [x >= y]: [false] as soon as an operand is [NaN]. *)
Definition leb (x y : t) : bool := SpecFloat.SFleb x y.
Definition geb (x y : t) : bool := SpecFloat.SFleb y x.

Definition isNaN (x : t) : bool :=
  match x with
  | SpecFloat.S754_nan => true
  | _ => false
  end.

(** [Math.min(x, y)]: [NaN] as soon as an operand is [NaN], and [-0] is
    below [+0]. *)
Definition min (x y : t) : t :=
  match SpecFloat.SFcompare x y with
  | Some Lt => x
  | Some Gt => y
  | Some Eq =>
      match x with
      | SpecFloat.S754_zero true => x
      | _ => y
      end
  | None => NaN
  end.

(** A number is truthy unless it is a zero or [NaN]. *)
Definition truthy (x : t) : bool :=
  match x with
  | SpecFloat.S754_zero _ | SpecFloat.S754_nan => false
  | _ => true
  end.

(** The value of a finite number; only finite numbers are converted. *)
Definition toQ (x : t) : Q :=
  match x with
  | SpecFloat.S754_finite s m e =>
      let v :=
        match e with
        | Z0 => inject_Z (Zpos m)
        | Zpos p => inject_Z (Zpos m * 2 ^ Zpos p)
        | Zneg p => Zpos m # 2 ^ p
        end in
      if s then - v else v
  | _ => 0
  end.

End B64.

Module GameEngine64.

Record Clock : Type := {
  lastFrameTime : option B64.t;
  _accumulator : B64.t
}.

(** [this._fixedDelta = 1/120], written by the constructor only. *)
Definition _fixedDelta : B64.t := B64.div (B64.ofZ 1) (B64.ofZ 120).

(** The constructor: [lastFrameTime = null], [_accumulator = 0]. *)
Definition new : Clock := {| lastFrameTime := None; _accumulator := B64.zero |}.

(** [!this.lastFrameTime] is [false]. *)
Definition truthy (v : option B64.t) : bool :=
  match v with
  | Some x => B64.truthy x
  | None => false
  end.

Definition resumeGame (c : Clock) (e : GameEngineState)
    : Clock * GameEngineState :=
  if negb (isRunning e) then (c, e)
  else ({| lastFrameTime := None; _accumulator := _accumulator c |},
        GameEngine.resumeGame e).

Definition startGame (c : Clock) (e : GameEngineState) (w : World)
    : Clock * GameEngineState * World :=
  if isRunning e then (c, e, w)
  else
    let '(e1, w1) := GameEngine.startGame e w in
    ({| lastFrameTime := None; _accumulator := B64.zero |}, e1, w1).

(** The [while] loop of [gameLoop]; [fuel] is [maxIterations - iterations].
    The step handed to [update] is the value of the binary64 step. *)
Fixpoint fixedSteps (fuel : nat) (step accumulator : B64.t) (w : World)
    : B64.t * World :=
  match fuel with
  | O => (accumulator, w)
  | S fuel' =>
      if B64.geb accumulator step then
        fixedSteps fuel' step (B64.sub accumulator step)
          (GameEngine.update (B64.toQ step) w)
      else (accumulator, w)
  end.

(** [gameLoop(timestamp)].  The frame-time history and the [fps] estimate
    kept by [updatePerformanceMetrics] are not modelled. *)
Definition gameLoop (timestamp : B64.t) (c : Clock) (e : GameEngineState)
    (w : World) : Clock * GameEngineState * World :=
  let w0 := if isRunning e then emit EvRequestFrame w else w in
  if isPaused e then (c, e, w0)
  else if negb (truthy (lastFrameTime c)) then
    ({| lastFrameTime := Some timestamp; _accumulator := _accumulator c |},
     e, w0)
  else
    let last := default B64.zero (lastFrameTime c) in
    let deltaTime := B64.div (B64.sub timestamp last) (B64.ofZ 1000) in
    let deltaTime := B64.min deltaTime (B64.div (B64.ofZ 1) (B64.ofZ 15)) in
    let step := _fixedDelta in
    let '(acc, w1) :=
      fixedSteps GameEngine.maxIterations step
        (B64.add (_accumulator c) deltaTime) w0 in
    let c2 := {| lastFrameTime := Some timestamp; _accumulator := acc |} in
    let w2 := GameEngine.render w1 in
    let '(e3, w3) :=
      if GameState.gameOver (gameState w2) && isRunning e
      then GameEngine.handleGameOver e w2
      else (e, w2) in
    (c2, set_frameCount (S (frameCount e3)) e3, w3).

(** A run of callbacks with the time stamps [ts], oldest first. *)
Definition callbacks (ts : list B64.t)
    (s : Clock * GameEngineState * World) : Clock * GameEngineState * World :=
  fold_left
    (fun s timestamp => gameLoop timestamp (fst (fst s)) (snd (fst s)) (snd s))
    ts s.

End GameEngine64.

(** ** Reading the trace *)

(** The fruits handed to [handleFruitCollision], newest first. *)
Definition hitsOf (tr : list event) : list ref :=
  omap (fun e => match e with EvHit r => Some r | _ => None end) tr.

(** The sounds requested, newest first. *)
Definition soundsOf (tr : list event) : list sound :=
  omap (fun e => match e with EvSound s => Some s | _ => None end) tr.

(** The number of frames rendered. *)
Definition rendersOf (tr : list event) : nat :=
  length (List.filter (fun e => match e with EvRender => true | _ => false end)
            tr).

(** ** A concrete world, for examples

    An 800 x 600 canvas, a clock that advances 1 ms per reading, a random
    source stuck at 1/2, effect methods that add nothing, and a fresh game
    state with an empty, writable storage. *)

Module Demo.
Local Open Scope Q_scope.

Definition environment : Env :=
  {| performance_now_at := fun n => inject_Z (Z.of_nat n);
     Date_now_at := fun n => Z.of_nat n;
     Math_random_at := fun _ => 1 / 2;
     createFruitSliceEffect_outcome :=
       fun _ _ g =>
         {| fx_slices := GameState.slices g;
            fx_juiceParticles := GameState.juiceParticles g;
            fx_wallSplashes := GameState.wallSplashes g;
            fx_comboSplashes := GameState.comboSplashes g;
            fx_lastComboSoundCount := GameState.lastComboSoundCount g;
            fx_comboSound := false |};
     createBombExplosion_outcome := fun _ _ g => GameState.bombExplosions g |}.

Definition storage : Storage.t :=
  {| Storage.bestScore := None; Storage.highScores := None;
     Storage.setItemThrows := false |}.

Definition world : World :=
  {| gameState := GameState.new 0 storage;
     heap := ∅;
     nextRef := 0%nat;
     spawnManager := SpawnManager.new;
     collisionDetector := CollisionDetector.new;
     localStorage := storage;
     canvasWidth := 800;
     canvasHeight := 600;
     env := environment;
     tick := 0%nat;
     trace := [] |}.

(** A fruit or bomb of radius 30 at rest at [(x, y)]. *)
Definition fruitAt (k : Fruit.kind) (x y : Q) : Fruit.t :=
  {| Fruit.base :=
       {| GameObject.x := x; GameObject.y := y;
          GameObject.vx := 0; GameObject.vy := 0;
          GameObject.rotation := 0; GameObject.rotationSpeed := 0;
          GameObject.life := 1; GameObject.maxLife := 1;
          GameObject.isAlive := true |};
     Fruit.type := k;
     Fruit.emoji :=
       match k with Fruit.bomb => Fruit.BombGlyph | Fruit.fruit => Fruit.Apple end;
     Fruit.radius := 30;
     Fruit.sliced := false |}.

(** The demo world with one more fruit object in the [fruits] array. *)
Definition withFruit (f : Fruit.t) (w : World) : World :=
  let r := nextRef w in
  modify_gameState
    (fun g => GameState.set_fruits (GameState.fruits g ++ [r]) g)
    (set_nextRef (S r) (set_heap (<[r := f]> (heap w)) w)).

(** A started engine whose time baseline is 1000 ms, and the world that
    [startGame] leaves. *)
Definition engine : GameEngineState :=
  set_lastFrameTime (Some 1000) (fst (GameEngine.startGame GameEngine.new world)).

Definition started : World := snd (GameEngine.startGame GameEngine.new world).

(** The clock of the started engine, with the baseline at 1000 ms. *)
Definition clock : GameEngine64.Clock :=
  {| GameEngine64.lastFrameTime := Some (B64.ofZ 1000);
     GameEngine64._accumulator := B64.zero |}.

(** The demo world with an active swipe through the given points. *)
Definition withSwipe (pts : list (Q * Q)) (w : World) : World :=
  modify_gameState
    (fun g =>
       GameState.set_isSwiping true
         (GameState.set_swipePoints
            (map (fun p => {| sp_x := fst p; sp_y := snd p; sp_t := 0 |}) pts)
            g)) w.

(** A started world with a bomb far below the canvas, a fruit in the
    middle of it and a spawn timer that the next step brings past the
    spawn interval. *)
Definition busy : World :=
  let w :=
    Demo.withFruit (Demo.fruitAt Fruit.fruit 400 300)
      (Demo.withFruit (Demo.fruitAt Fruit.bomb 400 2000) Demo.started) in
  set_spawnManager (set_spawnTimer 995 (spawnManager w)) w.

End Demo.

(** ** Vocabulary of the properties *)

Module Vocabulary.
Local Open Scope Q_scope.

(** The squared distance from the centre [(cx, cy)] to the point of
    parameter [s] on the segment from [(x1, y1)] to [(x2, y2)]. *)
Definition dist2 (x1 y1 x2 y2 cx cy s : Q) : Q :=
  (x1 + s * (x2 - x1) - cx) * (x1 + s * (x2 - x1) - cx)
  + (y1 + s * (y2 - y1) - cy) * (y1 + s * (y2 - y1) - cy).

(** Descending by score. *)
Definition desc (a b : HighScore) : Prop := (hs_score b <= hs_score a)%Z.

(** What a cull loop is meant to compute: every entity is updated, those
    that should be removed are dropped, the order is kept. *)
Definition culled {A : Type} `{Entity A} (dt w h : Q) (l : list A) : list A :=
  List.filter (fun a => negb (shouldRemove w h a)) (map (update dt) l).

(** An entity class whose [update] never revives and whose [shouldRemove]
    answers [true] for an entity that is not alive. *)
Class Mortal (A : Type) `{Entity A} : Prop := {
  update_dead :
    forall dt (a : A), isAlive a = false -> isAlive (update dt a) = false;
  dead_removed :
    forall w h (a : A), isAlive a = false -> shouldRemove w h a = true
}.

(** [w'] has the trace of [w] with the events [evs] in front. *)
Definition since (w w' : World) (evs : list event) : Prop :=
  trace w' = evs ++ trace w.

(** The state the two collision loops keep: since the set was cleared,
    the fruits hit are exactly those in the processed set, each once. *)
Definition hit_invariant (w0 w : World) : Prop :=
  exists evs,
    since w0 w evs /\ NoDup (hitsOf evs) /\ rendersOf evs = 0%nat
    /\ forall r, r ∈ hitsOf evs <-> r ∈ processedCollisions (collisionDetector w).

(** [w'] has the trace of [w] with more events in front, none of them a
    render. *)
Definition no_render (w w' : World) : Prop :=
  exists evs, since w w' evs /\ rendersOf evs = 0%nat.

(** A count as a number. *)
Definition ofNat (n : nat) : Q := inject_Z (Z.of_nat n).

End Vocabulary.

(** ** Methods outside the fixed step

    More of the classes above: [randomInt] and [getAlpha], the input
    handlers, the queries of the collision detector, and the factory
    methods that draw no angle. *)

Module MoreConstants.
Local Open Scope Q_scope.
Definition SWIPE_SOUND_COOLDOWN : Q := 150.
Definition SLICE_SEPARATION_FORCE : Q := 50.
Definition SLICE_SEPARATION_VARIATION : Q := 50.
Definition SLICE_ROTATION_MODIFIER : Q := 2.
End MoreConstants.

Module GeometryHelpers.
Local Open Scope Q_scope.

(** [randomInt(min, max)]; [random] is the value of [Math.random()]. *)
Definition randomInt (random min max : Q) : Q :=
  inject_Z (Qfloor (random * (max - min + 1))) + min.

End GeometryHelpers.

Module GameObjectMethods.
Local Open Scope Q_scope.

Definition getAlpha (o : GameObject.t) : Q :=
  if JS.gtb (GameObject.maxLife o) 0
  then Qmax 0 (GameObject.life o / GameObject.maxLife o)
  else 1.

End GameObjectMethods.

(** ** InputManager and the swipe sound *)

Record InputManagerState : Type := {
  isInputActive : bool;
  lastInputPosition : Q * Q
}.

Module AudioManager.
Local Open Scope Q_scope.

(** [playSwipeSound()]: the result says whether a swipe sound was asked
    for (it is not part of the trace). *)
Definition playSwipeSound (w : World) : bool * World :=
  let '(now, w1) := Date_now w in
  if JS.gtb (inject_Z now - GameState.lastSwipeSoundTime (gameState w1))
       MoreConstants.SWIPE_SOUND_COOLDOWN
  then (true,
        modify_gameState (GameState.set_lastSwipeSoundTime (inject_Z now)) w1)
  else (false, w1).

End AudioManager.

Module InputManager.
Local Open Scope Q_scope.

Definition addSwipePoint (x y : Q) (w : World) : World :=
  let '(now, w1) := performance_now w in
  modify_gameState
    (fun g =>
       let pushed :=
         GameState.swipePoints g ++ [{| sp_x := x; sp_y := y; sp_t := now |}] in
       GameState.set_swipePoints
         (List.filter
            (fun point =>
               JS.ltb (now - sp_t point) GameConstants.SWIPE_TRAIL_DURATION)
            pushed) g) w1.

(** [handleStart(event)], with [x = event.clientX] and [y = event.clientY]. *)
Definition handleStart (x y : Q) (i : InputManagerState) (w : World)
    : InputManagerState * World :=
  let w1 := modify_gameState (GameState.set_swipePoints []) w in
  let w2 := addSwipePoint x y w1 in
  let w3 := modify_gameState (GameState.set_isSwiping true) w2 in
  ({| isInputActive := true; lastInputPosition := (x, y) |}, w3).

(** [handleMove(event)]; the first component says whether the swipe
    sound was asked for. *)
Definition handleMove (x y : Q) (i : InputManagerState) (w : World)
    : bool * InputManagerState * World :=
  if negb (GameState.isSwiping (gameState w)) then (false, i, w)
  else
    let w1 := addSwipePoint x y w in
    let '(played, w2) := AudioManager.playSwipeSound w1 in
    (played,
     {| isInputActive := isInputActive i; lastInputPosition := (x, y) |}, w2).

Definition handleEnd (i : InputManagerState) (w : World)
    : InputManagerState * World :=
  let w1 := modify_gameState (GameState.set_isSwiping false) w in
  let w2 := modify_gameState (GameState.set_swipePoints []) w1 in
  ({| isInputActive := false; lastInputPosition := lastInputPosition i |}, w2).

(** [getSwipeVelocity()]: [None] is [null]. *)
Definition getSwipeVelocity (g : GameState.t) : option (Q * Q) :=
  let points := GameState.swipePoints g in
  if (length points <? 2)%nat then None
  else
    match drop (length points - 2) points with
    | [p0; p1] =>
        let deltaTime := (sp_t p1 - sp_t p0) / 1000 in
        if Qeq_bool deltaTime 0 then None
        else
          Some ((sp_x p1 - sp_x p0) / deltaTime,
                (sp_y p1 - sp_y p0) / deltaTime)
    | _ => None
    end.

End InputManager.

(** ** The queries of the collision detector *)

(** The result of [raycastFruits]: the square of [distance] stands for
    the distance, which is not rational. *)
Record RayHit : Type := {
  hit_fruit : ref;
  hit_distance2 : Q;
  hit_point : Q * Q
}.

Module CollisionQueries.
Local Open Scope Q_scope.

(** The fruit object behind a reference of the [fruits] array that
    passes the test [p]. *)
Definition fruitSatisfies (w : World) (p : Fruit.t -> bool) (r : ref) : bool :=
  match heap w !! r with
  | Some fruit => p fruit
  | None => false
  end.

Definition getFruitAtPoint (x y : Q) (w : World) : option ref :=
  find
    (fruitSatisfies w
       (fun fruit => negb (Fruit.sliced fruit) && Fruit.containsPoint x y fruit))
    (GameState.fruits (gameState w)).

Definition getFruitsInCircle (x y radius : Q) (w : World) : list ref :=
  List.filter
    (fruitSatisfies w
       (fun fruit =>
          negb (Fruit.sliced fruit)
          && GeometryUtils.distance_le x y
               (GameObject.x (Fruit.base fruit)) (GameObject.y (Fruit.base fruit))
               (radius + Fruit.radius fruit)))
    (GameState.fruits (gameState w)).

(** The squared distance from [(x1, y1)] to [(x2, y2)]. *)
Definition distance2 (x1 y1 x2 y2 : Q) : Q :=
  (x2 - x1) * (x2 - x1) + (y2 - y1) * (y2 - y1).

(** [distance < closestDistance], where [None] is [Infinity]. *)
Definition closer (d2 : Q) (closest : option Q) : bool :=
  match closest with
  | Some c2 => JS.ltb d2 c2
  | None => true
  end.

(** The loop of [raycastFruits] over the rest of the array. *)
Fixpoint raycastLoop (w : World) (startX startY endX endY : Q)
    (fruits : list ref) (closestHit : option RayHit) : option RayHit :=
  match fruits with
  | [] => closestHit
  | r :: rest =>
      let next :=
        match heap w !! r with
        | Some fruit =>
            if Fruit.sliced fruit then closestHit
            else if Fruit.intersectsLine startX startY endX endY fruit then
              let fx := GameObject.x (Fruit.base fruit) in
              let fy := GameObject.y (Fruit.base fruit) in
              let d2 := distance2 startX startY fx fy in
              if closer d2 (hit_distance2 <$> closestHit)
              then Some {| hit_fruit := r; hit_distance2 := d2;
                           hit_point := (fx, fy) |}
              else closestHit
            else closestHit
        | None => closestHit
        end in
      raycastLoop w startX startY endX endY rest next
  end.

Definition raycastFruits (startX startY endX endY : Q) (w : World)
    : option RayHit :=
  raycastLoop w startX startY endX endY (GameState.fruits (gameState w)) None.

End CollisionQueries.

(** ** Factory methods *)

Module SpawnManagerMore.
Local Open Scope Q_scope.

(** [spawnSpecificFruit(fruitType, x, y, vx, vy)]. *)
Definition spawnSpecificFruit (fruitType : Fruit.kind) (x y vx vy : Q)
    (w : World) : World :=
  let '(emoji, w1) :=
    match fruitType with
    | Fruit.bomb => (Fruit.BombGlyph, w)
    | Fruit.fruit =>
        let '(rE, w') := Math_random w in
        (nth (Z.to_nat (Qfloor (rE * len Fruit.FRUIT_EMOJIS)))
           Fruit.FRUIT_EMOJIS Fruit.Apple, w')
    end in
  let '(r1, w2) := Math_random w1 in
  let '(r2, w3) := Math_random w2 in
  let '(r3, w4) := Math_random w3 in
  let fruit := Fruit.new r1 r2 r3 x y vx vy fruitType emoji in
  let r := nextRef w4 in
  let w5 := set_nextRef (S r) (set_heap (<[r := fruit]> (heap w4)) w4) in
  let w6 :=
    modify_gameState
      (fun g => GameState.set_fruits (GameState.fruits g ++ [r]) g) w5 in
  match Fruit.type fruit with
  | Fruit.bomb => emit (EvSound BombSpawnSound) w6
  | Fruit.fruit => emit (EvSound FruitSpawnSound) w6
  end.

End SpawnManagerMore.

Module FruitSliceFactory.
Local Open Scope Q_scope.

(** [new FruitSlice(x, y, vx, vy, emoji, half, size, rotation,
    rotationSpeed)]: the base constructor draws two random values, which
    the slice constructor overwrites. *)
Definition new (x y vx vy : Q) (emoji : Fruit.glyph) (half : FruitSlice.side)
    (size rotation rotationSpeed : Q) (w : World) : FruitSlice.t * World :=
  let '(_, w1) := Math_random w in
  let '(_, w2) := Math_random w1 in
  ({| FruitSlice.base :=
        {| GameObject.x := x; GameObject.y := y;
           GameObject.vx := vx; GameObject.vy := vy;
           GameObject.rotation := rotation;
           GameObject.rotationSpeed := rotationSpeed;
           GameObject.life := GameConstants.SLICE_LIFE_DURATION;
           GameObject.maxLife := GameConstants.SLICE_LIFE_DURATION;
           GameObject.isAlive := true |};
      FruitSlice.emoji := emoji; FruitSlice.half := half;
      FruitSlice.size := size |}, w2).

(** [FruitSlice.createFromFruit(fruit)].  The separation
    [50 + random * 50] is exact, so below 100; the program's rounded
    value can reach 100. *)
Definition createFromFruit (fruit : Fruit.t) (w : World)
    : list FruitSlice.t * World :=
  let b := Fruit.base fruit in
  let size := Fruit.radius fruit * 2 in
  let '(ra, w1) := Math_random w in
  let leftVx :=
    GameObject.vx b
    - (MoreConstants.SLICE_SEPARATION_FORCE
       + ra * MoreConstants.SLICE_SEPARATION_VARIATION) in
  let '(rb, w2) := Math_random w1 in
  let leftVy :=
    GameObject.vy b
    - (MoreConstants.SLICE_SEPARATION_FORCE
       + rb * MoreConstants.SLICE_SEPARATION_VARIATION) in
  let '(rc, w3) := Math_random w2 in
  let leftRotationSpeed :=
    GameObject.rotationSpeed b - rc * MoreConstants.SLICE_ROTATION_MODIFIER in
  let '(leftSlice, w4) :=
    new (GameObject.x b) (GameObject.y b) leftVx leftVy (Fruit.emoji fruit)
      FruitSlice.left size (GameObject.rotation b) leftRotationSpeed w3 in
  let '(rd, w5) := Math_random w4 in
  let rightVx :=
    GameObject.vx b
    + (MoreConstants.SLICE_SEPARATION_FORCE
       + rd * MoreConstants.SLICE_SEPARATION_VARIATION) in
  let '(re, w6) := Math_random w5 in
  let rightVy :=
    GameObject.vy b
    - (MoreConstants.SLICE_SEPARATION_FORCE
       + re * MoreConstants.SLICE_SEPARATION_VARIATION) in
  let '(rf, w7) := Math_random w6 in
  let rightRotationSpeed :=
    GameObject.rotationSpeed b + rf * MoreConstants.SLICE_ROTATION_MODIFIER in
  let '(rightSlice, w8) :=
    new (GameObject.x b) (GameObject.y b) rightVx rightVy (Fruit.emoji fruit)
      FruitSlice.right size (GameObject.rotation b) rightRotationSpeed w7 in
  ([leftSlice; rightSlice], w8).

End FruitSliceFactory.

Module ComboSplashFactory.
Local Open Scope Q_scope.

(** [new ComboSplash(text, x, y)]. *)
Definition new (text : string) (x y : Q) (w : World) : ComboSplash.t * World :=
  let '(r1, w1) := Math_random w in
  let '(r2, w2) := Math_random w1 in
  ({| ComboSplash.base :=
        GameObject.with_life GameConstants.COMBO_SPLASH_LIFE
          GameConstants.COMBO_SPLASH_LIFE true (GameObject.new r1 r2 x y 0 0);
      ComboSplash.text := text |}, w2).

(** The template literal with the decimal form of the count in it. *)
Definition comboText (prefix : string) (comboCount : Z) : string :=
  prefix +:+ pretty comboCount +:+ "!".

Definition createComboSplash (comboCount : Z) (canvasWidth : Q) (w : World)
    : ComboSplash.t * World :=
  new (comboText "Combo " comboCount) (canvasWidth / 2)
    GameConstants.COMBO_SPLASH_Y_POSITION w.

Definition createSpecialComboSplash (comboCount : Z) (canvasWidth : Q)
    (w : World) : ComboSplash.t * World :=
  let text :=
    if (10 <=? comboCount)%Z then comboText "INSANE COMBO " comboCount
    else if (7 <=? comboCount)%Z then comboText "MEGA COMBO " comboCount
    else if (5 <=? comboCount)%Z then comboText "SUPER COMBO " comboCount
    else comboText "Combo " comboCount in
  let '(splash, w1) :=
    new text (canvasWidth / 2) GameConstants.COMBO_SPLASH_Y_POSITION w in
  if (5 <=? comboCount)%Z then
    let life := GameObject.life (ComboSplash.base splash) * 1.5 in
    ({| ComboSplash.base :=
          GameObject.with_life life life
            (GameObject.isAlive (ComboSplash.base splash))
            (ComboSplash.base splash);
        ComboSplash.text := ComboSplash.text splash |}, w1)
  else (splash, w1).

End ComboSplashFactory.

(** The methods of the effects manager that build their entities without
    an angle. *)
Module EffectsFactory.
Local Open Scope Q_scope.

Definition _maxSlices : nat := 60.
Definition _maxComboSplashes : nat := 6.

(** [array.splice(0, array.length - max)] when [array.length > max]. *)
Definition capTo {A : Type} (max : nat) (array : list A) : list A :=
  if (max <? length array)%nat then drop (length array - max) array else array.

Definition createFruitSlices (fruit : Fruit.t) (w : World) : World :=
  let '(slices, w1) := FruitSliceFactory.createFromFruit fruit w in
  modify_gameState
    (fun g =>
       GameState.set_slices (capTo _maxSlices (GameState.slices g ++ slices)) g)
    w1.

Definition createComboSplash (comboCount : Z) (canvasWidth : Q) (w : World)
    : World :=
  let w1 :=
    if (_maxComboSplashes <=? length (GameState.comboSplashes (gameState w)))%nat
    then
      modify_gameState
        (fun g =>
           GameState.set_comboSplashes (drop 1 (GameState.comboSplashes g)) g) w
    else w in
  let w2 :=
    if (GameState.lastComboSoundCount (gameState w1) <? comboCount)%Z then
      modify_gameState (GameState.set_lastComboSoundCount comboCount)
        (emit (EvSound ComboSound) w1)
    else w1 in
  let '(splash, w3) :=
    if (5 <=? comboCount)%Z
    then ComboSplashFactory.createSpecialComboSplash comboCount canvasWidth w2
    else ComboSplashFactory.createComboSplash comboCount canvasWidth w2 in
  modify_gameState
    (fun g =>
       GameState.set_comboSplashes (GameState.comboSplashes g ++ [splash]) g)
    w3.

End EffectsFactory.

(** ** Leaving a session *)

Module GameEngineMore.
Local Open Scope Q_scope.

Definition returnToMenu (e : GameEngineState) (w : World)
    : GameEngineState * World :=
  let e1 := GameEngine.stopGame e in
  let w1 := modify_gameState EffectsManager.clearAllEffects w in
  let w2 := modify_gameState (GameState.set_fruits []) w1 in
  let w3 := modify_gameState (GameState.set_swipePoints []) w2 in
  (set_lastFrameTime None (set__accumulator 0 e1), w3).

End GameEngineMore.

(** ** More vocabulary *)

Module Frames.
Import Vocabulary.
Local Open Scope Q_scope.

(** The frames requested, as a count. *)
Definition requestsOf (tr : list event) : nat :=
  length
    (List.filter (fun e => match e with EvRequestFrame => true | _ => false end)
       tr).

(** Events of the simulation: sounds and hits, no frame requested or
    rendered. *)
Definition quiet (evs : list event) : Prop :=
  Forall (fun e => match e with EvSound _ | EvHit _ => True | _ => False end)
    evs.

(** [f'] is [f] with the [sliced] flag possibly raised. *)
Definition slicedMore (f f' : Fruit.t) : Prop :=
  f' = Fruit.with_sliced (Fruit.sliced f') f
  /\ (Fruit.sliced f = true -> Fruit.sliced f' = true).

(** What the collision pass leaves alone: the arrays of fruits and trail
    points, the clocks of the session, the managers' own state, and every
    fruit object but for its [sliced] flag. *)
Record collision_frame (w w' : World) : Prop := {
  cf_fruits : GameState.fruits (gameState w') = GameState.fruits (gameState w);
  cf_swipePoints :
    GameState.swipePoints (gameState w') = GameState.swipePoints (gameState w);
  cf_isSwiping :
    GameState.isSwiping (gameState w') = GameState.isSwiping (gameState w);
  cf_elapsedTime :
    GameState.elapsedTime (gameState w') = GameState.elapsedTime (gameState w);
  cf_nextRef : nextRef w' = nextRef w;
  cf_spawnManager : spawnManager w' = spawnManager w;
  cf_canvasWidth : canvasWidth w' = canvasWidth w;
  cf_canvasHeight : canvasHeight w' = canvasHeight w;
  cf_env : env w' = env w;
  cf_tick : (tick w <= tick w')%nat;
  cf_heap :
    forall r,
      match heap w !! r, heap w' !! r with
      | Some f, Some f' => slicedMore f f'
      | None, None => True
      | _, _ => False
      end;
  cf_trace : exists evs, since w w' evs /\ quiet evs
}.

(** The fruit references are distinct, allocated and below the next free
    reference. *)
Definition fruits_wf (w : World) : Prop :=
  NoDup (GameState.fruits (gameState w))
  /\ forall r : ref, r ∈ GameState.fruits (gameState w) ->
       (r < nextRef w)%nat /\ is_Some (heap w !! r).

(** The segments the collision pass tests: consecutive points of the last
    [K + 1] points of the trail. *)
Definition testedPoints (w : World) : list SwipePoint :=
  let pts := GameState.swipePoints (gameState w) in
  drop (length pts - (CollisionDetector.K + 1)) pts.

Definition consecutive {A : Type} (l : list A) (a b : A) : Prop :=
  exists i : nat, l !! i = Some a /\ l !! S i = Some b.

(** The number [n], which may be an infinity, is at least (at most) [x]. *)
Definition atLeast (n : JS.num) (x : Q) : Prop :=
  match n with
  | JS.Fin m => x <= m
  | JS.PInf => True
  | _ => False
  end.

Definition atMost (n : JS.num) (x : Q) : Prop :=
  match n with
  | JS.Fin m => m <= x
  | JS.NInf => True
  | _ => False
  end.

(** The point [p] lies in the box [b]. *)
Definition covers (b : CollisionDetector.Box) (p : SwipePoint) : Prop :=
  atMost (CollisionDetector.minX b) (sp_x p)
  /\ atLeast (CollisionDetector.maxX b) (sp_x p)
  /\ atMost (CollisionDetector.minY b) (sp_y p)
  /\ atLeast (CollisionDetector.maxY b) (sp_y p).

Definition noNaN (b : CollisionDetector.Box) : Prop :=
  CollisionDetector.minX b <> JS.NaN /\ CollisionDetector.maxX b <> JS.NaN
  /\ CollisionDetector.minY b <> JS.NaN /\ CollisionDetector.maxY b <> JS.NaN.

(** The box the pre-filter starts from. *)
Definition emptyBox : CollisionDetector.Box :=
  {| CollisionDetector.minX := JS.PInf; CollisionDetector.minY := JS.PInf;
     CollisionDetector.maxX := JS.NInf; CollisionDetector.maxY := JS.NInf |}.

(** The fruit object that [r] names in the store [h0] is crossed by the
    segment from [p1] to [p2]. *)
Definition crosses (h0 : gmap ref Fruit.t) (p1 p2 : SwipePoint) (r : ref)
    : bool :=
  match h0 !! r with
  | Some f =>
      Fruit.intersectsLine (sp_x p1) (sp_y p1) (sp_x p2) (sp_y p2) f
  | None => false
  end.

(** During a collision pass that started from the store [h0]: the fruit
    objects in the processed set are those of [h0] with the [sliced] flag
    set, the others are those of [h0]. *)
Definition heap_exact (h0 : gmap ref Fruit.t) (w : World) : Prop :=
  forall r : ref,
    heap w !! r
    = if bool_decide (r ∈ processedCollisions (collisionDetector w))
      then Fruit.with_sliced true <$> h0 !! r
      else h0 !! r.

(** The fruit object behind [r] is still wanted after its update. *)
Definition fruitStays (dt : Q) (w : World) (r : ref) : bool :=
  match heap w !! r with
  | Some f =>
      negb (Fruit.shouldRemove (canvasWidth w) (canvasHeight w)
              (Fruit.update dt f))
  | None => true
  end.

(** Everything but the game state, the fruit objects, the clock reading
    and the trace is the same in [w] and [w']. *)
Definition same_managers (w w' : World) : Prop :=
  nextRef w' = nextRef w
  /\ spawnManager w' = spawnManager w
  /\ collisionDetector w' = collisionDetector w
  /\ localStorage w' = localStorage w
  /\ canvasWidth w' = canvasWidth w
  /\ canvasHeight w' = canvasHeight w
  /\ env w' = env w.

(** What no part of a fixed step but the engine itself writes: the swipe
    trail, the swiping flag, the elapsed time, the canvas and the
    environment; the clock only advances and the events are those of the
    simulation. *)
Record session_frame (w w' : World) : Prop := {
  sf_swipePoints :
    GameState.swipePoints (gameState w') = GameState.swipePoints (gameState w);
  sf_isSwiping :
    GameState.isSwiping (gameState w') = GameState.isSwiping (gameState w);
  sf_elapsedTime :
    GameState.elapsedTime (gameState w') = GameState.elapsedTime (gameState w);
  sf_canvasWidth : canvasWidth w' = canvasWidth w;
  sf_canvasHeight : canvasHeight w' = canvasHeight w;
  sf_env : env w' = env w;
  sf_tick : (tick w <= tick w')%nat;
  sf_trace : exists evs, since w w' evs /\ quiet evs
}.

(** The candidates that [checkSwipeCollisions] hands to the segment
    tests: the fruits of the array that are not sliced and not outside
    the bounding box of the tested points inflated by 80. *)
Definition candidatesOf (w : World) : list (ref * nat) :=
  CollisionDetector.collectCandidates (heap w)
    (CollisionDetector.inflateBox 80
       (fold_left CollisionDetector.growBox (testedPoints w) emptyBox))
    0 (GameState.fruits (gameState w)).

(** A run of animation-frame callbacks with the time stamps [ts], oldest
    first. *)
Definition callbacks (ts : list Q) (s : GameEngineState * World)
    : GameEngineState * World :=
  fold_left (fun s timestamp => GameEngine.gameLoop timestamp (fst s) (snd s))
    ts s.

End Frames.

(** * Properties *)

(** ** Comparisons of JavaScript numbers *)

Module JSFacts.
Local Open Scope Q_scope.

Lemma ltb_lt x y : JS.ltb x y = true <-> x < y.
Proof.
  unfold JS.ltb. rewrite negb_true_iff, <- not_true_iff_false, Qle_bool_iff.
  split; [apply Qnot_le_lt | apply Qlt_not_le].
Qed.

Lemma gtb_gt x y : JS.gtb x y = true <-> y < x.
Proof. apply ltb_lt. Qed.

Lemma leb_le x y : JS.leb x y = true <-> x <= y.
Proof. apply Qle_bool_iff. Qed.


Lemma ltb_ge x y : JS.ltb x y = false <-> y <= x.
Proof. unfold JS.ltb. rewrite negb_false_iff. apply Qle_bool_iff. Qed.

Lemma gtb_le x y : JS.gtb x y = false <-> x <= y.
Proof. apply ltb_ge. Qed.

Lemma leb_gt x y : JS.leb x y = false <-> y < x.
Proof.
  unfold JS.leb. rewrite <- not_true_iff_false, Qle_bool_iff.
  split; [apply Qnot_le_lt | apply Qlt_not_le].
Qed.


Lemma hypot_le_spec a b r :
  JS.hypot_le a b r = true <-> 0 <= r /\ a * a + b * b <= r * r.
Proof. unfold JS.hypot_le. now rewrite andb_true_iff, !Qle_bool_iff. Qed.

End JSFacts.

(** ** Segment against circle *)

Module GeometryFacts.
Local Open Scope Q_scope.
Import Vocabulary.

Lemma sq_nonneg (a : Q) : 0 <= a * a.
Proof. nra. Qed.

Lemma sum_squares_zero (a b : Q) : a * a + b * b == 0 -> a == 0 /\ b == 0.
Proof.
  intros H. pose proof (sq_nonneg a) as Ha. pose proof (sq_nonneg b) as Hb.
  assert (Ha0 : a * a == 0) by lra. assert (Hb0 : b * b == 0) by lra.
  split.
  - destruct (Qmult_integral _ _ Ha0); trivial.
  - destruct (Qmult_integral _ _ Hb0); trivial.
Qed.

Lemma clamp01_cases (q : Q) :
  (q <= 0 /\ Qmax 0 (Qmin 1 q) == 0)
  \/ ((0 <= q /\ q <= 1) /\ Qmax 0 (Qmin 1 q) == q)
  \/ (1 <= q /\ Qmax 0 (Qmin 1 q) == 1).
Proof.
  destruct (Q.min_spec 1 q) as [[H1 E1] | [H1 E1]];
    destruct (Q.max_spec 0 (Qmin 1 q)) as [[H2 E2] | [H2 E2]];
    rewrite E2; rewrite ?E1 in *.
  - right; right. split; lra.
  - lra.
  - right; left. split; lra.
  - left. split; lra.
Qed.

Lemma dist2_diff x1 y1 x2 y2 cx cy s t :
  let dx := x2 - x1 in
  let dy := y2 - y1 in
  let n := dx * dx + dy * dy in
  let p := (cx - x1) * dx + (cy - y1) * dy in
  dist2 x1 y1 x2 y2 cx cy s - dist2 x1 y1 x2 y2 cx cy t
  == (s - t) * ((s + t) * n - 2 * p).
Proof. cbv zeta. unfold dist2. ring. Qed.

(** The clamped projection minimises the distance over the segment. *)
Lemma clamped_projection_is_closest x1 y1 x2 y2 cx cy s :
  let dx := x2 - x1 in
  let dy := y2 - y1 in
  let n := dx * dx + dy * dy in
  let p := (cx - x1) * dx + (cy - y1) * dy in
  ~ n == 0 -> 0 <= s -> s <= 1 ->
  dist2 x1 y1 x2 y2 cx cy (Qmax 0 (Qmin 1 (p / n)))
  <= dist2 x1 y1 x2 y2 cx cy s.
Proof.
  intros dx dy n p Hn Hs0 Hs1.
  set (t := Qmax 0 (Qmin 1 (p / n))).
  pose proof (dist2_diff x1 y1 x2 y2 cx cy s t) as Hd. cbv zeta in Hd.
  fold dx dy in Hd. fold n p in Hd.
  assert (Hn0 : 0 < n).
  { pose proof (sq_nonneg dx). pose proof (sq_nonneg dy).
    destruct (Qlt_le_dec 0 n) as [|Hle]; trivial.
    exfalso. apply Hn. unfold n in *. lra. }
  set (q := p / n) in *.
  assert (Hq : p == q * n) by (unfold q; field; exact Hn).
  assert (Hprod : 0 <= (s - t) * ((s + t) * n - 2 * p)).
  { rewrite Hq.
    assert (E : (s - t) * ((s + t) * n - 2 * (q * n))
                == n * ((s - t) * (s + t - 2 * q))) by ring.
    rewrite E. apply Qmult_le_0_compat; [lra |].
    destruct (clamp01_cases q) as [[Hc Ht] | [[Hc Ht] | [Hc Ht]]];
      fold t in Ht; rewrite Ht.
    - apply Qmult_le_0_compat; lra.
    - assert (E2 : (s - q) * (s + q - 2 * q) == (s - q) * (s - q)) by ring.
      rewrite E2. apply sq_nonneg.
    - assert (E2 : (s - 1) * (s + 1 - 2 * q) == (1 - s) * (2 * q - s - 1))
        by ring.
      rewrite E2. apply Qmult_le_0_compat; lra. }
  lra.
Qed.

Lemma lineIntersectsCircle_spec x1 y1 x2 y2 cx cy r :
  ~ ((x2 - x1) * (x2 - x1) + (y2 - y1) * (y2 - y1) == 0) ->
  GeometryUtils.lineIntersectsCircle x1 y1 x2 y2 cx cy r = true <->
  0 <= r /\ exists s, (0 <= s /\ s <= 1)
                      /\ dist2 x1 y1 x2 y2 cx cy s <= r * r.
Proof.
  intros Hn. unfold GeometryUtils.lineIntersectsCircle, JS.div.
  destruct (Qeq_bool _ 0) eqn:E.
  { apply Qeq_bool_iff in E. contradiction. }
  cbn [JS.clamp01]. rewrite JSFacts.hypot_le_spec.
  set (t := Qmax 0 (Qmin 1 _)).
  change ((x1 + t * (x2 - x1) - cx) * (x1 + t * (x2 - x1) - cx)
          + (y1 + t * (y2 - y1) - cy) * (y1 + t * (y2 - y1) - cy))
    with (dist2 x1 y1 x2 y2 cx cy t).
  split.
  - intros [Hr Hd]. split; trivial. exists t. split; trivial.
    unfold t. split; [apply Q.le_max_l |].
    apply Q.max_lub; [lra | apply Q.le_min_l].
  - intros [Hr (s & [Hs0 Hs1] & Hd)]. split; trivial.
    eapply Qle_trans; [| exact Hd].
    apply clamped_projection_is_closest; trivial.
Qed.


(** On a segment with distinct end points, a segment through the centre
    of a circle of radius [r >= 0] intersects it. *)
Lemma lineIntersectsCircle_through_centre x1 y1 x2 y2 cx cy r s :
  ~ ((x2 - x1) * (x2 - x1) + (y2 - y1) * (y2 - y1) == 0) ->
  0 <= r -> 0 <= s -> s <= 1 ->
  cx == x1 + s * (x2 - x1) -> cy == y1 + s * (y2 - y1) ->
  GeometryUtils.lineIntersectsCircle x1 y1 x2 y2 cx cy r = true.
Proof.
  intros Hn Hr Hs0 Hs1 Hx Hy. apply lineIntersectsCircle_spec; trivial.
  split; trivial. exists s. split; [tauto |].
  unfold dist2.
  assert (E : (x1 + s * (x2 - x1) - cx) * (x1 + s * (x2 - x1) - cx)
              + (y1 + s * (y2 - y1) - cy) * (y1 + s * (y2 - y1) - cy) == 0).
  { rewrite Hx, Hy. ring. }
  rewrite E. pose proof (sq_nonneg r). lra.
Qed.

(** On a segment with distinct end points, a segment whose closest
    approach to the centre is exactly the radius intersects the circle. *)
Lemma lineIntersectsCircle_boundary x1 y1 x2 y2 cx cy r s :
  ~ ((x2 - x1) * (x2 - x1) + (y2 - y1) * (y2 - y1) == 0) ->
  0 <= r -> 0 <= s -> s <= 1 ->
  dist2 x1 y1 x2 y2 cx cy s == r * r ->
  (forall s', 0 <= s' -> s' <= 1 -> r * r <= dist2 x1 y1 x2 y2 cx cy s') ->
  GeometryUtils.lineIntersectsCircle x1 y1 x2 y2 cx cy r = true.
Proof.
  intros Hn Hr Hs0 Hs1 Hd _. apply lineIntersectsCircle_spec; trivial.
  split; trivial. exists s. split; [tauto | lra].
Qed.

Lemma lineIntersectsCircle_zero_length (x y cx cy r : Q) :
  GeometryUtils.lineIntersectsCircle x y x y cx cy r = false.
Proof.
  unfold GeometryUtils.lineIntersectsCircle, JS.div.
  assert (E1 : Qeq_bool ((x - x) * (x - x) + (y - y) * (y - y)) 0 = true)
    by (apply Qeq_bool_iff; ring).
  assert (E2 : Qeq_bool ((cx - x) * (x - x) + (cy - y) * (y - y)) 0 = true)
    by (apply Qeq_bool_iff; ring).
  now rewrite E1, E2.
Qed.

(** A segment through the centre, one that touches the circle, one that
    passes a unit further, and one that stops short of the circle. *)
Example lineIntersectsCircle_examples :
  GeometryUtils.lineIntersectsCircle 0 0 200 200 100 100 35 = true
  /\ GeometryUtils.lineIntersectsCircle 0 0 200 0 100 35 35 = true
  /\ GeometryUtils.lineIntersectsCircle 0 0 200 0 100 36 35 = false
  /\ GeometryUtils.lineIntersectsCircle 0 0 50 0 100 0 35 = false
  /\ GeometryUtils.lineIntersectsCircle 0 0 65 0 100 0 35 = true.
Proof. vm_compute. repeat split. Qed.

(** C4 (the code misses a case): the projection parameter of
    a segment of length zero is [0 / 0], which is [NaN], so the test
    answers [false] for such a segment wherever it lies, also at the very
    centre of the circle; the point test [distance <= radius] answers
    [true] there. *)
Theorem lineIntersectsCircle_zero_length_segment :
  (forall x y cx cy r : Q,
     GeometryUtils.lineIntersectsCircle x y x y cx cy r = false)
  /\ GeometryUtils.lineIntersectsCircle 100 100 100 100 100 100 35 = false
  /\ GeometryUtils.distance_le 100 100 100 100 35 = true.
Proof.
  split; [exact lineIntersectsCircle_zero_length |].
  split; reflexivity.
Qed.

End GeometryFacts.

(** ** Removal policies *)

Module RemovalFacts.
Local Open Scope Q_scope.
Import GeometryFacts.

Lemma isCircleOutsideCanvas_spec x y r w h t :
  GeometryUtils.isCircleOutsideCanvas x y r w h t = true <->
  x + r < - t \/ w + t < x - r \/ y + r < - t \/ h + t < y - r.
Proof.
  unfold GeometryUtils.isCircleOutsideCanvas.
  rewrite !orb_true_iff, !JSFacts.ltb_lt, !JSFacts.gtb_gt. tauto.
Qed.


Lemma sum_squares_le (a b c : Q) :
  a * a + b * b <= c -> a * a <= c /\ b * b <= c.
Proof.
  intros H. pose proof (sq_nonneg a). pose proof (sq_nonneg b). split; lra.
Qed.

Lemma square_le_bound (d r : Q) : 0 <= r -> d * d <= r * r -> - r <= d /\ d <= r.
Proof. intros Hr Hd. split; nra. Qed.

Lemma Fruit_shouldRemove_spec w h (f : Fruit.t) :
  Fruit.shouldRemove w h f = true <->
  GameObject.x (Fruit.base f) + Fruit.radius f < - 100
  \/ w + 100 < GameObject.x (Fruit.base f) - Fruit.radius f
  \/ GameObject.y (Fruit.base f) + Fruit.radius f < - 100
  \/ h + 100 < GameObject.y (Fruit.base f) - Fruit.radius f.
Proof. apply isCircleOutsideCanvas_spec. Qed.

Lemma Fruit_removed_is_off_canvas w h (f : Fruit.t) px py :
  Fruit.shouldRemove w h f = true ->
  Fruit.containsPoint px py f = true ->
  ~ ((- 100 <= px /\ px <= w + 100) /\ (- 100 <= py /\ py <= h + 100)).
Proof.
  rewrite Fruit_shouldRemove_spec.
  unfold Fruit.containsPoint, GeometryUtils.distance_le.
  rewrite JSFacts.hypot_le_spec.
  set (x := GameObject.x (Fruit.base f)). set (y := GameObject.y (Fruit.base f)).
  set (r := Fruit.radius f).
  clearbody x y r. intros Hout [Hr Hd] [[Hx1 Hx2] [Hy1 Hy2]].
  apply sum_squares_le in Hd as [Hdx Hdy].
  apply square_le_bound in Hdx, Hdy; trivial.
  destruct Hout as [H | [H | [H | H]]]; lra.
Qed.


Lemma Fruit_shouldRemove_ignores_life w h (f f' : Fruit.t) :
  GameObject.x (Fruit.base f') = GameObject.x (Fruit.base f) ->
  GameObject.y (Fruit.base f') = GameObject.y (Fruit.base f) ->
  Fruit.radius f' = Fruit.radius f ->
  Fruit.shouldRemove w h f' = Fruit.shouldRemove w h f.
Proof. unfold Fruit.shouldRemove. now intros -> -> ->. Qed.

Lemma FruitSlice_shouldRemove_spec w h (s : FruitSlice.t) :
  FruitSlice.shouldRemove w h s = true <->
  GameObject.isAlive (FruitSlice.base s) = false
  \/ h + 100 < GameObject.y (FruitSlice.base s)
  \/ GameObject.x (FruitSlice.base s) < - 100
  \/ w + 100 < GameObject.x (FruitSlice.base s).
Proof.
  unfold FruitSlice.shouldRemove.
  rewrite !orb_true_iff, negb_true_iff, JSFacts.ltb_lt, !JSFacts.gtb_gt. tauto.
Qed.

Lemma Particle_shouldRemove_spec w h (p : Particle.t) :
  Particle.shouldRemove w h p = true <->
  GameObject.isAlive (Particle.base p) = false
  \/ (Particle.type p <> Particle.wallSplash
      /\ (h + 100 < GameObject.y (Particle.base p)
          \/ GameObject.x (Particle.base p) < - 100
          \/ w + 100 < GameObject.x (Particle.base p))).
Proof.
  unfold Particle.shouldRemove.
  destruct (GameObject.isAlive (Particle.base p)); cbn [negb]; [| tauto].
  destruct (Particle.type p) eqn:E;
    rewrite ?orb_true_iff, ?JSFacts.ltb_lt, ?JSFacts.gtb_gt.
  1,2,4: split;
    [ intros H; right; split; [discriminate | tauto]
    | intros [H | [_ H]]; [discriminate | tauto] ].
  split; [discriminate |].
  intros [H | [H _]]; [discriminate | now contradiction H].
Qed.

Lemma ComboSplash_shouldRemove_spec w h (c : ComboSplash.t) :
  ComboSplash.shouldRemove w h c = true <->
  GameObject.isAlive (ComboSplash.base c) = false.
Proof. unfold ComboSplash.shouldRemove. apply negb_true_iff. Qed.

(** C8: the removal policy of each variant.  A fruit or bomb is removed
    exactly when its circle lies beyond one of the four sides of the canvas
    extended by the overflow threshold (so no point of it is left in the
    extended canvas), whatever its life and alive flag; slice halves and
    particles are removed when not alive, below the bottom or beyond the
    left or right side; wall splashes and combo texts only when not alive. *)
Theorem shouldRemove_per_variant (w h : Q) :
  (forall f : Fruit.t,
     (Fruit.shouldRemove w h f = true <->
        GameObject.x (Fruit.base f) + Fruit.radius f < - 100
        \/ w + 100 < GameObject.x (Fruit.base f) - Fruit.radius f
        \/ GameObject.y (Fruit.base f) + Fruit.radius f < - 100
        \/ h + 100 < GameObject.y (Fruit.base f) - Fruit.radius f)
     /\ (forall px py,
           Fruit.shouldRemove w h f = true ->
           Fruit.containsPoint px py f = true ->
           ~ ((- 100 <= px /\ px <= w + 100) /\ (- 100 <= py /\ py <= h + 100)))
     /\ (forall f' : Fruit.t,
           GameObject.x (Fruit.base f') = GameObject.x (Fruit.base f) ->
           GameObject.y (Fruit.base f') = GameObject.y (Fruit.base f) ->
           Fruit.radius f' = Fruit.radius f ->
           Fruit.shouldRemove w h f' = Fruit.shouldRemove w h f))
  /\ (forall s : FruitSlice.t,
        FruitSlice.shouldRemove w h s = true <->
        GameObject.isAlive (FruitSlice.base s) = false
        \/ h + 100 < GameObject.y (FruitSlice.base s)
        \/ GameObject.x (FruitSlice.base s) < - 100
        \/ w + 100 < GameObject.x (FruitSlice.base s))
  /\ (forall p : Particle.t,
        Particle.shouldRemove w h p = true <->
        GameObject.isAlive (Particle.base p) = false
        \/ (Particle.type p <> Particle.wallSplash
            /\ (h + 100 < GameObject.y (Particle.base p)
                \/ GameObject.x (Particle.base p) < - 100
                \/ w + 100 < GameObject.x (Particle.base p))))
  /\ (forall c : ComboSplash.t,
        ComboSplash.shouldRemove w h c = true <->
        GameObject.isAlive (ComboSplash.base c) = false).
Proof.
  split; [| split; [| split]].
  - intros f. split; [apply Fruit_shouldRemove_spec |]. split.
    + intros px py. apply Fruit_removed_is_off_canvas.
    + intros f'. apply Fruit_shouldRemove_ignores_life.
  - apply FruitSlice_shouldRemove_spec.
  - apply Particle_shouldRemove_spec.
  - apply ComboSplash_shouldRemove_spec.
Qed.

End RemovalFacts.

(** ** Registry: reset and combo scoring *)

Module GameStateFacts.
Local Open Scope Q_scope.

(** C9: [reset()] empties the six entity collections, zeroes the score, the
    combo counter and the elapsed time, and leaves the best score and the
    high-score table as they were. *)
Theorem reset_clears_session (now : Q) (g : GameState.t) :
  let g' := GameState.reset now g in
  GameState.fruits g' = []
  /\ GameState.slices g' = []
  /\ GameState.bombExplosions g' = []
  /\ GameState.juiceParticles g' = []
  /\ GameState.wallSplashes g' = []
  /\ GameState.comboSplashes g' = []
  /\ GameState.score g' = 0%Z
  /\ GameState.comboCount g' = 0%Z
  /\ GameState.elapsedTime g' = 0
  /\ GameState.bestScore g' = GameState.bestScore g
  /\ GameState.highScores g' = GameState.highScores g.
Proof. cbn. repeat split. Qed.

Lemma registerSlice_fields (now : Q) (g : GameState.t) :
  let g' := GameState.registerSlice now g in
  GameState.comboCount g' =
    (if JS.ltb (now - GameState.lastSliceTime g) GameConstants.COMBO_THRESHOLD
     then GameState.comboCount g + 1 else 1)%Z
  /\ GameState.score g' = (GameState.score g + GameState.comboCount g')%Z
  /\ GameState.lastSliceTime g' = now.
Proof.
  cbn. unfold GameState.registerSlice.
  destruct (JS.ltb _ _); cbn; repeat split.
Qed.

(** C3: [registerSlice()] increments the combo counter when the previous
    slice is less than 800 ms old and sets it to 1 otherwise, adds the new
    counter to the score and records the time; from a reset state, slices
    at 0, 200 and 500 ms give combos 1, 2, 3 and scores 1, 3, 6, and a
    fourth slice at 1500 ms gives combo 1. *)
Theorem registerSlice_combo :
  (forall (now : Q) (g : GameState.t),
     let g' := GameState.registerSlice now g in
     (now - GameState.lastSliceTime g < 800 ->
        GameState.comboCount g' = (GameState.comboCount g + 1)%Z)
     /\ (800 <= now - GameState.lastSliceTime g ->
        GameState.comboCount g' = 1%Z)
     /\ GameState.score g' = (GameState.score g + GameState.comboCount g')%Z
     /\ GameState.lastSliceTime g' = now)
  /\ (forall (t0 : Q) (g : GameState.t),
     let g0 := GameState.reset t0 g in
     let g1 := GameState.registerSlice 0 g0 in
     let g2 := GameState.registerSlice 200 g1 in
     let g3 := GameState.registerSlice 500 g2 in
     let g4 := GameState.registerSlice 1500 g3 in
     GameState.comboCount g1 = 1%Z /\ GameState.comboCount g2 = 2%Z
     /\ GameState.comboCount g3 = 3%Z
     /\ GameState.score g1 = 1%Z /\ GameState.score g2 = 3%Z
     /\ GameState.score g3 = 6%Z
     /\ GameState.comboCount g4 = 1%Z).
Proof.
  split.
  - intros now g g'. destruct (registerSlice_fields now g) as (Hc & Hs & Ht).
    fold g' in Hc, Hs, Ht. repeat split; trivial.
    + intros Hlt. rewrite Hc.
      apply JSFacts.ltb_lt in Hlt. unfold GameConstants.COMBO_THRESHOLD.
      now rewrite Hlt.
    + intros Hge. rewrite Hc.
      apply JSFacts.ltb_ge in Hge. unfold GameConstants.COMBO_THRESHOLD.
      now rewrite Hge.
  - intros t0 g. vm_compute. repeat split.
Qed.
End GameStateFacts.

(** ** High scores and game over *)

Module HighScoreFacts.

Import Vocabulary.

Lemma insert_desc_perm (e : HighScore) (l : list HighScore) :
  insert_desc e l ≡ₚ e :: l.
Proof.
  induction l as [| h t IH]; cbn; [done |].
  destruct (hs_score h <=? hs_score e)%Z; [done |].
  rewrite IH. apply Permutation_swap.
Qed.

Lemma insert_desc_sorted (e : HighScore) (l : list HighScore) :
  StronglySorted desc l -> StronglySorted desc (insert_desc e l).
Proof.
  induction 1 as [| h t Ht IH Hh]; cbn.
  - repeat constructor.
  - destruct (Z.leb_spec (hs_score h) (hs_score e)) as [Hle | Hgt].
    + constructor; [constructor; trivial |].
      constructor; [exact Hle |].
      eapply Forall_impl; [exact Hh |]. unfold desc. intros x Hx. cbn in *. lia.
    + constructor; trivial.
      rewrite insert_desc_perm. constructor; [| exact Hh].
      unfold desc. lia.
Qed.

Lemma sort_desc_perm (l : list HighScore) : sort_desc l ≡ₚ l.
Proof.
  induction l as [| h t IH]; cbn; [done |].
  now rewrite insert_desc_perm, IH.
Qed.

Lemma sort_desc_sorted (l : list HighScore) : StronglySorted desc (sort_desc l).
Proof.
  induction l as [| h t IH]; cbn; [constructor |].
  now apply insert_desc_sorted.
Qed.

Lemma take_sorted (n : nat) (l : list HighScore) :
  StronglySorted desc l -> StronglySorted desc (take n l).
Proof.
  intros H. revert n. induction H as [| h t Ht IH Hh]; intros [| n]; cbn;
    try constructor; auto.
  eapply Forall_take in Hh. exact Hh.
Qed.

(** The sort is stable: inserting into a sorted table puts the entry
    after the entries with the same score. *)
Example sort_desc_stable :
  sort_desc [ {| hs_score := 3; hs_date := 1 |};
              {| hs_score := 7; hs_date := 2 |};
              {| hs_score := 3; hs_date := 3 |} ]
  = [ {| hs_score := 7; hs_date := 2 |};
      {| hs_score := 3; hs_date := 1 |};
      {| hs_score := 3; hs_date := 3 |} ].
Proof. reflexivity. Qed.

Lemma saveHighScore_spec (date sc : Z) (st : Storage.t) (g : GameState.t) :
  let r := GameState.saveHighScore date sc st g in
  GameState.highScores (fst r)
  = take 10 (sort_desc (GameState.highScores g
                        ++ [ {| hs_score := sc; hs_date := date |} ]))
  /\ StronglySorted desc (GameState.highScores (fst r))
  /\ (length (GameState.highScores (fst r)) <= 10)%nat
  /\ (length (GameState.highScores (fst r))
      <= S (length (GameState.highScores g)))%nat
  /\ (Storage.setItemThrows st = false ->
      Storage.highScores (snd r) = Some (GameState.highScores (fst r))).
Proof.
  cbn. split; [reflexivity |]. split; [| split; [| split]].
  - apply take_sorted, sort_desc_sorted.
  - rewrite length_take. lia.
  - rewrite length_take, sort_desc_perm, length_app. cbn [length]. lia.
  - unfold Storage.setHighScores. now intros ->.
Qed.

(** One call of [triggerGameOver()]. *)
Lemma triggerGameOver_fields (date : Z) (st : Storage.t) (g : GameState.t) :
  let r := GameState.triggerGameOver date st g in
  let g' := fst r in
  GameState.gameOver g' = true
  /\ GameState.bestScore g' = Z.max (GameState.bestScore g) (GameState.score g)
  /\ GameState.score g' = GameState.score g
  /\ GameState.highScores g'
     = take 10 (sort_desc (GameState.highScores g
                           ++ [ {| hs_score := GameState.score g;
                                   hs_date := date |} ]))
  /\ StronglySorted desc (GameState.highScores g')
  /\ (length (GameState.highScores g') <= 10)%nat
  /\ (Storage.setItemThrows st = false ->
      Storage.highScores (snd r) = Some (GameState.highScores g')).
Proof.
  cbv zeta. unfold GameState.triggerGameOver.
  cbn [GameState.bestScore GameState.score GameState.set_gameOver].
  destruct (Z.ltb_spec (GameState.bestScore g) (GameState.score g)) as [Hlt | Hge].
  - pose proof (saveHighScore_spec date (GameState.score g)
                  (Storage.setBestScore (GameState.score g) st)
                  (GameState.set_bestScore (GameState.score g)
                     (GameState.set_gameOver true g))) as H.
    cbn in H |- *. destruct H as (H1 & H2 & H3 & H4 & H5).
    repeat split; trivial; try lia.
    unfold Storage.setBestScore, Storage.setHighScores. now intros ->.
  - pose proof (saveHighScore_spec date (GameState.score g) st
                  (GameState.set_gameOver true g)) as H.
    cbn in H |- *. destruct H as (H1 & H2 & H3 & H4 & H5).
    repeat split; trivial; lia.
Qed.

(** What [triggerGameOver()] does to the storage. *)
Lemma triggerGameOver_storage (date : Z) (st : Storage.t) (g : GameState.t) :
  let r := GameState.triggerGameOver date st g in
  Storage.setItemThrows (snd r) = Storage.setItemThrows st
  /\ (Storage.setItemThrows st = true -> snd r = st)
  /\ (Storage.setItemThrows st = false ->
      Storage.highScores (snd r) = Some (GameState.highScores (fst r))).
Proof.
  cbv zeta. unfold GameState.triggerGameOver, GameState.saveHighScore.
  unfold Storage.setBestScore, Storage.setHighScores.
  destruct (Storage.setItemThrows st) eqn:Ht;
    destruct (_ <? _)%Z; cbn [fst snd]; rewrite ?Ht; cbn;
    repeat split; try reflexivity; try discriminate; try assumption.
Qed.

(** C5 (as amended): every call of [triggerGameOver()] sets the game-over
    flag, raises the best score to the session score when that is higher,
    and appends one entry to the high-score table in memory, which it
    leaves sorted by descending score and cut to 10 entries.  The writes
    to the storage sit in [try]/[catch]: a storage that accepts writes
    holds that table afterwards, a storage that refuses them is left as
    it was; either way a stored table that was sorted and cut to 10
    stays so.  A further call keeps the flag and the best score and
    appends one more entry, persisted under the same condition. *)
Theorem triggerGameOver_effect (date : Z) (st : Storage.t) (g : GameState.t) :
  let r := GameState.triggerGameOver date st g in
  let g' := fst r in
  let tidy (l : list HighScore) : Prop :=
    StronglySorted desc l /\ (length l <= 10)%nat in
  GameState.gameOver g' = true
  /\ GameState.bestScore g' = Z.max (GameState.bestScore g) (GameState.score g)
  /\ GameState.score g' = GameState.score g
  /\ GameState.highScores g'
     = take 10 (sort_desc (GameState.highScores g
                           ++ [ {| hs_score := GameState.score g;
                                   hs_date := date |} ]))
  /\ tidy (GameState.highScores g')
  /\ (Storage.setItemThrows st = false ->
      Storage.highScores (snd r) = Some (GameState.highScores g'))
  /\ (Storage.setItemThrows st = true -> snd r = st)
  /\ ((forall l, Storage.highScores st = Some l -> tidy l) ->
      forall l, Storage.highScores (snd r) = Some l -> tidy l)
  /\ (forall date' : Z,
        let r' := GameState.triggerGameOver date' (snd r) g' in
        GameState.gameOver (fst r') = true
        /\ GameState.bestScore (fst r') = GameState.bestScore g'
        /\ GameState.highScores (fst r')
           = take 10 (sort_desc (GameState.highScores g'
                                 ++ [ {| hs_score := GameState.score g;
                                         hs_date := date' |} ]))
        /\ (Storage.setItemThrows st = false ->
            Storage.highScores (snd r')
            = Some (GameState.highScores (fst r')))
        /\ (Storage.setItemThrows st = true -> snd r' = st)).
Proof.
  intros r g' tidy.
  destruct (triggerGameOver_fields date st g) as (H1 & H2 & H3 & H4 & H5 & H6 & H7).
  destruct (triggerGameOver_storage date st g) as (S1 & S2 & S3).
  fold r in H1, H2, H3, H4, H5, H6, H7, S1, S2, S3.
  fold g' in H1, H2, H3, H4, H5, H6, H7, S3.
  split; [exact H1 |]. split; [exact H2 |]. split; [exact H3 |].
  split; [exact H4 |]. split; [split; assumption |].
  split; [exact H7 |]. split; [exact S2 |]. split.
  - intros Hst l Hl. destruct (Storage.setItemThrows st) eqn:Ht.
    + rewrite (S2 eq_refl) in Hl. now apply Hst.
    + rewrite (S3 eq_refl) in Hl. injection Hl as <-. split; assumption.
  - intros date' r'.
    destruct (triggerGameOver_fields date' (snd r) g') as (K1 & K2 & K3 & K4 & _).
    destruct (triggerGameOver_storage date' (snd r) g') as (T1 & T2 & T3).
    fold r' in K1, K2, K3, K4, T1, T2, T3.
    split; [exact K1 |]. split; [rewrite K2, H2, H3; lia |].
    split; [now rewrite K4, H3 |]. split.
    + intros Ht. apply T3. now rewrite S1.
    + intros Ht. rewrite T2 by now rewrite S1. now apply S2.
Qed.

(** C5 (as stated) fails: a second call of [triggerGameOver()] in the same
    session is not without effect, it appends (and persists) a second
    high-score entry. *)
Lemma triggerGameOver_twice_appends_twice :
  let g0 := GameState.set_score 5 (GameState.new 0 Demo.storage) in
  let r1 := GameState.triggerGameOver 1000 Demo.storage g0 in
  let r2 := GameState.triggerGameOver 1000 (snd r1) (fst r1) in
  GameState.highScores (fst r1) = [ {| hs_score := 5; hs_date := 1000 |} ]
  /\ GameState.highScores (fst r2)
     = [ {| hs_score := 5; hs_date := 1000 |};
         {| hs_score := 5; hs_date := 1000 |} ]
  /\ Storage.highScores (snd r2) = Some (GameState.highScores (fst r2)).
Proof. cbn. repeat split. Qed.

End HighScoreFacts.

(** ** Entity life cycle *)

Module LifecycleFacts.
Local Open Scope Q_scope.
Import Vocabulary.

Lemma GameObject_update_isAlive (dt : Q) (o : GameObject.t) :
  GameObject.isAlive (GameObject.update dt o)
  = GameObject.isAlive o
    && negb (JS.gtb (GameObject.maxLife o) 0
             && JS.leb (GameObject.life o - dt) 0).
Proof.
  unfold GameObject.update.
  destruct (JS.gtb (GameObject.maxLife o) 0); cbn.
  - destruct (JS.leb (GameObject.life o - dt) 0); cbn;
      [now rewrite andb_false_r | now rewrite andb_true_r].
  - now rewrite andb_true_r.
Qed.


Lemma GameObject_update_dead (dt : Q) (o : GameObject.t) :
  GameObject.isAlive o = false ->
  GameObject.isAlive (GameObject.update dt o) = false.
Proof. intros H. rewrite GameObject_update_isAlive, H. reflexivity. Qed.

Lemma Particle_update_base_isAlive (dt : Q) (p : Particle.t) :
  GameObject.isAlive (Particle.base (Particle.update dt p))
  = GameObject.isAlive (GameObject.update dt (Particle.base p)).
Proof. unfold Particle.update. now destruct (Particle.type p). Qed.

#[export] Instance GameObject_Mortal : Mortal GameObject.t.
Proof.
  split.
  - exact GameObject_update_dead.
  - intros w h a Ha. change (GameObject.isAlive a = false) in Ha.
    change (GameObject.shouldRemove w h a = true).
    unfold GameObject.shouldRemove. now rewrite Ha.
Qed.

#[export] Instance FruitSlice_Mortal : Mortal FruitSlice.t.
Proof.
  split.
  - intros dt a. exact (GameObject_update_dead dt (FruitSlice.base a)).
  - intros w h a Ha. change (GameObject.isAlive (FruitSlice.base a) = false) in Ha.
    change (FruitSlice.shouldRemove w h a = true).
    unfold FruitSlice.shouldRemove. now rewrite Ha.
Qed.

#[export] Instance Particle_Mortal : Mortal Particle.t.
Proof.
  split.
  - intros dt a Ha. change (GameObject.isAlive (Particle.base a) = false) in Ha.
    change (GameObject.isAlive (Particle.base (Particle.update dt a)) = false).
    rewrite Particle_update_base_isAlive. now apply GameObject_update_dead.
  - intros w h a Ha. change (GameObject.isAlive (Particle.base a) = false) in Ha.
    change (Particle.shouldRemove w h a = true).
    unfold Particle.shouldRemove. now rewrite Ha.
Qed.

#[export] Instance ComboSplash_Mortal : Mortal ComboSplash.t.
Proof.
  split.
  - intros dt a. exact (GameObject_update_dead dt (ComboSplash.base a)).
  - intros w h a Ha. change (GameObject.isAlive (ComboSplash.base a) = false) in Ha.
    change (ComboSplash.shouldRemove w h a = true).
    unfold ComboSplash.shouldRemove. now rewrite Ha.
Qed.

Section Cull.
Context {A : Type} `{Entity A}.
Variables dt w h : Q.

Lemma culled_app (l1 l2 : list A) :
  culled dt w h (l1 ++ l2) = culled dt w h l1 ++ culled dt w h l2.
Proof. unfold culled. now rewrite map_app, List.filter_app. Qed.

Lemma cullLoop_prefix (pre suf : list A) :
  EffectsManager.cullLoop dt w h (length pre) (pre ++ suf) = culled dt w h pre ++ suf.
Proof.
  revert suf. induction pre as [| a pre IH] using rev_ind; intros suf.
  - reflexivity.
  - rewrite length_app, Nat.add_1_r. cbn [EffectsManager.cullLoop].
    rewrite <- app_assoc. cbn [app].
    rewrite list_lookup_middle by reflexivity.
    assert (Hins : <[length pre := update dt a]> (pre ++ a :: suf)
                   = pre ++ update dt a :: suf).
    { rewrite insert_app_r_alt by lia. now rewrite Nat.sub_diag. }
    rewrite Hins, culled_app. unfold culled at 2. cbn [map List.filter].
    destruct (shouldRemove w h (update dt a)) eqn:E; cbn [negb].
    + assert (Hdel : delete (length pre) (pre ++ update dt a :: suf)
                     = pre ++ suf).
      { rewrite delete_middle. reflexivity. }
      rewrite Hdel, IH, app_nil_r. reflexivity.
    + rewrite IH, <- app_assoc. reflexivity.
Qed.

Lemma updateGameObjectArray_culled (l : list A) :
  EffectsManager.updateGameObjectArray l dt w h = culled dt w h l.
Proof.
  unfold EffectsManager.updateGameObjectArray.
  rewrite <- (app_nil_r l) at 2. rewrite cullLoop_prefix. apply app_nil_r.
Qed.


End Cull.

Lemma updateParticleArray_culled dt w h (l : list Particle.t) :
  EffectsManager.updateParticleArray l dt w h = culled dt w h l.
Proof. apply (updateGameObjectArray_culled dt w h l). Qed.



End LifecycleFacts.

(** ** Collision pipeline and slicing *)

Module CollisionFacts.
Import Vocabulary.

Lemma hitsOf_app (a b : list event) : hitsOf (a ++ b) = hitsOf a ++ hitsOf b.
Proof. unfold hitsOf. apply omap_app. Qed.

Lemma rendersOf_app (a b : list event) :
  rendersOf (a ++ b) = (rendersOf a + rendersOf b)%nat.
Proof. unfold rendersOf. now rewrite List.filter_app, length_app. Qed.

Lemma slice_sliced (r : ref) (w : World) (f : Fruit.t) :
  heap w !! r = Some f -> Fruit.sliced f = true ->
  FruitWorld.slice r w = (None, w).
Proof. intros Hf Hs. unfold FruitWorld.slice. now rewrite Hf, Hs. Qed.

Lemma slice_dangling (r : ref) (w : World) :
  heap w !! r = None -> FruitWorld.slice r w = (None, w).
Proof. intros Hf. unfold FruitWorld.slice. now rewrite Hf. Qed.

(** What [slice] leaves alone, and what it emits. *)
Lemma slice_frame (r : ref) (w : World) :
  let w' := snd (FruitWorld.slice r w) in
  collisionDetector w' = collisionDetector w
  /\ spawnManager w' = spawnManager w
  /\ env w' = env w
  /\ canvasWidth w' = canvasWidth w
  /\ exists evs, since w w' evs /\ hitsOf evs = [] /\ rendersOf evs = 0%nat.
Proof.
  unfold FruitWorld.slice, since.
  destruct (heap w !! r) as [f |] eqn:Hf; [| cbn; repeat split; now exists []].
  destruct (Fruit.sliced f) eqn:Hs; [cbn; repeat split; now exists [] |].
  destruct (Fruit.type f) eqn:Ht; cbn.
  - repeat split. now exists [EvSound FruitCutSound].
  - unfold GameState.triggerGameOver.
    destruct (_ <? _)%Z; cbn; repeat split; now exists [EvSound BombCutSound].
Qed.

(** After [slice] the fruit is sliced, whatever it was before; the other
    fruit objects are untouched. *)
Lemma slice_heap (r : ref) (w : World) :
  heap (snd (FruitWorld.slice r w))
  = match heap w !! r with
    | Some f => <[r := Fruit.with_sliced true f]> (heap w)
    | None => heap w
    end.
Proof.
  unfold FruitWorld.slice.
  destruct (heap w !! r) as [f |] eqn:Hf; [| reflexivity].
  destruct (Fruit.sliced f) eqn:Hs.
  - cbn. symmetry. apply insert_id. rewrite Hf. f_equal.
    destruct f; cbn in *; now subst.
  - destruct (Fruit.type f) eqn:Ht; cbn; [reflexivity |].
    unfold GameState.triggerGameOver. now destruct (_ <? _)%Z.
Qed.

Lemma slice_marks (r : ref) (w : World) (f : Fruit.t) :
  heap w !! r = Some f ->
  heap (snd (FruitWorld.slice r w)) !! r = Some (Fruit.with_sliced true f).
Proof. intros Hf. rewrite slice_heap, Hf. apply lookup_insert_eq. Qed.

Lemma handleBombExplosion_frame (b : Fruit.t) (w : World) :
  let w' := CollisionDetector.handleBombExplosion b w in
  collisionDetector w' = collisionDetector w /\ heap w' = heap w
  /\ trace w' = trace w.
Proof. cbn. repeat split. Qed.

Lemma createFruitSliceEffect_frame (f : Fruit.t) (cw : Q) (w : World) :
  let w' := EffectsManager.createFruitSliceEffect f cw w in
  collisionDetector w' = collisionDetector w /\ heap w' = heap w
  /\ localStorage w' = localStorage w
  /\ exists evs, since w w' evs /\ hitsOf evs = [] /\ rendersOf evs = 0%nat.
Proof.
  unfold EffectsManager.createFruitSliceEffect, since.
  destruct (fx_comboSound _); cbn; repeat split;
    [now exists [EvSound ComboSound] | now exists []].
Qed.

Lemma handleFruitSlice_frame (f : Fruit.t) (w : World) :
  let w' := CollisionDetector.handleFruitSlice f w in
  collisionDetector w' = collisionDetector w /\ heap w' = heap w
  /\ exists evs, since w w' evs /\ hitsOf evs = [] /\ rendersOf evs = 0%nat.
Proof.
  unfold CollisionDetector.handleFruitSlice.
  destruct (createFruitSliceEffect_frame f (canvasWidth w) w)
    as (Hcd & Hh & _ & evs & Hev & Hhits & Hr).
  set (w1 := EffectsManager.createFruitSliceEffect f (canvasWidth w) w) in *.
  clearbody w1. unfold since in *.
  destruct (GameState.getDisplayCombo _) as [c |];
    [| cbn; repeat split; trivial; exists evs; now repeat split].
  destruct (_ <? _)%Z; cbn; repeat split; trivial.
  - exists (EvSound ComboSound :: evs). rewrite Hev. cbn.
    split; [reflexivity |]. split; [exact Hhits | exact Hr].
  - exists evs. now repeat split.
Qed.

(** One call of [handleFruitCollision]: the fruit joins the processed set
    and the call is the only hit recorded. *)
Lemma handleFruitCollision_frame (r : ref) (i : nat) (w : World) :
  let w' := CollisionDetector.handleFruitCollision r i w in
  processedCollisions (collisionDetector w')
  = {[r]} ∪ processedCollisions (collisionDetector w)
  /\ exists evs, since w w' evs /\ hitsOf evs = [r] /\ rendersOf evs = 0%nat.
Proof.
  unfold CollisionDetector.handleFruitCollision.
  set (w1 := set_collisionDetector _ (emit (EvHit r) w)).
  destruct (FruitWorld.slice r w1) as [res w2] eqn:Hsl.
  pose proof (slice_frame r w1) as Hfr. rewrite Hsl in Hfr. cbn [snd] in Hfr.
  destruct Hfr as (Hcd & _ & _ & _ & evs & Hev & Hh & Hr).
  set (w3 := match res, heap w2 !! r with
             | Some (BombResult _ _), Some fruit =>
                 CollisionDetector.handleBombExplosion fruit w2
             | Some (FruitResult _ _ _), Some fruit =>
                 CollisionDetector.handleFruitSlice fruit w2
             | _, _ => w2
             end).
  assert (H3 : collisionDetector w3 = collisionDetector w2
               /\ exists evs3, since w2 w3 evs3 /\ hitsOf evs3 = []
                               /\ rendersOf evs3 = 0%nat).
  { unfold w3. destruct res as [[? ? | ? ? ?] |]; destruct (heap w2 !! r) as [fr |];
      try (split; [reflexivity | now exists []]).
    destruct (handleFruitSlice_frame fr w2) as (H1 & _ & H2).
    split; [exact H1 | exact H2]. }
  destruct H3 as (Hcd3 & evs3 & Hev3 & Hh3 & Hr3).
  assert (Ht1 : trace w1 = EvHit r :: trace w) by reflexivity.
  assert (Hc1 : processedCollisions (collisionDetector w1)
                = {[r]} ∪ processedCollisions (collisionDetector w))
    by reflexivity.
  clearbody w3 w1. unfold since in *. cbn.
  rewrite Hcd3, Hcd, Hc1. split; [reflexivity |].
  exists (evs3 ++ evs ++ [EvHit r]).
  rewrite Hev3, Hev, Ht1, <- !app_assoc. split; [reflexivity |].
  rewrite !hitsOf_app, !rendersOf_app, Hh, Hh3, Hr, Hr3. now cbn.
Qed.

Lemma handleFruitCollision_invariant (w0 w : World) (r : ref) (i : nat) :
  r ∉ processedCollisions (collisionDetector w) ->
  hit_invariant w0 w ->
  hit_invariant w0 (CollisionDetector.handleFruitCollision r i w).
Proof.
  intros Hr (evs & Hev & Hnd & Hrn & Hiff).
  destruct (handleFruitCollision_frame r i w) as (Hp & evs' & Hev' & Hh' & Hr').
  exists (evs' ++ evs). unfold since in *.
  rewrite Hev', Hev, app_assoc. split; [reflexivity |].
  rewrite hitsOf_app, rendersOf_app, Hh', Hr', Hrn, Hp. cbn.
  split; [| split; [reflexivity |]].
  - constructor; [| exact Hnd]. rewrite Hiff. exact Hr.
  - intros r'. rewrite elem_of_cons, Hiff, elem_of_union, elem_of_singleton.
    tauto.
Qed.

Lemma checkLineSegment_invariant (w0 : World) x1 y1 x2 y2
    (candidates : list (ref * nat)) :
  forall (c : nat) (w : World),
    hit_invariant w0 w ->
    hit_invariant w0
      (CollisionDetector.checkLineSegmentCollisionsForCandidates
         x1 y1 x2 y2 c candidates w).
Proof.
  induction candidates as [| [r idx] rest IH]; intros c w Hinv; [exact Hinv |].
  cbn [CollisionDetector.checkLineSegmentCollisionsForCandidates].
  apply IH.
  destruct (heap w !! r) as [fruit |]; [| exact Hinv].
  destruct (Fruit.sliced fruit); cbn [orb]; [exact Hinv |].
  case_bool_decide as Hin; [exact Hinv |].
  destruct (Fruit.intersectsLine x1 y1 x2 y2 fruit); [| exact Hinv].
  now apply handleFruitCollision_invariant.
Qed.

Lemma checkSegments_invariant (w0 : World) (candidates : list (ref * nat))
    (points : list SwipePoint) :
  forall w : World,
    hit_invariant w0 w ->
    hit_invariant w0 (CollisionDetector.checkSegments points candidates w).
Proof.
  induction points as [| p1 rest IH]; intros w Hinv; [exact Hinv |].
  destruct rest as [| p2 rest']; [exact Hinv |].
  change (hit_invariant w0
            (CollisionDetector.checkSegments (p2 :: rest') candidates
               (CollisionDetector.checkLineSegmentCollisionsForCandidates
                  (sp_x p1) (sp_y p1) (sp_x p2) (sp_y p2) 0 candidates w))).
  apply IH. now apply checkLineSegment_invariant.
Qed.

Lemma checkSwipeCollisions_invariant (w0 w : World) :
  hit_invariant w0 w ->
  hit_invariant w0 (CollisionDetector.checkSwipeCollisions w).
Proof.
  intros Hinv. unfold CollisionDetector.checkSwipeCollisions.
  destruct (_ <? 2)%nat; [exact Hinv |].
  now apply checkSegments_invariant.
Qed.

Lemma update_invariant (w : World) :
  exists evs,
    since w (CollisionDetector.update w) evs
    /\ NoDup (hitsOf evs) /\ rendersOf evs = 0%nat
    /\ forall r,
         r ∈ hitsOf evs <->
         r ∈ processedCollisions (collisionDetector (CollisionDetector.update w)).
Proof.
  unfold CollisionDetector.update.
  set (w1 := set_collisionDetector _ w).
  assert (Hinv : hit_invariant w1 w1).
  { exists []. split; [reflexivity |]. split; [constructor |].
    split; [reflexivity |]. intros r. cbn. set_solver. }
  assert (Ht : trace w1 = trace w) by reflexivity.
  assert (Hgoal : forall w', hit_invariant w1 w' ->
            exists evs, since w w' evs /\ NoDup (hitsOf evs)
              /\ rendersOf evs = 0%nat
              /\ forall r, r ∈ hitsOf evs
                    <-> r ∈ processedCollisions (collisionDetector w')).
  { intros w' (evs & Hev & H). exists evs. unfold since in *.
    now rewrite <- Ht. }
  destruct (negb _ || _); apply Hgoal; [exact Hinv |].
  now apply checkSwipeCollisions_invariant.
Qed.

(** C2: one collision update hands any fruit to [handleFruitCollision] at
    most once, whatever the number of tested segments that intersect it:
    the hits of the update are without repetition and are exactly the
    members of the processed set; the set is cleared when the update
    starts (what it held before has no influence), and a fruit in the set
    is skipped by the candidate loop. *)
Theorem collision_resolves_each_fruit_once (w : World) :
  let w' := CollisionDetector.update w in
  (exists new : list event,
     trace w' = new ++ trace w
     /\ NoDup (hitsOf new)
     /\ forall r, r ∈ hitsOf new
              <-> r ∈ processedCollisions (collisionDetector w'))
  /\ (forall P : gset ref,
        CollisionDetector.update
          (set_collisionDetector
             (set_processedCollisions P (collisionDetector w)) w)
        = w')
  /\ (forall x1 y1 x2 y2 c r idx rest (w1 : World),
        r ∈ processedCollisions (collisionDetector w1) ->
        CollisionDetector.checkLineSegmentCollisionsForCandidates
          x1 y1 x2 y2 c ((r, idx) :: rest) w1
        = CollisionDetector.checkLineSegmentCollisionsForCandidates
            x1 y1 x2 y2 (S c) rest w1).
Proof.
  cbv zeta. split; [| split].
  - destruct (update_invariant w) as (evs & Hev & Hnd & _ & Hiff).
    exists evs. split; [exact Hev | split; [exact Hnd | exact Hiff]].
  - intros P. reflexivity.
  - intros x1 y1 x2 y2 c r idx rest w1 Hin.
    cbn [CollisionDetector.checkLineSegmentCollisionsForCandidates].
    destruct (heap w1 !! r) as [fruit |]; [| reflexivity].
    rewrite bool_decide_eq_true_2 by exact Hin. now rewrite orb_true_r.
Qed.

(** A swipe of four segments, each through the same fruit, resolves it
    once; the hit fruit is sliced and scores one point. *)
Example one_fruit_four_segments :
  let w :=
    Demo.withSwipe
      [(380, 300); (390, 300); (400, 300); (410, 300); (420, 300)]%Q
      (Demo.withFruit (Demo.fruitAt Fruit.fruit 400%Q 300%Q) Demo.world) in
  let w' := CollisionDetector.update w in
  hitsOf (trace w') = [0%nat]
  /\ GameState.score (gameState w') = 1%Z
  /\ Fruit.sliced <$> (heap w' !! 0%nat) = Some true.
Proof. vm_compute. repeat split. Qed.

Lemma handleFruitCollision_heap (r : ref) (i : nat) (w : World) :
  heap (CollisionDetector.handleFruitCollision r i w)
  = match heap w !! r with
    | Some f => <[r := Fruit.with_sliced true f]> (heap w)
    | None => heap w
    end.
Proof.
  unfold CollisionDetector.handleFruitCollision.
  set (w1 := set_collisionDetector _ (emit (EvHit r) w)).
  pose proof (slice_heap r w1) as Hh.
  change (heap w1) with (heap w) in Hh.
  destruct (FruitWorld.slice r w1) as [res w2]. cbn [snd] in Hh.
  rewrite <- Hh. clearbody w1.
  set (w3 := match res, heap w2 !! r with
             | Some (BombResult _ _), Some fruit =>
                 CollisionDetector.handleBombExplosion fruit w2
             | Some (FruitResult _ _ _), Some fruit =>
                 CollisionDetector.handleFruitSlice fruit w2
             | _, _ => w2
             end).
  assert (H3 : heap w3 = heap w2).
  { unfold w3. destruct res as [[? ? | ? ? ?] |];
      destruct (heap w2 !! r) as [fr |].
    - now destruct (handleBombExplosion_frame fr w2) as (_ & H & _).
    - reflexivity.
    - now destruct (handleFruitSlice_frame fr w2) as (_ & H & _).
    - reflexivity.
    - reflexivity.
    - reflexivity. }
  clearbody w3. exact H3.
Qed.

(** A call of [handleFruitCollision] for a fruit that is already sliced
    only records the call and the time. *)
Lemma handleFruitCollision_sliced (r : ref) (i : nat) (w : World) (f : Fruit.t) :
  heap w !! r = Some f -> Fruit.sliced f = true ->
  let w' := CollisionDetector.handleFruitCollision r i w in
  gameState w' = gameState w /\ heap w' = heap w
  /\ localStorage w' = localStorage w /\ spawnManager w' = spawnManager w
  /\ trace w' = EvHit r :: trace w.
Proof.
  intros Hf Hs. unfold CollisionDetector.handleFruitCollision.
  set (w1 := set_collisionDetector _ (emit (EvHit r) w)).
  rewrite (slice_sliced r w1 f Hf Hs). cbn. repeat split.
Qed.

Lemma registerSlice_highScores (now : Q) (g : GameState.t) :
  GameState.highScores (GameState.registerSlice now g) = GameState.highScores g.
Proof. unfold GameState.registerSlice. now destruct (JS.ltb _ _). Qed.

Lemma slice_bomb (r : ref) (w : World) (f : Fruit.t) :
  heap w !! r = Some f -> Fruit.type f = Fruit.bomb -> Fruit.sliced f = false ->
  let res := FruitWorld.slice r w in
  (exists x y, fst res = Some (BombResult x y))
  /\ GameState.gameOver (gameState (snd res)) = true
  /\ trace (snd res) = EvSound BombCutSound :: trace w
  /\ exists e : HighScore,
       GameState.highScores (gameState (snd res))
       = take 10 (sort_desc (GameState.highScores (gameState w) ++ [e])).
Proof.
  intros Hf Ht Hs. unfold FruitWorld.slice. rewrite Hf, Hs, Ht.
  unfold performance_now, Date_now.
  set (w1 := set_heap _ w).
  set (now := performance_now_at (env w1) (tick w1)).
  set (w3 := modify_gameState (GameState.registerSlice now) (set_tick (S (tick w1)) w1)).
  set (w4 := emit (EvSound BombCutSound) w3).
  set (date := Date_now_at (env w4) (tick w4)).
  set (w5 := set_tick (S (tick w4)) w4).
  assert (Hg5 : gameState w5 = GameState.registerSlice now (gameState w))
    by reflexivity.
  assert (Ht5 : trace w5 = EvSound BombCutSound :: trace w) by reflexivity.
  clearbody w5.
  pose proof (HighScoreFacts.triggerGameOver_fields date (localStorage w5)
                (gameState w5)) as Heff.
  cbv zeta in Heff.
  destruct (GameState.triggerGameOver date (localStorage w5) (gameState w5))
    as [g st].
  cbn [fst snd] in Heff |- *.
  destruct Heff as (Hgo & _ & _ & Hhs & _).
  change (gameState (set_localStorage st (set_gameState g w5))) with g.
  change (trace (set_localStorage st (set_gameState g w5))) with (trace w5).
  split; [eauto |]. split; [exact Hgo |]. split; [exact Ht5 |].
  eexists. rewrite Hhs, Hg5, registerSlice_highScores. reflexivity.
Qed.

Lemma soundsOf_app (a b : list event) : soundsOf (a ++ b) = soundsOf a ++ soundsOf b.
Proof. unfold soundsOf. apply omap_app. Qed.

Lemma handleFruitCollision_bomb (r : ref) (i : nat) (w : World) (f : Fruit.t) :
  heap w !! r = Some f -> Fruit.type f = Fruit.bomb -> Fruit.sliced f = false ->
  let w' := CollisionDetector.handleFruitCollision r i w in
  GameState.gameOver (gameState w') = true
  /\ soundsOf (trace w') = BombCutSound :: soundsOf (trace w)
  /\ exists e : HighScore,
       GameState.highScores (gameState w')
       = take 10 (sort_desc (GameState.highScores (gameState w) ++ [e])).
Proof.
  intros Hf Ht Hs. unfold CollisionDetector.handleFruitCollision.
  set (w1 := set_collisionDetector _ (emit (EvHit r) w)).
  assert (Hf1 : heap w1 !! r = Some f) by exact Hf.
  assert (Ht1 : trace w1 = EvHit r :: trace w) by reflexivity.
  assert (Hg1 : gameState w1 = gameState w) by reflexivity.
  clearbody w1.
  destruct (slice_bomb r w1 f Hf1 Ht Hs) as ((x & y & Hres) & Hgo & Htr & Hhs).
  pose proof (slice_marks r w1 f Hf1) as Hm.
  destruct (FruitWorld.slice r w1) as [res w2]. cbn [fst snd] in *.
  subst res. rewrite Hm.
  set (w3 := CollisionDetector.handleBombExplosion _ w2).
  assert (Hgo3 : GameState.gameOver (gameState w3) = true) by exact Hgo.
  assert (Hhs3 : GameState.highScores (gameState w3)
                 = GameState.highScores (gameState w2)) by reflexivity.
  assert (Ht3 : trace w3 = trace w2) by reflexivity.
  clearbody w3. unfold performance_now.
  change (gameState (set_collisionDetector
            (set_lastCollisionTime (performance_now_at (env w3) (tick w3))
               (collisionDetector (set_tick (S (tick w3)) w3)))
            (set_tick (S (tick w3)) w3)))
    with (gameState w3).
  change (trace (set_collisionDetector
            (set_lastCollisionTime (performance_now_at (env w3) (tick w3))
               (collisionDetector (set_tick (S (tick w3)) w3)))
            (set_tick (S (tick w3)) w3)))
    with (trace w3).
  split; [exact Hgo3 |]. split.
  - rewrite Ht3, Htr, Ht1. reflexivity.
  - destruct Hhs as [e He]. exists e. now rewrite Hhs3, He, Hg1.
Qed.

(** C10: [slice()] on a fruit whose [sliced] flag is set returns [null]
    (here [None]) and leaves the whole state as it is; [slice()] only ever
    sets the flag and [update] keeps it; so when a bomb is resolved twice,
    the first resolution sets game over, plays the bomb sound and appends
    one high-score entry, and the second changes neither the game state
    nor the storage nor the fruit objects and plays no sound. *)
Theorem sliced_flag_is_write_once :
  (forall (r : ref) (w : World) (f : Fruit.t),
     heap w !! r = Some f -> Fruit.sliced f = true ->
     FruitWorld.slice r w = (None, w))
  /\ (forall (r : ref) (w : World) (f : Fruit.t),
        heap w !! r = Some f ->
        heap (snd (FruitWorld.slice r w)) !! r
        = Some (Fruit.with_sliced true f))
  /\ (forall (dt : Q) (f : Fruit.t),
        Fruit.sliced (Fruit.update dt f) = Fruit.sliced f)
  /\ (forall (r : ref) (i j : nat) (w : World) (f : Fruit.t),
        heap w !! r = Some f -> Fruit.type f = Fruit.bomb ->
        Fruit.sliced f = false ->
        let w1 := CollisionDetector.handleFruitCollision r i w in
        let w2 := CollisionDetector.handleFruitCollision r j w1 in
        GameState.gameOver (gameState w1) = true
        /\ soundsOf (trace w1) = BombCutSound :: soundsOf (trace w)
        /\ (exists e : HighScore,
              GameState.highScores (gameState w1)
              = take 10 (sort_desc (GameState.highScores (gameState w) ++ [e])))
        /\ gameState w2 = gameState w1
        /\ localStorage w2 = localStorage w1
        /\ heap w2 = heap w1
        /\ soundsOf (trace w2) = soundsOf (trace w1)).
Proof.
  split; [exact slice_sliced |]. split; [exact slice_marks |].
  split; [reflexivity |].
  intros r i j w f Hf Ht Hs w1 w2.
  destruct (handleFruitCollision_bomb r i w f Hf Ht Hs) as (Hgo & Hsnd & Hhs).
  fold w1 in Hgo, Hsnd, Hhs.
  assert (Hf1 : heap w1 !! r = Some (Fruit.with_sliced true f)).
  { unfold w1. rewrite handleFruitCollision_heap, Hf. apply lookup_insert_eq. }
  destruct (handleFruitCollision_sliced r j w1 _ Hf1 eq_refl)
    as (Hg & Hh & Hst & _ & Htr).
  fold w2 in Hg, Hh, Hst, Htr.
  repeat split; trivial. now rewrite Htr.
Qed.

(** The hypotheses of the bomb scenario hold for a bomb placed in the demo
    world. *)
Lemma sliced_flag_is_write_once_witness :
  let w := Demo.withFruit (Demo.fruitAt Fruit.bomb 400%Q 300%Q) Demo.world in
  let w1 := CollisionDetector.handleFruitCollision 0%nat 0%nat w in
  let w2 := CollisionDetector.handleFruitCollision 0%nat 0%nat w1 in
  heap w !! 0%nat = Some (Demo.fruitAt Fruit.bomb 400%Q 300%Q)
  /\ GameState.gameOver (gameState w1) = true
  /\ gameState w2 = gameState w1.
Proof.
  cbv zeta.
  pose proof sliced_flag_is_write_once as (_ & _ & _ & H).
  specialize (H 0%nat 0%nat 0%nat
                (Demo.withFruit (Demo.fruitAt Fruit.bomb 400%Q 300%Q) Demo.world)
                (Demo.fruitAt Fruit.bomb 400%Q 300%Q) eq_refl eq_refl eq_refl).
  cbv zeta in H. destruct H as (H1 & _ & _ & H2 & _).
  split; [reflexivity |]. split; [exact H1 | exact H2].
Defined.

End CollisionFacts.

(** ** Spawn scheduler *)

Module SpawnFacts.
Local Open Scope Q_scope.
Import Vocabulary.

Lemma len_ge (A : Type) (l : list A) (n : nat) :
  JS.geb (len l) (inject_Z (Z.of_nat n)) = true <-> (n <= length l)%nat.
Proof.
  unfold JS.geb, len. rewrite Qle_bool_iff, <- Zle_Qle. lia.
Qed.

Lemma fruitCap_reached (w : World) :
  JS.geb (len (GameState.fruits (gameState w))) SpawnManager.fruitCap = true
  <-> (18 <= length (GameState.fruits (gameState w)))%nat.
Proof. apply (len_ge _ _ 18). Qed.

(** [createRandom] only draws random numbers. *)
Lemma createRandom_frame (cw ch : Q) (w : World) :
  let w' := snd (FruitWorld.createRandom cw ch w) in
  gameState w' = gameState w /\ heap w' = heap w /\ nextRef w' = nextRef w
  /\ spawnManager w' = spawnManager w /\ trace w' = trace w
  /\ collisionDetector w' = collisionDetector w
  /\ localStorage w' = localStorage w.
Proof.
  unfold FruitWorld.createRandom. cbn.
  destruct (JS.ltb _ _); cbn; repeat split.
Qed.

Lemma spawnItem_at_cap (w : World) :
  (18 <= length (GameState.fruits (gameState w)))%nat ->
  SpawnManager.spawnItem w = w.
Proof.
  intros H. apply fruitCap_reached in H.
  unfold SpawnManager.spawnItem. now rewrite H.
Qed.

Lemma spawnItem_below_cap (w : World) :
  (length (GameState.fruits (gameState w)) < 18)%nat ->
  let w' := SpawnManager.spawnItem w in
  GameState.fruits (gameState w')
  = GameState.fruits (gameState w) ++ [nextRef w]
  /\ (exists f : Fruit.t, heap w' = <[nextRef w := f]> (heap w))
  /\ nextRef w' = S (nextRef w)
  /\ spawnManager w' = spawnManager w.
Proof.
  intros H.
  assert (Hc : JS.geb (len (GameState.fruits (gameState w)))
                 SpawnManager.fruitCap = false).
  { apply not_true_is_false. rewrite fruitCap_reached. lia. }
  unfold SpawnManager.spawnItem. rewrite Hc.
  pose proof (createRandom_frame (canvasWidth w) (canvasHeight w) w) as Hfr.
  destruct (FruitWorld.createRandom _ _ w) as [f w1]. cbn [snd] in Hfr.
  destruct Hfr as (Hg & Hh & Hn & Hs & _).
  destruct (Fruit.type f); cbn; rewrite Hg, Hh, Hn, Hs;
    (split; [reflexivity | split; [now exists f | split; reflexivity]]).
Qed.



End SpawnFacts.

(** ** Main loop *)

Module EngineFacts.
Local Open Scope Q_scope.
Import Vocabulary CollisionFacts.

Lemma no_render_refl (w w' : World) : trace w' = trace w -> no_render w w'.
Proof. intros H. exists []. now split. Qed.

Lemma no_render_trans (w1 w2 w3 : World) :
  no_render w1 w2 -> no_render w2 w3 -> no_render w1 w3.
Proof.
  intros (e1 & H1 & R1) (e2 & H2 & R2). exists (e2 ++ e1). unfold since in *.
  rewrite H2, H1, app_assoc. split; [reflexivity |].
  rewrite rendersOf_app. lia.
Qed.

Lemma no_render_count (w w' : World) :
  no_render w w' -> rendersOf (trace w') = rendersOf (trace w).
Proof.
  intros (evs & H & R). unfold since in H. now rewrite H, rendersOf_app, R.
Qed.

Lemma spawnItem_no_render (w : World) : no_render w (SpawnManager.spawnItem w).
Proof.
  unfold SpawnManager.spawnItem. destruct (JS.geb _ _); [now apply no_render_refl |].
  pose proof (SpawnFacts.createRandom_frame (canvasWidth w) (canvasHeight w) w) as Hfr.
  destruct (FruitWorld.createRandom _ _ w) as [f w1]. cbn [snd] in Hfr.
  destruct Hfr as (_ & _ & _ & _ & Ht & _).
  destruct (Fruit.type f);
    [exists [EvSound FruitSpawnSound] | exists [EvSound BombSpawnSound]];
    unfold since; cbn; now rewrite Ht.
Qed.

Lemma SpawnManager_update_no_render (dt : Q) (w : World) :
  no_render w (SpawnManager.update dt w).
Proof.
  unfold SpawnManager.update.
  destruct (GameState.gameOver _); [now apply no_render_refl |].
  set (w2 := SpawnManager.updateDifficulty _).
  assert (H2 : no_render w w2) by now apply no_render_refl.
  destruct (_ && _); [| exact H2].
  eapply no_render_trans; [exact H2 |].
  eapply no_render_trans; [apply spawnItem_no_render |].
  now apply no_render_refl.
Qed.

Lemma updateFruitsLoop_trace (dt : Q) (n : nat) :
  forall w : World, trace (GameEngine.updateFruitsLoop dt n w) = trace w.
Proof.
  induction n as [| n IH]; intros w; [reflexivity |].
  cbn [GameEngine.updateFruitsLoop].
  destruct (GameState.fruits (gameState w) !! n) as [r |]; [| apply IH].
  destruct (heap w !! r) as [fruit |]; [| apply IH].
  destruct (Fruit.shouldRemove _ _ _); now rewrite IH.
Qed.

Lemma CollisionDetector_update_no_render (w : World) :
  no_render w (CollisionDetector.update w).
Proof.
  destruct (update_invariant w) as (evs & Hev & _ & Hr & _). now exists evs.
Qed.

(** A fixed step never renders. *)
Lemma update_no_render (dt : Q) (w : World) :
  no_render w (GameEngine.update dt w).
Proof.
  unfold GameEngine.update.
  set (w0 := if (20 <? _)%nat then _ else w).
  assert (H0 : no_render w w0).
  { apply no_render_refl. unfold w0. now destruct (20 <? _)%nat. }
  set (w1 := GameEngine.updateGameState dt w0).
  assert (H1 : no_render w0 w1) by now apply no_render_refl.
  set (w2 := SpawnManager.update dt w1).
  assert (H2 : no_render w1 w2) by apply SpawnManager_update_no_render.
  set (w3 := GameEngine.updateFruits dt w2).
  assert (H3 : no_render w2 w3)
    by (apply no_render_refl; apply updateFruitsLoop_trace).
  set (w4 := modify_gameState _ w3).
  assert (H4 : no_render w3 w4) by now apply no_render_refl.
  set (w5 := CollisionDetector.update w4).
  assert (H5 : no_render w4 w5) by apply CollisionDetector_update_no_render.
  assert (H6 : no_render w5
                 (let '(now, w8) :=
                    performance_now
                      (modify_gameState GameState.updateDifficulty
                         (UIManager.update w5)) in
                  modify_gameState (GameState.updateComboStatus now) w8))
    by now apply no_render_refl.
  repeat (eapply no_render_trans; [eassumption |]).
  exact H6.
Qed.

Lemma iter_update_renders (dt : Q) (n : nat) (w : World) :
  rendersOf (trace (Nat.iter n (GameEngine.update dt) w)) = rendersOf (trace w).
Proof.
  induction n as [| n IH]; [reflexivity |].
  rewrite Nat.iter_succ, (no_render_count _ _ (update_no_render dt _)). exact IH.
Qed.

Lemma ofNat_S (n : nat) : ofNat (S n) == ofNat n + 1.
Proof.
  unfold ofNat. rewrite Nat2Z.inj_succ, <- Z.add_1_r, inject_Z_plus. reflexivity.
Qed.


Lemma handleGameOver_frame (e : GameEngineState) (w : World) :
  let r := GameEngine.handleGameOver e w in
  trace (snd r) = trace w /\ heap (snd r) = heap w
  /\ _accumulator (fst r) = _accumulator e
  /\ lastFrameTime (fst r) = lastFrameTime e
  /\ frameCount (fst r) = frameCount e
  /\ isRunning (fst r) = false.
Proof.
  unfold GameEngine.handleGameOver.
  destruct (find _ _); destruct (negb (gameOverLogged e)); cbn; repeat split.
Qed.

(** *** Comparisons of binary64 values *)

Lemma SFcompare_antisym (x y : B64.t) :
  SpecFloat.SFcompare y x = option_map CompOpp (SpecFloat.SFcompare x y).
Proof.
  destruct x as [sx | sx | | sx mx ex], y as [sy | sy | | sy my ey];
    try reflexivity; cbn;
    try (destruct sx; reflexivity); try (destruct sy; reflexivity);
    try (destruct sx, sy; reflexivity).
  destruct sx, sy; try reflexivity; cbn.
  - rewrite (Z.compare_antisym ey ex). destruct (ey ?= ex)%Z; cbn; try reflexivity.
    rewrite (Pos.compare_cont_antisym my mx Eq). cbn.
    now rewrite CompOpp_involutive.
  - rewrite (Z.compare_antisym ey ex). destruct (ey ?= ex)%Z; cbn; try reflexivity.
    rewrite (Pos.compare_cont_antisym mx my Eq). reflexivity.
Qed.

Lemma SFcompare_None (x y : B64.t) :
  SpecFloat.SFcompare x y = None <-> B64.isNaN x = true \/ B64.isNaN y = true.
Proof.
  destruct x as [sx | sx | | sx mx ex], y as [sy | sy | | sy my ey]; cbn;
    split; intros H; try discriminate; try tauto;
    try (destruct H; discriminate).
Qed.

Lemma B64_leb_refl (x : B64.t) : B64.isNaN x = false -> B64.leb x x = true.
Proof.
  unfold B64.leb, SpecFloat.SFleb.
  destruct x as [sx | sx | | sx mx ex]; cbn; try discriminate; intros _;
    try reflexivity.
  - now destruct sx.
  - destruct sx; rewrite Z.compare_refl;
      change (Pos.compare_cont Eq mx mx) with (mx ?= mx)%positive;
      now rewrite Pos.compare_refl.
Qed.

(** [Math.min]: without a [NaN], the result is one of the operands and
    neither operand is below it. *)
Lemma B64_min_spec (x y : B64.t) :
  (B64.isNaN x = false -> B64.isNaN y = false ->
   (B64.min x y = x \/ B64.min x y = y)
   /\ B64.leb (B64.min x y) x = true /\ B64.leb (B64.min x y) y = true)
  /\ (B64.isNaN x = true \/ B64.isNaN y = true -> B64.min x y = B64.NaN).
Proof.
  split.
  - intros Hx Hy. unfold B64.min.
    pose proof (SFcompare_antisym x y) as Ha.
    destruct (SpecFloat.SFcompare x y) as [[| |] |] eqn:Hc.
    + assert (Hxy : B64.leb x y = true)
        by (unfold B64.leb, SpecFloat.SFleb; now rewrite Hc).
      assert (Hyx : B64.leb y x = true)
        by (unfold B64.leb, SpecFloat.SFleb; now rewrite Ha).
      destruct x as [[|] | sx | | sx mx ex];
        (split; [auto |]); split; auto using B64_leb_refl.
    + split; [now left |]. split; [now apply B64_leb_refl |].
      unfold B64.leb, SpecFloat.SFleb. now rewrite Hc.
    + split; [now right |]. split; [| now apply B64_leb_refl].
      unfold B64.leb, SpecFloat.SFleb. now rewrite Ha.
    + apply SFcompare_None in Hc. destruct Hc; congruence.
  - intros H. apply SFcompare_None in H. unfold B64.min. now rewrite H.
Qed.

(** The [while] loop on binary64 values: it runs [n] fixed steps, each
    of which found the accumulator at least a step, and stops because the
    accumulator is not at least a step any more or the cap was reached. *)
Lemma fixedSteps64_spec (fuel : nat) (step : B64.t) :
  forall (acc : B64.t) (w : World),
  let after (i : nat) := Nat.iter i (fun a => B64.sub a step) acc in
  exists n : nat,
    (n <= fuel)%nat
    /\ (forall i : nat, (i < n)%nat -> B64.geb (after i) step = true)
    /\ ((n < fuel)%nat -> B64.geb (after n) step = false)
    /\ fst (GameEngine64.fixedSteps fuel step acc w) = after n
    /\ snd (GameEngine64.fixedSteps fuel step acc w)
       = Nat.iter n (GameEngine.update (B64.toQ step)) w.
Proof.
  induction fuel as [| fuel IH]; intros acc w after.
  - exists 0%nat. cbn [GameEngine64.fixedSteps fst snd Nat.iter].
    split; [lia |]. split; [intros i Hi; lia |]. split; [intros Hi; lia |].
    split; reflexivity.
  - cbn [GameEngine64.fixedSteps].
    destruct (B64.geb acc step) eqn:E.
    + destruct (IH (B64.sub acc step) (GameEngine.update (B64.toQ step) w))
        as (n & Hn & Hrun & Hstop & Hacc & Hw).
      assert (Hshift : forall i,
                Nat.iter i (fun a => B64.sub a step) (B64.sub acc step)
                = after (S i)).
      { intros i. unfold after. now rewrite Nat.iter_succ_r. }
      exists (S n). split; [lia |]. split; [| split; [| split]].
      * intros [| i] Hi; [exact E |].
        rewrite <- Hshift. apply Hrun. lia.
      * intros Hlt. rewrite <- Hshift. apply Hstop. lia.
      * rewrite Hacc. apply Hshift.
      * rewrite Hw. symmetry. apply Nat.iter_succ_r.
    + exists 0%nat. cbn [fst snd]. split; [lia |].
      split; [intros i Hi; lia |].
      split; [intros _; exact E |].
      split; reflexivity.
Qed.

(** C6: a callback that is not paused, with the clock in binary64.
    Without a baseline (as after start or resume, which both drop it) it
    records the time stamp and does nothing else.  With one, the delta in
    seconds is clamped to 1/15 (a delta that is not a number stays so)
    and added to the accumulator; then [n] fixed steps run, at most 8,
    each of which found the accumulator at least a step and took a step
    off it, and fewer than 8 steps leave an accumulator that is not at
    least a step; then the frame is rendered, exactly once, whatever [n]
    is. *)
Theorem gameLoop_fixed_steps (timestamp : B64.t) (c : GameEngine64.Clock)
    (e : GameEngineState) (w : World) (Hpaused : isPaused e = false) :
  let r := GameEngine64.gameLoop timestamp c e w in
  let w0 := if isRunning e then emit EvRequestFrame w else w in
  let step := GameEngine64._fixedDelta in
  let fifteenth := B64.div (B64.ofZ 1) (B64.ofZ 15) in
  (GameEngine64.truthy (GameEngine64.lastFrameTime c) = false ->
   r = ({| GameEngine64.lastFrameTime := Some timestamp;
           GameEngine64._accumulator := GameEngine64._accumulator c |},
        e, w0))
  /\ (forall (c0 : GameEngine64.Clock) (e0 : GameEngineState),
        isRunning e0 = true ->
        let r0 := GameEngine64.resumeGame c0 e0 in
        GameEngine64.lastFrameTime (fst r0) = None
        /\ GameEngine64._accumulator (fst r0) = GameEngine64._accumulator c0
        /\ isPaused (snd r0) = false)
  /\ (forall (c0 : GameEngine64.Clock) (e0 : GameEngineState) (w1 : World),
        isRunning e0 = false ->
        let r0 := GameEngine64.startGame c0 e0 w1 in
        GameEngine64.lastFrameTime (fst (fst r0)) = None
        /\ GameEngine64._accumulator (fst (fst r0)) = B64.zero
        /\ isPaused (snd (fst r0)) = false)
  /\ (forall last : B64.t,
        GameEngine64.lastFrameTime c = Some last -> B64.truthy last = true ->
        let raw := B64.div (B64.sub timestamp last) (B64.ofZ 1000) in
        let delta := B64.min raw fifteenth in
        let acc1 := B64.add (GameEngine64._accumulator c) delta in
        let after (i : nat) := Nat.iter i (fun a => B64.sub a step) acc1 in
        (B64.isNaN raw = false ->
         (delta = raw \/ delta = fifteenth)
         /\ B64.leb delta raw = true /\ B64.leb delta fifteenth = true)
        /\ (B64.isNaN raw = true -> delta = B64.NaN)
        /\ exists n : nat,
             (n <= 8)%nat
             /\ (forall i : nat, (i < n)%nat -> B64.geb (after i) step = true)
             /\ ((n < 8)%nat -> B64.geb (after n) step = false)
             /\ GameEngine64._accumulator (fst (fst r)) = after n
             /\ GameEngine64.lastFrameTime (fst (fst r)) = Some timestamp
             /\ frameCount (snd (fst r)) = S (frameCount e)
             /\ trace (snd r)
                = EvRender
                  :: trace (Nat.iter n (GameEngine.update (B64.toQ step)) w0)
             /\ (GameState.gameOver
                   (gameState
                      (Nat.iter n (GameEngine.update (B64.toQ step)) w0))
                 = false ->
                 snd r
                 = GameEngine.render
                     (Nat.iter n (GameEngine.update (B64.toQ step)) w0))
             /\ rendersOf (trace (snd r)) = S (rendersOf (trace w))).
Proof.
  intros r w0 step fifteenth. split; [| split; [| split]].
  - intros Hnone. unfold r, GameEngine64.gameLoop. now rewrite Hpaused, Hnone.
  - intros c0 e0 Hrun r0. unfold r0, GameEngine64.resumeGame.
    rewrite Hrun. cbn [negb fst snd GameEngine64.lastFrameTime
                       GameEngine64._accumulator].
    unfold GameEngine.resumeGame. rewrite Hrun. repeat split.
  - intros c0 e0 w1 Hrun r0. unfold r0, GameEngine64.startGame.
    rewrite Hrun.
    assert (Hp : isPaused (fst (GameEngine.startGame e0 w1)) = false).
    { unfold GameEngine.startGame. rewrite Hrun.
      destruct (GameEngine.resetAllSystems e0 w1) as [e1 w2]. reflexivity. }
    destruct (GameEngine.startGame e0 w1) as [e1 w2]. cbn [fst snd] in *.
    repeat split. exact Hp.
  - intros last Hlast Hlt raw delta acc1 after.
    split.
    { intros Hraw.
      assert (Hf : B64.isNaN fifteenth = false) by reflexivity.
      destruct (B64_min_spec raw fifteenth) as [Hmin _].
      exact (Hmin Hraw Hf). }
    split.
    { intros Hraw. destruct (B64_min_spec raw fifteenth) as [_ Hnan].
      apply Hnan. now left. }
    assert (Htruthy : GameEngine64.truthy (GameEngine64.lastFrameTime c) = true)
      by (rewrite Hlast; exact Hlt).
    destruct (fixedSteps64_spec 8 step acc1 w0)
      as (n & Hn & Hrun & Hstop & Hacc & Hw).
    fold after in Hrun, Hstop, Hacc.
    exists n. split; [exact Hn |]. split; [exact Hrun |]. split; [exact Hstop |].
    assert (Hr0 : rendersOf (trace w0) = rendersOf (trace w)).
    { unfold w0. now destruct (isRunning e). }
    unfold r, GameEngine64.gameLoop. rewrite Hpaused, Htruthy. cbn [negb].
    fold w0. rewrite Hlast. change (default B64.zero (Some last)) with last.
    fold raw. fold fifteenth. fold delta. fold acc1. fold step.
    change GameEngine.maxIterations with 8%nat.
    destruct (GameEngine64.fixedSteps 8 step acc1 w0) as [acc w1].
    cbn [fst snd] in Hacc, Hw. subst w1 acc.
    pose proof (iter_update_renders (B64.toQ step) n w0) as Hrn.
    rewrite Hr0 in Hrn.
    set (wl := Nat.iter n (GameEngine.update (B64.toQ step)) w0) in *.
    clearbody wl.
    destruct (GameState.gameOver (gameState (GameEngine.render wl))
              && isRunning e) eqn:Hgo.
    + pose proof (handleGameOver_frame e (GameEngine.render wl)) as Hfr.
      destruct (GameEngine.handleGameOver e (GameEngine.render wl)) as [e3 w3].
      cbn [fst snd] in Hfr |- *.
      destruct Hfr as (Ht & _ & _ & _ & Hf & _).
      cbn [GameEngine64._accumulator GameEngine64.lastFrameTime].
      change (frameCount (set_frameCount (S (frameCount e3)) e3))
        with (S (frameCount e3)).
      rewrite Hf, Ht.
      change (trace (GameEngine.render wl)) with (EvRender :: trace wl).
      split; [reflexivity |]. split; [reflexivity |]. split; [reflexivity |].
      split; [reflexivity |]. split.
      * intros Hng. apply andb_true_iff in Hgo. destruct Hgo as [Hgo _].
        change (GameState.gameOver (gameState wl) = true) in Hgo. congruence.
      * change (rendersOf (EvRender :: trace wl)) with (S (rendersOf (trace wl))).
        now rewrite Hrn.
    + cbn [fst snd GameEngine64._accumulator GameEngine64.lastFrameTime].
      change (frameCount (set_frameCount (S (frameCount e)) e))
        with (S (frameCount e)).
      change (trace (GameEngine.render wl)) with (EvRender :: trace wl).
      split; [reflexivity |]. split; [reflexivity |]. split; [reflexivity |].
      split; [reflexivity |]. split; [reflexivity |].
      change (rendersOf (EvRender :: trace wl)) with (S (rendersOf (trace wl))).
      now rewrite Hrn.
Qed.

(** The hypothesis holds for the started engine, whose baseline is
    1000 ms, called back at 1016 ms: one step runs and one frame is
    rendered. *)
Lemma gameLoop_fixed_steps_witness :
  let r :=
    GameEngine64.gameLoop (B64.ofZ 1016) Demo.clock Demo.engine Demo.started in
  isPaused Demo.engine = false
  /\ GameEngine64.lastFrameTime (fst (fst r)) = Some (B64.ofZ 1016)
  /\ frameCount (snd (fst r)) = S (frameCount Demo.engine)
  /\ rendersOf (trace (snd r)) = S (rendersOf (trace Demo.started))
  /\ GameState.elapsedTime (gameState (snd r))
     == B64.toQ GameEngine64._fixedDelta.
Proof.
  intros r.
  destruct (gameLoop_fixed_steps (B64.ofZ 1016) Demo.clock Demo.engine
              Demo.started eq_refl) as (_ & _ & _ & H).
  destruct (H (B64.ofZ 1000) eq_refl eq_refl)
    as (_ & _ & n & _ & _ & _ & _ & Hl & Hf & _ & _ & Hr).
  split; [reflexivity |]. split; [exact Hl |]. split; [exact Hf |].
  split; [exact Hr |]. vm_compute. reflexivity.
Defined.

(** The step is the double nearest to 1/120, which is below 1/120. *)
Example fixedDelta_value :
  GameEngine64._fixedDelta
  = SpecFloat.S754_finite false 4803839602528529 (-59)
  /\ B64.toQ GameEngine64._fixedDelta < 1 / 120.
Proof. split; reflexivity. Qed.

(** With the baseline at 1000 ms, callbacks at 1015, 1020 and 1025 ms run
    one step, one step and no step: after the third the accumulator is
    one unit in the last place below the step.  In exact arithmetic the
    third callback would find exactly one step in the accumulator and run
    it. *)
Example gameLoop_three_callbacks :
  let step := B64.toQ GameEngine64._fixedDelta in
  let s0 := (Demo.clock, Demo.engine, Demo.started) in
  let s1 := GameEngine64.callbacks [B64.ofZ 1015] s0 in
  let s2 := GameEngine64.callbacks [B64.ofZ 1020] s1 in
  let s3 := GameEngine64.callbacks [B64.ofZ 1025] s2 in
  let exact :=
    Frames.callbacks [1015; 1020; 1025] (Demo.engine, Demo.started) in
  GameState.elapsedTime (gameState (snd s1)) == step
  /\ GameState.elapsedTime (gameState (snd s2)) == 2 * step
  /\ GameState.elapsedTime (gameState (snd s3)) == 2 * step
  /\ GameEngine64._accumulator (fst (fst s3))
     = SpecFloat.S754_finite false 4803839602528528 (-59)
  /\ rendersOf (trace (snd s3)) = 3%nat
  /\ GameState.elapsedTime (gameState (snd exact)) == 3 * (1 / 120).
Proof. vm_compute. repeat split. Qed.

(** A frame of 4 ms runs no step, keeps the 4 ms and renders once. *)
Example gameLoop_4ms :
  let r :=
    GameEngine64.gameLoop (B64.ofZ 1004) Demo.clock Demo.engine Demo.started in
  GameState.elapsedTime (gameState (snd r)) == 0
  /\ GameEngine64._accumulator (fst (fst r))
     = B64.div (B64.ofZ 4) (B64.ofZ 1000)
  /\ rendersOf (trace (snd r)) = 1%nat.
Proof. vm_compute. repeat split. Qed.

(** A gap of one second is clamped to 1/15 s: eight steps and one render;
    what the rounding leaves in the accumulator is not zero. *)
Example gameLoop_1000ms :
  let r :=
    GameEngine64.gameLoop (B64.ofZ 2000) Demo.clock Demo.engine Demo.started in
  GameState.elapsedTime (gameState (snd r))
  == 8 * B64.toQ GameEngine64._fixedDelta
  /\ GameEngine64._accumulator (fst (fst r))
     = SpecFloat.S754_finite false 6755399441055744 (-109)
  /\ rendersOf (trace (snd r)) = 1%nat.
Proof. vm_compute. repeat split. Qed.

(** With a full second already in the accumulator the loop stops at the
    cap of eight steps and leaves the rest. *)
Example gameLoop_cap :
  let c :=
    {| GameEngine64.lastFrameTime := Some (B64.ofZ 1000);
       GameEngine64._accumulator := B64.ofZ 1 |} in
  let r := GameEngine64.gameLoop (B64.ofZ 1016) c Demo.engine Demo.started in
  GameState.elapsedTime (gameState (snd r))
  == 8 * B64.toQ GameEngine64._fixedDelta
  /\ B64.geb (GameEngine64._accumulator (fst (fst r))) GameEngine64._fixedDelta
     = true
  /\ rendersOf (trace (snd r)) = 1%nat.
Proof. vm_compute. repeat split. Qed.

(** The first callback after [startGame] only records the time stamp. *)
Example gameLoop_first_callback :
  let st :=
    GameEngine64.startGame GameEngine64.new GameEngine.new Demo.world in
  let r :=
    GameEngine64.gameLoop (B64.ofZ 1000) (fst (fst st)) (snd (fst st))
      (snd st) in
  GameEngine64.lastFrameTime (fst (fst r)) = Some (B64.ofZ 1000)
  /\ GameEngine64._accumulator (fst (fst r)) = B64.zero
  /\ gameState (snd r) = gameState (snd st)
  /\ rendersOf (trace (snd r)) = 0%nat.
Proof. vm_compute. repeat split. Qed.

End EngineFacts.

(** ** What the collision pass leaves alone *)

Module FrameFacts.
Import Vocabulary Frames.

Lemma slicedMore_refl (f : Fruit.t) : slicedMore f f.
Proof. split; [now destruct f | auto]. Qed.

Lemma slicedMore_trans (f1 f2 f3 : Fruit.t) :
  slicedMore f1 f2 -> slicedMore f2 f3 -> slicedMore f1 f3.
Proof.
  intros [H1 H1'] [H2 H2']. split; [| auto].
  etransitivity; [exact H2 |]. generalize (Fruit.sliced f3). intros b.
  rewrite H1. reflexivity.
Qed.

Lemma slicedMore_set (f : Fruit.t) : slicedMore f (Fruit.with_sliced true f).
Proof. split; reflexivity. Qed.

Lemma quiet_app (a b : list event) : quiet a -> quiet b -> quiet (a ++ b).
Proof. apply Forall_app_2. Qed.

Lemma quiet_renders (evs : list event) : quiet evs -> rendersOf evs = 0%nat.
Proof.
  induction 1 as [| [] l Hx _ IH]; try reflexivity; try exact IH; contradiction.
Qed.

Lemma quiet_requests (evs : list event) : quiet evs -> requestsOf evs = 0%nat.
Proof.
  induction 1 as [| [] l Hx _ IH]; try reflexivity; try exact IH; contradiction.
Qed.


Lemma heap_same (h h' : gmap ref Fruit.t) :
  h' = h ->
  forall r,
    match h !! r, h' !! r with
    | Some f, Some f' => slicedMore f f'
    | None, None => True
    | _, _ => False
    end.
Proof.
  intros -> r. destruct (h !! r); [apply slicedMore_refl | exact I].
Qed.

Lemma heap_sliced (h : gmap ref Fruit.t) (r0 : ref) (f0 : Fruit.t) :
  h !! r0 = Some f0 ->
  forall r,
    match h !! r, <[r0 := Fruit.with_sliced true f0]> h !! r with
    | Some f, Some f' => slicedMore f f'
    | None, None => True
    | _, _ => False
    end.
Proof.
  intros H0 r. destruct (decide (r = r0)) as [-> | Hne].
  - rewrite H0, lookup_insert_eq. apply slicedMore_set.
  - rewrite lookup_insert_ne by congruence.
    destruct (h !! r); [apply slicedMore_refl | exact I].
Qed.

Lemma collision_frame_refl (w : World) : collision_frame w w.
Proof.
  split; try reflexivity; [now apply heap_same |].
  exists []. split; [reflexivity | constructor].
Qed.

Lemma collision_frame_trans (w1 w2 w3 : World) :
  collision_frame w1 w2 -> collision_frame w2 w3 -> collision_frame w1 w3.
Proof.
  intros A B. split.
  - now rewrite (cf_fruits _ _ B), (cf_fruits _ _ A).
  - now rewrite (cf_swipePoints _ _ B), (cf_swipePoints _ _ A).
  - now rewrite (cf_isSwiping _ _ B), (cf_isSwiping _ _ A).
  - now rewrite (cf_elapsedTime _ _ B), (cf_elapsedTime _ _ A).
  - now rewrite (cf_nextRef _ _ B), (cf_nextRef _ _ A).
  - now rewrite (cf_spawnManager _ _ B), (cf_spawnManager _ _ A).
  - now rewrite (cf_canvasWidth _ _ B), (cf_canvasWidth _ _ A).
  - now rewrite (cf_canvasHeight _ _ B), (cf_canvasHeight _ _ A).
  - now rewrite (cf_env _ _ B), (cf_env _ _ A).
  - pose proof (cf_tick _ _ A). pose proof (cf_tick _ _ B). lia.
  - intros r. pose proof (cf_heap _ _ A r) as Ha.
    pose proof (cf_heap _ _ B r) as Hb.
    destruct (heap w1 !! r), (heap w2 !! r), (heap w3 !! r);
      try contradiction; try exact I.
    eapply slicedMore_trans; eassumption.
  - destruct (cf_trace _ _ A) as (ea & Ha & Hqa).
    destruct (cf_trace _ _ B) as (eb & Hb & Hqb).
    exists (eb ++ ea). unfold since in *.
    rewrite Hb, Ha, app_assoc. split; [reflexivity | now apply quiet_app].
Qed.

(** A write to the game state that keeps the arrays and the clock. *)
Lemma modify_collision_frame (f : GameState.t -> GameState.t) (w : World) :
  GameState.fruits (f (gameState w)) = GameState.fruits (gameState w) ->
  GameState.swipePoints (f (gameState w)) = GameState.swipePoints (gameState w) ->
  GameState.isSwiping (f (gameState w)) = GameState.isSwiping (gameState w) ->
  GameState.elapsedTime (f (gameState w)) = GameState.elapsedTime (gameState w) ->
  collision_frame w (modify_gameState f w).
Proof.
  intros H1 H2 H3 H4. split; try assumption; try reflexivity.
  - now apply heap_same.
  - exists []. split; [reflexivity | constructor].
Qed.

Lemma emit_sound_frame (s : sound) (w : World) :
  collision_frame w (emit (EvSound s) w).
Proof.
  split; try reflexivity; [now apply heap_same |].
  exists [EvSound s]. split; [reflexivity |]. now repeat constructor.
Qed.

Lemma emit_hit_frame (r : ref) (w : World) :
  collision_frame w (emit (EvHit r) w).
Proof.
  split; try reflexivity; [now apply heap_same |].
  exists [EvHit r]. split; [reflexivity |]. now repeat constructor.
Qed.

Lemma set_tick_frame (n : nat) (w : World) :
  (tick w <= n)%nat -> collision_frame w (set_tick n w).
Proof.
  intros Hn. split; try reflexivity; try assumption; [now apply heap_same |].
  exists []. split; [reflexivity | constructor].
Qed.

Lemma set_collisionDetector_frame (c : CollisionDetectorState) (w : World) :
  collision_frame w (set_collisionDetector c w).
Proof.
  split; try reflexivity; [now apply heap_same |].
  exists []. split; [reflexivity | constructor].
Qed.

Lemma set_localStorage_frame (s : Storage.t) (w : World) :
  collision_frame w (set_localStorage s w).
Proof.
  split; try reflexivity; [now apply heap_same |].
  exists []. split; [reflexivity | constructor].
Qed.

Lemma registerSlice_arrays (now : Q) (g : GameState.t) :
  let g' := GameState.registerSlice now g in
  GameState.fruits g' = GameState.fruits g
  /\ GameState.swipePoints g' = GameState.swipePoints g
  /\ GameState.isSwiping g' = GameState.isSwiping g
  /\ GameState.elapsedTime g' = GameState.elapsedTime g.
Proof. cbv zeta. unfold GameState.registerSlice. now destruct (JS.ltb _ _). Qed.

Lemma triggerGameOver_arrays (date : Z) (st : Storage.t) (g : GameState.t) :
  let g' := fst (GameState.triggerGameOver date st g) in
  GameState.fruits g' = GameState.fruits g
  /\ GameState.swipePoints g' = GameState.swipePoints g
  /\ GameState.isSwiping g' = GameState.isSwiping g
  /\ GameState.elapsedTime g' = GameState.elapsedTime g.
Proof.
  cbv zeta. unfold GameState.triggerGameOver.
  cbn [GameState.bestScore GameState.score GameState.set_gameOver].
  now destruct (_ <? _)%Z.
Qed.

Lemma slice_collision_frame (r : ref) (w : World) :
  collision_frame w (snd (FruitWorld.slice r w)).
Proof.
  unfold FruitWorld.slice.
  destruct (heap w !! r) as [f |] eqn:Hf; [| apply collision_frame_refl].
  destruct (Fruit.sliced f) eqn:Hs; [apply collision_frame_refl |].
  set (w1 := set_heap _ w).
  assert (F1 : collision_frame w w1).
  { split; try reflexivity; [now apply heap_sliced |].
    exists []. split; [reflexivity | constructor]. }
  unfold performance_now.
  set (now := performance_now_at (env w1) (tick w1)).
  set (w2 := set_tick (S (tick w1)) w1).
  assert (F2 : collision_frame w1 w2) by (apply set_tick_frame; lia).
  set (w3 := modify_gameState (GameState.registerSlice now) w2).
  assert (F3 : collision_frame w2 w3).
  { destruct (registerSlice_arrays now (gameState w2)) as (A & B & C & D).
    now apply modify_collision_frame. }
  assert (F : collision_frame w w3)
    by (eapply collision_frame_trans; [| exact F3];
        eapply collision_frame_trans; eassumption).
  clearbody w3. clear F1 F2 F3. clearbody w1.
  destruct (Fruit.type f).
  - cbn [snd]. eapply collision_frame_trans; [exact F | apply emit_sound_frame].
  - set (w4 := emit (EvSound BombCutSound) w3).
    assert (F4 : collision_frame w w4)
      by (eapply collision_frame_trans; [exact F | apply emit_sound_frame]).
    clearbody w4. unfold Date_now.
    set (date := Date_now_at (env w4) (tick w4)).
    set (w5 := set_tick (S (tick w4)) w4).
    assert (F5 : collision_frame w w5)
      by (eapply collision_frame_trans; [exact F4 | apply set_tick_frame; lia]).
    clearbody w5.
    pose proof (triggerGameOver_arrays date (localStorage w5) (gameState w5))
      as Harr. cbv zeta in Harr.
    destruct (GameState.triggerGameOver date (localStorage w5) (gameState w5))
      as [g st]. cbn [fst snd] in *.
    destruct Harr as (A & B & C & D).
    eapply collision_frame_trans; [exact F5 |].
    eapply collision_frame_trans; [| apply set_localStorage_frame].
    apply (modify_collision_frame (fun _ => g)); assumption.
Qed.

Lemma handleBombExplosion_collision_frame (b : Fruit.t) (w : World) :
  collision_frame w (CollisionDetector.handleBombExplosion b w).
Proof.
  unfold CollisionDetector.handleBombExplosion,
    EffectsManager.createBombExplosion.
  eapply collision_frame_trans; [| now apply modify_collision_frame].
  eapply collision_frame_trans; now apply modify_collision_frame.
Qed.

Lemma createFruitSliceEffect_collision_frame (f : Fruit.t) (cw : Q) (w : World) :
  collision_frame w (EffectsManager.createFruitSliceEffect f cw w).
Proof.
  unfold EffectsManager.createFruitSliceEffect.
  set (fx := createFruitSliceEffect_outcome _ _ _ _). clearbody fx.
  eapply collision_frame_trans; [| now apply modify_collision_frame].
  destruct (fx_comboSound fx);
    [apply emit_sound_frame | apply collision_frame_refl].
Qed.

Lemma comboSound_collision_frame (c : Z) (w : World) :
  collision_frame w
    (modify_gameState (GameState.set_lastComboSoundCount c)
       (emit (EvSound ComboSound) w)).
Proof.
  apply (collision_frame_trans _ (emit (EvSound ComboSound) w));
    [apply emit_sound_frame |].
  apply modify_collision_frame; reflexivity.
Qed.

Lemma createScreenFlash_collision_frame (color : string) (i d : Q) (w : World) :
  collision_frame w
    (modify_gameState (EffectsManager.createScreenFlash color i d) w).
Proof. now apply modify_collision_frame. Qed.

Lemma handleFruitSlice_collision_frame (f : Fruit.t) (w : World) :
  collision_frame w (CollisionDetector.handleFruitSlice f w).
Proof.
  unfold CollisionDetector.handleFruitSlice. cbv zeta.
  pose proof (createFruitSliceEffect_collision_frame f (canvasWidth w) w) as F1.
  set (w1 := EffectsManager.createFruitSliceEffect f (canvasWidth w) w) in *.
  clearbody w1.
  pose proof (createScreenFlash_collision_frame
                "rgba(255,50,50,0.2)"%string 0.3 0.2 w1) as F2.
  set (w2 := modify_gameState _ w1) in *. clearbody w2.
  assert (F : collision_frame w w2)
    by (eapply collision_frame_trans; eassumption).
  destruct (GameState.getDisplayCombo _) as [c |]; [| exact F].
  destruct (_ <? _)%Z; [| exact F].
  eapply collision_frame_trans; [exact F |].
  apply comboSound_collision_frame.
Qed.

Lemma handleFruitCollision_collision_frame (r : ref) (i : nat) (w : World) :
  collision_frame w (CollisionDetector.handleFruitCollision r i w).
Proof.
  unfold CollisionDetector.handleFruitCollision.
  set (w1 := set_collisionDetector _ (emit (EvHit r) w)).
  assert (F1 : collision_frame w w1)
    by (eapply collision_frame_trans;
        [apply emit_hit_frame | apply set_collisionDetector_frame]).
  clearbody w1.
  pose proof (slice_collision_frame r w1) as F2.
  destruct (FruitWorld.slice r w1) as [res w2]. cbn [snd] in F2.
  set (w3 := match res, heap w2 !! r with
             | Some (BombResult _ _), Some fruit =>
                 CollisionDetector.handleBombExplosion fruit w2
             | Some (FruitResult _ _ _), Some fruit =>
                 CollisionDetector.handleFruitSlice fruit w2
             | _, _ => w2
             end).
  assert (F3 : collision_frame w2 w3).
  { unfold w3. destruct res as [[? ? | ? ? ?] |];
      destruct (heap w2 !! r) as [fr |]; try apply collision_frame_refl.
    - apply handleBombExplosion_collision_frame.
    - apply handleFruitSlice_collision_frame. }
  clearbody w3. unfold performance_now.
  eapply collision_frame_trans; [exact F1 |].
  eapply collision_frame_trans; [exact F2 |].
  eapply collision_frame_trans; [exact F3 |].
  eapply collision_frame_trans; [apply (set_tick_frame (S (tick w3))); lia |].
  apply set_collisionDetector_frame.
Qed.

Lemma checkLineSegment_collision_frame x1 y1 x2 y2
    (candidates : list (ref * nat)) :
  forall (c : nat) (w : World),
    collision_frame w
      (CollisionDetector.checkLineSegmentCollisionsForCandidates
         x1 y1 x2 y2 c candidates w).
Proof.
  induction candidates as [| [r idx] rest IH]; intros c w;
    [apply collision_frame_refl |].
  cbn [CollisionDetector.checkLineSegmentCollisionsForCandidates].
  eapply collision_frame_trans; [| apply IH].
  destruct (heap w !! r) as [fruit |]; [| apply collision_frame_refl].
  destruct (Fruit.sliced fruit || _); [apply collision_frame_refl |].
  destruct (Fruit.intersectsLine x1 y1 x2 y2 fruit);
    [apply handleFruitCollision_collision_frame | apply collision_frame_refl].
Qed.

Lemma checkSegments_collision_frame (candidates : list (ref * nat))
    (points : list SwipePoint) :
  forall w : World,
    collision_frame w (CollisionDetector.checkSegments points candidates w).
Proof.
  induction points as [| p1 rest IH]; intros w; [apply collision_frame_refl |].
  destruct rest as [| p2 rest']; [apply collision_frame_refl |].
  change (collision_frame w
            (CollisionDetector.checkSegments (p2 :: rest') candidates
               (CollisionDetector.checkLineSegmentCollisionsForCandidates
                  (sp_x p1) (sp_y p1) (sp_x p2) (sp_y p2) 0 candidates w))).
  eapply collision_frame_trans; [apply checkLineSegment_collision_frame |].
  apply IH.
Qed.

Lemma CollisionDetector_update_frame (w : World) :
  collision_frame w (CollisionDetector.update w).
Proof.
  unfold CollisionDetector.update.
  set (w1 := set_collisionDetector _ w).
  assert (F1 : collision_frame w w1) by apply set_collisionDetector_frame.
  clearbody w1.
  destruct (negb _ || _); [exact F1 |].
  eapply collision_frame_trans; [exact F1 |].
  unfold CollisionDetector.checkSwipeCollisions.
  destruct (_ <? 2)%nat; [apply collision_frame_refl |].
  apply checkSegments_collision_frame.
Qed.

End FrameFacts.

(** ** The session: difficulty, combo, high scores *)

Module SessionFacts.
Import Vocabulary.
Local Open Scope Q_scope.

(** X1: the spawn interval that [updateDifficulty()] stores never goes
    below 300 ms, is at most 1000 ms once the elapsed time is not
    negative, falls by 10 ms per elapsed second during the first 70 s and
    stays at 300 ms from then on; it never grows with the elapsed time. *)
Theorem spawnInterval_schedule (g : GameState.t) :
  let t := GameState.elapsedTime g in
  let i := GameState.spawnInterval (GameState.updateDifficulty g) in
  300 <= i
  /\ (0 <= t -> i <= 1000)
  /\ (t <= 70 -> i == 1000 - 10 * t)
  /\ (70 <= t -> i == 300)
  /\ (forall g' : GameState.t,
        t <= GameState.elapsedTime g' ->
        GameState.spawnInterval (GameState.updateDifficulty g') <= i).
Proof.
  cbv zeta.
  change (GameState.spawnInterval (GameState.updateDifficulty g))
    with (Qmax 300 (1000 - GameState.elapsedTime g * 10)).
  set (t := GameState.elapsedTime g). clearbody t.
  destruct (Q.max_spec 300 (1000 - t * 10)) as [[Hlt Heq] | [Hle Heq]];
    rewrite Heq.
  - repeat split; intros; try lra.
    change (GameState.spawnInterval (GameState.updateDifficulty g'))
      with (Qmax 300 (1000 - GameState.elapsedTime g' * 10)).
    set (t' := GameState.elapsedTime g') in *. clearbody t'.
    destruct (Q.max_spec 300 (1000 - t' * 10)) as [[? E] | [? E]];
      rewrite E; lra.
  - repeat split; intros; try lra.
    change (GameState.spawnInterval (GameState.updateDifficulty g'))
      with (Qmax 300 (1000 - GameState.elapsedTime g' * 10)).
    set (t' := GameState.elapsedTime g') in *. clearbody t'.
    destruct (Q.max_spec 300 (1000 - t' * 10)) as [[? E] | [? E]];
      rewrite E; lra.
Qed.

(** X2: the combo between two calls.  After a slice at time [t], the
    combo check at time [now] leaves the state alone while [now - t] is at
    most 800 ms, and past that it zeroes the combo counter and the last
    combo level a sound was played for, keeps the score and ends the
    combo display; a slice exactly 800 ms after the previous one already
    starts a new combo at 1; and, the counter being never negative, every
    slice raises the score. *)
Theorem combo_window (t now : Q) (g : GameState.t) :
  let g1 := GameState.registerSlice t g in
  let g2 := GameState.updateComboStatus now g1 in
  (now - t <= 800 -> g2 = g1)
  /\ (800 < now - t ->
      GameState.comboCount g2 = 0%Z
      /\ GameState.lastComboSoundCount g2 = 0%Z
      /\ GameState.score g2 = GameState.score g1
      /\ GameState.getDisplayCombo g2 = None)
  /\ GameState.comboCount (GameState.registerSlice (t + 800) g1) = 1%Z
  /\ ((0 <= GameState.comboCount g)%Z ->
      (1 <= GameState.comboCount g1)%Z
      /\ (GameState.score g < GameState.score g1)%Z).
Proof.
  cbv zeta.
  destruct (GameStateFacts.registerSlice_fields t g) as (Hc & Hs & Ht).
  set (g1 := GameState.registerSlice t g) in *. clearbody g1.
  split; [| split; [| split]].
  - intros Hle. unfold GameState.updateComboStatus. rewrite Ht.
    assert (E : JS.gtb (now - t) GameConstants.COMBO_THRESHOLD = false)
      by (apply JSFacts.gtb_le; exact Hle).
    now rewrite E.
  - intros Hlt. unfold GameState.updateComboStatus. rewrite Ht.
    assert (E : JS.gtb (now - t) GameConstants.COMBO_THRESHOLD = true)
      by (apply JSFacts.gtb_gt; exact Hlt).
    rewrite E. repeat split.
  - destruct (GameStateFacts.registerSlice_fields (t + 800) g1) as (Hc' & _).
    rewrite Hc', Ht.
    assert (E : JS.ltb (t + 800 - t) GameConstants.COMBO_THRESHOLD = false).
    { apply JSFacts.ltb_ge. unfold GameConstants.COMBO_THRESHOLD. lra. }
    now rewrite E.
  - intros Hnn. rewrite Hs, Hc. destruct (JS.ltb _ _); lia.
Qed.

Lemma sorted_app_cross (l1 l2 : list HighScore) :
  StronglySorted desc (l1 ++ l2) ->
  forall k d, k ∈ l1 -> d ∈ l2 -> (hs_score d <= hs_score k)%Z.
Proof.
  induction l1 as [| a l1 IH]; intros Hs k d Hk Hd; [now apply elem_of_nil in Hk |].
  cbn in Hs. apply StronglySorted_inv in Hs as [Hs Hall].
  apply elem_of_cons in Hk as [-> | Hk]; [| now apply IH].
  rewrite Forall_forall in Hall. apply Hall.
  apply elem_of_app. now right.
Qed.

(** X3: [saveHighScore(score)] keeps the best ten.  The entries of the
    old table and the new entry are split into those kept and those
    dropped; nothing is dropped while the old table has fewer than ten
    entries, at most one entry is dropped from a table of at most ten,
    and no dropped entry has a higher score than a kept one. *)
Theorem saveHighScore_keeps_the_best (date sc : Z) (st : Storage.t)
    (g : GameState.t) :
  let entry := {| hs_score := sc; hs_date := date |} in
  let kept := GameState.highScores (fst (GameState.saveHighScore date sc st g)) in
  exists dropped : list HighScore,
    kept ++ dropped ≡ₚ GameState.highScores g ++ [entry]
    /\ ((length (GameState.highScores g) < 10)%nat -> dropped = [])
    /\ ((length (GameState.highScores g) <= 10)%nat -> (length dropped <= 1)%nat)
    /\ forall k d, k ∈ kept -> d ∈ dropped -> (hs_score d <= hs_score k)%Z.
Proof.
  cbv zeta.
  destruct (HighScoreFacts.saveHighScore_spec date sc st g) as (Hk & _).
  rewrite Hk.
  set (pushed := GameState.highScores g ++ _).
  assert (Hlen : length (sort_desc pushed)
                 = S (length (GameState.highScores g))).
  { rewrite HighScoreFacts.sort_desc_perm. unfold pushed.
    rewrite length_app. cbn. lia. }
  exists (drop 10 (sort_desc pushed)).
  rewrite take_drop. split; [apply HighScoreFacts.sort_desc_perm |].
  split; [| split].
  - intros Hlt. apply drop_ge. lia.
  - intros Hle. rewrite length_drop. lia.
  - apply sorted_app_cross. rewrite take_drop.
    apply HighScoreFacts.sort_desc_sorted.
Qed.

(** X4: what a game over writes is what the next page load reads.  With
    a storage that accepts writes and agrees with the best score in
    memory, a [GameState] constructed from the storage left by
    [triggerGameOver()] has the best score and the high-score table of
    the state it left; with a storage that refuses writes the storage is
    left as it was, although the state in memory is updated all the
    same. *)
Theorem game_over_survives_reload (date : Z) (st : Storage.t)
    (g : GameState.t) (now : Q) :
  GameState.bestScore g = default 0%Z (Storage.bestScore st) ->
  let g' := fst (GameState.triggerGameOver date st g) in
  let st' := snd (GameState.triggerGameOver date st g) in
  (Storage.setItemThrows st = false ->
   GameState.bestScore (GameState.new now st') = GameState.bestScore g'
   /\ GameState.highScores (GameState.new now st') = GameState.highScores g')
  /\ (Storage.setItemThrows st = true ->
      st' = st
      /\ GameState.bestScore g'
         = Z.max (GameState.bestScore g) (GameState.score g)
      /\ length (GameState.highScores g')
         = min 10 (S (length (GameState.highScores g)))).
Proof.
  intros Hbest. cbv zeta.
  destruct (HighScoreFacts.triggerGameOver_fields date st g)
    as (_ & Hb & _ & Hhs & _ & _ & Hst).
  split.
  - intros Hw. specialize (Hst Hw).
    change (GameState.highScores (GameState.new now ?s))
      with (default [] (Storage.highScores s)).
    change (GameState.bestScore (GameState.new now ?s))
      with (default 0%Z (Storage.bestScore s)).
    rewrite Hst. split; [| reflexivity]. rewrite Hb.
    unfold GameState.triggerGameOver.
    cbn [GameState.bestScore GameState.score GameState.set_gameOver].
    destruct (Z.ltb_spec (GameState.bestScore g) (GameState.score g)) as [Hlt | Hge].
    + cbn. unfold Storage.setBestScore, Storage.setHighScores. rewrite Hw. cbn.
      lia.
    + cbn. unfold Storage.setHighScores. rewrite Hw. cbn. rewrite <- Hbest. lia.
  - intros Hw. split; [| split; [exact Hb |]].
    + unfold GameState.triggerGameOver.
      cbn [GameState.bestScore GameState.score GameState.set_gameOver].
      destruct (_ <? _)%Z; cbn;
        unfold Storage.setBestScore, Storage.setHighScores;
        repeat (rewrite Hw; cbn); reflexivity.
    + rewrite Hhs, length_take, HighScoreFacts.sort_desc_perm, length_app.
      cbn [length]. lia.
Qed.

Lemma game_over_survives_reload_witness :
  let g := GameState.set_score 7 (GameState.new 0 Demo.storage) in
  let st' := snd (GameState.triggerGameOver 42 Demo.storage g) in
  GameState.bestScore (GameState.new 5 st') = 7%Z
  /\ GameState.highScores (GameState.new 5 st')
     = [ {| hs_score := 7; hs_date := 42 |} ].
Proof.
  cbv zeta.
  destruct (game_over_survives_reload 42 Demo.storage
              (GameState.set_score 7 (GameState.new 0 Demo.storage)) 5
              eq_refl) as [H _].
  destruct (H eq_refl) as [H1 H2]. split.
  - rewrite H1. reflexivity.
  - rewrite H2. reflexivity.
Defined.

End SessionFacts.

(** ** Motion and fading of the entities *)

Module MotionFacts.
Import Vocabulary.
Local Open Scope Q_scope.

Lemma GameObject_update_motion (dt : Q) (o : GameObject.t) :
  let o' := GameObject.update dt o in
  GameObject.x o' = GameObject.x o + GameObject.vx o * dt
  /\ GameObject.y o' = GameObject.y o + GameObject.vy o * dt
  /\ GameObject.vx o' = GameObject.vx o
  /\ GameObject.vy o' = GameObject.vy o + GameConstants.GRAVITY * dt
  /\ GameObject.rotation o'
     = GameObject.rotation o + GameObject.rotationSpeed o * dt
  /\ GameObject.rotationSpeed o' = GameObject.rotationSpeed o
  /\ GameObject.maxLife o' = GameObject.maxLife o.
Proof.
  cbv zeta. unfold GameObject.update. destruct (JS.gtb _ _); repeat split.
Qed.

Lemma GameObject_motion (dt : Q) (o : GameObject.t) (n : nat) :
  let o' := Nat.iter n (GameObject.update dt) o in
  let k := ofNat n in
  GameObject.x o' == GameObject.x o + k * GameObject.vx o * dt
  /\ GameObject.y o'
     == GameObject.y o + k * GameObject.vy o * dt
        + GameConstants.GRAVITY * dt * dt * (k * (k - 1) / 2)
  /\ GameObject.vx o' = GameObject.vx o
  /\ GameObject.vy o' == GameObject.vy o + k * GameConstants.GRAVITY * dt
  /\ GameObject.rotation o'
     == GameObject.rotation o + k * GameObject.rotationSpeed o * dt
  /\ GameObject.rotationSpeed o' = GameObject.rotationSpeed o.
Proof.
  cbv zeta. induction n as [| n IH].
  - cbn. change (ofNat 0) with 0. repeat split; try reflexivity; field.
  - rewrite Nat.iter_succ.
    set (o' := Nat.iter n (GameObject.update dt) o) in *. clearbody o'.
    destruct IH as (Hx & Hy & Hvx & Hvy & Hr & Hrs).
    destruct (GameObject_update_motion dt o') as (Ex & Ey & Evx & Evy & Er & Ers & _).
    rewrite Ex, Ey, Evx, Evy, Er, Ers, Hvx, Hrs.
    rewrite Hx, Hy, Hvy, Hr, !EngineFacts.ofNat_S.
    repeat split; try reflexivity; field.
Qed.

Lemma Fruit_update_motion (dt : Q) (f : Fruit.t) :
  let f' := Fruit.update dt f in
  let b' := GameObject.update dt (Fruit.base f) in
  GameObject.x (Fruit.base f') = GameObject.x b'
  /\ GameObject.y (Fruit.base f') = GameObject.y b'
  /\ GameObject.vx (Fruit.base f') = GameObject.vx b'
  /\ GameObject.vy (Fruit.base f') = GameObject.vy b'
  /\ Fruit.radius f' = Fruit.radius f
  /\ Fruit.sliced f' = Fruit.sliced f
  /\ Fruit.type f' = Fruit.type f
  /\ Fruit.emoji f' = Fruit.emoji f.
Proof. cbv zeta. repeat split. Qed.

Lemma Fruit_iter_motion (dt : Q) (f : Fruit.t) (n : nat) :
  let f' := Nat.iter n (Fruit.update dt) f in
  let b' := Nat.iter n (GameObject.update dt) (Fruit.base f) in
  GameObject.x (Fruit.base f') = GameObject.x b'
  /\ GameObject.y (Fruit.base f') = GameObject.y b'
  /\ GameObject.vx (Fruit.base f') = GameObject.vx b'
  /\ GameObject.vy (Fruit.base f') = GameObject.vy b'
  /\ Fruit.radius f' = Fruit.radius f
  /\ Fruit.sliced f' = Fruit.sliced f
  /\ Fruit.type f' = Fruit.type f.
Proof.
  cbv zeta. induction n as [| m IH]; [cbn; repeat split |].
  rewrite !Nat.iter_succ.
  set (f' := Nat.iter m (Fruit.update dt) f) in *.
  set (b' := Nat.iter m (GameObject.update dt) (Fruit.base f)) in *.
  clearbody f' b'.
  destruct IH as (Ex & Ey & Evx & Evy & Er & Esl & Et).
  destruct (Fruit_update_motion dt f')
    as (Fx & Fy & Fvx & Fvy & Fr & Fsl & Ft & _).
  rewrite Fx, Fy, Fvx, Fvy, Fr, Fsl, Ft.
  destruct (GameObject_update_motion dt (Fruit.base f'))
    as (Gx & Gy & Gvx & Gvy & _).
  destruct (GameObject_update_motion dt b') as (Bx & By & Bvx & Bvy & _).
  rewrite Gx, Gy, Gvx, Gvy, Bx, By, Bvx, Bvy, Ex, Ey, Evx, Evy.
  repeat split; assumption.
Qed.

(** X5: between spawn and removal every entity is a projectile.  After
    [n] updates with the same time step, a fruit has moved evenly along
    x, its vertical speed has grown by [n] times gravity times the step,
    and its height is the parabola of the semi-implicit Euler scheme (the
    position is advanced with the speed of the previous step); its
    radius, kind and [sliced] flag are as before.  Fruit halves and combo
    texts move exactly as their base object does, so a combo text, built
    with zero velocity, falls as well. *)
Theorem entities_are_projectiles (dt : Q) (n : nat) :
  let k := ofNat n in
  (forall f : Fruit.t,
     let f' := Nat.iter n (Fruit.update dt) f in
     let b := Fruit.base f in
     let b' := Fruit.base f' in
     GameObject.x b' == GameObject.x b + k * GameObject.vx b * dt
     /\ GameObject.y b'
        == GameObject.y b + k * GameObject.vy b * dt
           + GameConstants.GRAVITY * dt * dt * (k * (k - 1) / 2)
     /\ GameObject.vx b' == GameObject.vx b
     /\ GameObject.vy b' == GameObject.vy b + k * GameConstants.GRAVITY * dt
     /\ Fruit.radius f' = Fruit.radius f
     /\ Fruit.sliced f' = Fruit.sliced f
     /\ Fruit.type f' = Fruit.type f)
  /\ (forall s : FruitSlice.t,
        FruitSlice.base (Nat.iter n (FruitSlice.update dt) s)
        = Nat.iter n (GameObject.update dt) (FruitSlice.base s))
  /\ (forall c : ComboSplash.t,
        ComboSplash.base (Nat.iter n (ComboSplash.update dt) c)
        = Nat.iter n (GameObject.update dt) (ComboSplash.base c))
  /\ (forall c : ComboSplash.t,
        GameObject.vy (ComboSplash.base c) == 0 ->
        GameObject.y (ComboSplash.base (Nat.iter n (ComboSplash.update dt) c))
        == GameObject.y (ComboSplash.base c)
           + GameConstants.GRAVITY * dt * dt * (k * (k - 1) / 2)).
Proof.
  cbv zeta.
  assert (Hs : forall s : FruitSlice.t,
            FruitSlice.base (Nat.iter n (FruitSlice.update dt) s)
            = Nat.iter n (GameObject.update dt) (FruitSlice.base s)).
  { intros s. induction n as [| m IH]; [reflexivity |].
    rewrite !Nat.iter_succ, <- IH. reflexivity. }
  assert (Hc : forall c : ComboSplash.t,
            ComboSplash.base (Nat.iter n (ComboSplash.update dt) c)
            = Nat.iter n (GameObject.update dt) (ComboSplash.base c)).
  { clear Hs. intros c. induction n as [| m IH]; [reflexivity |].
    rewrite !Nat.iter_succ, <- IH. reflexivity. }
  split; [| split; [exact Hs | split; [exact Hc |]]].
  - intros f.
    pose proof (Fruit_iter_motion dt f n) as Hf.
    cbv zeta in Hf. destruct Hf as (Ex & Ey & Evx & Evy & Er & Esl & Et).
    destruct (GameObject_motion dt (Fruit.base f) n)
      as (Mx & My & Mvx & Mvy & _).
    rewrite Ex, Ey, Evx, Evy, Mvx.
    repeat split; assumption.
  - intros c Hvy. rewrite Hc.
    destruct (GameObject_motion dt (ComboSplash.base c) n) as (_ & My & _).
    rewrite My, Hvy. field.
Qed.

Lemma Particle_wallSplash_update (dt : Q) (p : Particle.t) :
  Particle.type p = Particle.wallSplash ->
  let p' := Particle.update dt p in
  Particle.type p' = Particle.wallSplash
  /\ GameObject.vx (Particle.base p') = 0
  /\ GameObject.vy (Particle.base p') = 0
  /\ GameObject.x (Particle.base p')
     = GameObject.x (Particle.base p) + GameObject.vx (Particle.base p) * dt
  /\ GameObject.y (Particle.base p')
     = GameObject.y (Particle.base p) + GameObject.vy (Particle.base p) * dt.
Proof.
  intros Ht. cbv zeta. unfold Particle.update. rewrite Ht.
  destruct (GameObject_update_motion dt (Particle.base p))
    as (Ex & Ey & _).
  cbn. rewrite Ex, Ey. repeat split.
Qed.

(** X6: a wall splash does not move once it has been updated: its
    velocity is zeroed at the end of every update, so any number of
    further updates leaves its position where the first one put it; a
    splash that starts at rest, as [createWallSplash] builds it, never
    leaves its starting point. *)
Theorem wallSplash_stays_put (dt : Q) (p : Particle.t) (n : nat) :
  Particle.type p = Particle.wallSplash ->
  let p1 := Particle.update dt p in
  let pn := Nat.iter n (Particle.update dt) p1 in
  GameObject.x (Particle.base pn) == GameObject.x (Particle.base p1)
  /\ GameObject.y (Particle.base pn) == GameObject.y (Particle.base p1)
  /\ GameObject.vx (Particle.base pn) = 0
  /\ GameObject.vy (Particle.base pn) = 0
  /\ (GameObject.vx (Particle.base p) == 0 ->
      GameObject.vy (Particle.base p) == 0 ->
      GameObject.x (Particle.base pn) == GameObject.x (Particle.base p)
      /\ GameObject.y (Particle.base pn) == GameObject.y (Particle.base p)).
Proof.
  intros Ht. cbv zeta.
  destruct (Particle_wallSplash_update dt p Ht) as (Ht1 & Hvx1 & Hvy1 & Hx1 & Hy1).
  set (p1 := Particle.update dt p) in *. clearbody p1.
  assert (H : Particle.type (Nat.iter n (Particle.update dt) p1)
              = Particle.wallSplash
              /\ GameObject.x (Particle.base (Nat.iter n (Particle.update dt) p1))
                 == GameObject.x (Particle.base p1)
              /\ GameObject.y (Particle.base (Nat.iter n (Particle.update dt) p1))
                 == GameObject.y (Particle.base p1)
              /\ GameObject.vx (Particle.base (Nat.iter n (Particle.update dt) p1))
                 = 0
              /\ GameObject.vy (Particle.base (Nat.iter n (Particle.update dt) p1))
                 = 0).
  { induction n as [| m IH]; [cbn; repeat split; try assumption; reflexivity |].
    rewrite Nat.iter_succ.
    set (pm := Nat.iter m (Particle.update dt) p1) in *. clearbody pm.
    destruct IH as (Tm & Xm & Ym & Vxm & Vym).
    destruct (Particle_wallSplash_update dt pm Tm) as (T & Vx & Vy & X & Y).
    rewrite X, Y, Vxm, Vym, Xm, Ym.
    repeat split; try assumption; ring. }
  destruct H as (_ & Hx & Hy & Hvx & Hvy).
  repeat split; try assumption.
  - rewrite Hx, Hx1, H. ring.
  - rewrite Hy, Hy1, H0. ring.
Qed.

Lemma wallSplash_stays_put_witness :
  let p := {| Particle.base := GameObject.new 0 0 100 200 0 0;
              Particle.type := Particle.wallSplash; Particle.radius := 3 |} in
  let pn := Nat.iter 120 (Particle.update (1 / 120)) (Particle.update (1 / 120) p) in
  GameObject.x (Particle.base pn) == 100
  /\ GameObject.y (Particle.base pn) == 200.
Proof.
  cbv zeta.
  destruct (wallSplash_stays_put (1 / 120)
              {| Particle.base := GameObject.new 0 0 100 200 0 0;
                 Particle.type := Particle.wallSplash; Particle.radius := 3 |}
              120 eq_refl) as (_ & _ & _ & _ & H).
  destruct H as [Hx Hy]; [reflexivity | reflexivity |].
  split; [rewrite Hx | rewrite Hy]; reflexivity.
Defined.

Lemma Qdiv_pos (a b : Q) : 0 < a -> 0 < b -> 0 < a / b.
Proof.
  intros Ha Hb. apply Qlt_shift_div_l; [exact Hb |]. now rewrite Qmult_0_l.
Qed.

Lemma Qdiv_le_compat (a b m : Q) : 0 < m -> a <= b -> a / m <= b / m.
Proof.
  intros Hm Hab. apply Qle_shift_div_l; [exact Hm |].
  unfold Qdiv. rewrite <- Qmult_assoc, (Qmult_comm (/ m)), Qmult_inv_r;
    [now rewrite Qmult_1_r | lra].
Qed.

(** X7: [getAlpha()] is a fade-out.  It is never negative; it is at most
    1 when the life does not exceed the full life; with a positive full
    life an update with a step that is not negative never raises it, an
    entity that is still alive after an update has a positive alpha, and
    an entity whose life is used up by the update has alpha 0 and is not
    alive; without a positive full life it is 1.  A fruit is the
    exception: its update restores the full life, so its alpha is 1 after
    every update. *)
Theorem getAlpha_fades (dt : Q) (o : GameObject.t) :
  let o' := GameObject.update dt o in
  0 <= GameObjectMethods.getAlpha o
  /\ (0 < GameObject.maxLife o -> GameObject.life o <= GameObject.maxLife o ->
      GameObjectMethods.getAlpha o <= 1)
  /\ (0 < GameObject.maxLife o -> 0 <= dt ->
      GameObjectMethods.getAlpha o' <= GameObjectMethods.getAlpha o)
  /\ (0 < GameObject.maxLife o -> GameObject.isAlive o' = true ->
      0 < GameObjectMethods.getAlpha o')
  /\ (0 < GameObject.maxLife o -> GameObject.life o <= dt ->
      GameObjectMethods.getAlpha o' == 0 /\ GameObject.isAlive o' = false)
  /\ (GameObject.maxLife o <= 0 -> GameObjectMethods.getAlpha o = 1)
  /\ (forall f : Fruit.t,
        0 < GameObject.maxLife (Fruit.base f) ->
        GameObjectMethods.getAlpha (Fruit.base (Fruit.update dt f)) == 1).
Proof.
  cbv zeta.
  assert (Hupd : 0 < GameObject.maxLife o ->
            GameObject.maxLife (GameObject.update dt o) = GameObject.maxLife o
            /\ GameObject.life (GameObject.update dt o) = GameObject.life o - dt
            /\ GameObject.isAlive (GameObject.update dt o)
               = if JS.leb (GameObject.life o - dt) 0 then false
                 else GameObject.isAlive o).
  { intros Hm. unfold GameObject.update.
    assert (E : JS.gtb (GameObject.maxLife o) 0 = true)
      by (now apply JSFacts.gtb_gt).
    rewrite E. repeat split. }
  assert (Halpha : forall o1 : GameObject.t, 0 < GameObject.maxLife o1 ->
            GameObjectMethods.getAlpha o1
            = Qmax 0 (GameObject.life o1 / GameObject.maxLife o1)).
  { intros o1 Hm. unfold GameObjectMethods.getAlpha.
    assert (E : JS.gtb (GameObject.maxLife o1) 0 = true)
      by (now apply JSFacts.gtb_gt).
    now rewrite E. }
  split; [| split; [| split; [| split; [| split; [| split]]]]].
  - unfold GameObjectMethods.getAlpha. destruct (JS.gtb _ _); [| lra].
    apply Q.le_max_l.
  - intros Hm Hl. rewrite (Halpha o Hm). apply Q.max_lub; [lra |].
    apply Qle_shift_div_r; [exact Hm | lra].
  - intros Hm Hdt. destruct (Hupd Hm) as (Em & El & _).
    rewrite (Halpha o Hm), Halpha by (rewrite Em; exact Hm).
    rewrite Em, El. apply Q.max_le_compat_l. apply Qdiv_le_compat; [exact Hm | lra].
  - intros Hm Ha. destruct (Hupd Hm) as (Em & El & Ea).
    rewrite Halpha by (rewrite Em; exact Hm). rewrite Em, El.
    rewrite Ea in Ha. destruct (JS.leb _ _) eqn:Hle; [discriminate |].
    apply JSFacts.leb_gt in Hle.
    eapply Qlt_le_trans; [| apply Q.le_max_r]. now apply Qdiv_pos.
  - intros Hm Hl. destruct (Hupd Hm) as (Em & El & Ea).
    rewrite Halpha by (rewrite Em; exact Hm). rewrite Em, El, Ea.
    assert (Hle : JS.leb (GameObject.life o - dt) 0 = true)
      by (apply JSFacts.leb_le; lra).
    rewrite Hle. split; [| reflexivity].
    apply Q.max_l. apply Qle_shift_div_r; [exact Hm | lra].
  - intros Hm. unfold GameObjectMethods.getAlpha.
    assert (E : JS.gtb (GameObject.maxLife o) 0 = false)
      by (now apply JSFacts.gtb_le).
    now rewrite E.
  - intros f Hm.
    destruct (GameObject_update_motion dt (Fruit.base f)) as (_ & _ & _ & _ & _ & _ & Em).
    unfold Fruit.update. cbn [Fruit.base].
    set (b := GameObject.update dt (Fruit.base f)) in *. clearbody b.
    rewrite Halpha by (cbn; rewrite Em; exact Hm).
    cbn. rewrite Em.
    assert (E : GameObject.maxLife (Fruit.base f)
                / GameObject.maxLife (Fruit.base f) == 1) by (field; lra).
    rewrite E. apply Q.max_r. lra.
Qed.

End MotionFacts.

(** ** The cull loops *)

Module CullFacts.
Import Vocabulary Frames.
Local Open Scope Q_scope.

Lemma len_le (A B : Type) (a : list A) (b : list B) :
  (length a <= length b)%nat -> len a <= len b.
Proof. intros H. unfold len. rewrite <- Zle_Qle. lia. Qed.

Lemma culled_length {A : Type} `{Entity A} (dt w h : Q) (l : list A) :
  (length (culled dt w h l) <= length l)%nat.
Proof.
  unfold culled. etransitivity; [apply List.filter_length_le |].
  now rewrite length_map.
Qed.

(** X8: the effect pass is "update every entity, then drop those due for
    removal".  Although each loop runs backwards and splices the array
    while it walks it, every one of the five effect collections ends up
    as the list of its updated entities that are not due for removal, in
    the old order; no entity is skipped or updated twice; the number of
    active effects does not grow, and the fruits, the score and the
    game-over flag are not touched. *)
Theorem updateEffects_is_update_then_filter (dt cw ch : Q) (g : GameState.t) :
  let g' := EffectsManager.updateEffects dt cw ch g in
  GameState.juiceParticles g' = culled dt cw ch (GameState.juiceParticles g)
  /\ GameState.bombExplosions g' = culled dt cw ch (GameState.bombExplosions g)
  /\ GameState.wallSplashes g' = culled dt cw ch (GameState.wallSplashes g)
  /\ GameState.slices g' = culled dt cw ch (GameState.slices g)
  /\ GameState.comboSplashes g' = culled dt cw ch (GameState.comboSplashes g)
  /\ EffectsManager.getActiveEffectCount g'
     <= EffectsManager.getActiveEffectCount g
  /\ GameState.fruits g' = GameState.fruits g
  /\ GameState.score g' = GameState.score g
  /\ GameState.gameOver g' = GameState.gameOver g.
Proof.
  cbv zeta.
  assert (E1 : GameState.juiceParticles (EffectsManager.updateEffects dt cw ch g)
               = culled dt cw ch (GameState.juiceParticles g))
    by apply LifecycleFacts.updateParticleArray_culled.
  assert (E2 : GameState.bombExplosions (EffectsManager.updateEffects dt cw ch g)
               = culled dt cw ch (GameState.bombExplosions g))
    by apply LifecycleFacts.updateParticleArray_culled.
  assert (E3 : GameState.wallSplashes (EffectsManager.updateEffects dt cw ch g)
               = culled dt cw ch (GameState.wallSplashes g))
    by apply LifecycleFacts.updateParticleArray_culled.
  assert (E4 : GameState.slices (EffectsManager.updateEffects dt cw ch g)
               = culled dt cw ch (GameState.slices g))
    by apply (LifecycleFacts.updateGameObjectArray_culled dt cw ch).
  assert (E5 : GameState.comboSplashes (EffectsManager.updateEffects dt cw ch g)
               = culled dt cw ch (GameState.comboSplashes g))
    by apply (LifecycleFacts.updateGameObjectArray_culled dt cw ch).
  repeat (split; [assumption |]).
  split; [| repeat split].
  unfold EffectsManager.getActiveEffectCount. rewrite E1, E2, E3, E4, E5.
  pose proof (len_le _ _ _ _ (culled_length dt cw ch (GameState.juiceParticles g))).
  pose proof (len_le _ _ _ _ (culled_length dt cw ch (GameState.bombExplosions g))).
  pose proof (len_le _ _ _ _ (culled_length dt cw ch (GameState.wallSplashes g))).
  pose proof (len_le _ _ _ _ (culled_length dt cw ch (GameState.slices g))).
  pose proof (len_le _ _ _ _ (culled_length dt cw ch (GameState.comboSplashes g))).
  lra.
Qed.

Lemma set_fruits_eta (g : GameState.t) :
  GameState.set_fruits (GameState.fruits g) g = g.
Proof. now destruct g. Qed.

Lemma same_managers_refl (w : World) : same_managers w w.
Proof. now repeat split. Qed.

Lemma fruitStays_ext (dt : Q) (w w' : World) (l : list ref) :
  canvasWidth w' = canvasWidth w -> canvasHeight w' = canvasHeight w ->
  (forall r, r ∈ l -> heap w' !! r = heap w !! r) ->
  List.filter (fruitStays dt w') l = List.filter (fruitStays dt w) l.
Proof.
  intros Hw Hh Hl. apply List.filter_ext_in. intros r Hr.
  unfold fruitStays. rewrite Hw, Hh, Hl; [reflexivity |].
  now apply list_elem_of_In.
Qed.

(** The loop of [updateFruits] over a prefix of the array. *)
Lemma updateFruitsLoop_prefix (dt : Q) (pre : list ref) :
  forall (suf : list ref) (w : World),
    GameState.fruits (gameState w) = pre ++ suf ->
    NoDup pre ->
    (forall r, r ∈ pre -> is_Some (heap w !! r)) ->
    let w' := GameEngine.updateFruitsLoop dt (length pre) w in
    gameState w'
    = GameState.set_fruits (List.filter (fruitStays dt w) pre ++ suf)
        (gameState w)
    /\ (forall r,
          heap w' !! r
          = if bool_decide (r ∈ pre) then Fruit.update dt <$> heap w !! r
            else heap w !! r)
    /\ same_managers w w' /\ tick w' = tick w /\ trace w' = trace w.
Proof.
  induction pre as [| a pre IH] using rev_ind; intros suf w Hfr Hnd Hin.
  - cbn [length GameEngine.updateFruitsLoop List.filter app] in *.
    rewrite <- Hfr, set_fruits_eta. repeat split.
  - rewrite length_app, Nat.add_1_r. cbn [GameEngine.updateFruitsLoop].
    rewrite Hfr, <- app_assoc. cbn [app].
    rewrite list_lookup_middle by reflexivity.
    apply NoDup_app in Hnd as (Hnd & Hdisj & _).
    assert (Ha : a ∉ pre).
    { intros Hc. apply (Hdisj a Hc). now apply list_elem_of_singleton. }
    destruct (Hin a) as [f Hf]; [apply elem_of_app; right; now left |].
    rewrite Hf.
    set (w1 := set_heap (<[a := Fruit.update dt f]> (heap w)) w).
    assert (Hh1 : forall r, r ∈ pre -> heap w1 !! r = heap w !! r).
    { intros r Hr. cbn. apply lookup_insert_ne. intros ->. contradiction. }
    assert (Hin1 : forall r, r ∈ pre -> is_Some (heap w1 !! r)).
    { intros r Hr. rewrite Hh1 by exact Hr. apply Hin, elem_of_app. now left. }
    assert (Hstay : fruitStays dt w a
                    = negb (Fruit.shouldRemove (canvasWidth w) (canvasHeight w)
                              (Fruit.update dt f))).
    { unfold fruitStays. now rewrite Hf. }
    rewrite List.filter_app. cbn [List.filter]. rewrite Hstay.
    change (canvasWidth w1) with (canvasWidth w).
    change (canvasHeight w1) with (canvasHeight w).
    assert (Hheap : forall w2 : World,
              (forall r, heap w2 !! r
                 = if bool_decide (r ∈ pre) then Fruit.update dt <$> heap w1 !! r
                   else heap w1 !! r) ->
              forall r, heap w2 !! r
                = if bool_decide (r ∈ pre ++ [a])
                  then Fruit.update dt <$> heap w !! r else heap w !! r).
    { intros w2 H2 r. rewrite H2. destruct (decide (r = a)) as [-> | Hne].
      - rewrite bool_decide_eq_false_2 by exact Ha.
        rewrite bool_decide_eq_true_2 by (apply elem_of_app; right; now left).
        cbn. now rewrite lookup_insert_eq, Hf.
      - cbn. rewrite lookup_insert_ne by congruence.
        destruct (bool_decide (r ∈ pre)) eqn:E.
        + apply bool_decide_eq_true_1 in E.
          rewrite bool_decide_eq_true_2 by (apply elem_of_app; now left).
          reflexivity.
        + apply bool_decide_eq_false_1 in E.
          rewrite bool_decide_eq_false_2; [reflexivity |].
          intros Hc. apply elem_of_app in Hc as [Hc | Hc]; [contradiction |].
          apply list_elem_of_singleton in Hc. contradiction. }
    destruct (Fruit.shouldRemove _ _ _) eqn:Hrm; cbn [negb].
    + set (w2 := modify_gameState _ w1).
      assert (Hfr2 : GameState.fruits (gameState w2) = pre ++ suf).
      { cbn. rewrite Hfr, <- app_assoc. cbn [app]. apply delete_middle. }
      assert (Hh2 : forall r, r ∈ pre -> heap w2 !! r = heap w !! r)
        by exact Hh1.
      assert (Hg2 : forall F, GameState.set_fruits F (gameState w2)
                              = GameState.set_fruits F (gameState w))
        by reflexivity.
      assert (Hheap2 : heap w2 = heap w1) by reflexivity.
      assert (Hcw : canvasWidth w2 = canvasWidth w) by reflexivity.
      assert (Hch : canvasHeight w2 = canvasHeight w) by reflexivity.
      assert (Hm2 : same_managers w w2) by (now repeat split).
      assert (Ht2 : tick w2 = tick w /\ trace w2 = trace w) by (now split).
      clearbody w2.
      destruct (IH suf w2 Hfr2 Hnd) as (Eg & Eh & Em & Et & Etr).
      { intros r Hr. rewrite Hh2 by exact Hr. apply Hin, elem_of_app. now left. }
      rewrite Eg, Hg2, (fruitStays_ext dt w w2 pre Hcw Hch Hh2), app_nil_r.
      split; [reflexivity |]. split.
      * apply Hheap. intros r. rewrite Eh, Hheap2. reflexivity.
      * destruct Hm2 as (M1 & M2 & M3 & M4 & M5 & M6 & M7).
        destruct Em as (N1 & N2 & N3 & N4 & N5 & N6 & N7).
        destruct Ht2 as [T1 T2].
        repeat split; congruence.
    + assert (Hfr1 : GameState.fruits (gameState w1) = pre ++ a :: suf).
      { cbn. rewrite Hfr, <- app_assoc. reflexivity. }
      assert (Hg1 : forall F, GameState.set_fruits F (gameState w1)
                              = GameState.set_fruits F (gameState w))
        by reflexivity.
      assert (Hcw : canvasWidth w1 = canvasWidth w) by reflexivity.
      assert (Hch : canvasHeight w1 = canvasHeight w) by reflexivity.
      assert (Hm1 : same_managers w w1) by (now repeat split).
      assert (Ht1 : tick w1 = tick w /\ trace w1 = trace w) by (now split).
      clearbody w1.
      destruct (IH (a :: suf) w1 Hfr1 Hnd Hin1) as (Eg & Eh & Em & Et & Etr).
      rewrite Eg, Hg1, (fruitStays_ext dt w w1 pre Hcw Hch Hh1), <- app_assoc.
      split; [reflexivity |]. split.
      * apply Hheap. exact Eh.
      * destruct Hm1 as (M1 & M2 & M3 & M4 & M5 & M6 & M7).
        destruct Em as (N1 & N2 & N3 & N4 & N5 & N6 & N7).
        destruct Ht1 as [T1 T2].
        repeat split; congruence.
Qed.

(** [updateFruits] with distinct, allocated fruit references. *)
Lemma updateFruits_spec (dt : Q) (w : World) :
  fruits_wf w ->
  let w' := GameEngine.updateFruits dt w in
  gameState w'
  = GameState.set_fruits
      (List.filter (fruitStays dt w) (GameState.fruits (gameState w)))
      (gameState w)
  /\ (forall r,
        heap w' !! r
        = if bool_decide (r ∈ GameState.fruits (gameState w))
          then Fruit.update dt <$> heap w !! r
          else heap w !! r)
  /\ same_managers w w' /\ tick w' = tick w /\ trace w' = trace w
  /\ fruits_wf w'.
Proof.
  intros [Hnd Hin]. cbv zeta. unfold GameEngine.updateFruits.
  destruct (updateFruitsLoop_prefix dt (GameState.fruits (gameState w)) [] w)
    as (Eg & Eh & Em & Et & Etr).
  - now rewrite app_nil_r.
  - exact Hnd.
  - intros r Hr. now apply Hin.
  - rewrite app_nil_r in Eg.
    repeat (split; [assumption |]).
    set (w' := GameEngine.updateFruitsLoop dt _ w) in *. clearbody w'.
    destruct Em as (N1 & _).
    split.
    + rewrite Eg. cbn. apply NoDup_ListNoDup, List.NoDup_filter.
      now apply NoDup_ListNoDup.
    + intros r Hr. rewrite Eg in Hr. cbn in Hr.
      apply list_elem_of_In, List.filter_In in Hr as [Hr _].
      apply list_elem_of_In in Hr. destruct (Hin r Hr) as [Hlt [f Hf]].
      split; [now rewrite N1 |].
      rewrite Eh, bool_decide_eq_true_2, Hf by exact Hr. now eexists.
Qed.

(** X9: [updateFruits] with distinct, allocated fruit references.  Every
    fruit object of the array is updated exactly once, the objects outside
    the array are not touched, and the array keeps, in order, exactly the
    fruits whose updated object is not outside the extended canvas; a
    fruit that leaves the array stays in the store (it is only
    unreachable from the array); nothing else changes, no event is
    emitted, and the references stay distinct and allocated. *)
Theorem updateFruits_updates_each_once (dt : Q) (w : World) :
  fruits_wf w ->
  let w' := GameEngine.updateFruits dt w in
  gameState w'
  = GameState.set_fruits
      (List.filter (fruitStays dt w) (GameState.fruits (gameState w)))
      (gameState w)
  /\ (forall r,
        heap w' !! r
        = if bool_decide (r ∈ GameState.fruits (gameState w))
          then Fruit.update dt <$> heap w !! r
          else heap w !! r)
  /\ same_managers w w' /\ tick w' = tick w /\ trace w' = trace w
  /\ fruits_wf w'.
Proof. exact (updateFruits_spec dt w). Qed.

Lemma updateFruits_updates_each_once_witness :
  let w := Demo.withFruit (Demo.fruitAt Fruit.fruit 400 300)
             (Demo.withFruit (Demo.fruitAt Fruit.bomb 400 2000) Demo.world) in
  let w' := GameEngine.updateFruits (1 / 120) w in
  GameState.fruits (gameState w') = [1%nat]
  /\ heap w' !! 0%nat
     = Some (Fruit.update (1 / 120) (Demo.fruitAt Fruit.bomb 400 2000)).
Proof.
  cbv zeta.
  assert (Hwf : fruits_wf
            (Demo.withFruit (Demo.fruitAt Fruit.fruit 400 300)
               (Demo.withFruit (Demo.fruitAt Fruit.bomb 400 2000) Demo.world))).
  { split.
    - cbn. apply NoDup_cons. split; [| apply NoDup_singleton].
      intros Hc. apply list_elem_of_singleton in Hc. discriminate.
    - intros r Hr. cbn in Hr.
      apply elem_of_cons in Hr as [-> | Hr];
        [| apply list_elem_of_singleton in Hr as ->];
        (split; [cbn; lia | vm_compute; eauto]). }
  destruct (updateFruits_updates_each_once (1 / 120) _ Hwf)
    as (Eg & Eh & _).
  rewrite Eg, Eh. split; vm_compute; reflexivity.
Defined.

End CullFacts.

(** ** Spawning *)

Module SpawnMoreFacts.
Import Vocabulary Frames.
Local Open Scope Q_scope.

Lemma nth_FRUIT_EMOJIS (i : nat) :
  nth i Fruit.FRUIT_EMOJIS Fruit.Apple <> Fruit.BombGlyph.
Proof. do 7 (destruct i as [| i]; [discriminate |]). discriminate. Qed.

(** The fruit [createRandom] builds, in terms of the eight (seven for a
    bomb) random values it draws. *)
Lemma createRandom_fruit (cw ch : Q) (w : World) :
  exists (e : Fruit.glyph) (rX rVx rVy r1 r2 r3 : nat),
    let rnd := Math_random_at (env w) in
    let isBomb := JS.ltb (rnd (tick w)) GameConstants.BOMB_CHANCE in
    fst (FruitWorld.createRandom cw ch w)
    = Fruit.new (rnd r1) (rnd r2) (rnd r3)
        (cw / 2 + GeometryUtils.randomRange (rnd rX) (- 200) 200)
        (ch + 30 + 10)
        (GeometryUtils.randomRange (rnd rVx) (- 200 / 2) (200 / 2))
        (- (800 + rnd rVy * 200
            + GameState.getDifficultySpeedBonus (gameState w)))
        (if isBomb then Fruit.bomb else Fruit.fruit) e
    /\ (if isBomb then e = Fruit.BombGlyph else e <> Fruit.BombGlyph).
Proof.
  unfold FruitWorld.createRandom, Math_random. cbn.
  destruct (JS.ltb _ _); cbn.
  - eexists _, _, _, _, _, _, _. split; reflexivity.
  - eexists _, _, _, _, _, _, _. split; [reflexivity | apply nth_FRUIT_EMOJIS].
Qed.

(** X10: what [Fruit.createRandom] builds on a canvas of integer width
    and height (as [canvas.width] and [canvas.height] are) when
    [Math.random()] stays in [0, 1).  The radius is between 30 and 40;
    the fruit starts 40 below the bottom edge, at most 200 left or right
    of the middle, with a horizontal speed between -100 and 100 and, once
    the elapsed time is not negative, an upward speed of at least 800; it
    is alive and not sliced; it is a bomb exactly when the first random
    value is below the constant [BOMB_CHANCE], and exactly then its emoji
    is the bomb.  On a canvas at least 140 wide it is not due for removal
    where it starts.  The bounds are closed: rounding can reach them. *)
Theorem createRandom_ranges (cw ch : Z) (w : World) :
  (forall n, 0 <= Math_random_at (env w) n /\ Math_random_at (env w) n < 1) ->
  let f := fst (FruitWorld.createRandom (inject_Z cw) (inject_Z ch) w) in
  let b := Fruit.base f in
  (30 <= Fruit.radius f /\ Fruit.radius f <= 40)
  /\ (inject_Z cw / 2 - 200 <= GameObject.x b
      /\ GameObject.x b <= inject_Z cw / 2 + 200)
  /\ GameObject.y b == inject_Z ch + 40
  /\ (- 100 <= GameObject.vx b /\ GameObject.vx b <= 100)
  /\ (0 <= GameState.elapsedTime (gameState w) -> GameObject.vy b <= - 800)
  /\ Fruit.sliced f = false
  /\ GameObject.isAlive b = true
  /\ (Fruit.type f = Fruit.bomb <->
      Math_random_at (env w) (tick w) < GameConstants.BOMB_CHANCE)
  /\ (Fruit.type f = Fruit.bomb <-> Fruit.emoji f = Fruit.BombGlyph)
  /\ ((140 <= cw)%Z -> (0 <= ch)%Z ->
      Fruit.shouldRemove (inject_Z cw) (inject_Z ch) f = false).
Proof.
  intros Hrnd. cbv zeta.
  destruct (createRandom_fruit (inject_Z cw) (inject_Z ch) w)
    as (e & rX & rVx & rVy & r1 & r2 & r3 & Hf & He).
  cbv zeta in Hf, He. rewrite Hf. clear Hf.
  destruct (Hrnd rX) as [HX HX']. destruct (Hrnd rVx) as [HVx HVx'].
  destruct (Hrnd rVy) as [HVy HVy']. destruct (Hrnd r3) as [H3 H3'].
  set (x := Math_random_at (env w) rX) in *.
  set (vx := Math_random_at (env w) rVx) in *.
  set (vy := Math_random_at (env w) rVy) in *.
  set (q3 := Math_random_at (env w) r3) in *.
  set (t := GameState.elapsedTime (gameState w)).
  assert (Ebonus : GameState.getDifficultySpeedBonus (gameState w) = t * 5)
    by reflexivity.
  clearbody x vx vy q3 t.
  assert (Hbomb : JS.ltb (Math_random_at (env w) (tick w))
                    GameConstants.BOMB_CHANCE = true
                  <-> Math_random_at (env w) (tick w)
                      < GameConstants.BOMB_CHANCE)
    by apply JSFacts.ltb_lt.
  unfold Fruit.new, GameObject.new, GeometryUtils.randomRange,
    GameConstants.FRUIT_BASE_RADIUS, GameConstants.FRUIT_RADIUS_VARIATION.
  cbn [Fruit.base Fruit.radius Fruit.sliced Fruit.type Fruit.emoji
       GameObject.x GameObject.y GameObject.vx GameObject.vy
       GameObject.isAlive].
  rewrite Ebonus.
  assert (E1 : 200 / 2 == 100) by reflexivity.
  assert (E2 : - 200 / 2 == - 100) by reflexivity.
  split; [split; lra |]. split; [split; lra |]. split; [ring |].
  split; [rewrite E1, E2; split; lra |]. split; [intros Ht; lra |].
  split; [reflexivity |]. split; [reflexivity |].
  split; [| split].
  - rewrite <- Hbomb. destruct (JS.ltb _ _); split; congruence.
  - destruct (JS.ltb _ _); split; congruence.
  - intros Hcw Hch. apply not_true_is_false.
    rewrite RemovalFacts.Fruit_shouldRemove_spec.
    cbn [Fruit.base Fruit.radius GameObject.x GameObject.y].
    assert (Hcw' : 140 <= inject_Z cw)
      by (change 140 with (inject_Z 140); now rewrite <- Zle_Qle).
    assert (Hch' : 0 <= inject_Z ch)
      by (change 0 with (inject_Z 0); now rewrite <- Zle_Qle).
    assert (Ehalf : inject_Z cw == 2 * (inject_Z cw / 2)) by field.
    set (half := inject_Z cw / 2) in *. clearbody half.
    intros [H | [H | [H | H]]]; lra.
Qed.

(** On a canvas of 800 by 600 with every random value 1/2, and on one of
    140 by 0 where the first random value is just below the bomb chance
    and the others are 0. *)
Lemma createRandom_ranges_witness :
  let f := fst (FruitWorld.createRandom 800 600 Demo.world) in
  let low :=
    set_env
      {| performance_now_at := performance_now_at Demo.environment;
         Date_now_at := Date_now_at Demo.environment;
         Math_random_at :=
           fun n => match n with
                    | O => 5404319552844594 # 36028797018963968
                    | _ => 0
                    end;
         createFruitSliceEffect_outcome :=
           createFruitSliceEffect_outcome Demo.environment;
         createBombExplosion_outcome :=
           createBombExplosion_outcome Demo.environment |} Demo.world in
  let g := fst (FruitWorld.createRandom 140 0 low) in
  (30 <= Fruit.radius f /\ Fruit.radius f <= 40)
  /\ Fruit.type f = Fruit.fruit
  /\ Fruit.shouldRemove 800 600 f = false
  /\ Fruit.type g = Fruit.bomb
  /\ Fruit.shouldRemove 140 0 g = false.
Proof.
  cbv zeta.
  assert (Hrnd : forall n, 0 <= Math_random_at (env Demo.world) n
                           /\ Math_random_at (env Demo.world) n < 1)
    by (intros n; split; [apply Qle_bool_iff |]; reflexivity).
  destruct (createRandom_ranges 800 600 Demo.world Hrnd)
    as (Hr & _ & _ & _ & _ & _ & _ & _ & _ & Hkeep).
  split; [exact Hr |]. split; [reflexivity |].
  split; [apply Hkeep; lia |].
  split; [reflexivity |].
  match goal with
  | |- Fruit.shouldRemove _ _ (fst (FruitWorld.createRandom _ _ ?w)) = _ =>
      assert (Hlow : forall n, 0 <= Math_random_at (env w) n
                               /\ Math_random_at (env w) n < 1)
        by (intros [| n]; split; try apply Qle_bool_iff; reflexivity);
      destruct (createRandom_ranges 140 0 w Hlow)
        as (_ & _ & _ & _ & _ & _ & _ & _ & _ & Hkeep')
  end.
  apply Hkeep'; lia.
Defined.

Lemma spawnSpecificFruit_spec (ty : Fruit.kind) (x y vx vy : Q) (w : World) :
  exists (e : Fruit.glyph) (r1 r2 r3 : Q) (s : sound) (n : nat),
    let f := Fruit.new r1 r2 r3 x y vx vy ty e in
    let w' := SpawnManagerMore.spawnSpecificFruit ty x y vx vy w in
    GameState.fruits (gameState w')
    = GameState.fruits (gameState w) ++ [nextRef w]
    /\ heap w' = <[nextRef w := f]> (heap w)
    /\ nextRef w' = S (nextRef w)
    /\ trace w' = EvSound s :: trace w
    /\ tick w' = (tick w + n)%nat
    /\ match ty with
       | Fruit.bomb => e = Fruit.BombGlyph /\ s = BombSpawnSound /\ n = 3%nat
       | Fruit.fruit => e <> Fruit.BombGlyph /\ s = FruitSpawnSound /\ n = 4%nat
       end.
Proof.
  unfold SpawnManagerMore.spawnSpecificFruit, Math_random.
  destruct ty; cbn.
  - eexists _, _, _, _, FruitSpawnSound, 4%nat.
    repeat split; try reflexivity; [lia | apply nth_FRUIT_EMOJIS].
  - eexists _, _, _, _, BombSpawnSound, 3%nat.
    repeat split; try reflexivity. lia.
Qed.

(** X11: [spawnSpecificFruit] is not held back by the cap of 18 fruits
    that [spawnItem] observes: whatever the number of fruits, it appends
    one new fruit object of the requested kind at the requested position
    and velocity, not sliced, with a radius taken from the constructor's
    random draw, and plays the spawn sound of its kind; a bomb gets the
    bomb emoji and a fruit never does; the fruit references stay distinct
    and allocated.  At the cap, [spawnItem] adds nothing. *)
Theorem spawnSpecificFruit_ignores_cap (ty : Fruit.kind) (x y vx vy : Q)
    (w : World) :
  let w' := SpawnManagerMore.spawnSpecificFruit ty x y vx vy w in
  length (GameState.fruits (gameState w'))
  = S (length (GameState.fruits (gameState w)))
  /\ GameState.fruits (gameState w')
     = GameState.fruits (gameState w) ++ [nextRef w]
  /\ (exists f : Fruit.t,
        heap w' = <[nextRef w := f]> (heap w)
        /\ Fruit.type f = ty /\ Fruit.sliced f = false
        /\ GameObject.x (Fruit.base f) = x /\ GameObject.y (Fruit.base f) = y
        /\ GameObject.vx (Fruit.base f) = vx /\ GameObject.vy (Fruit.base f) = vy
        /\ (ty = Fruit.bomb <-> Fruit.emoji f = Fruit.BombGlyph))
  /\ soundsOf (trace w')
     = match ty with
       | Fruit.bomb => BombSpawnSound
       | Fruit.fruit => FruitSpawnSound
       end :: soundsOf (trace w)
  /\ (fruits_wf w -> fruits_wf w')
  /\ ((18 <= length (GameState.fruits (gameState w)))%nat ->
      SpawnManager.spawnItem w = w).
Proof.
  cbv zeta.
  destruct (spawnSpecificFruit_spec ty x y vx vy w)
    as (e & r1 & r2 & r3 & s & n & Hfr & Hh & Hn & Htr & _ & Hty).
  cbv zeta in *.
  set (w' := SpawnManagerMore.spawnSpecificFruit ty x y vx vy w) in *.
  clearbody w'.
  split; [rewrite Hfr, length_app; cbn; lia |].
  split; [exact Hfr |].
  split; [| split; [| split]].
  - eexists. split; [exact Hh |]. repeat split.
    + intros ->. cbn. tauto.
    + cbn. intros ->. destruct ty; [exfalso; tauto | reflexivity].
  - rewrite Htr. cbn. destruct ty; destruct Hty as (_ & -> & _); reflexivity.
  - intros [Hnd Hin]. split.
    + rewrite Hfr. apply NoDup_app. split; [exact Hnd |].
      split; [| apply NoDup_singleton].
      intros r Hr Hc. apply list_elem_of_singleton in Hc as ->.
      apply Hin in Hr as [Hlt _]. lia.
    + intros r Hr. rewrite Hfr in Hr. rewrite Hn, Hh.
      apply elem_of_app in Hr as [Hr | Hr].
      * destruct (Hin r Hr) as [Hlt [f Hf]]. split; [lia |].
        rewrite lookup_insert_ne by (unfold ref in *; lia). exists f. exact Hf.
      * apply list_elem_of_singleton in Hr as ->. split; [lia |].
        rewrite lookup_insert_eq. eexists. reflexivity.
  - apply SpawnFacts.spawnItem_at_cap.
Qed.


Lemma len_nonneg (A : Type) (l : list A) : 0 <= len l.
Proof. unfold len. change 0 with (inject_Z 0). rewrite <- Zle_Qle. lia. Qed.



End SpawnMoreFacts.

(** ** Input *)

Module InputFacts.
Import Vocabulary Frames.
Local Open Scope Q_scope.

Lemma addSwipePoint_fields (x y : Q) (w : World) :
  let now := performance_now_at (env w) (tick w) in
  let w' := InputManager.addSwipePoint x y w in
  GameState.swipePoints (gameState w')
  = List.filter (fun p => JS.ltb (now - sp_t p) 200)
      (GameState.swipePoints (gameState w))
    ++ [{| sp_x := x; sp_y := y; sp_t := now |}]
  /\ GameState.isSwiping (gameState w') = GameState.isSwiping (gameState w)
  /\ GameState.fruits (gameState w') = GameState.fruits (gameState w)
  /\ heap w' = heap w /\ trace w' = trace w /\ tick w' = S (tick w)
  /\ env w' = env w /\ collisionDetector w' = collisionDetector w.
Proof.
  cbv zeta. unfold InputManager.addSwipePoint, performance_now.
  cbv beta iota zeta.
  cbn [modify_gameState set_gameState gameState heap trace tick env
       collisionDetector set_tick GameState.swipePoints
       GameState.set_swipePoints GameState.isSwiping GameState.fruits].
  rewrite List.filter_app. cbn [List.filter sp_t].
  set (now := performance_now_at (env w) (tick w)).
  assert (E : JS.ltb (now - now) GameConstants.SWIPE_TRAIL_DURATION = true).
  { apply JSFacts.ltb_lt. unfold GameConstants.SWIPE_TRAIL_DURATION. lra. }
  rewrite E. repeat split.
Qed.

(** X13: [addSwipePoint] keeps the trail recent.  After the call, read
    at clock value [now], the new point is the last point of the trail;
    every point of the trail is less than 200 ms old; the points before
    the new one are exactly the old points less than 200 ms old, in their
    old order; neither the swiping flag nor any fruit is touched. *)
Theorem addSwipePoint_keeps_recent (x y : Q) (w : World) :
  let now := performance_now_at (env w) (tick w) in
  let old := GameState.swipePoints (gameState w) in
  let w' := InputManager.addSwipePoint x y w in
  let pts := GameState.swipePoints (gameState w') in
  last pts = Some {| sp_x := x; sp_y := y; sp_t := now |}
  /\ Forall (fun p => now - sp_t p < 200) pts
  /\ (exists kept, pts = kept ++ [{| sp_x := x; sp_y := y; sp_t := now |}]
        /\ kept = List.filter (fun p => JS.ltb (now - sp_t p) 200) old
        /\ forall p, p ∈ kept <-> p ∈ old /\ now - sp_t p < 200)
  /\ (length pts <= S (length old))%nat
  /\ GameState.isSwiping (gameState w') = GameState.isSwiping (gameState w)
  /\ GameState.fruits (gameState w') = GameState.fruits (gameState w)
  /\ heap w' = heap w
  /\ trace w' = trace w.
Proof.
  cbv zeta.
  destruct (addSwipePoint_fields x y w) as (Hp & Hs & Hf & Hh & Ht & _).
  cbv zeta in Hp. rewrite Hp.
  set (now := performance_now_at (env w) (tick w)) in *.
  assert (Hin : forall p,
            p ∈ List.filter (fun p => JS.ltb (now - sp_t p) 200)
                  (GameState.swipePoints (gameState w))
            <-> p ∈ GameState.swipePoints (gameState w) /\ now - sp_t p < 200).
  { intros p. rewrite !list_elem_of_In, List.filter_In, JSFacts.ltb_lt.
    reflexivity. }
  split; [apply last_snoc |]. split; [| split; [| split]].
  - apply Forall_app. split.
    + apply Forall_forall. intros p Hp'. now apply Hin in Hp'.
    + repeat constructor. cbn. lra.
  - eexists. split; [reflexivity |]. split; [reflexivity | exact Hin].
  - rewrite length_app. cbn [length].
    pose proof (List.filter_length_le
                  (fun p => JS.ltb (now - sp_t p) 200)
                  (GameState.swipePoints (gameState w))). lia.
  - repeat split; assumption.
Qed.

(** X14: a press without a move slices nothing.  [handleStart] leaves a
    trail of exactly the pressed point and sets the swiping flag, and the
    collision update that follows hits no fruit and changes no fruit
    object, whatever fruit lies under the point; [handleMove] without a
    press in progress changes nothing at all; [handleEnd] empties the
    trail and clears the flag, and the collision update that follows hits
    no fruit either. *)
Theorem press_without_move_slices_nothing (x y : Q) (i : InputManagerState)
    (w : World) :
  let now := performance_now_at (env w) (tick w) in
  let pressed := snd (InputManager.handleStart x y i w) in
  let released := snd (InputManager.handleEnd i w) in
  GameState.swipePoints (gameState pressed)
  = [{| sp_x := x; sp_y := y; sp_t := now |}]
  /\ GameState.isSwiping (gameState pressed) = true
  /\ isInputActive (fst (InputManager.handleStart x y i w)) = true
  /\ trace (CollisionDetector.update pressed) = trace w
  /\ heap (CollisionDetector.update pressed) = heap w
  /\ gameState (CollisionDetector.update pressed) = gameState pressed
  /\ (GameState.isSwiping (gameState w) = false ->
      InputManager.handleMove x y i w = (false, i, w))
  /\ GameState.swipePoints (gameState released) = []
  /\ GameState.isSwiping (gameState released) = false
  /\ trace (CollisionDetector.update released) = trace w
  /\ heap (CollisionDetector.update released) = heap w.
Proof.
  cbv zeta. unfold InputManager.handleStart, InputManager.handleEnd.
  cbn [fst snd isInputActive].
  set (w1 := modify_gameState (GameState.set_swipePoints []) w).
  destruct (addSwipePoint_fields x y w1) as (Hp & Hs & Hf & Hh & Ht & _).
  change (GameState.swipePoints (gameState w1)) with (@nil SwipePoint) in Hp.
  change (performance_now_at (env w1) (tick w1))
    with (performance_now_at (env w) (tick w)) in Hp.
  change (heap w1) with (heap w) in Hh.
  change (trace w1) with (trace w) in Ht.
  cbn [List.filter app] in Hp.
  set (w2 := InputManager.addSwipePoint x y w1) in *. clearbody w2.
  set (w3 := modify_gameState (GameState.set_isSwiping true) w2).
  assert (Hp3 : GameState.swipePoints (gameState w3)
                = [{| sp_x := x; sp_y := y;
                      sp_t := performance_now_at (env w) (tick w) |}])
    by exact Hp.
  assert (Hs3 : GameState.isSwiping (gameState w3) = true) by reflexivity.
  assert (Hh3 : heap w3 = heap w) by exact Hh.
  assert (Ht3 : trace w3 = trace w) by exact Ht.
  clearbody w3.
  split; [exact Hp3 |]. split; [exact Hs3 |]. split; [reflexivity |].
  assert (Hupd : CollisionDetector.update w3
                 = set_collisionDetector
                     (set_processedCollisions ∅ (collisionDetector w3)) w3).
  { unfold CollisionDetector.update.
    change (GameState.swipePoints (gameState (set_collisionDetector ?c w3)))
      with (GameState.swipePoints (gameState w3)).
    rewrite Hp3. cbn [length Nat.ltb Nat.leb]. now rewrite orb_true_r. }
  rewrite Hupd.
  split; [exact Ht3 |]. split; [exact Hh3 |]. split; [reflexivity |].
  split.
  - intros Hsw. unfold InputManager.handleMove. now rewrite Hsw.
  - repeat split.
Qed.

Lemma playSwipeSound_fields (w : World) :
  let now := inject_Z (Date_now_at (env w) (tick w)) in
  let r := AudioManager.playSwipeSound w in
  env (snd r) = env w /\ tick (snd r) = S (tick w)
  /\ (fst r = true <->
      150 < now - GameState.lastSwipeSoundTime (gameState w))
  /\ (fst r = true ->
      GameState.lastSwipeSoundTime (gameState (snd r)) = now)
  /\ (fst r = false -> gameState (snd r) = gameState w).
Proof.
  cbv zeta. unfold AudioManager.playSwipeSound, Date_now.
  cbn [gameState set_tick env tick].
  destruct (JS.gtb _ _) eqn:E; cbn [fst snd].
  - apply JSFacts.gtb_gt in E. repeat split; try reflexivity; try discriminate.
    intros _. exact E.
  - apply JSFacts.gtb_le in E. repeat split; try reflexivity; try discriminate.
    intros H. unfold MoreConstants.SWIPE_SOUND_COOLDOWN in E. lra.
Qed.

(** X15: the swipe sound has a cooldown of 150 ms.  A call asks for the
    sound exactly when the clock is more than 150 ms past the time of the
    last swipe sound, and only then records the time; so of two calls in
    a row the second asks for nothing, and leaves the game state alone,
    when the first one played and the clock has advanced by at most
    150 ms. *)
Theorem swipe_sound_cooldown (w : World) :
  let t1 := inject_Z (Date_now_at (env w) (tick w)) in
  let t2 := inject_Z (Date_now_at (env w) (S (tick w))) in
  let first := AudioManager.playSwipeSound w in
  let second := AudioManager.playSwipeSound (snd first) in
  (fst first = true <->
   150 < t1 - GameState.lastSwipeSoundTime (gameState w))
  /\ (fst first = true ->
      GameState.lastSwipeSoundTime (gameState (snd first)) = t1)
  /\ (fst first = false -> gameState (snd first) = gameState w)
  /\ (fst first = true -> t2 - t1 <= 150 ->
      fst second = false /\ gameState (snd second) = gameState (snd first)).
Proof.
  cbv zeta.
  destruct (playSwipeSound_fields w) as (He & Ht & Hiff & Hset & Hkeep).
  cbv zeta in *.
  set (first := AudioManager.playSwipeSound w) in *. clearbody first.
  split; [exact Hiff |]. split; [exact Hset |]. split; [exact Hkeep |].
  intros Hp Hle.
  destruct (playSwipeSound_fields (snd first)) as (_ & _ & Hiff2 & _ & Hkeep2).
  cbv zeta in *. rewrite He, Ht, (Hset Hp) in Hiff2.
  destruct (fst (AudioManager.playSwipeSound (snd first))) eqn:E.
  - exfalso. destruct Hiff2 as [H _]. specialize (H eq_refl). lra.
  - split; [reflexivity | now apply Hkeep2].
Qed.

Lemma swipe_sound_cooldown_witness :
  let w := modify_gameState (GameState.set_lastSwipeSoundTime (- 200)) Demo.world in
  fst (AudioManager.playSwipeSound w) = true
  /\ fst (AudioManager.playSwipeSound (snd (AudioManager.playSwipeSound w)))
     = false.
Proof.
  cbv zeta.
  destruct (swipe_sound_cooldown
              (modify_gameState (GameState.set_lastSwipeSoundTime (- 200))
                 Demo.world)) as (_ & _ & _ & H).
  split; [reflexivity |].
  apply H; [reflexivity |]. apply Qle_bool_iff. reflexivity.
Defined.

Lemma drop_last_two {A : Type} (pre : list A) (a b : A) :
  drop (length (pre ++ [a; b]) - 2) (pre ++ [a; b]) = [a; b].
Proof.
  rewrite length_app. cbn [length].
  replace (length pre + 2 - 2)%nat with (length pre) by lia.
  now rewrite drop_app_length.
Qed.

Lemma last_two {A : Type} (l : list A) :
  (2 <= length l)%nat -> exists pre a b, l = pre ++ [a; b].
Proof.
  intros H. destruct l as [| b l] using rev_ind; [cbn in H; lia |].
  clear IHl. destruct l as [| a l] using rev_ind.
  - cbn in H. lia.
  - exists l, a, b. now rewrite <- app_assoc.
Qed.

(** X16: [getSwipeVelocity()] never divides by zero.  It answers [null]
    exactly when the trail has fewer than two points or its last two
    points carry the same time stamp; otherwise its answer, multiplied by
    the time between the last two points in seconds, is the displacement
    between them. *)
Theorem getSwipeVelocity_spec (g : GameState.t) :
  let pts := GameState.swipePoints g in
  match InputManager.getSwipeVelocity g with
  | None =>
      (length pts < 2)%nat
      \/ exists pre p0 p1, pts = pre ++ [p0; p1] /\ sp_t p1 == sp_t p0
  | Some (vx, vy) =>
      exists pre p0 p1,
        pts = pre ++ [p0; p1] /\ ~ sp_t p1 == sp_t p0
        /\ vx * ((sp_t p1 - sp_t p0) / 1000) == sp_x p1 - sp_x p0
        /\ vy * ((sp_t p1 - sp_t p0) / 1000) == sp_y p1 - sp_y p0
  end.
Proof.
  cbv zeta. unfold InputManager.getSwipeVelocity.
  destruct (Nat.ltb_spec (length (GameState.swipePoints g)) 2) as [Hlt | Hge];
    [now left |].
  destruct (last_two _ Hge) as (pre & p0 & p1 & E). rewrite E.
  rewrite drop_last_two.
  destruct (Qeq_bool ((sp_t p1 - sp_t p0) / 1000) 0) eqn:Hz.
  - right. exists pre, p0, p1. split; [reflexivity |].
    apply Qeq_bool_eq in Hz.
    assert (Hd : sp_t p1 - sp_t p0 == (sp_t p1 - sp_t p0) / 1000 * 1000)
      by (field; discriminate).
    rewrite Hz in Hd. lra.
  - exists pre, p0, p1. split; [reflexivity |].
    apply Qeq_bool_neq in Hz.
    split; [| split].
    + intros H. apply Hz. rewrite H. field.
    + field. intros H. apply Hz. rewrite H. reflexivity.
    + field. intros H. apply Hz. rewrite H. reflexivity.
Qed.

End InputFacts.

(** ** The collision pass, end to end *)

Module CollisionPassFacts.
Import Vocabulary Frames.
Local Open Scope Q_scope.

Lemma lineIntersectsCircle_degenerate x1 y1 x2 y2 cx cy r :
  (x2 - x1) * (x2 - x1) + (y2 - y1) * (y2 - y1) == 0 ->
  GeometryUtils.lineIntersectsCircle x1 y1 x2 y2 cx cy r = false.
Proof.
  intros Hn. unfold GeometryUtils.lineIntersectsCircle, JS.div.
  destruct (GeometryFacts.sum_squares_zero _ _ Hn) as [Hx Hy].
  assert (E1 : Qeq_bool ((x2 - x1) * (x2 - x1) + (y2 - y1) * (y2 - y1)) 0 = true)
    by (now apply Qeq_bool_iff).
  assert (E2 : Qeq_bool ((cx - x1) * (x2 - x1) + (cy - y1) * (y2 - y1)) 0 = true)
    by (apply Qeq_bool_iff; rewrite Hx, Hy; ring).
  now rewrite E1, E2.
Qed.

(** A segment that intersects a circle has a point within the radius, in
    each coordinate. *)
Lemma intersects_point x1 y1 x2 y2 cx cy r :
  GeometryUtils.lineIntersectsCircle x1 y1 x2 y2 cx cy r = true ->
  0 <= r
  /\ exists s, (0 <= s /\ s <= 1)
       /\ (cx - r <= x1 + s * (x2 - x1) /\ x1 + s * (x2 - x1) <= cx + r)
       /\ (cy - r <= y1 + s * (y2 - y1) /\ y1 + s * (y2 - y1) <= cy + r).
Proof.
  intros H.
  destruct (Qeq_dec ((x2 - x1) * (x2 - x1) + (y2 - y1) * (y2 - y1)) 0)
    as [Hz | Hnz].
  - rewrite (lineIntersectsCircle_degenerate _ _ _ _ _ _ _ Hz) in H.
    discriminate.
  - apply (GeometryFacts.lineIntersectsCircle_spec _ _ _ _ _ _ _ Hnz) in H
      as (Hr & s & Hs & Hd).
    split; [exact Hr |]. exists s. split; [exact Hs |].
    unfold dist2 in Hd.
    apply RemovalFacts.sum_squares_le in Hd as [Hdx Hdy].
    apply RemovalFacts.square_le_bound in Hdx, Hdy; trivial.
    split; split; lra.
Qed.

(** A point of a segment lies between the end points, in each
    coordinate. *)
Lemma between (a b s : Q) :
  0 <= s -> s <= 1 ->
  (a <= a + s * (b - a) /\ a + s * (b - a) <= b)
  \/ (b <= a + s * (b - a) /\ a + s * (b - a) <= a).
Proof.
  intros H0 H1. destruct (Qlt_le_dec b a) as [Hlt | Hle].
  - right.
    assert (0 <= s * (a - b)) by (apply Qmult_le_0_compat; lra).
    assert (0 <= (1 - s) * (a - b)) by (apply Qmult_le_0_compat; lra).
    assert (s * (a - b) == - (s * (b - a))) by ring.
    assert ((1 - s) * (a - b) == a - b + s * (b - a)) by ring.
    split; lra.
  - left.
    assert (0 <= s * (b - a)) by (apply Qmult_le_0_compat; lra).
    assert (0 <= (1 - s) * (b - a)) by (apply Qmult_le_0_compat; lra).
    assert ((1 - s) * (b - a) == b - a - s * (b - a)) by ring.
    split; lra.
Qed.

Lemma growBox_noNaN (b : CollisionDetector.Box) (p : SwipePoint) :
  noNaN b -> noNaN (CollisionDetector.growBox b p).
Proof.
  intros (H1 & H2 & H3 & H4). unfold noNaN, CollisionDetector.growBox. cbn.
  repeat split;
    match goal with |- (if ?c then _ else _) <> _ => destruct c end;
    try discriminate; assumption.
Qed.

Lemma growBox_covers_old (b : CollisionDetector.Box) (p q : SwipePoint) :
  covers b q -> covers (CollisionDetector.growBox b p) q.
Proof.
  intros (H1 & H2 & H3 & H4). unfold covers, CollisionDetector.growBox. cbn.
  repeat split.
  - destruct (CollisionDetector.minX b) as [m | | |]; cbn in *; try tauto.
    destruct (JS.ltb (sp_x p) m) eqn:E; cbn; [| exact H1].
    apply JSFacts.ltb_lt in E. lra.
  - destruct (CollisionDetector.maxX b) as [m | | |]; cbn in *; try tauto.
    destruct (JS.gtb (sp_x p) m) eqn:E; cbn; [| exact H2].
    apply JSFacts.gtb_gt in E. lra.
  - destruct (CollisionDetector.minY b) as [m | | |]; cbn in *; try tauto.
    destruct (JS.ltb (sp_y p) m) eqn:E; cbn; [| exact H3].
    apply JSFacts.ltb_lt in E. lra.
  - destruct (CollisionDetector.maxY b) as [m | | |]; cbn in *; try tauto.
    destruct (JS.gtb (sp_y p) m) eqn:E; cbn; [| exact H4].
    apply JSFacts.gtb_gt in E. lra.
Qed.

Lemma growBox_covers_new (b : CollisionDetector.Box) (p : SwipePoint) :
  noNaN b -> covers (CollisionDetector.growBox b p) p.
Proof.
  intros (H1 & H2 & H3 & H4). unfold covers, CollisionDetector.growBox. cbn.
  repeat split.
  - destruct (CollisionDetector.minX b) as [m | | |]; cbn in *;
      try tauto; try lra.
    destruct (JS.ltb (sp_x p) m) eqn:E; cbn; [lra |].
    now apply JSFacts.ltb_ge in E.
  - destruct (CollisionDetector.maxX b) as [m | | |]; cbn in *;
      try tauto; try lra.
    destruct (JS.gtb (sp_x p) m) eqn:E; cbn; [lra |].
    now apply JSFacts.gtb_le in E.
  - destruct (CollisionDetector.minY b) as [m | | |]; cbn in *;
      try tauto; try lra.
    destruct (JS.ltb (sp_y p) m) eqn:E; cbn; [lra |].
    now apply JSFacts.ltb_ge in E.
  - destruct (CollisionDetector.maxY b) as [m | | |]; cbn in *;
      try tauto; try lra.
    destruct (JS.gtb (sp_y p) m) eqn:E; cbn; [lra |].
    now apply JSFacts.gtb_le in E.
Qed.

Lemma fold_growBox_covers (tested : list SwipePoint) :
  forall b : CollisionDetector.Box,
    noNaN b ->
    (forall q, covers b q ->
               covers (fold_left CollisionDetector.growBox tested b) q)
    /\ (forall p, p ∈ tested ->
                  covers (fold_left CollisionDetector.growBox tested b) p).
Proof.
  induction tested as [| a tested IH]; intros b Hb.
  - split; [trivial |]. intros p Hp. now apply elem_of_nil in Hp.
  - cbn [fold_left].
    destruct (IH (CollisionDetector.growBox b a) (growBox_noNaN b a Hb))
      as [Hold Hnew].
    split.
    + intros q Hq. now apply Hold, growBox_covers_old.
    + intros p Hp. apply elem_of_cons in Hp as [-> | Hp].
      * now apply Hold, growBox_covers_new.
      * now apply Hnew.
Qed.

Lemma covered_not_outside (b : CollisionDetector.Box) (k : Q)
    (p1 p2 : SwipePoint) (f : Fruit.t) :
  0 <= k -> covers b p1 -> covers b p2 ->
  Fruit.intersectsLine (sp_x p1) (sp_y p1) (sp_x p2) (sp_y p2) f = true ->
  CollisionDetector.outsideBox (Fruit.getBounds f)
    (CollisionDetector.inflateBox k b) = false.
Proof.
  intros Hk (A1 & A2 & A3 & A4) (B1 & B2 & B3 & B4) Hi.
  apply intersects_point in Hi as (Hr & s & [Hs0 Hs1] & [Hx1 Hx2] & [Hy1 Hy2]).
  destruct (between (sp_x p1) (sp_x p2) s Hs0 Hs1) as [[Bx1 Bx2] | [Bx1 Bx2]];
  destruct (between (sp_y p1) (sp_y p2) s Hs0 Hs1) as [[By1 By2] | [By1 By2]];
    unfold CollisionDetector.outsideBox, CollisionDetector.inflateBox,
      Fruit.getBounds; cbn;
    set (qx := sp_x p1 + s * (sp_x p2 - sp_x p1)) in *;
    set (qy := sp_y p1 + s * (sp_y p2 - sp_y p1)) in *; clearbody qx qy;
    destruct (CollisionDetector.minX b) as [m1 | | |];
    destruct (CollisionDetector.maxX b) as [m2 | | |];
    destruct (CollisionDetector.minY b) as [m3 | | |];
    destruct (CollisionDetector.maxY b) as [m4 | | |];
    cbn in *; try tauto;
    rewrite ?orb_false_r, ?orb_false_iff;
    repeat split;
    try (apply JSFacts.ltb_ge; lra); try (apply JSFacts.gtb_le; lra).
Qed.

(** The pre-filter keeps every fruit that a tested segment intersects. *)
Lemma prefilter_sound (tested : list SwipePoint)
    (p1 p2 : SwipePoint) (f : Fruit.t) :
  p1 ∈ tested -> p2 ∈ tested ->
  Fruit.intersectsLine (sp_x p1) (sp_y p1) (sp_x p2) (sp_y p2) f = true ->
  CollisionDetector.outsideBox (Fruit.getBounds f)
    (CollisionDetector.inflateBox 80
       (fold_left CollisionDetector.growBox tested emptyBox))
  = false.
Proof.
  intros H1 H2 Hi.
  assert (Hb : noNaN emptyBox) by (repeat split; discriminate).
  destruct (fold_growBox_covers tested emptyBox Hb) as [_ Hc].
  apply (covered_not_outside _ 80 p1 p2); auto. lra.
Qed.

Lemma collectCandidates_spec (h : gmap ref Fruit.t)
    (box : CollisionDetector.Box) (fruits : list ref) :
  forall (i : nat) (r : ref),
    r ∈ (CollisionDetector.collectCandidates h box i fruits).*1 <->
    r ∈ fruits
    /\ exists f, h !! r = Some f /\ Fruit.sliced f = false
         /\ CollisionDetector.outsideBox (Fruit.getBounds f) box = false.
Proof.
  induction fruits as [| a fruits IH]; intros i r.
  - cbn. split; [intros H; now apply elem_of_nil in H |].
    intros [H _]. now apply elem_of_nil in H.
  - cbn [CollisionDetector.collectCandidates]. rewrite elem_of_cons.
    destruct (h !! a) as [fa |] eqn:Ha.
    + destruct (Fruit.sliced fa) eqn:Hs;
        [| destruct (CollisionDetector.outsideBox (Fruit.getBounds fa) box)
             eqn:Ho].
      * rewrite IH. split; [intros [H1 H2]; tauto |].
        intros [[-> | H1] (f & Hf & Hsf & Hof)]; [congruence | eauto].
      * rewrite IH. split; [intros [H1 H2]; tauto |].
        intros [[-> | H1] (f & Hf & Hsf & Hof)]; [congruence | eauto].
      * cbn [fmap list_fmap fst]. rewrite elem_of_cons, IH. split.
        -- intros [-> | [H1 H2]]; [| tauto]. split; [now left | eauto].
        -- intros [[-> | H1] H2]; [now left | right; tauto].
    + rewrite IH. split; [intros [H1 H2]; tauto |].
      intros [[-> | H1] (f & Hf & Hsf & Hof)]; [congruence | eauto].
Qed.

(** X17: the bounding-box pre-filter loses no hit.  [checkSwipeCollisions]
    tests the segments between the tested trail points against the
    candidates only; a fruit of the array that is not sliced and that a
    segment between two of the tested points intersects is always among
    the candidates, so the pre-filter never hides from the segment test a
    fruit that the test would report.  The candidates are the fruits of
    the array that are not sliced and not outside the bounding box of the
    tested points inflated by 80, each once when the array has no
    repetition. *)
Theorem prefilter_keeps_every_hit (w : World) :
  CollisionDetector.checkSwipeCollisions w
  = (if (length (GameState.swipePoints (gameState w)) <? 2)%nat then w
     else CollisionDetector.checkSegments (testedPoints w) (candidatesOf w) w)
  /\ (forall (r : ref) (f : Fruit.t) (p1 p2 : SwipePoint),
        r ∈ GameState.fruits (gameState w) ->
        heap w !! r = Some f -> Fruit.sliced f = false ->
        p1 ∈ testedPoints w -> p2 ∈ testedPoints w ->
        Fruit.intersectsLine (sp_x p1) (sp_y p1) (sp_x p2) (sp_y p2) f = true ->
        r ∈ (candidatesOf w).*1)
  /\ (forall r : ref,
        r ∈ (candidatesOf w).*1 ->
        r ∈ GameState.fruits (gameState w)
        /\ exists f, heap w !! r = Some f /\ Fruit.sliced f = false)
  /\ (length (candidatesOf w) <= length (GameState.fruits (gameState w)))%nat.
Proof.
  split; [reflexivity |]. split; [| split].
  - intros r f p1 p2 Hr Hf Hs H1 H2 Hi. unfold candidatesOf.
    apply collectCandidates_spec. split; [exact Hr |].
    exists f. split; [exact Hf |]. split; [exact Hs |].
    now apply (prefilter_sound _ p1 p2).
  - intros r Hr. unfold candidatesOf in Hr.
    apply collectCandidates_spec in Hr.
    destruct Hr as (Hr & f & Hf & Hs & _). split; [exact Hr |]. now exists f.
  - unfold candidatesOf.
    generalize (CollisionDetector.inflateBox 80
                  (fold_left CollisionDetector.growBox (testedPoints w) emptyBox)).
    intros box. generalize 0%nat.
    induction (GameState.fruits (gameState w)) as [| a l IH]; intros i;
      [reflexivity |].
    cbn [CollisionDetector.collectCandidates length].
    specialize (IH (S i)).
    destruct (heap w !! a) as [fa |]; [| lia].
    destruct (Fruit.sliced fa); [lia |].
    destruct (CollisionDetector.outsideBox _ box); cbn [length]; lia.
Qed.

(** A swipe from (380, 300) to (420, 300) through a fruit at (400, 300),
    with a second fruit far to the right: the first is a candidate, the
    second is filtered out. *)
Example prefilter_example :
  let w :=
    Demo.withSwipe [(380, 300); (420, 300)]
      (Demo.withFruit (Demo.fruitAt Fruit.fruit 700 300)
         (Demo.withFruit (Demo.fruitAt Fruit.fruit 400 300) Demo.started)) in
  GameState.fruits (gameState w) = [0%nat; 1%nat]
  /\ candidatesOf w = [(0%nat, 0%nat)].
Proof. vm_compute. split; reflexivity. Qed.

Lemma handleFruitCollision_exact (h0 : gmap ref Fruit.t) (r : ref) (i : nat)
    (w : World) (f0 : Fruit.t) :
  heap_exact h0 w -> h0 !! r = Some f0 ->
  r ∉ processedCollisions (collisionDetector w) ->
  let w' := CollisionDetector.handleFruitCollision r i w in
  heap_exact h0 w'
  /\ processedCollisions (collisionDetector w')
     = {[r]} ∪ processedCollisions (collisionDetector w).
Proof.
  intros Hex H0 Hr. cbv zeta.
  destruct (CollisionFacts.handleFruitCollision_frame r i w) as (Hp & _).
  pose proof (CollisionFacts.handleFruitCollision_heap r i w) as Hh.
  cbv zeta in Hp.
  set (w' := CollisionDetector.handleFruitCollision r i w) in *. clearbody w'.
  split; [| exact Hp].
  assert (Hw : heap w !! r = Some f0).
  { rewrite Hex, bool_decide_eq_false_2 by exact Hr. exact H0. }
  rewrite Hw in Hh. intros r'. rewrite Hh, Hp.
  destruct (decide (r' = r)) as [-> | Hne].
  - rewrite lookup_insert_eq, bool_decide_eq_true_2
      by (apply elem_of_union; left; now apply elem_of_singleton).
    now rewrite H0.
  - rewrite lookup_insert_ne by congruence. rewrite Hex.
    destruct (decide (r' ∈ processedCollisions (collisionDetector w)))
      as [Hin | Hnin].
    + rewrite (bool_decide_eq_true_2 _ Hin).
      rewrite bool_decide_eq_true_2 by (apply elem_of_union; now right).
      reflexivity.
    + rewrite (bool_decide_eq_false_2 _ Hnin).
      rewrite bool_decide_eq_false_2; [reflexivity |].
      intros Hc. apply elem_of_union in Hc as [Hc | Hc]; [| contradiction].
      apply elem_of_singleton in Hc. contradiction.
Qed.

Lemma checkLineSegment_exact (h0 : gmap ref Fruit.t) (p1 p2 : SwipePoint)
    (cands : list (ref * nat)) :
  forall (c : nat) (w : World),
    (forall r, r ∈ cands.*1 ->
       exists f0, h0 !! r = Some f0 /\ Fruit.sliced f0 = false) ->
    heap_exact h0 w ->
    let w' :=
      CollisionDetector.checkLineSegmentCollisionsForCandidates
        (sp_x p1) (sp_y p1) (sp_x p2) (sp_y p2) c cands w in
    heap_exact h0 w'
    /\ forall r,
         r ∈ processedCollisions (collisionDetector w') <->
         r ∈ processedCollisions (collisionDetector w)
         \/ (r ∈ cands.*1 /\ crosses h0 p1 p2 r = true).
Proof.
  induction cands as [| [a idx] rest IH]; intros c w Hok Hex.
  - cbn. split; [exact Hex |]. intros r. split; [tauto |].
    intros [H | [H _]]; [exact H | now apply elem_of_nil in H].
  - cbn [CollisionDetector.checkLineSegmentCollisionsForCandidates].
    destruct (Hok a) as (f0 & H0 & Hs0); [cbn; now left |].
    assert (Hok' : forall r, r ∈ rest.*1 ->
              exists f, h0 !! r = Some f /\ Fruit.sliced f = false).
    { intros r Hr. apply Hok. cbn. now right. }
    assert (Hcr : crosses h0 p1 p2 a
                  = Fruit.intersectsLine (sp_x p1) (sp_y p1) (sp_x p2) (sp_y p2)
                      f0).
    { unfold crosses. now rewrite H0. }
    destruct (decide (a ∈ processedCollisions (collisionDetector w)))
      as [Hin | Hnin].
    + assert (Hw : heap w !! a = Some (Fruit.with_sliced true f0)).
      { rewrite Hex, bool_decide_eq_true_2 by exact Hin. now rewrite H0. }
      rewrite Hw. cbn [Fruit.sliced Fruit.with_sliced orb].
      destruct (IH (S c) w Hok' Hex) as [Hex' Hiff]. split; [exact Hex' |].
      intros r. rewrite Hiff. cbn [fmap list_fmap fst]. rewrite elem_of_cons.
      split; [tauto |]. intros [H | [[-> | H] Hc]]; tauto.
    + assert (Hw : heap w !! a = Some f0).
      { rewrite Hex, bool_decide_eq_false_2 by exact Hnin. exact H0. }
      rewrite Hw, Hs0, bool_decide_eq_false_2 by exact Hnin. cbn [orb].
      rewrite <- Hcr.
      destruct (crosses h0 p1 p2 a) eqn:Hc.
      * destruct (handleFruitCollision_exact h0 a c w f0 Hex H0 Hnin)
          as [Hex1 Hp1].
        cbv zeta in Hex1, Hp1.
        set (w1 := CollisionDetector.handleFruitCollision a c w) in *.
        clearbody w1.
        destruct (IH (S c) w1 Hok' Hex1) as [Hex' Hiff]. split; [exact Hex' |].
        intros r. rewrite Hiff, Hp1. cbn [fmap list_fmap fst].
        rewrite elem_of_cons, elem_of_union, elem_of_singleton.
        split; [intros [[-> | H] | H]; tauto |].
        intros [H | [[-> | H] Hc']]; tauto.
      * destruct (IH (S c) w Hok' Hex) as [Hex' Hiff]. split; [exact Hex' |].
        intros r. rewrite Hiff. cbn [fmap list_fmap fst]. rewrite elem_of_cons.
        split; [tauto |]. intros [H | [[-> | H] Hc']]; [tauto | | tauto].
        congruence.
Qed.

Lemma consecutive_cons {A : Type} (p1 p2 : A) (rest : list A) (a b : A) :
  consecutive (p1 :: p2 :: rest) a b <->
  (a = p1 /\ b = p2) \/ consecutive (p2 :: rest) a b.
Proof.
  unfold consecutive. split.
  - intros ([| i] & Ha & Hb); cbn in Ha, Hb.
    + left. split; congruence.
    + right. exists i. split; assumption.
  - intros [[-> ->] | (i & Ha & Hb)]; [now exists 0%nat |].
    exists (S i). split; assumption.
Qed.

Lemma consecutive_short {A : Type} (l : list A) (a b : A) :
  (length l < 2)%nat -> ~ consecutive l a b.
Proof.
  intros Hl (i & Ha & Hb). apply lookup_lt_Some in Hb. lia.
Qed.

Lemma consecutive_elem {A : Type} (l : list A) (a b : A) :
  consecutive l a b -> a ∈ l /\ b ∈ l.
Proof.
  intros (i & Ha & Hb). split; eapply list_elem_of_lookup_2; eassumption.
Qed.

Lemma checkSegments_exact (h0 : gmap ref Fruit.t) (cands : list (ref * nat)) :
  (forall r, r ∈ cands.*1 ->
     exists f0, h0 !! r = Some f0 /\ Fruit.sliced f0 = false) ->
  forall (points : list SwipePoint) (w : World),
    heap_exact h0 w ->
    let w' := CollisionDetector.checkSegments points cands w in
    heap_exact h0 w'
    /\ forall r,
         r ∈ processedCollisions (collisionDetector w') <->
         r ∈ processedCollisions (collisionDetector w)
         \/ (r ∈ cands.*1
             /\ exists p1 p2, consecutive points p1 p2
                  /\ crosses h0 p1 p2 r = true).
Proof.
  intros Hok points. induction points as [| p1 rest IH]; intros w Hex.
  - cbn. split; [exact Hex |]. intros r. split; [tauto |].
    intros [H | (_ & a & b & Hc & _)]; [exact H |].
    exfalso. apply (consecutive_short [] a b); [cbn; lia | exact Hc].
  - destruct rest as [| p2 rest'].
    + cbn. split; [exact Hex |]. intros r. split; [tauto |].
      intros [H | (_ & a & b & Hc & _)]; [exact H |].
      exfalso. apply (consecutive_short [p1] a b); [cbn; lia | exact Hc].
    + change (CollisionDetector.checkSegments (p1 :: p2 :: rest') cands w)
        with (CollisionDetector.checkSegments (p2 :: rest') cands
                (CollisionDetector.checkLineSegmentCollisionsForCandidates
                   (sp_x p1) (sp_y p1) (sp_x p2) (sp_y p2) 0 cands w)).
      destruct (checkLineSegment_exact h0 p1 p2 cands 0 w Hok Hex)
        as [Hex1 Hiff1].
      cbv zeta in Hex1, Hiff1.
      set (w1 := CollisionDetector.checkLineSegmentCollisionsForCandidates
                   _ _ _ _ 0 cands w) in *.
      clearbody w1.
      destruct (IH w1 Hex1) as [Hex' Hiff]. cbv zeta in Hex', Hiff.
      split; [exact Hex' |].
      intros r. rewrite Hiff, Hiff1. split.
      * intros [[H | [Hc Hx]] | (Hc & a & b & Hab & Hx)]; [tauto | |].
        -- right. split; [exact Hc |]. exists p1, p2.
           split; [apply consecutive_cons; now left | exact Hx].
        -- right. split; [exact Hc |]. exists a, b.
           split; [apply consecutive_cons; now right | exact Hx].
      * intros [H | (Hc & a & b & Hab & Hx)]; [tauto |].
        apply consecutive_cons in Hab as [[-> ->] | Hab]; [tauto |].
        right. split; [exact Hc |]. now exists a, b.
Qed.

(** X18: what one collision update hits.  The fruits handed to
    [handleFruitCollision], each once, are exactly the fruits of the array
    that are not yet sliced when the update starts and are intersected by
    a segment between two consecutive points among the last seven points
    of the trail, provided a swipe is in progress (with fewer than two
    points there is no such segment); the processed set holds exactly
    these fruits.  Afterwards the objects of exactly these fruits have
    the [sliced] flag set and are otherwise as before, and every other
    fruit object is as before. *)
Theorem collision_pass_hits_exactly (w : World) :
  let w' := CollisionDetector.update w in
  let crossed (r : ref) : Prop :=
    GameState.isSwiping (gameState w) = true
    /\ r ∈ GameState.fruits (gameState w)
    /\ exists f, heap w !! r = Some f /\ Fruit.sliced f = false
         /\ exists p1 p2, consecutive (testedPoints w) p1 p2
              /\ Fruit.intersectsLine (sp_x p1) (sp_y p1) (sp_x p2) (sp_y p2) f
                 = true in
  (exists new : list event,
     trace w' = new ++ trace w /\ NoDup (hitsOf new)
     /\ forall r, r ∈ hitsOf new <-> crossed r)
  /\ (forall r, r ∈ processedCollisions (collisionDetector w') <-> crossed r)
  /\ (forall r, crossed r ->
        heap w' !! r = Fruit.with_sliced true <$> heap w !! r)
  /\ (forall r, ~ crossed r -> heap w' !! r = heap w !! r).
Proof.
  cbv zeta.
  set (crossed := fun r : ref =>
    GameState.isSwiping (gameState w) = true
    /\ r ∈ GameState.fruits (gameState w)
    /\ exists f, heap w !! r = Some f /\ Fruit.sliced f = false
         /\ exists p1 p2, consecutive (testedPoints w) p1 p2
              /\ Fruit.intersectsLine (sp_x p1) (sp_y p1) (sp_x p2) (sp_y p2) f
                 = true).
  assert (Hmain : heap_exact (heap w) (CollisionDetector.update w)
                  /\ forall r,
                       r ∈ processedCollisions
                             (collisionDetector (CollisionDetector.update w))
                       <-> crossed r).
  { unfold CollisionDetector.update.
    set (w1 := set_collisionDetector _ w).
    assert (Hex1 : heap_exact (heap w) w1).
    { intros r. cbn. now rewrite bool_decide_eq_false_2 by apply not_elem_of_empty. }
    assert (Hp1 : processedCollisions (collisionDetector w1) = ∅)
      by reflexivity.
    assert (Hg1 : gameState w1 = gameState w) by reflexivity.
    assert (Hh1 : heap w1 = heap w) by reflexivity.
    assert (Htp : testedPoints w1 = testedPoints w) by reflexivity.
    clearbody w1. rewrite Hg1.
    destruct (GameState.isSwiping (gameState w)) eqn:Hsw; cbn [negb orb].
    2:{ split; [exact Hex1 |]. intros r. rewrite Hp1. unfold crossed.
        split; [intros H; now apply not_elem_of_empty in H |
                intros [H _]; discriminate]. }
    destruct (Nat.ltb_spec (length (GameState.swipePoints (gameState w))) 2)
      as [Hlt | Hge].
    { split; [exact Hex1 |]. intros r. rewrite Hp1. unfold crossed.
      split; [intros H; now apply not_elem_of_empty in H |].
      intros (_ & _ & f & _ & _ & a & b & Hc & _). exfalso.
      apply (consecutive_short _ a b) in Hc; [exact Hc |].
      unfold testedPoints. rewrite length_drop. lia. }
    unfold CollisionDetector.checkSwipeCollisions. cbv zeta. rewrite Hg1, Hh1.
    destruct (Nat.ltb_spec (length (GameState.swipePoints (gameState w))) 2)
      as [Hlt | _]; [lia |].
    change (drop (length (GameState.swipePoints (gameState w))
                  - (CollisionDetector.K + 1))
              (GameState.swipePoints (gameState w)))
      with (testedPoints w).
    change {| CollisionDetector.minX := JS.PInf;
              CollisionDetector.minY := JS.PInf;
              CollisionDetector.maxX := JS.NInf;
              CollisionDetector.maxY := JS.NInf |}
      with emptyBox.
    set (box := CollisionDetector.inflateBox 80 _).
    set (cands := CollisionDetector.collectCandidates (heap w) box 0 _).
    assert (Hok : forall r, r ∈ cands.*1 ->
              exists f0, heap w !! r = Some f0 /\ Fruit.sliced f0 = false).
    { intros r Hr. apply collectCandidates_spec in Hr as (_ & f & Hf & Hs & _).
      eauto. }
    destruct (checkSegments_exact (heap w) cands Hok (testedPoints w) w1 Hex1)
      as [Hex' Hiff].
    cbv zeta in Hex', Hiff. split; [exact Hex' |].
    intros r. rewrite Hiff, Hp1. unfold crossed. split.
    - intros [H | (Hc & a & b & Hab & Hx)];
        [now apply not_elem_of_empty in H |].
      apply collectCandidates_spec in Hc as (Hfr & f & Hf & Hs & _).
      split; [reflexivity |]. split; [exact Hfr |].
      exists f. split; [exact Hf |]. split; [exact Hs |].
      exists a, b. split; [exact Hab |].
      unfold crosses in Hx. now rewrite Hf in Hx.
    - intros (_ & Hfr & f & Hf & Hs & a & b & Hab & Hx). right.
      destruct (consecutive_elem _ _ _ Hab) as [Ha Hb].
      split.
      + apply collectCandidates_spec. split; [exact Hfr |].
        exists f. split; [exact Hf |]. split; [exact Hs |].
        now apply (prefilter_sound (testedPoints w) a b).
      + exists a, b. split; [exact Hab |].
        unfold crosses. now rewrite Hf. }
  destruct Hmain as [Hex Hproc].
  destruct (CollisionFacts.update_invariant w) as (evs & Hev & Hnd & _ & Hhits).
  split; [| split; [exact Hproc | split]].
  - exists evs. split; [exact Hev |]. split; [exact Hnd |].
    intros r. now rewrite Hhits, Hproc.
  - intros r Hc. rewrite Hex, bool_decide_eq_true_2; [reflexivity |].
    now apply Hproc.
  - intros r Hc. rewrite Hex, bool_decide_eq_false_2; [reflexivity |].
    now rewrite Hproc.
Qed.

End CollisionPassFacts.

(** ** The fixed step as a whole *)

Module StepFacts.
Import Vocabulary Frames.
Local Open Scope Q_scope.

Lemma session_frame_refl (w : World) : session_frame w w.
Proof.
  split; try reflexivity. exists []. split; [reflexivity | constructor].
Qed.

Lemma session_frame_trans (w1 w2 w3 : World) :
  session_frame w1 w2 -> session_frame w2 w3 -> session_frame w1 w3.
Proof.
  intros A B. split.
  - now rewrite (sf_swipePoints _ _ B), (sf_swipePoints _ _ A).
  - now rewrite (sf_isSwiping _ _ B), (sf_isSwiping _ _ A).
  - now rewrite (sf_elapsedTime _ _ B), (sf_elapsedTime _ _ A).
  - now rewrite (sf_canvasWidth _ _ B), (sf_canvasWidth _ _ A).
  - now rewrite (sf_canvasHeight _ _ B), (sf_canvasHeight _ _ A).
  - now rewrite (sf_env _ _ B), (sf_env _ _ A).
  - pose proof (sf_tick _ _ A). pose proof (sf_tick _ _ B). lia.
  - destruct (sf_trace _ _ A) as (ea & Ha & Hqa).
    destruct (sf_trace _ _ B) as (eb & Hb & Hqb).
    exists (eb ++ ea). unfold since in *.
    rewrite Hb, Ha, app_assoc. split; [reflexivity |].
    now apply FrameFacts.quiet_app.
Qed.

Lemma collision_session_frame (w w' : World) :
  collision_frame w w' -> session_frame w w'.
Proof.
  intros F. split.
  - apply (cf_swipePoints _ _ F).
  - apply (cf_isSwiping _ _ F).
  - apply (cf_elapsedTime _ _ F).
  - apply (cf_canvasWidth _ _ F).
  - apply (cf_canvasHeight _ _ F).
  - apply (cf_env _ _ F).
  - apply (cf_tick _ _ F).
  - apply (cf_trace _ _ F).
Qed.

(** A world that differs in the store, the managers, the storage or the
    next free reference only. *)
Lemma same_session (w w' : World) :
  gameState w' = gameState w -> canvasWidth w' = canvasWidth w ->
  canvasHeight w' = canvasHeight w -> env w' = env w ->
  (tick w <= tick w')%nat -> trace w' = trace w ->
  session_frame w w'.
Proof.
  intros Hg Hcw Hch He Ht Htr. split; try assumption; try now rewrite Hg.
  exists []. split; [exact Htr | constructor].
Qed.

Lemma modify_session_frame (f : GameState.t -> GameState.t) (w : World) :
  GameState.swipePoints (f (gameState w)) = GameState.swipePoints (gameState w) ->
  GameState.isSwiping (f (gameState w)) = GameState.isSwiping (gameState w) ->
  GameState.elapsedTime (f (gameState w)) = GameState.elapsedTime (gameState w) ->
  session_frame w (modify_gameState f w).
Proof.
  intros H1 H2 H3. split; try assumption; try reflexivity.
  exists []. split; [reflexivity | constructor].
Qed.

Lemma createRandom_clock (cw ch : Q) (w : World) :
  let w' := snd (FruitWorld.createRandom cw ch w) in
  env w' = env w /\ canvasWidth w' = canvasWidth w
  /\ canvasHeight w' = canvasHeight w /\ (tick w <= tick w')%nat.
Proof.
  unfold FruitWorld.createRandom. cbn.
  destruct (JS.ltb _ _); cbn; repeat split; lia.
Qed.

(** What [spawnItem] does to the fruits. *)
Lemma spawnItem_fruits (w : World) :
  let w' := SpawnManager.spawnItem w in
  session_frame w w'
  /\ spawnManager w' = spawnManager w
  /\ ((18 <= length (GameState.fruits (gameState w)))%nat /\ w' = w
      \/ (length (GameState.fruits (gameState w)) < 18)%nat
         /\ GameState.fruits (gameState w')
            = GameState.fruits (gameState w) ++ [nextRef w]
         /\ (exists f : Fruit.t, heap w' = <[nextRef w := f]> (heap w))
         /\ nextRef w' = S (nextRef w)).
Proof.
  cbv zeta.
  destruct (le_lt_dec 18 (length (GameState.fruits (gameState w))))
    as [Hge | Hlt].
  - rewrite (SpawnFacts.spawnItem_at_cap w Hge).
    split; [apply session_frame_refl |]. split; [reflexivity |]. now left.
  - destruct (SpawnFacts.spawnItem_below_cap w Hlt) as (Hf & Hh & Hn & Hs).
    split; [| split; [exact Hs | right; now repeat split]].
    assert (Hc : JS.geb (len (GameState.fruits (gameState w)))
                   SpawnManager.fruitCap = false).
    { apply not_true_is_false. rewrite SpawnFacts.fruitCap_reached. lia. }
    clear Hf Hh Hn Hs.
    unfold SpawnManager.spawnItem. rewrite Hc.
    pose proof (SpawnFacts.createRandom_frame (canvasWidth w) (canvasHeight w) w)
      as Hfr.
    pose proof (createRandom_clock (canvasWidth w) (canvasHeight w) w) as Hck.
    destruct (FruitWorld.createRandom _ _ w) as [f w1]. cbn [snd] in Hfr, Hck.
    destruct Hfr as (Hg & _ & _ & _ & Ht & _).
    destruct Hck as (He & Hcw & Hch & Htk).
    destruct (Fruit.type f).
    + split; cbn; try (now rewrite Hg); try assumption.
      exists [EvSound FruitSpawnSound]. unfold since. cbn. rewrite Ht.
      split; [reflexivity | now repeat constructor].
    + split; cbn; try (now rewrite Hg); try assumption.
      exists [EvSound BombSpawnSound]. unfold since. cbn. rewrite Ht.
      split; [reflexivity | now repeat constructor].
Qed.

(** What [SpawnManager.update] does to the fruits. *)
Lemma SpawnManager_update_fruits (dt : Q) (w : World) :
  let w' := SpawnManager.update dt w in
  session_frame w w'
  /\ (GameState.fruits (gameState w') = GameState.fruits (gameState w)
      /\ heap w' = heap w /\ nextRef w' = nextRef w
      \/ (length (GameState.fruits (gameState w)) < 18)%nat
         /\ GameState.fruits (gameState w')
            = GameState.fruits (gameState w) ++ [nextRef w]
         /\ (exists f : Fruit.t, heap w' = <[nextRef w := f]> (heap w))
         /\ nextRef w' = S (nextRef w)).
Proof.
  cbv zeta. unfold SpawnManager.update.
  destruct (GameState.gameOver _);
    [split; [apply session_frame_refl | left; now repeat split] |].
  set (w2 := SpawnManager.updateDifficulty _).
  assert (F2 : session_frame w w2).
  { split; try reflexivity. exists []. split; [reflexivity | constructor]. }
  assert (Hf2 : GameState.fruits (gameState w2) = GameState.fruits (gameState w))
    by reflexivity.
  assert (Hh2 : heap w2 = heap w) by reflexivity.
  assert (Hn2 : nextRef w2 = nextRef w) by reflexivity.
  clearbody w2. unfold SpawnManager.handleSpecialSpawnPatterns.
  destruct (_ && _); [| split; [exact F2 | left; now repeat split]].
  destruct (spawnItem_fruits w2) as (Fa & _ & Hcase). cbv zeta in Fa, Hcase.
  set (wa := SpawnManager.spawnItem w2) in *. clearbody wa.
  unfold performance_now.
  set (wb := set_spawnManager (set_spawnTimer 0 (spawnManager wa)) wa).
  set (wd := set_spawnManager _ (set_tick (S (tick wb)) wb)).
  assert (Fd : session_frame wa wd).
  { apply same_session; try reflexivity. cbn. lia. }
  assert (Hfd : GameState.fruits (gameState wd) = GameState.fruits (gameState wa))
    by reflexivity.
  assert (Hhd : heap wd = heap wa) by reflexivity.
  assert (Hnd : nextRef wd = nextRef wa) by reflexivity.
  clearbody wd.
  split.
  - eapply session_frame_trans; [exact F2 |].
    eapply session_frame_trans; eassumption.
  - rewrite Hfd, Hhd, Hnd, <- Hf2, <- Hh2, <- Hn2.
    destruct Hcase as [[_ ->] | (Hlt & Hf & Hh & Hn)];
      [left; now repeat split | right; now repeat split].
Qed.

Lemma updateFruitsLoop_session_frame (dt : Q) (n : nat) :
  forall w : World, session_frame w (GameEngine.updateFruitsLoop dt n w).
Proof.
  induction n as [| n IH]; intros w; [apply session_frame_refl |].
  cbn [GameEngine.updateFruitsLoop].
  destruct (GameState.fruits (gameState w) !! n) as [r |]; [| apply IH].
  destruct (heap w !! r) as [fruit |]; [| apply IH].
  set (w1 := set_heap _ w).
  assert (F1 : session_frame w w1) by (now apply same_session).
  change (canvasWidth w1) with (canvasWidth w).
  change (canvasHeight w1) with (canvasHeight w).
  clearbody w1.
  destruct (Fruit.shouldRemove _ _ _).
  - eapply session_frame_trans; [exact F1 |].
    eapply session_frame_trans; [| apply IH].
    now apply modify_session_frame.
  - eapply session_frame_trans; [exact F1 | apply IH].
Qed.

Lemma updateComboStatus_keeps (now : Q) (g : GameState.t) :
  let g' := GameState.updateComboStatus now g in
  GameState.swipePoints g' = GameState.swipePoints g
  /\ GameState.isSwiping g' = GameState.isSwiping g
  /\ GameState.elapsedTime g' = GameState.elapsedTime g
  /\ GameState.spawnInterval g' = GameState.spawnInterval g
  /\ GameState.fruits g' = GameState.fruits g.
Proof.
  cbv zeta. unfold GameState.updateComboStatus. now destruct (JS.gtb _ _).
Qed.

Lemma updateScreenEffects_keeps (g : GameState.t) :
  let g' := UIManager.updateScreenEffects g in
  GameState.swipePoints g' = GameState.swipePoints g
  /\ GameState.isSwiping g' = GameState.isSwiping g
  /\ GameState.elapsedTime g' = GameState.elapsedTime g
  /\ GameState.fruits g' = GameState.fruits g.
Proof.
  cbv zeta. unfold UIManager.updateScreenEffects.
  destruct (GameState.screenShake g) as [sh |].
  - destruct (JS.gtb (shake_timeRemaining sh) 0).
    + destruct (JS.leb _ 0).
      * set (g1 := GameState.set_screenShake None g).
        assert (H1 : GameState.swipePoints g1 = GameState.swipePoints g
                     /\ GameState.isSwiping g1 = GameState.isSwiping g
                     /\ GameState.elapsedTime g1 = GameState.elapsedTime g
                     /\ GameState.fruits g1 = GameState.fruits g)
          by (now repeat split).
        clearbody g1. destruct H1 as (<- & <- & <- & <-).
        destruct (GameState.screenFlash g1) as [fl |]; [| now repeat split].
        destruct (JS.gtb _ 0); [| now repeat split].
        destruct (JS.leb _ 0); now repeat split.
      * set (g1 := GameState.set_screenShake _ g).
        assert (H1 : GameState.swipePoints g1 = GameState.swipePoints g
                     /\ GameState.isSwiping g1 = GameState.isSwiping g
                     /\ GameState.elapsedTime g1 = GameState.elapsedTime g
                     /\ GameState.fruits g1 = GameState.fruits g)
          by (now repeat split).
        clearbody g1. destruct H1 as (<- & <- & <- & <-).
        destruct (GameState.screenFlash g1) as [fl |]; [| now repeat split].
        destruct (JS.gtb _ 0); [| now repeat split].
        destruct (JS.leb _ 0); now repeat split.
    + destruct (GameState.screenFlash g) as [fl |]; [| now repeat split].
      destruct (JS.gtb _ 0); [| now repeat split].
      destruct (JS.leb _ 0); now repeat split.
  - destruct (GameState.screenFlash g) as [fl |]; [| now repeat split].
    destruct (JS.gtb _ 0); [| now repeat split].
    destruct (JS.leb _ 0); now repeat split.
Qed.

(** The first two steps of [GameEngine.update]: the trail is cut to its
    youngest 20 points and the clock advanced. *)
Lemma update_head (dt : Q) (w : World) :
  let w0 :=
    let pts := GameState.swipePoints (gameState w) in
    if (20 <? length pts)%nat then
      modify_gameState
        (GameState.set_swipePoints (drop (length pts - 20) pts)) w
    else w in
  let w1 := GameEngine.updateGameState dt w0 in
  GameState.swipePoints (gameState w1)
  = drop (length (GameState.swipePoints (gameState w)) - 20)
      (GameState.swipePoints (gameState w))
  /\ GameState.elapsedTime (gameState w1)
     = GameState.elapsedTime (gameState w) + dt
  /\ GameState.isSwiping (gameState w1) = GameState.isSwiping (gameState w)
  /\ GameState.fruits (gameState w1) = GameState.fruits (gameState w)
  /\ heap w1 = heap w /\ nextRef w1 = nextRef w
  /\ canvasWidth w1 = canvasWidth w /\ canvasHeight w1 = canvasHeight w
  /\ env w1 = env w /\ tick w1 = tick w /\ trace w1 = trace w.
Proof.
  cbv zeta.
  destruct (Nat.ltb_spec 20 (length (GameState.swipePoints (gameState w))))
    as [Hlt | Hge]; [now repeat split |].
  replace (length (GameState.swipePoints (gameState w)) - 20)%nat
    with 0%nat by lia.
  now repeat split.
Qed.

(** The last steps of [GameEngine.update], after the collision pass. *)
Lemma update_tail (w5 : World) :
  let w6 :=
    let '(now, w8) :=
      performance_now
        (modify_gameState GameState.updateDifficulty (UIManager.update w5)) in
    modify_gameState (GameState.updateComboStatus now) w8 in
  session_frame w5 w6
  /\ GameState.fruits (gameState w6) = GameState.fruits (gameState w5)
  /\ heap w6 = heap w5 /\ nextRef w6 = nextRef w5
  /\ GameState.spawnInterval (gameState w6)
     = Qmax 300 (1000 - GameState.elapsedTime (gameState w5) * 10).
Proof.
  cbv zeta.
  set (w6 := UIManager.update w5).
  destruct (updateScreenEffects_keeps (gameState w5)) as (C1 & C2 & C3 & C4).
  assert (F6 : session_frame w5 w6)
    by (now apply modify_session_frame).
  assert (H6 : GameState.fruits (gameState w6) = GameState.fruits (gameState w5)
               /\ GameState.elapsedTime (gameState w6)
                  = GameState.elapsedTime (gameState w5)
               /\ heap w6 = heap w5 /\ nextRef w6 = nextRef w5)
    by (now repeat split).
  clearbody w6. destruct H6 as (D1 & D2 & D3 & D4).
  set (w7 := modify_gameState GameState.updateDifficulty w6).
  assert (F7 : session_frame w6 w7) by (now apply modify_session_frame).
  assert (H7 : GameState.fruits (gameState w7) = GameState.fruits (gameState w6)
               /\ GameState.spawnInterval (gameState w7)
                  = Qmax 300 (1000 - GameState.elapsedTime (gameState w6) * 10)
               /\ heap w7 = heap w6 /\ nextRef w7 = nextRef w6)
    by (now repeat split).
  clearbody w7. destruct H7 as (E1 & E2 & E3 & E4).
  unfold performance_now.
  set (now := performance_now_at (env w7) (tick w7)). clearbody now.
  set (w8 := set_tick (S (tick w7)) w7).
  assert (F8 : session_frame w7 w8)
    by (apply same_session; try reflexivity; cbn; lia).
  assert (H8 : gameState w8 = gameState w7 /\ heap w8 = heap w7
               /\ nextRef w8 = nextRef w7) by (now repeat split).
  clearbody w8. destruct H8 as (G1 & G2 & G3).
  destruct (updateComboStatus_keeps now (gameState w8)) as (K1 & K2 & K3 & K4 & K5).
  split.
  { eapply session_frame_trans; [exact F6 |].
    eapply session_frame_trans; [exact F7 |].
    eapply session_frame_trans; [exact F8 |].
    now apply modify_session_frame. }
  cbn [gameState heap nextRef modify_gameState set_gameState].
  split; [congruence |]. split; [congruence |]. split; [congruence |].
  rewrite K4, G1, E2, D2. reflexivity.
Qed.

(** [GameEngine.update], stage by stage. *)
Lemma update_stages (dt : Q) (w : World) :
  exists w1 w2 w3 w4 w5 : World,
    GameState.swipePoints (gameState w1)
    = drop (length (GameState.swipePoints (gameState w)) - 20)
        (GameState.swipePoints (gameState w))
    /\ GameState.elapsedTime (gameState w1)
       = GameState.elapsedTime (gameState w) + dt
    /\ GameState.isSwiping (gameState w1) = GameState.isSwiping (gameState w)
    /\ GameState.fruits (gameState w1) = GameState.fruits (gameState w)
    /\ heap w1 = heap w /\ nextRef w1 = nextRef w
    /\ canvasWidth w1 = canvasWidth w /\ canvasHeight w1 = canvasHeight w
    /\ env w1 = env w /\ tick w1 = tick w /\ trace w1 = trace w
    /\ w2 = SpawnManager.update dt w1
    /\ w3 = GameEngine.updateFruits dt w2
    /\ w4 = modify_gameState
              (EffectsManager.updateEffects dt (canvasWidth w3) (canvasHeight w3))
              w3
    /\ w5 = CollisionDetector.update w4
    /\ session_frame w5 (GameEngine.update dt w)
    /\ GameState.fruits (gameState (GameEngine.update dt w))
       = GameState.fruits (gameState w5)
    /\ heap (GameEngine.update dt w) = heap w5
    /\ nextRef (GameEngine.update dt w) = nextRef w5
    /\ GameState.spawnInterval (gameState (GameEngine.update dt w))
       = Qmax 300 (1000 - GameState.elapsedTime (gameState w5) * 10).
Proof.
  pose proof (update_head dt w) as Hhead. cbv zeta in Hhead.
  eexists _, _, _, _, _.
  split; [apply Hhead |]. split; [apply Hhead |]. split; [apply Hhead |].
  split; [apply Hhead |]. split; [apply Hhead |]. split; [apply Hhead |].
  split; [apply Hhead |]. split; [apply Hhead |]. split; [apply Hhead |].
  split; [apply Hhead |]. split; [apply Hhead |].
  split; [reflexivity |]. split; [reflexivity |]. split; [reflexivity |].
  split; [reflexivity |].
  apply update_tail.
Qed.


Lemma update_session_frame (dt : Q) (w : World) :
  exists w1 : World,
    GameState.swipePoints (gameState w1)
    = drop (length (GameState.swipePoints (gameState w)) - 20)
        (GameState.swipePoints (gameState w))
    /\ GameState.elapsedTime (gameState w1)
       = GameState.elapsedTime (gameState w) + dt
    /\ GameState.isSwiping (gameState w1) = GameState.isSwiping (gameState w)
    /\ canvasWidth w1 = canvasWidth w /\ canvasHeight w1 = canvasHeight w
    /\ env w1 = env w /\ tick w1 = tick w /\ trace w1 = trace w
    /\ session_frame w1 (GameEngine.update dt w)
    /\ GameState.spawnInterval (gameState (GameEngine.update dt w))
       = Qmax 300 (1000 - (GameState.elapsedTime (gameState w) + dt) * 10).
Proof.
  destruct (update_stages dt w)
    as (w1 & w2 & w3 & w4 & w5 & A1 & A2 & A3 & _ & _ & _ & A7 & A8 & A9
        & A10 & A11 & E2 & E3 & E4 & E5 & F6 & _ & _ & _ & Hsp).
  assert (F2 : session_frame w1 w2)
    by (rewrite E2; apply SpawnManager_update_fruits).
  assert (F3 : session_frame w2 w3)
    by (rewrite E3; apply updateFruitsLoop_session_frame).
  assert (F4 : session_frame w3 w4)
    by (rewrite E4; now apply modify_session_frame).
  assert (F5 : session_frame w4 w5)
    by (rewrite E5; apply collision_session_frame,
          FrameFacts.CollisionDetector_update_frame).
  assert (F15 : session_frame w1 w5).
  { eapply session_frame_trans; [exact F2 |].
    eapply session_frame_trans; [exact F3 |].
    eapply session_frame_trans; eassumption. }
  exists w1. repeat (split; [assumption |]).
  split; [eapply session_frame_trans; eassumption |].
  now rewrite Hsp, (sf_elapsedTime _ _ F15), A2.
Qed.

(** X19: the bookkeeping of one fixed step.  [GameEngine.update] adds
    the step to the elapsed time, once; it leaves the spawn interval at
    the value the difficulty schedule gives for the new elapsed time;
    it keeps of the swipe trail the youngest 20 points and adds none; it
    does not touch the swiping flag or the canvas size; the clock readings
    only advance, and the calls it makes are sounds and collision
    resolutions: it neither renders nor requests a frame. *)
Theorem fixed_step_bookkeeping (dt : Q) (w : World) :
  let w' := GameEngine.update dt w in
  let pts := GameState.swipePoints (gameState w) in
  GameState.elapsedTime (gameState w')
  = GameState.elapsedTime (gameState w) + dt
  /\ GameState.spawnInterval (gameState w')
     = Qmax 300 (1000 - (GameState.elapsedTime (gameState w) + dt) * 10)
  /\ GameState.swipePoints (gameState w') = drop (length pts - 20) pts
  /\ (length (GameState.swipePoints (gameState w')) <= 20)%nat
  /\ GameState.isSwiping (gameState w') = GameState.isSwiping (gameState w)
  /\ canvasWidth w' = canvasWidth w /\ canvasHeight w' = canvasHeight w
  /\ (tick w <= tick w')%nat
  /\ exists evs : list event,
       trace w' = evs ++ trace w /\ quiet evs
       /\ rendersOf evs = 0%nat /\ requestsOf evs = 0%nat.
Proof.
  cbv zeta.
  destruct (update_session_frame dt w)
    as (w1 & A1 & A2 & A3 & A4 & A5 & A6 & A7 & A8 & F & Hsp).
  set (w' := GameEngine.update dt w) in *. clearbody w'.
  split; [now rewrite (sf_elapsedTime _ _ F) |].
  split; [exact Hsp |].
  split; [now rewrite (sf_swipePoints _ _ F) |].
  split; [rewrite (sf_swipePoints _ _ F), A1, length_drop; lia |].
  split; [now rewrite (sf_isSwiping _ _ F) |].
  split; [now rewrite (sf_canvasWidth _ _ F) |].
  split; [now rewrite (sf_canvasHeight _ _ F) |].
  split; [pose proof (sf_tick _ _ F); lia |].
  destruct (sf_trace _ _ F) as (evs & Hev & Hq).
  exists evs. unfold since in Hev. rewrite Hev, A8.
  split; [reflexivity |]. split; [exact Hq |].
  split; [now apply FrameFacts.quiet_renders | now apply FrameFacts.quiet_requests].
Qed.

Lemma fruits_wf_same (w w' : World) :
  GameState.fruits (gameState w') = GameState.fruits (gameState w) ->
  nextRef w' = nextRef w ->
  (forall r : ref, is_Some (heap w !! r) -> is_Some (heap w' !! r)) ->
  fruits_wf w -> fruits_wf w'.
Proof.
  intros Hf Hn Hh [Hnd Hin]. split; [now rewrite Hf |].
  intros r Hr. rewrite Hf in Hr. destruct (Hin r Hr) as [Hlt Hs].
  split; [now rewrite Hn | now apply Hh].
Qed.

Lemma fruits_wf_push (w w' : World) (f : Fruit.t) :
  GameState.fruits (gameState w')
  = GameState.fruits (gameState w) ++ [nextRef w] ->
  heap w' = <[nextRef w := f]> (heap w) ->
  nextRef w' = S (nextRef w) ->
  fruits_wf w -> fruits_wf w'.
Proof.
  intros Hfr Hh Hn [Hnd Hin]. split.
  - rewrite Hfr. apply NoDup_app. split; [exact Hnd |].
    split; [| apply NoDup_singleton].
    intros r Hr Hc. apply list_elem_of_singleton in Hc as ->.
    apply Hin in Hr as [Hlt _]. lia.
  - intros r Hr. rewrite Hfr in Hr. rewrite Hn, Hh.
    apply elem_of_app in Hr as [Hr | Hr].
    + destruct (Hin r Hr) as [Hlt [f' Hf]]. split; [lia |].
      rewrite lookup_insert_ne by (unfold ref in *; lia). exists f'. exact Hf.
    + apply list_elem_of_singleton in Hr as ->. split; [lia |].
      rewrite lookup_insert_eq. eexists. reflexivity.
Qed.

Lemma collision_frame_wf (w w' : World) :
  collision_frame w w' -> fruits_wf w -> fruits_wf w'.
Proof.
  intros F. apply fruits_wf_same.
  - apply (cf_fruits _ _ F).
  - apply (cf_nextRef _ _ F).
  - intros r [f Hf]. pose proof (cf_heap _ _ F r) as H. rewrite Hf in H.
    destruct (heap w' !! r); [eauto | contradiction].
Qed.

Lemma filter_elem {A : Type} (p : A -> bool) (l : list A) (a : A) :
  a ∈ List.filter p l -> a ∈ l.
Proof.
  rewrite !list_elem_of_In, List.filter_In. tauto.
Qed.

(** X20: the fruit array stays well formed.  If the references in the
    fruit array are distinct, allocated and below the next free
    reference, they are so again after a fixed step; the step adds at
    most one reference, the next free one, and only while fewer than 18
    fruits are in the array, so an array of at most 18 fruits stays at
    most 18 long; the next free reference never goes down. *)
Theorem fixed_step_keeps_fruits_wellformed (dt : Q) (w : World) :
  fruits_wf w ->
  let w' := GameEngine.update dt w in
  fruits_wf w'
  /\ (nextRef w <= nextRef w' <= S (nextRef w))%nat
  /\ (forall r : ref,
        r ∈ GameState.fruits (gameState w') ->
        r ∈ GameState.fruits (gameState w)
        \/ (r = nextRef w
            /\ (length (GameState.fruits (gameState w)) < 18)%nat))
  /\ ((length (GameState.fruits (gameState w)) <= 18)%nat ->
      (length (GameState.fruits (gameState w')) <= 18)%nat).
Proof.
  intros Hwf. cbv zeta.
  destruct (update_stages dt w)
    as (w1 & w2 & w3 & w4 & w5 & _ & _ & _ & A4 & A5 & A6 & _ & _ & _
        & _ & _ & E2 & E3 & E4 & E5 & _ & Hf' & Hh' & Hn' & _).
  set (w' := GameEngine.update dt w) in *. clearbody w'.
  assert (Hwf1 : fruits_wf w1).
  { apply (fruits_wf_same w w1); try assumption. now rewrite A5. }
  destruct (SpawnManager_update_fruits dt w1) as (_ & Hspawn).
  cbv zeta in Hspawn. rewrite <- E2, A4, A5, A6 in Hspawn.
  assert (H2 : fruits_wf w2
               /\ (nextRef w <= nextRef w2 <= S (nextRef w))%nat
               /\ (forall r : ref,
                     r ∈ GameState.fruits (gameState w2) ->
                     r ∈ GameState.fruits (gameState w)
                     \/ (r = nextRef w
                         /\ (length (GameState.fruits (gameState w)) < 18)%nat))
               /\ ((length (GameState.fruits (gameState w)) <= 18)%nat ->
                   (length (GameState.fruits (gameState w2)) <= 18)%nat)).
  { destruct Hspawn as [(Hf & Hh & Hn) | (Hlt & Hf & [f Hh] & Hn)].
    - split; [| split; [lia | split]].
      + apply (fruits_wf_same w w2); try assumption. now rewrite Hh.
      + intros r Hr. left. now rewrite <- Hf.
      + now rewrite Hf.
    - split; [| split; [lia | split]].
      + now apply (fruits_wf_push w w2 f).
      + intros r Hr. rewrite Hf in Hr.
        apply elem_of_app in Hr as [Hr | Hr]; [now left |].
        apply list_elem_of_singleton in Hr. right. now split.
      + intros _. rewrite Hf, length_app. cbn [length]. lia. }
  destruct H2 as (Hwf2 & Hn2 & Hnew2 & Hcap2).
  destruct (CullFacts.updateFruits_spec dt w2 Hwf2)
    as (Eg3 & _ & (N3 & _) & _ & _ & Hwf3).
  rewrite <- E3 in Eg3, N3, Hwf3.
  assert (Hf3 : GameState.fruits (gameState w3)
                = List.filter (fruitStays dt w2) (GameState.fruits (gameState w2)))
    by (now rewrite Eg3).
  assert (Hwf4 : fruits_wf w4).
  { apply (fruits_wf_same w3 w4); try assumption; rewrite E4; try reflexivity.
    trivial. }
  assert (Hf4 : GameState.fruits (gameState w4) = GameState.fruits (gameState w3))
    by (now rewrite E4).
  assert (Hn4 : nextRef w4 = nextRef w3) by (now rewrite E4).
  pose proof (FrameFacts.CollisionDetector_update_frame w4) as F5.
  rewrite <- E5 in F5.
  pose proof (collision_frame_wf _ _ F5 Hwf4) as Hwf5.
  split.
  { apply (fruits_wf_same w5 w'); try assumption. now rewrite Hh'. }
  rewrite Hn', (cf_nextRef _ _ F5), Hn4, N3, Hf', (cf_fruits _ _ F5), Hf4, Hf3.
  split; [exact Hn2 |]. split.
  - intros r Hr. apply Hnew2. now apply filter_elem in Hr.
  - intros Hle. specialize (Hcap2 Hle).
    pose proof (List.filter_length_le (fruitStays dt w2)
                  (GameState.fruits (gameState w2))). lia.
Qed.

Lemma fixed_step_keeps_fruits_wellformed_witness :
  let w' := GameEngine.update (1 / 128) Demo.busy in
  GameState.fruits (gameState Demo.busy) = [0%nat; 1%nat]
  /\ nextRef Demo.busy = 2%nat
  /\ GameState.fruits (gameState w') = [1%nat; 2%nat]
  /\ nextRef w' = 3%nat
  /\ fruits_wf w'.
Proof.
  cbv zeta.
  assert (Hwf : fruits_wf Demo.busy).
  { split.
    - cbn. apply NoDup_cons. split; [| apply NoDup_singleton].
      intros Hc. apply list_elem_of_singleton in Hc. discriminate.
    - intros r Hr. cbn in Hr.
      apply elem_of_cons in Hr as [-> | Hr];
        [| apply list_elem_of_singleton in Hr as ->];
        (split; [cbn; lia | vm_compute; eauto]). }
  destruct (fixed_step_keeps_fruits_wellformed (1 / 128) Demo.busy Hwf)
    as (H1 & _).
  split; [reflexivity |]. split; [reflexivity |].
  split; [vm_compute; reflexivity |]. split; [vm_compute; reflexivity |].
  exact H1.
Defined.




(** X22: leaving and entering a session.  [returnToMenu] stops the
    engine and empties the fruit array, the five effect collections and
    the swipe trail, and zeroes the accumulator and the time baseline,
    but keeps the score, the game-over flag, the elapsed time and the
    spawn timer of the session that was left.  [startGame] on a stopped
    engine then brings up a fresh running session: score, combo, elapsed
    time and spawn timer are zero, no fruit and no effect is left, the
    processed set is empty, the best score, the high-score table and the
    storage are kept, and one frame is requested.  [startGame] on a
    running engine does nothing at all; after [returnToMenu] it always
    starts a fresh session. *)
Theorem sessions_start_fresh (e : GameEngineState) (w : World) :
  let menu := GameEngineMore.returnToMenu e w in
  let start := GameEngine.startGame e w in
  (isRunning (fst menu) = false /\ isPaused (fst menu) = false
   /\ _accumulator (fst menu) = 0 /\ lastFrameTime (fst menu) = None
   /\ GameState.fruits (gameState (snd menu)) = []
   /\ GameState.swipePoints (gameState (snd menu)) = []
   /\ EffectsManager.getActiveEffectCount (gameState (snd menu)) == 0
   /\ GameState.score (gameState (snd menu)) = GameState.score (gameState w)
   /\ GameState.gameOver (gameState (snd menu))
      = GameState.gameOver (gameState w)
   /\ GameState.elapsedTime (gameState (snd menu))
      = GameState.elapsedTime (gameState w)
   /\ spawnManager (snd menu) = spawnManager w)
  /\ (isRunning e = true -> start = (e, w))
  /\ (isRunning e = false ->
      let g := gameState (snd start) in
      (isRunning (fst start) = true /\ isPaused (fst start) = false
       /\ _accumulator (fst start) = 0 /\ lastFrameTime (fst start) = None
       /\ gameOverLogged (fst start) = false)
      /\ (GameState.score g = 0%Z /\ GameState.comboCount g = 0%Z
          /\ GameState.gameOver g = false /\ GameState.elapsedTime g = 0
          /\ GameState.spawnInterval g = 1000
          /\ GameState.fruits g = [] /\ GameState.swipePoints g = []
          /\ GameState.isSwiping g = false
          /\ EffectsManager.getActiveEffectCount g == 0)
      /\ (GameState.bestScore g = GameState.bestScore (gameState w)
          /\ GameState.highScores g = GameState.highScores (gameState w)
          /\ localStorage (snd start) = localStorage w
          /\ heap (snd start) = heap w)
      /\ (processedCollisions (collisionDetector (snd start)) = ∅
          /\ spawnTimer (spawnManager (snd start)) = 0
          /\ currentSpawnRate (spawnManager (snd start))
             = baseSpawnRate (spawnManager w))
      /\ trace (snd start) = EvRequestFrame :: trace w
      /\ fruits_wf (snd start))
  /\ (let again := GameEngine.startGame (fst menu) (snd menu) in
      isRunning (fst again) = true
      /\ GameState.score (gameState (snd again)) = 0%Z
      /\ GameState.gameOver (gameState (snd again)) = false
      /\ GameState.elapsedTime (gameState (snd again)) = 0
      /\ spawnTimer (spawnManager (snd again)) = 0).
Proof.
  cbv zeta. split; [| split; [| split]]; cycle 3.
  - unfold GameEngineMore.returnToMenu, GameEngine.startGame. cbn.
    repeat split.
  - unfold GameEngineMore.returnToMenu. cbn. repeat split.
  - intros Hrun. unfold GameEngine.startGame. now rewrite Hrun.
  - intros Hrun. unfold GameEngine.startGame. rewrite Hrun.
    unfold GameEngine.resetAllSystems, performance_now, SpawnManager.reset,
      performance_now, CollisionDetector.reset.
    cbn. repeat split.
    all: try (apply NoDup_nil; exact I).
    all: match goal with
         | H : _ ∈ _ |- _ => cbn in H; now apply elem_of_nil in H
         end.
Qed.

End StepFacts.

(** ** Geometry of a proper segment, and the queries built on it *)

Module QueryFacts.
Import Vocabulary Frames.
Local Open Scope Q_scope.

Lemma find_head_filter {A : Type} (p : A -> bool) (l : list A) :
  find p l = head (List.filter p l).
Proof.
  induction l as [| a l IH]; [reflexivity |].
  cbn. destruct (p a); [reflexivity | exact IH].
Qed.

Lemma hypot_le_sym (a b a' b' r r' : Q) :
  a' == - a -> b' == - b -> r' == r ->
  JS.hypot_le a' b' r' = JS.hypot_le a b r.
Proof.
  intros Ha Hb Hr. apply eq_true_iff_eq.
  rewrite !JSFacts.hypot_le_spec, Ha, Hb, Hr.
  assert (E : - a * - a + - b * - b == a * a + b * b) by ring.
  now rewrite E.
Qed.

Lemma hypot_le_mono (a b r r' : Q) :
  r <= r' -> JS.hypot_le a b r = true -> JS.hypot_le a b r' = true.
Proof.
  rewrite !JSFacts.hypot_le_spec. intros Hle [Hr Hd]. split; [lra |].
  assert (0 <= (r' - r) * (r' + r)) by (apply Qmult_le_0_compat; lra).
  assert ((r' - r) * (r' + r) == r' * r' - r * r) by ring.
  lra.
Qed.

Lemma filter_find_elem {A : Type} (p : A -> bool) (l : list A) (a : A) :
  find p l = Some a -> a ∈ l /\ p a = true.
Proof.
  intros H. apply find_some in H as [H1 H2]. split; [| exact H2].
  now apply list_elem_of_In.
Qed.

(** X24: the point query and the circle query.  [getFruitAtPoint]
    answers the first fruit of the array that is not sliced and contains
    the point, and [null] exactly when there is none; this is the first
    fruit that [getFruitsInCircle] reports for a circle of radius 0 at
    the point.  The circle query reports, in array order, the fruits that
    are not sliced and whose centre is within the radius plus their own
    radius, and a larger radius never loses a fruit. *)
Theorem point_and_circle_queries (x y : Q) (w : World) :
  CollisionQueries.getFruitAtPoint x y w
  = head (CollisionQueries.getFruitsInCircle x y 0 w)
  /\ match CollisionQueries.getFruitAtPoint x y w with
     | Some r =>
         r ∈ GameState.fruits (gameState w)
         /\ exists f, heap w !! r = Some f /\ Fruit.sliced f = false
              /\ Fruit.containsPoint x y f = true
     | None =>
         forall r f, r ∈ GameState.fruits (gameState w) ->
           heap w !! r = Some f -> Fruit.sliced f = false ->
           Fruit.containsPoint x y f = false
     end
  /\ (forall radius r,
        r ∈ CollisionQueries.getFruitsInCircle x y radius w <->
        r ∈ GameState.fruits (gameState w)
        /\ exists f, heap w !! r = Some f /\ Fruit.sliced f = false
             /\ GeometryUtils.distance_le x y (GameObject.x (Fruit.base f))
                  (GameObject.y (Fruit.base f)) (radius + Fruit.radius f)
                = true)
  /\ (forall radius radius' r,
        radius <= radius' ->
        r ∈ CollisionQueries.getFruitsInCircle x y radius w ->
        r ∈ CollisionQueries.getFruitsInCircle x y radius' w).
Proof.
  assert (Hcircle : forall radius r,
            r ∈ CollisionQueries.getFruitsInCircle x y radius w <->
            r ∈ GameState.fruits (gameState w)
            /\ exists f, heap w !! r = Some f /\ Fruit.sliced f = false
                 /\ GeometryUtils.distance_le x y (GameObject.x (Fruit.base f))
                      (GameObject.y (Fruit.base f)) (radius + Fruit.radius f)
                    = true).
  { intros radius r. unfold CollisionQueries.getFruitsInCircle.
    rewrite !list_elem_of_In, List.filter_In.
    unfold CollisionQueries.fruitSatisfies.
    destruct (heap w !! r) as [f |].
    - rewrite andb_true_iff, negb_true_iff. split.
      + intros (H1 & H2 & H3). split; [exact H1 |]. now exists f.
      + intros (H1 & f' & Hf & H2 & H3). injection Hf as <-. tauto.
    - split; [intros [_ H]; discriminate |].
      intros (_ & f & Hf & _). discriminate. }
  split; [| split; [| split; [exact Hcircle |]]].
  - unfold CollisionQueries.getFruitAtPoint, CollisionQueries.getFruitsInCircle.
    rewrite find_head_filter. f_equal. apply List.filter_ext. intros r.
    unfold CollisionQueries.fruitSatisfies.
    destruct (heap w !! r) as [f |]; [| reflexivity]. f_equal.
    unfold Fruit.containsPoint, GeometryUtils.distance_le.
    apply hypot_le_sym; ring.
  - unfold CollisionQueries.getFruitAtPoint.
    destruct (find _ _) as [r |] eqn:Hfind.
    + apply filter_find_elem in Hfind as [Hin Hp]. split; [exact Hin |].
      unfold CollisionQueries.fruitSatisfies in Hp.
      destruct (heap w !! r) as [f |]; [| discriminate].
      apply andb_true_iff in Hp as [Hs Hc]. apply negb_true_iff in Hs.
      now exists f.
    + intros r f Hin Hf Hs.
      pose proof (find_none _ _ Hfind r) as Hn.
      unfold CollisionQueries.fruitSatisfies in Hn. rewrite Hf, Hs in Hn.
      apply Hn. now apply list_elem_of_In.
  - intros radius radius' r Hle. rewrite !Hcircle.
    intros (Hin & f & Hf & Hs & Hd). split; [exact Hin |].
    exists f. split; [exact Hf |]. split; [exact Hs |].
    unfold GeometryUtils.distance_le in *.
    eapply hypot_le_mono; [| exact Hd]. lra.
Qed.

(** The loop of [raycastFruits]: the result is the accumulator or a fruit
    of the rest of the array, and nothing that can be hit is closer. *)
Lemma raycastLoop_spec (w : World) (sx sy ex ey : Q) (fruits : list ref) :
  forall acc : option RayHit,
    let hittable (r : ref) (f : Fruit.t) : Prop :=
      heap w !! r = Some f /\ Fruit.sliced f = false
      /\ Fruit.intersectsLine sx sy ex ey f = true in
    let d2 (f : Fruit.t) : Q :=
      CollisionQueries.distance2 sx sy (GameObject.x (Fruit.base f))
        (GameObject.y (Fruit.base f)) in
    match CollisionQueries.raycastLoop w sx sy ex ey fruits acc with
    | None => acc = None /\ forall r f, r ∈ fruits -> ~ hittable r f
    | Some h =>
        (acc = Some h
         \/ (hit_fruit h ∈ fruits
             /\ exists f, hittable (hit_fruit h) f /\ hit_distance2 h = d2 f
                  /\ hit_point h
                     = (GameObject.x (Fruit.base f), GameObject.y (Fruit.base f))))
        /\ (forall a, acc = Some a -> hit_distance2 h <= hit_distance2 a)
        /\ forall r f, r ∈ fruits -> hittable r f -> hit_distance2 h <= d2 f
    end.
Proof.
  induction fruits as [| a fruits IH]; intros acc; cbv zeta in *.
  - cbn. destruct acc as [h |].
    + split; [now left |]. split; [intros ? [= ->]; lra |].
      intros r f Hr. now apply elem_of_nil in Hr.
    + split; [reflexivity |]. intros r f Hr. now apply elem_of_nil in Hr.
  - cbn [CollisionQueries.raycastLoop].
    set (next := match heap w !! a with
                 | Some fruit => _
                 | None => acc
                 end).
    assert (Hnext :
      (next = acc
       /\ ((forall f, ~ (heap w !! a = Some f /\ Fruit.sliced f = false
                         /\ Fruit.intersectsLine sx sy ex ey f = true))
           \/ exists h, acc = Some h
                /\ forall f, heap w !! a = Some f ->
                     hit_distance2 h
                     <= CollisionQueries.distance2 sx sy
                          (GameObject.x (Fruit.base f))
                          (GameObject.y (Fruit.base f))))
      \/ exists f,
           heap w !! a = Some f /\ Fruit.sliced f = false
           /\ Fruit.intersectsLine sx sy ex ey f = true
           /\ next = Some {| hit_fruit := a;
                             hit_distance2 :=
                               CollisionQueries.distance2 sx sy
                                 (GameObject.x (Fruit.base f))
                                 (GameObject.y (Fruit.base f));
                             hit_point := (GameObject.x (Fruit.base f),
                                           GameObject.y (Fruit.base f)) |}
           /\ forall h, acc = Some h ->
                CollisionQueries.distance2 sx sy
                  (GameObject.x (Fruit.base f)) (GameObject.y (Fruit.base f))
                < hit_distance2 h).
    { unfold next. destruct (heap w !! a) as [fruit |] eqn:Ha.
      - destruct (Fruit.sliced fruit) eqn:Hs.
        + left. split; [reflexivity |]. left. intros f (Hf & Hsf & _).
          congruence.
        + destruct (Fruit.intersectsLine sx sy ex ey fruit) eqn:Hi.
          * destruct acc as [h |]; cbn [fmap option_fmap option_map
                                         CollisionQueries.closer].
            -- destruct (JS.ltb _ (hit_distance2 h)) eqn:Hlt.
               ++ right. exists fruit. repeat split; trivial.
                  intros h' [= <-]. now apply JSFacts.ltb_lt in Hlt.
               ++ left. split; [reflexivity |]. right. exists h.
                  split; [reflexivity |]. intros f [= <-].
                  now apply JSFacts.ltb_ge in Hlt.
            -- right. exists fruit. repeat split; trivial. discriminate.
          * left. split; [reflexivity |]. left. intros f (Hf & _ & Hif).
            congruence.
      - left. split; [reflexivity |]. left. intros f (Hf & _). discriminate. }
    clearbody next. specialize (IH next).
    destruct (CollisionQueries.raycastLoop w sx sy ex ey fruits next)
      as [h |].
    + destruct IH as (Hsrc & Hacc & Hall).
      destruct Hnext as [[-> Hskip] | (f & Hf & Hs & Hi & -> & Hbetter)].
      * split; [| split; [exact Hacc |]].
        -- destruct Hsrc as [H | (Hin & H)]; [now left |].
           right. split; [now apply elem_of_cons; right | exact H].
        -- intros r f Hr Hhit. apply elem_of_cons in Hr as [-> | Hr];
             [| now apply (Hall r f)].
           destruct Hskip as [Hno | (h0 & -> & Hle)]; [now destruct (Hno f) |].
           destruct Hhit as (Hf & _).
           eapply Qle_trans; [now apply Hacc | now apply Hle].
      * specialize (Hacc _ eq_refl). cbn [hit_distance2] in Hacc.
        split; [| split].
        -- destruct Hsrc as [[= <-] | (Hin & H)].
           ++ right. cbn [hit_fruit hit_distance2 hit_point].
              split; [now apply elem_of_cons; left |].
              exists f. now repeat split.
           ++ right. split; [now apply elem_of_cons; right | exact H].
        -- intros h0 Hh0. specialize (Hbetter h0 Hh0). lra.
        -- intros r f' Hr Hhit. apply elem_of_cons in Hr as [-> | Hr];
             [| now apply (Hall r f')].
           destruct Hhit as (Hf' & _). rewrite Hf in Hf'. injection Hf' as <-.
           exact Hacc.
    + destruct IH as (-> & Hall).
      destruct Hnext as [[<- Hskip] | (f & _ & _ & _ & Hn & _)];
        [| discriminate].
      split; [reflexivity |].
      intros r f Hr Hhit. apply elem_of_cons in Hr as [-> | Hr];
        [| now apply (Hall r f)].
      destruct Hskip as [Hno | (h0 & Hh0 & _)]; [now apply (Hno f) |].
      discriminate.
Qed.

(** X25: [raycastFruits] answers the closest hit.  Its answer is [null]
    exactly when no fruit of the array that is not sliced is intersected
    by the segment; otherwise it is such a fruit, reported with its centre
    and the (squared) distance from the start of the ray to its centre,
    and no other such fruit has its centre closer to the start. *)
Theorem raycastFruits_closest (sx sy ex ey : Q) (w : World) :
  let hittable (r : ref) (f : Fruit.t) : Prop :=
    heap w !! r = Some f /\ Fruit.sliced f = false
    /\ Fruit.intersectsLine sx sy ex ey f = true in
  let d2 (f : Fruit.t) : Q :=
    CollisionQueries.distance2 sx sy (GameObject.x (Fruit.base f))
      (GameObject.y (Fruit.base f)) in
  match CollisionQueries.raycastFruits sx sy ex ey w with
  | None =>
      forall r f, r ∈ GameState.fruits (gameState w) -> ~ hittable r f
  | Some h =>
      hit_fruit h ∈ GameState.fruits (gameState w)
      /\ (exists f,
            hittable (hit_fruit h) f /\ hit_distance2 h = d2 f
            /\ hit_point h
               = (GameObject.x (Fruit.base f), GameObject.y (Fruit.base f)))
      /\ forall r f, r ∈ GameState.fruits (gameState w) -> hittable r f ->
           hit_distance2 h <= d2 f
  end.
Proof.
  cbv zeta. unfold CollisionQueries.raycastFruits.
  pose proof (raycastLoop_spec w sx sy ex ey (GameState.fruits (gameState w))
                None) as H.
  cbv zeta in H.
  destruct (CollisionQueries.raycastLoop _ _ _ _ _ _ None) as [h |].
  - destruct H as ([H | (Hin & Hf)] & _ & Hall); [discriminate |].
    split; [exact Hin |]. split; [exact Hf | exact Hall].
  - destruct H as [_ H]. exact H.
Qed.

Lemma triggerGameOver_combo (date : Z) (st : Storage.t) (g : GameState.t) :
  GameState.comboCount (fst (GameState.triggerGameOver date st g))
  = GameState.comboCount g.
Proof.
  unfold GameState.triggerGameOver.
  cbn [GameState.bestScore GameState.score GameState.set_gameOver].
  now destruct (_ <? _)%Z.
Qed.

(** X26: slicing a bomb scores before it ends the game.  [slice()] on a
    bomb that is not yet sliced registers the slice like that of a fruit:
    the combo counter is advanced and added to the score, so the score
    goes up; only then the game is over, and it is this raised score that
    is compared with the best score and entered in the high-score table;
    the bomb sound is the only sound. *)
Theorem slicing_a_bomb_scores (r : ref) (w : World) (f : Fruit.t) :
  heap w !! r = Some f -> Fruit.type f = Fruit.bomb ->
  Fruit.sliced f = false ->
  let now := performance_now_at (env w) (tick w) in
  let date := Date_now_at (env w) (S (tick w)) in
  let g := gameState w in
  let g1 := GameState.registerSlice now g in
  let g' := gameState (snd (FruitWorld.slice r w)) in
  GameState.score g' = GameState.score g1
  /\ GameState.comboCount g' = GameState.comboCount g1
  /\ ((0 <= GameState.comboCount g)%Z ->
      (GameState.score g < GameState.score g')%Z)
  /\ GameState.gameOver g' = true
  /\ GameState.bestScore g' = Z.max (GameState.bestScore g) (GameState.score g')
  /\ GameState.highScores g'
     = take 10 (sort_desc (GameState.highScores g
                           ++ [ {| hs_score := GameState.score g';
                                   hs_date := date |} ]))
  /\ soundsOf (trace (snd (FruitWorld.slice r w)))
     = BombCutSound :: soundsOf (trace w).
Proof.
  intros Hf Ht Hs. cbv zeta. unfold FruitWorld.slice. rewrite Hf, Hs, Ht.
  unfold performance_now, Date_now.
  set (w1 := set_heap _ w).
  set (now := performance_now_at (env w1) (tick w1)).
  change (performance_now_at (env w) (tick w)) with now.
  set (w3 := modify_gameState (GameState.registerSlice now)
               (set_tick (S (tick w1)) w1)).
  set (w4 := emit (EvSound BombCutSound) w3).
  set (date := Date_now_at (env w4) (tick w4)).
  change (Date_now_at (env w) (S (tick w))) with date.
  set (w5 := set_tick (S (tick w4)) w4).
  assert (Hg5 : gameState w5 = GameState.registerSlice now (gameState w))
    by reflexivity.
  assert (Ht5 : trace w5 = EvSound BombCutSound :: trace w) by reflexivity.
  clearbody w5 date now.
  pose proof (HighScoreFacts.triggerGameOver_fields date (localStorage w5)
                (gameState w5)) as Heff.
  pose proof (triggerGameOver_combo date (localStorage w5) (gameState w5))
    as Hcombo.
  cbv zeta in Heff.
  destruct (GameState.triggerGameOver date (localStorage w5) (gameState w5))
    as [g st].
  cbn [fst snd] in Heff, Hcombo |- *.
  destruct Heff as (Hgo & Hbest & Hscore & Hhs & _).
  change (gameState (set_localStorage st (set_gameState g w5))) with g.
  change (trace (set_localStorage st (set_gameState g w5))) with (trace w5).
  rewrite Hg5 in *.
  destruct (GameStateFacts.registerSlice_fields now (gameState w))
    as (Hc1 & Hs1 & _).
  split; [exact Hscore |]. split; [exact Hcombo |].
  split; [| split; [exact Hgo | split; [| split]]].
  - intros Hnn. rewrite Hscore, Hs1, Hc1. destruct (JS.ltb _ _); lia.
  - rewrite Hbest, Hscore.
    assert (Hb : GameState.bestScore (GameState.registerSlice now (gameState w))
                 = GameState.bestScore (gameState w)).
    { unfold GameState.registerSlice. now destruct (JS.ltb _ _). }
    now rewrite Hb.
  - rewrite Hhs, Hscore, CollisionFacts.registerSlice_highScores. reflexivity.
  - rewrite Ht5. reflexivity.
Qed.

Lemma slicing_a_bomb_scores_witness :
  let w := Demo.withFruit (Demo.fruitAt Fruit.bomb 400 300) Demo.world in
  GameState.score (gameState w) = 0%Z
  /\ GameState.score (gameState (snd (FruitWorld.slice 0%nat w))) = 1%Z
  /\ GameState.gameOver (gameState (snd (FruitWorld.slice 0%nat w))) = true
  /\ GameState.bestScore (gameState (snd (FruitWorld.slice 0%nat w))) = 1%Z.
Proof.
  cbv zeta.
  destruct (slicing_a_bomb_scores 0%nat
              (Demo.withFruit (Demo.fruitAt Fruit.bomb 400 300) Demo.world)
              (Demo.fruitAt Fruit.bomb 400 300) eq_refl eq_refl eq_refl)
    as (H1 & _ & _ & H4 & H5 & _).
  split; [reflexivity |]. split; [rewrite H1; reflexivity |].
  split; [exact H4 |]. rewrite H5, H1. reflexivity.
Defined.

End QueryFacts.

(** ** Factories and numeric helpers *)

Module FactoryFacts.
Import Vocabulary Frames.
Local Open Scope Q_scope.

(** The two halves [createFromFruit] builds, in terms of the random
    values it draws. *)
Lemma createFromFruit_slices (fruit : Fruit.t) (w : World) :
  exists ra rb rc rd re rf : nat,
    let rnd := Math_random_at (env w) in
    let b := Fruit.base fruit in
    let mk vx vy half rs :=
      {| FruitSlice.base :=
           {| GameObject.x := GameObject.x b; GameObject.y := GameObject.y b;
              GameObject.vx := vx; GameObject.vy := vy;
              GameObject.rotation := GameObject.rotation b;
              GameObject.rotationSpeed := rs;
              GameObject.life := 1; GameObject.maxLife := 1;
              GameObject.isAlive := true |};
         FruitSlice.emoji := Fruit.emoji fruit; FruitSlice.half := half;
         FruitSlice.size := Fruit.radius fruit * 2 |} in
    fst (FruitSliceFactory.createFromFruit fruit w)
    = [ mk (GameObject.vx b - (50 + rnd ra * 50))
           (GameObject.vy b - (50 + rnd rb * 50)) FruitSlice.left
           (GameObject.rotationSpeed b - rnd rc * 2);
        mk (GameObject.vx b + (50 + rnd rd * 50))
           (GameObject.vy b - (50 + rnd re * 50)) FruitSlice.right
           (GameObject.rotationSpeed b + rnd rf * 2) ]
    /\ tick (snd (FruitSliceFactory.createFromFruit fruit w))
       = (tick w + 10)%nat
    /\ gameState (snd (FruitSliceFactory.createFromFruit fruit w))
       = gameState w
    /\ trace (snd (FruitSliceFactory.createFromFruit fruit w)) = trace w.
Proof.
  unfold FruitSliceFactory.createFromFruit, FruitSliceFactory.new, Math_random.
  cbn. eexists _, _, _, _, _, _.
  split; [reflexivity |]. split; [lia |]. split; reflexivity.
Qed.

Lemma capTo_length {A : Type} (max : nat) (l : list A) :
  length (EffectsFactory.capTo max l) = min max (length l).
Proof.
  unfold EffectsFactory.capTo.
  destruct (Nat.ltb_spec max (length l)); [rewrite length_drop |]; lia.
Qed.

Lemma capTo_suffix {A : Type} (max : nat) (l : list A) :
  exists dropped, l = dropped ++ EffectsFactory.capTo max l.
Proof.
  unfold EffectsFactory.capTo. destruct (max <? length l)%nat.
  - exists (take (length l - max) l). now rewrite take_drop.
  - now exists [].
Qed.

(** X27: slicing a fruit makes two halves.  With [Math.random()] not
    negative, [createFruitSlices] appends a left and a right half at the
    position of the fruit, with its emoji and rotation, twice its radius
    as size and a life of 1 s; the left half is not faster to the right
    than the fruit and the right half not faster to the left, neither
    falls faster than the fruit, and the left half does not turn faster
    than the fruit nor the right half slower.  At most the 60 youngest
    slices are kept: older ones are dropped from the front. *)
Theorem createFruitSlices_two_halves (fruit : Fruit.t) (w : World) :
  (forall n, 0 <= Math_random_at (env w) n) ->
  let b := Fruit.base fruit in
  let old := GameState.slices (gameState w) in
  let new := GameState.slices
               (gameState (EffectsFactory.createFruitSlices fruit w)) in
  exists (l r : FruitSlice.t) (dropped : list FruitSlice.t),
    old ++ [l; r] = dropped ++ new
    /\ length new = min 60 (length old + 2)
    /\ FruitSlice.half l = FruitSlice.left
    /\ FruitSlice.half r = FruitSlice.right
    /\ (forall s, s = l \/ s = r ->
          GameObject.x (FruitSlice.base s) = GameObject.x b
          /\ GameObject.y (FruitSlice.base s) = GameObject.y b
          /\ GameObject.rotation (FruitSlice.base s) = GameObject.rotation b
          /\ FruitSlice.emoji s = Fruit.emoji fruit
          /\ FruitSlice.size s = Fruit.radius fruit * 2
          /\ GameObject.life (FruitSlice.base s) = 1
          /\ GameObject.maxLife (FruitSlice.base s) = 1
          /\ GameObject.isAlive (FruitSlice.base s) = true
          /\ GameObject.vy (FruitSlice.base s) <= GameObject.vy b)
    /\ (GameObject.vx (FruitSlice.base l) <= GameObject.vx b
        /\ GameObject.vx b <= GameObject.vx (FruitSlice.base r))
    /\ (GameObject.rotationSpeed (FruitSlice.base l)
        <= GameObject.rotationSpeed b
        /\ GameObject.rotationSpeed b
           <= GameObject.rotationSpeed (FruitSlice.base r)).
Proof.
  intros Hrnd. cbv zeta.
  destruct (createFromFruit_slices fruit w)
    as (ra & rb & rc & rd & re & rf & Hsl & _ & Hg & _).
  cbv zeta in Hsl.
  unfold EffectsFactory.createFruitSlices.
  destruct (FruitSliceFactory.createFromFruit fruit w) as [slices w1].
  cbn [fst snd] in Hsl, Hg. subst slices.
  cbn [gameState modify_gameState set_gameState GameState.slices
       GameState.set_slices]. rewrite Hg.
  pose proof (Hrnd ra) as A1. pose proof (Hrnd rb) as B1.
  pose proof (Hrnd rc) as C1. pose proof (Hrnd rd) as D1.
  pose proof (Hrnd re) as E1. pose proof (Hrnd rf) as F1.
  set (qa := Math_random_at (env w) ra) in *.
  set (qb := Math_random_at (env w) rb) in *.
  set (qc := Math_random_at (env w) rc) in *.
  set (qd := Math_random_at (env w) rd) in *.
  set (qe := Math_random_at (env w) re) in *.
  set (qf := Math_random_at (env w) rf) in *.
  clearbody qa qb qc qd qe qf.
  match goal with
  | |- context [EffectsFactory.capTo ?m ?l] =>
      destruct (capTo_suffix m l) as [dropped Hd]
  end.
  eexists _, _, dropped. split; [exact Hd |].
  split; [rewrite capTo_length, length_app; reflexivity |].
  split; [reflexivity |]. split; [reflexivity |].
  split; [| cbn; repeat split; lra].
  intros s [-> | ->]; cbn; repeat split; lra.
Qed.

(** Sixty slices are shown already and the random values are 1/2 (the
    first two) and 0: the two oldest slices make room, and the left half
    of a fruit at rest moves left and up by 75 without turning. *)
Lemma createFruitSlices_two_halves_witness :
  let fruit := Demo.fruitAt Fruit.fruit 400 300 in
  let halves := fst (FruitSliceFactory.createFromFruit fruit Demo.world) in
  let rnd (n : nat) : Q := if (n <? 2)%nat then 1 / 2 else 0 in
  let w0 :=
    set_env
      {| performance_now_at := performance_now_at Demo.environment;
         Date_now_at := Date_now_at Demo.environment;
         Math_random_at := rnd;
         createFruitSliceEffect_outcome :=
           createFruitSliceEffect_outcome Demo.environment;
         createBombExplosion_outcome :=
           createBombExplosion_outcome Demo.environment |}
      (modify_gameState
         (GameState.set_slices (concat (repeat halves 30))) Demo.world) in
  let w := EffectsFactory.createFruitSlices fruit w0 in
  (forall n, 0 <= rnd n)
  /\ length (GameState.slices (gameState w0)) = 60%nat
  /\ length (GameState.slices (gameState w)) = 60%nat
  /\ (Qred <$> (GameObject.vx <$>
                (FruitSlice.base <$> drop 58 (GameState.slices (gameState w)))))
     = [- 75; 50]
  /\ (Qred <$> (GameObject.vy <$>
                (FruitSlice.base <$> drop 58 (GameState.slices (gameState w)))))
     = [- 75; - 50].
Proof.
  cbv zeta.
  assert (Hrnd : forall n : nat, 0 <= (if (n <? 2)%nat then 1 / 2 else 0))
    by (intros n; destruct (n <? 2)%nat; apply Qle_bool_iff; reflexivity).
  split; [exact Hrnd |].
  match goal with
  | |- length (GameState.slices (gameState ?w0)) = _ /\ _ =>
      destruct (createFruitSlices_two_halves
                  (Demo.fruitAt Fruit.fruit 400 300) w0 Hrnd)
        as (l & r & dropped & _ & Hlen & _)
  end.
  split; [vm_compute; reflexivity |].
  split; [rewrite Hlen; vm_compute; reflexivity |].
  split; vm_compute; reflexivity.
Defined.

Lemma comboSplash_new (text : string) (x y : Q) (w : World) :
  let r := ComboSplashFactory.new text x y w in
  let b := ComboSplash.base (fst r) in
  ComboSplash.text (fst r) = text
  /\ GameObject.x b = x /\ GameObject.y b = y
  /\ GameObject.vx b = 0 /\ GameObject.vy b = 0
  /\ GameObject.life b = 1 /\ GameObject.maxLife b = 1
  /\ GameObject.isAlive b = true
  /\ gameState (snd r) = gameState w /\ trace (snd r) = trace w.
Proof. cbv zeta. unfold ComboSplashFactory.new, Math_random. cbn. repeat split. Qed.

(** The splash [createComboSplash] of the effects manager builds. *)
Lemma comboSplash_choice (c : Z) (cw : Q) (w : World) :
  let r :=
    if (5 <=? c)%Z then ComboSplashFactory.createSpecialComboSplash c cw w
    else ComboSplashFactory.createComboSplash c cw w in
  let b := ComboSplash.base (fst r) in
  ComboSplash.text (fst r)
  = ComboSplashFactory.comboText
      (if (10 <=? c)%Z then "INSANE COMBO "
       else if (7 <=? c)%Z then "MEGA COMBO "
       else if (5 <=? c)%Z then "SUPER COMBO " else "Combo ") c
  /\ GameObject.x b = cw / 2 /\ GameObject.y b = 150
  /\ GameObject.vx b = 0 /\ GameObject.vy b = 0
  /\ GameObject.life b == (if (5 <=? c)%Z then 1.5 else 1)
  /\ GameObject.maxLife b = GameObject.life b
  /\ GameObject.isAlive b = true
  /\ gameState (snd r) = gameState w /\ trace (snd r) = trace w.
Proof.
  cbv zeta. destruct (5 <=? c)%Z eqn:H5.
  - unfold ComboSplashFactory.createSpecialComboSplash. rewrite H5.
    pose proof (comboSplash_new
                  (if (10 <=? c)%Z
                   then ComboSplashFactory.comboText "INSANE COMBO " c
                   else if (7 <=? c)%Z
                        then ComboSplashFactory.comboText "MEGA COMBO " c
                        else ComboSplashFactory.comboText "SUPER COMBO " c)
                  (cw / 2) GameConstants.COMBO_SPLASH_Y_POSITION w) as Hn.
    cbv zeta in Hn.
    destruct (ComboSplashFactory.new _ _ _ w) as [splash w1].
    cbn [fst snd] in Hn |- *.
    destruct Hn as (Ht & Hx & Hy & Hvx & Hvy & Hl & Hm & Ha & Hg & Htr).
    cbn. rewrite Ht, Hx, Hy, Hvx, Hvy, Hl, Ha.
    repeat split; try assumption; try reflexivity.
    destruct (10 <=? c)%Z; [reflexivity |]. now destruct (7 <=? c)%Z.
  - unfold ComboSplashFactory.createComboSplash.
    pose proof (comboSplash_new (ComboSplashFactory.comboText "Combo " c)
                  (cw / 2) GameConstants.COMBO_SPLASH_Y_POSITION w) as Hn.
    cbv zeta in Hn.
    destruct (ComboSplashFactory.new _ _ _ w) as [splash w1].
    cbn [fst snd] in Hn |- *.
    destruct Hn as (Ht & Hx & Hy & Hvx & Hvy & Hl & Hm & Ha & Hg & Htr).
    rewrite Ht, Hx, Hy, Hvx, Hvy, Hl, Hm, Ha.
    assert (H10 : (10 <=? c)%Z = false) by lia.
    assert (H7 : (7 <=? c)%Z = false) by lia.
    rewrite H10, H7. repeat split; try assumption; reflexivity.
Qed.

(** X28: combo texts are capped and sound once per level.
    [createComboSplash] of the effects manager drops the oldest text when
    six or more are shown and appends one text in the middle of the
    canvas at height 150, at rest, whose wording depends on the level
    (plain below 5, SUPER from 5, MEGA from 7, INSANE from 10) and which
    lives 1.5 s from level 5 on and 1 s below; a collection of at most
    six texts stays at most six long.  The combo sound is asked for
    exactly when the level is above the last level it was played for,
    which is then raised to the level, so a second call for the same
    level is silent. *)
Theorem createComboSplash_caps_and_sounds (c : Z) (cw : Q) (w : World) :
  let w' := EffectsFactory.createComboSplash c cw w in
  let old := GameState.comboSplashes (gameState w) in
  let new := GameState.comboSplashes (gameState w') in
  let last := GameState.lastComboSoundCount (gameState w) in
  (exists splash : ComboSplash.t,
     new = (if (6 <=? length old)%nat then drop 1 old else old) ++ [splash]
     /\ ComboSplash.text splash
        = ComboSplashFactory.comboText
            (if (10 <=? c)%Z then "INSANE COMBO "
             else if (7 <=? c)%Z then "MEGA COMBO "
             else if (5 <=? c)%Z then "SUPER COMBO " else "Combo ") c
     /\ GameObject.x (ComboSplash.base splash) = cw / 2
     /\ GameObject.y (ComboSplash.base splash) = 150
     /\ GameObject.vx (ComboSplash.base splash) = 0
     /\ GameObject.vy (ComboSplash.base splash) = 0
     /\ GameObject.life (ComboSplash.base splash)
        == (if (5 <=? c)%Z then 1.5 else 1)
     /\ GameObject.maxLife (ComboSplash.base splash)
        = GameObject.life (ComboSplash.base splash))
  /\ ((length old <= 6)%nat -> (length new <= 6)%nat)
  /\ GameState.lastComboSoundCount (gameState w') = Z.max last c
  /\ soundsOf (trace w')
     = (if (last <? c)%Z then [ComboSound] else []) ++ soundsOf (trace w)
  /\ soundsOf (trace (EffectsFactory.createComboSplash c cw w'))
     = soundsOf (trace w').
Proof.
  assert (Hone : forall w0 : World,
            let w1 := EffectsFactory.createComboSplash c cw w0 in
            (exists splash : ComboSplash.t,
               GameState.comboSplashes (gameState w1)
               = (if (6 <=? length (GameState.comboSplashes (gameState w0)))%nat
                  then drop 1 (GameState.comboSplashes (gameState w0))
                  else GameState.comboSplashes (gameState w0)) ++ [splash]
               /\ ComboSplash.text splash
                  = ComboSplashFactory.comboText
                      (if (10 <=? c)%Z then "INSANE COMBO "
                       else if (7 <=? c)%Z then "MEGA COMBO "
                       else if (5 <=? c)%Z then "SUPER COMBO " else "Combo ") c
               /\ GameObject.x (ComboSplash.base splash) = cw / 2
               /\ GameObject.y (ComboSplash.base splash) = 150
               /\ GameObject.vx (ComboSplash.base splash) = 0
               /\ GameObject.vy (ComboSplash.base splash) = 0
               /\ GameObject.life (ComboSplash.base splash)
                  == (if (5 <=? c)%Z then 1.5 else 1)
               /\ GameObject.maxLife (ComboSplash.base splash)
                  = GameObject.life (ComboSplash.base splash))
            /\ GameState.lastComboSoundCount (gameState w1)
               = Z.max (GameState.lastComboSoundCount (gameState w0)) c
            /\ soundsOf (trace w1)
               = (if (GameState.lastComboSoundCount (gameState w0) <? c)%Z
                  then [ComboSound] else []) ++ soundsOf (trace w0)).
  { intros w0. cbv zeta. unfold EffectsFactory.createComboSplash.
    set (w1 := if (EffectsFactory._maxComboSplashes <=? _)%nat then _ else w0).
    assert (H1 : GameState.comboSplashes (gameState w1)
                 = (if (6 <=? length (GameState.comboSplashes (gameState w0)))%nat
                    then drop 1 (GameState.comboSplashes (gameState w0))
                    else GameState.comboSplashes (gameState w0))
                 /\ GameState.lastComboSoundCount (gameState w1)
                    = GameState.lastComboSoundCount (gameState w0)
                 /\ trace w1 = trace w0).
    { unfold w1, EffectsFactory._maxComboSplashes.
      destruct (6 <=? _)%nat; now repeat split. }
    clearbody w1. destruct H1 as (Hc1 & Hl1 & Ht1).
    set (w2 := if (_ <? c)%Z then _ else w1).
    assert (H2 : GameState.comboSplashes (gameState w2)
                 = GameState.comboSplashes (gameState w1)
                 /\ GameState.lastComboSoundCount (gameState w2)
                    = Z.max (GameState.lastComboSoundCount (gameState w1)) c
                 /\ soundsOf (trace w2)
                    = (if (GameState.lastComboSoundCount (gameState w1) <? c)%Z
                       then [ComboSound] else []) ++ soundsOf (trace w1)).
    { unfold w2.
      destruct (Z.ltb_spec (GameState.lastComboSoundCount (gameState w1)) c);
        cbn; repeat split; lia. }
    clearbody w2. destruct H2 as (Hc2 & Hl2 & Ht2).
    pose proof (comboSplash_choice c cw w2) as Hch. cbv zeta in Hch.
    destruct (if (5 <=? c)%Z
              then ComboSplashFactory.createSpecialComboSplash c cw w2
              else ComboSplashFactory.createComboSplash c cw w2)
      as [splash w3].
    cbn [fst snd] in Hch.
    destruct Hch as (Ht & Hx & Hy & Hvx & Hvy & Hl & Hm & _ & Hg & Htr).
    cbn [gameState modify_gameState set_gameState trace set_trace
         GameState.comboSplashes GameState.set_comboSplashes
         GameState.lastComboSoundCount].
    rewrite Hg, Htr, Hc2, Hc1, Hl2, Hl1, Ht2, Hl1, Ht1.
    split; [| split; reflexivity].
    exists splash. repeat split; assumption. }
  cbv zeta.
  destruct (Hone w) as ((splash & Hnew & Hrest) & Hlast & Hsnd).
  cbv zeta in *.
  set (w' := EffectsFactory.createComboSplash c cw w) in *. clearbody w'.
  split; [exists splash; split; assumption |].
  split; [| split; [exact Hlast | split; [exact Hsnd |]]].
  - intros Hle. rewrite Hnew, length_app. cbn [length].
    destruct (Nat.leb_spec 6 (length (GameState.comboSplashes (gameState w))));
      [rewrite length_drop |]; lia.
  - destruct (Hone w') as (_ & _ & Hsnd'). cbv zeta in Hsnd'.
    rewrite Hsnd', Hlast.
    assert (E : (Z.max (GameState.lastComboSoundCount (gameState w)) c <? c)%Z
                = false) by lia.
    now rewrite E.
Qed.

End FactoryFacts.

Module NumericFacts.
Local Open Scope Q_scope.

(** X29: [clamp] and [randomInt].  [clamp] answers one of its three
    arguments: a value between the bounds when they are in order, the
    value itself when it lies between them, and the lower-bound argument
    when the bounds are the wrong way round; it is idempotent.  With
    [Math.random()] in [0, 1) and integer bounds of magnitude at most
    2^51, [randomInt] answers an integer between the bounds, both
    included. *)
Theorem numeric_helper_ranges :
  (forall v lo hi,
     GeometryUtils.clamp v lo hi = v \/ GeometryUtils.clamp v lo hi = lo
     \/ GeometryUtils.clamp v lo hi = hi)
  /\ (forall v lo hi, lo <= hi ->
        lo <= GeometryUtils.clamp v lo hi /\ GeometryUtils.clamp v lo hi <= hi)
  /\ (forall v lo hi, lo <= v -> v <= hi -> GeometryUtils.clamp v lo hi == v)
  /\ (forall v lo hi,
        GeometryUtils.clamp (GeometryUtils.clamp v lo hi) lo hi
        == GeometryUtils.clamp v lo hi)
  /\ (forall v lo hi, hi < lo -> GeometryUtils.clamp v lo hi == lo)
  /\ (forall r (lo hi : Z), 0 <= r -> r < 1 ->
        (- 2 ^ 51 <= lo)%Z -> (lo <= hi)%Z -> (hi <= 2 ^ 51)%Z ->
        exists k : Z,
          GeometryHelpers.randomInt r (inject_Z lo) (inject_Z hi) == inject_Z k
          /\ (lo <= k <= hi)%Z).
Proof.
  assert (Hclamp : forall v lo hi,
            (hi < lo /\ GeometryUtils.clamp v lo hi == lo)
            \/ (lo <= hi /\ v <= lo /\ GeometryUtils.clamp v lo hi == lo)
            \/ (lo <= hi /\ lo <= v /\ v <= hi
                /\ GeometryUtils.clamp v lo hi == v)
            \/ (lo <= hi /\ hi <= v /\ GeometryUtils.clamp v lo hi == hi)).
  { intros v lo hi. unfold GeometryUtils.clamp.
    destruct (Q.min_spec hi v) as [[H1 E1] | [H1 E1]];
      destruct (Q.max_spec lo (Qmin hi v)) as [[H2 E2] | [H2 E2]];
      rewrite E2; rewrite ?E1 in *.
    - right; right; right. repeat split; lra.
    - destruct (Qlt_le_dec hi lo); [left; split; [lra | reflexivity] |].
      right; right; right. repeat split; lra.
    - right; right; left. repeat split; lra.
    - destruct (Qlt_le_dec hi lo); [left; split; [lra | reflexivity] |].
      right; left. repeat split; lra. }
  split; [| split; [| split; [| split; [| split]]]].
  - intros v lo hi. unfold GeometryUtils.clamp.
    unfold Qmax, Qmin, GenericMinMax.gmax, GenericMinMax.gmin.
    destruct (hi ?= v); destruct (lo ?= _); auto.
  - intros v lo hi Hle.
    destruct (Hclamp v lo hi) as [[? E] | [(? & ? & E) | [(? & ? & ? & E) | (? & ? & E)]]];
      rewrite E; split; lra.
  - intros v lo hi H1 H2.
    destruct (Hclamp v lo hi) as [[? E] | [(? & ? & E) | [(? & ? & ? & E) | (? & ? & E)]]];
      rewrite E; lra.
  - intros v lo hi.
    destruct (Hclamp v lo hi) as [[? E] | [(? & ? & E) | [(? & ? & ? & E) | (? & ? & E)]]];
      destruct (Hclamp (GeometryUtils.clamp v lo hi) lo hi)
        as [[? E'] | [(? & ? & E') | [(? & ? & ? & E') | (? & ? & E')]]];
      rewrite E', ?E in *; lra.
  - intros v lo hi Hlt.
    destruct (Hclamp v lo hi) as [[? E] | [(? & ? & E) | [(? & ? & ? & E) | (? & ? & E)]]];
      rewrite E; lra.
  - intros r lo hi Hr0 Hr1 _ Hle _. unfold GeometryHelpers.randomInt.
    set (n := inject_Z hi - inject_Z lo + 1).
    assert (Hn : n == inject_Z (hi - lo + 1)).
    { unfold n, Z.sub. rewrite !inject_Z_plus, inject_Z_opp. unfold Qminus.
      reflexivity. }
    assert (Hnpos : 0 < n).
    { rewrite Hn. change 0 with (inject_Z 0). rewrite <- Zlt_Qlt. lia. }
    exists (Qfloor (r * n) + lo)%Z. split; [now rewrite inject_Z_plus |].
    assert (H0 : (0 <= Qfloor (r * n))%Z).
    { change 0%Z with (Qfloor 0). apply Qfloor_resp_le.
      apply Qmult_le_0_compat; lra. }
    assert (H1 : (Qfloor (r * n) < hi - lo + 1)%Z).
    { rewrite Zlt_Qlt. eapply Qle_lt_trans; [apply Qfloor_le |].
      rewrite <- Hn.
      assert (0 < (1 - r) * n) by (apply Qmult_lt_0_compat; lra).
      assert ((1 - r) * n == n - r * n) by ring. lra. }
    lia.
Qed.

(** A die: the smallest random value gives 1, the largest double below
    1 gives 6. *)
Example randomInt_die :
  GeometryHelpers.randomInt 0 1 6 == 1
  /\ GeometryHelpers.randomInt (9007199254740991 # 9007199254740992) 1 6 == 6
  /\ GeometryUtils.clamp 7 0 5 == 5 /\ GeometryUtils.clamp 7 5 0 == 5.
Proof. repeat split. Qed.

End NumericFacts.

(** ** Pausing *)

Module PauseFacts.
Import Vocabulary Frames.
Local Open Scope Q_scope.

Lemma paused_callbacks (ts : list Q) (e : GameEngineState) (w : World) :
  isPaused e = true ->
  let r := callbacks ts (e, w) in
  fst r = e
  /\ gameState (snd r) = gameState w /\ heap (snd r) = heap w
  /\ spawnManager (snd r) = spawnManager w /\ tick (snd r) = tick w
  /\ trace (snd r)
     = (if isRunning e then repeat EvRequestFrame (length ts) else [])
       ++ trace w.
Proof.
  intros Hp. revert w. induction ts as [| t ts IH]; intros w; cbv zeta.
  - cbn. now destruct (isRunning e).
  - unfold callbacks. cbn [fold_left fst snd].
    assert (E : GameEngine.gameLoop t e w
                = (e, if isRunning e then emit EvRequestFrame w else w))
      by (unfold GameEngine.gameLoop; now rewrite Hp).
    rewrite E. cbn [fst snd].
    fold (callbacks ts (e, if isRunning e then emit EvRequestFrame w else w)).
    specialize (IH (if isRunning e then emit EvRequestFrame w else w)).
    cbv zeta in IH. destruct IH as (He & Hg & Hh & Hs & Ht & Htr).
    rewrite He, Hg, Hh, Hs, Ht, Htr.
    destruct (isRunning e); cbn [length repeat]; repeat split.
    rewrite repeat_cons, <- app_assoc. reflexivity.
Qed.

(** X30: a pause costs no game time.  On a running engine, however many
    callbacks arrive while the game is paused, they leave the engine, the
    game state, the fruits, the spawn timer and the clock alone and only
    request one frame each.  [resumeGame] drops the time baseline, so the
    first callback after it only records its time stamp: it simulates no
    step and renders nothing, and the accumulator is the one from before
    the pause; the time spent paused is never simulated.  On a stopped
    engine [pauseGame] and [resumeGame] do nothing. *)
Theorem pause_costs_no_game_time (ts : list Q) (timestamp : Q)
    (e : GameEngineState) (w : World) :
  isRunning e = true ->
  let paused := callbacks ts (GameEngine.pauseGame e, w) in
  let resumed :=
    GameEngine.gameLoop timestamp (GameEngine.resumeGame (fst paused))
      (snd paused) in
  (fst paused = GameEngine.pauseGame e
   /\ isPaused (fst paused) = true
   /\ gameState (snd paused) = gameState w /\ heap (snd paused) = heap w
   /\ spawnManager (snd paused) = spawnManager w
   /\ tick (snd paused) = tick w
   /\ trace (snd paused) = repeat EvRequestFrame (length ts) ++ trace w)
  /\ (isRunning (fst resumed) = true /\ isPaused (fst resumed) = false
      /\ lastFrameTime (fst resumed) = Some timestamp
      /\ _accumulator (fst resumed) = _accumulator e
      /\ frameCount (fst resumed) = frameCount e)
  /\ (gameState (snd resumed) = gameState w /\ heap (snd resumed) = heap w
      /\ spawnManager (snd resumed) = spawnManager w
      /\ tick (snd resumed) = tick w
      /\ trace (snd resumed)
         = repeat EvRequestFrame (S (length ts)) ++ trace w
      /\ rendersOf (trace (snd resumed)) = rendersOf (trace w))
  /\ (forall e0 : GameEngineState,
        isRunning e0 = false ->
        GameEngine.pauseGame e0 = e0 /\ GameEngine.resumeGame e0 = e0).
Proof.
  intros Hrun paused resumed.
  assert (Hpe : isPaused (GameEngine.pauseGame e) = true
                /\ isRunning (GameEngine.pauseGame e) = true).
  { unfold GameEngine.pauseGame. rewrite Hrun. now split. }
  destruct Hpe as [Hp Hr].
  pose proof (paused_callbacks ts (GameEngine.pauseGame e) w Hp) as H.
  cbv zeta in H. fold paused in H. rewrite Hr in H.
  destruct H as (He & Hg & Hh & Hs & Ht & Htr).
  set (er := GameEngine.resumeGame (fst paused)) in *.
  assert (Her : isRunning er = true /\ isPaused er = false
                /\ lastFrameTime er = None
                /\ _accumulator er = _accumulator e
                /\ frameCount er = frameCount e).
  { unfold er. rewrite He. unfold GameEngine.resumeGame. rewrite Hr.
    unfold GameEngine.pauseGame. rewrite Hrun. repeat split; assumption. }
  clearbody er. destruct Her as (Hr' & Hp' & Hl' & Ha' & Hf').
  assert (E : resumed
              = (set_lastFrameTime (Some timestamp) er,
                 emit EvRequestFrame (snd paused))).
  { unfold resumed, GameEngine.gameLoop. now rewrite Hp', Hl', Hr'. }
  clearbody resumed paused. subst resumed. cbn [fst snd].
  split; [| split; [| split]].
  - rewrite He. repeat split; assumption.
  - repeat split; assumption.
  - change (gameState (emit EvRequestFrame (snd paused)))
      with (gameState (snd paused)).
    change (heap (emit EvRequestFrame (snd paused))) with (heap (snd paused)).
    change (spawnManager (emit EvRequestFrame (snd paused)))
      with (spawnManager (snd paused)).
    change (tick (emit EvRequestFrame (snd paused))) with (tick (snd paused)).
    change (trace (emit EvRequestFrame (snd paused)))
      with (EvRequestFrame :: trace (snd paused)).
    rewrite Htr. repeat split; try assumption.
    change (EvRequestFrame :: repeat EvRequestFrame (length ts) ++ trace w)
      with (repeat EvRequestFrame (S (length ts)) ++ trace w).
    generalize (S (length ts)). intros n.
    induction n as [| n IH]; [reflexivity | exact IH].
  - intros e0 H0. unfold GameEngine.pauseGame, GameEngine.resumeGame.
    rewrite H0. now split.
Qed.

Lemma pause_costs_no_game_time_witness :
  let paused :=
    callbacks [16; 33; 50] (GameEngine.pauseGame Demo.engine, Demo.started) in
  let resumed :=
    GameEngine.gameLoop 5000 (GameEngine.resumeGame (fst paused))
      (snd paused) in
  isRunning Demo.engine = true
  /\ gameState (snd resumed) = gameState Demo.started
  /\ lastFrameTime (fst resumed) = Some 5000.
Proof.
  assert (Hrun : isRunning Demo.engine = true) by reflexivity.
  split; [exact Hrun |].
  pose proof (pause_costs_no_game_time [16; 33; 50] 5000 Demo.engine
                Demo.started Hrun) as H.
  cbv zeta in H. destruct H as (_ & (_ & _ & Hl & _) & (Hg & _) & _).
  split; assumption.
Defined.

End PauseFacts.
